(** * Helpdesk-AI: ingestion and metrics pipeline

    A shallow embedding of the data-normalisation and metrics code of the
    dashboard ([parseCustomDate], [parseRawData], [calculateAgentMetrics] in
    the utilities module, and the trend helpers [getPctDiff] / [formatTrend]
    of the [Dashboard] component), together with the part of the ECMAScript
    run-time library that this code calls.

    Conventions of the embedding
    - a JavaScript string is the list of its UTF-16 code units ([jsstring]);
      literals are written [js "..."];
    - a JavaScript number is an IEEE 754 binary64 value ([number]): every
      arithmetic operation is the exact rational operation followed by
      round-to-nearest-even ([round64]);
    - a [Date] object is its time value: [None] is the invalid date (NaN),
      [Some ms] an instant in milliseconds since the epoch;
    - abrupt completion (a thrown exception) is explicit: functions that can
      throw return a [completion];
    - what ECMAScript leaves to the implementation (the fallback of
      [Date.parse] for strings outside the ISO format, the local time zone,
      the text of [Date.prototype.toString], lower-casing outside ASCII and
      [Math.random]) is a field of the record [Host]. *)

From Stdlib Require Import ZArith List Bool Lia Ascii String.
From Stdlib Require Import Sorting.Permutation Sorting.Sorted.
Import ListNotations.

Local Open Scope Z_scope.

(* ------------------------------------------------------------------ *)
(** * Strings *)
(* ------------------------------------------------------------------ *)

Module JSString.

(** A UTF-16 code unit. *)
Definition code_unit := Z.
Definition jsstring := list code_unit.

Definition cu (a : ascii) : code_unit := Z.of_nat (nat_of_ascii a).

Fixpoint js (s : string) : jsstring :=
  match s with
  | EmptyString => []
  | String a s' => cu a :: js s'
  end.
Arguments js : simpl never.

Fixpoint str_eqb (a b : jsstring) : bool :=
  match a, b with
  | [], [] => true
  | x :: a', y :: b' => (x =? y) && str_eqb a' b'
  | _, _ => false
  end.

(** WhiteSpace and LineTerminator code points (ECMA-262, StrWhiteSpaceChar):
    what [String.prototype.trim], [parseInt] and [parseFloat] strip. *)
Definition is_white_space (c : code_unit) : bool :=
  ((9 <=? c) && (c <=? 13)) || (c =? 32) || (c =? 160) || (c =? 5760)
  || ((8192 <=? c) && (c <=? 8202)) || (c =? 8232) || (c =? 8233)
  || (c =? 8239) || (c =? 8287) || (c =? 12288) || (c =? 65279).

Fixpoint trimStart (s : jsstring) : jsstring :=
  match s with
  | [] => []
  | c :: s' => if is_white_space c then trimStart s' else s
  end.

Definition trimEnd (s : jsstring) : jsstring := rev (trimStart (rev s)).

(** [String.prototype.trim] *)
Definition trim (s : jsstring) : jsstring := trimEnd (trimStart s).

(** [s.trim() !== ''] is false *)
Definition is_blank (s : jsstring) : bool := forallb is_white_space s.

Definition is_ascii_upper (c : code_unit) : bool := (65 <=? c) && (c <=? 90).

Definition is_ascii (c : code_unit) : bool := (0 <=? c) && (c <? 128).

Definition lower_ascii (c : code_unit) : code_unit :=
  if is_ascii_upper c then c + 32 else c.

(** [String.prototype.startsWith] / [endsWith] / [includes] with a
    one-unit argument, as the code uses them. *)
Definition startsWith (c : code_unit) (s : jsstring) : bool :=
  match s with
  | x :: _ => x =? c
  | [] => false
  end.

Definition endsWith (c : code_unit) (s : jsstring) : bool := startsWith c (rev s).

Definition includes (c : code_unit) (s : jsstring) : bool := existsb (Z.eqb c) s.

(** [s.replace(/c/g, d)] for a one-unit pattern and replacement. *)
Definition replaceAll (c d : code_unit) (s : jsstring) : jsstring :=
  map (fun x => if x =? c then d else x) s.

(** [s.split(c)] for a one-unit separator: the pieces between the
    separators, in order; never empty. *)
Fixpoint split (c : code_unit) (s : jsstring) : list jsstring :=
  match s with
  | [] => [[]]
  | x :: s' =>
      if x =? c then [] :: split c s'
      else match split c s' with
           | p :: ps => (x :: p) :: ps
           | [] => [[x]]
           end
  end.

(** [xs.join(sep)] *)
Fixpoint join (sep : jsstring) (xs : list jsstring) : jsstring :=
  match xs with
  | [] => []
  | [x] => x
  | x :: rest => x ++ sep ++ join sep rest
  end.

End JSString.
Export JSString.

(* ------------------------------------------------------------------ *)
(** * Numbers: IEEE 754 binary64 *)
(* ------------------------------------------------------------------ *)

Module JSNumber.

(** [Fin neg m e] is the number (-1)^neg * m * 2^e.  The values the
    operations below produce are canonical: m = 0 and e = 0 for a zero,
    otherwise 2^52 <= m < 2^53 and -1074 <= e <= 971 (normal), or
    0 < m < 2^52 and e = -1074 (subnormal). *)
Inductive number :=
| NaN
| Inf (neg : bool)
| Fin (neg : bool) (m : Z) (e : Z).

Definition zero : number := Fin false 0 0.
Definition neg_zero : number := Fin true 0 0.

(** floor (log2 (n / d)) for n, d > 0 *)
Definition ilog2 (n d : Z) : Z :=
  let k := Z.log2 n - Z.log2 d in
  if (if 0 <=? k then d * 2 ^ k <=? n else d <=? n * 2 ^ (- k))
  then k else k - 1.

(** the integer nearest to n / d, ties to the even one (d > 0) *)
Definition round_half_even (n d : Z) : Z :=
  let q := n / d in
  let r := n mod d in
  if 2 * r <? d then q
  else if d <? 2 * r then q + 1
  else if Z.even q then q else q + 1.

(** roundTiesToEven of the rational (-1)^neg * n / d (n >= 0, d > 0) to
    binary64: 53 significant bits, least exponent -1074, overflow to
    infinity above (2^53 - 1) * 2^971. *)
Definition round64 (neg : bool) (n d : Z) : number :=
  if n <=? 0 then Fin neg 0 0
  else
    let e := Z.max (ilog2 n d - 52) (-1074) in
    let m := if 0 <=? e then round_half_even n (d * 2 ^ e)
             else round_half_even (n * 2 ^ (- e)) d in
    if m =? 0 then Fin neg 0 0
    else if m =? 2 ^ 53
         then (if 971 <? e + 1 then Inf neg else Fin neg (2 ^ 52) (e + 1))
         else (if 971 <? e then Inf neg else Fin neg m e).

(** the exact value m * 2^e as a fraction *)
Definition scale_num (m e : Z) : Z := m * 2 ^ (Z.max e 0).
Definition scale_den (e : Z) : Z := 2 ^ (Z.max (- e) 0).

Definition of_Z (z : Z) : number := round64 (z <? 0) (Z.abs z) 1.

Definition signed (neg : bool) (m : Z) : Z := if neg then - m else m.

Definition nneg (x : number) : number :=
  match x with
  | NaN => NaN
  | Inf s => Inf (negb s)
  | Fin s m e => Fin (negb s) m e
  end.

(** x + y *)
Definition nadd (x y : number) : number :=
  match x, y with
  | NaN, _ | _, NaN => NaN
  | Inf a, Inf b => if Bool.eqb a b then Inf a else NaN
  | Inf a, Fin _ _ _ => Inf a
  | Fin _ _ _, Inf b => Inf b
  | Fin sx mx ex, Fin sy my ey =>
      let e0 := Z.min ex ey in
      let s := signed sx mx * 2 ^ (ex - e0) + signed sy my * 2 ^ (ey - e0) in
      if s =? 0 then Fin (sx && sy) 0 0
      else round64 (s <? 0) (scale_num (Z.abs s) e0) (scale_den e0)
  end.

(** x - y *)
Definition nsub (x y : number) : number := nadd x (nneg y).

(** x * y *)
Definition nmul (x y : number) : number :=
  match x, y with
  | NaN, _ | _, NaN => NaN
  | Inf a, Inf b => Inf (xorb a b)
  | Inf a, Fin b m _ => if m =? 0 then NaN else Inf (xorb a b)
  | Fin a m _, Inf b => if m =? 0 then NaN else Inf (xorb a b)
  | Fin sx mx ex, Fin sy my ey =>
      round64 (xorb sx sy) (scale_num (mx * my) (ex + ey)) (scale_den (ex + ey))
  end.

(** x / y *)
Definition ndiv (x y : number) : number :=
  match x, y with
  | NaN, _ | _, NaN => NaN
  | Inf _, Inf _ => NaN
  | Inf a, Fin b _ _ => Inf (xorb a b)
  | Fin a _ _, Inf b => Fin (xorb a b) 0 0
  | Fin sx mx ex, Fin sy my ey =>
      if my =? 0 then (if mx =? 0 then NaN else Inf (xorb sx sy))
      else round64 (xorb sx sy) (scale_num mx (ex - ey)) (my * scale_den (ex - ey))
  end.

(** The order of the extended reals on non-NaN numbers; [None] when an
    operand is NaN.  The two zeros compare equal. *)
Definition ncompare (x y : number) : option comparison :=
  match x, y with
  | NaN, _ | _, NaN => None
  | Inf a, Inf b => Some (if a then (if b then Eq else Lt) else (if b then Gt else Eq))
  | Inf a, Fin _ _ _ => Some (if a then Lt else Gt)
  | Fin _ _ _, Inf b => Some (if b then Gt else Lt)
  | Fin sx mx ex, Fin sy my ey =>
      let e0 := Z.min ex ey in
      Some (signed sx mx * 2 ^ (ex - e0) ?= signed sy my * 2 ^ (ey - e0))
  end.

(** x < y, x > y, x <= y, x >= y, x === y *)
Definition nlt (x y : number) : bool :=
  match ncompare x y with Some Lt => true | _ => false end.
Definition ngt (x y : number) : bool := nlt y x.
Definition nle (x y : number) : bool :=
  match ncompare x y with Some Lt | Some Eq => true | _ => false end.
Definition nge (x y : number) : bool := nle y x.
Definition neqb (x y : number) : bool :=
  match ncompare x y with Some Eq => true | _ => false end.

Definition is_nan (x : number) : bool :=
  match x with NaN => true | _ => false end.

Definition is_finite (x : number) : bool :=
  match x with Fin _ _ _ => true | _ => false end.

(** ToBoolean on a number: false for +0, -0 and NaN *)
Definition truthy_number (x : number) : bool :=
  match x with
  | NaN => false
  | Inf _ => true
  | Fin _ m _ => negb (m =? 0)
  end.

(** [Math.max(x, y)]: NaN if either is NaN; +0 is larger than -0. *)
Definition Math_max (x y : number) : number :=
  match ncompare x y with
  | None => NaN
  | Some Lt => y
  | Some Gt => x
  | Some Eq =>
      match x, y with
      | Fin sx _ _, Fin sy _ _ => if sx then y else x
      | _, _ => x
      end
  end.

(** ToIntegerOrInfinity, as a number: truncation towards zero; NaN and
    both zeros give +0. *)
Definition trunc (x : number) : number :=
  match x with
  | NaN => zero
  | Inf s => Inf s
  | Fin s m e =>
      if 0 <=? e then (if m =? 0 then zero else x)
      else let q := m / 2 ^ (- e) in
           if q =? 0 then zero else round64 s q 1
  end.

(** the value of a finite number that is an integer *)
Definition to_Z (x : number) : option Z :=
  match x with
  | Fin s m e =>
      if 0 <=? e then Some (signed s m * 2 ^ e)
      else if m mod 2 ^ (- e) =? 0 then Some (signed s (m / 2 ^ (- e)))
      else None
  | _ => None
  end.

End JSNumber.
Export JSNumber.

(* ------------------------------------------------------------------ *)
(** * Numbers and strings: parsing and printing *)
(* ------------------------------------------------------------------ *)

Module JSConvert.

Definition is_digit (c : code_unit) : bool := (48 <=? c) && (c <=? 57).

(** the longest prefix of decimal digits, as digit values, and the rest *)
Fixpoint span_digits (s : jsstring) : list Z * jsstring :=
  match s with
  | c :: s' =>
      if is_digit c
      then let (ds, r) := span_digits s' in ((c - 48) :: ds, r)
      else ([], s)
  | [] => ([], [])
  end.

Definition digits_value (radix : Z) (ds : list Z) : Z :=
  fold_left (fun acc d => acc * radix + d) ds 0.

Fixpoint digits_aux (fuel : nat) (n : Z) (acc : jsstring) : jsstring :=
  match fuel with
  | O => acc
  | S f =>
      let acc' := (48 + n mod 10) :: acc in
      if n <? 10 then acc' else digits_aux f (n / 10) acc'
  end.

(** the decimal digits of n >= 0, most significant first; "0" for 0 *)
Definition digits_of (n : Z) : jsstring :=
  digits_aux (S (Z.to_nat (Z.log2 n))) n [].

(** s * 10^ex rounded to a number (s >= 0) *)
Definition dec_to_number (neg : bool) (s ex : Z) : number :=
  if 0 <=? ex then round64 neg (s * 10 ^ ex) 1
  else round64 neg s (10 ^ (- ex)).

(** ** parseFloat *)

Definition take_sign (s : jsstring) : bool * jsstring :=
  match s with
  | c :: r => if c =? cu "-" then (true, r)
              else if c =? cu "+" then (false, r)
              else (false, s)
  | [] => (false, [])
  end.

Fixpoint has_prefix (p s : jsstring) : bool :=
  match p, s with
  | [], _ => true
  | x :: p', y :: s' => (x =? y) && has_prefix p' s'
  | _ :: _, [] => false
  end.

(** ExponentPart of a StrDecimalLiteral: e or E, an optional sign and at
    least one digit; 0 when the text has no complete exponent part. *)
Definition exponent_part (s : jsstring) : Z :=
  match s with
  | c :: r =>
      if (c =? cu "e") || (c =? cu "E")
      then let (neg, r') := take_sign r in
           let (ds, _) := span_digits r' in
           match ds with
           | [] => 0
           | _ => signed neg (digits_value 10 ds)
           end
      else 0
  | [] => 0
  end.

(** [parseFloat(s)]: leading white space is skipped, then the longest
    prefix that is a StrDecimalLiteral is read; NaN when there is none.
    (A literal of more than 20 significant digits is read exactly, as
    V8, SpiderMonkey and JavaScriptCore do.) *)
Definition parseFloat (s : jsstring) : number :=
  let (neg, s1) := take_sign (trimStart s) in
  if has_prefix (js "Infinity") s1 then Inf neg
  else
    let (ip, r1) := span_digits s1 in
    let (fp, r2) :=
      match r1 with
      | c :: r => if c =? cu "." then span_digits r else ([], r1)
      | [] => ([], [])
      end in
    match ip ++ fp with
    | [] => NaN
    | ds => dec_to_number neg (digits_value 10 ds)
              (exponent_part r2 - Z.of_nat (List.length fp))
    end.

(** ** parseInt, radix left out *)

Definition hex_digit (c : code_unit) : option Z :=
  if is_digit c then Some (c - 48)
  else if (97 <=? c) && (c <=? 102) then Some (c - 87)
  else if (65 <=? c) && (c <=? 70) then Some (c - 55)
  else None.

Fixpoint span_hex (s : jsstring) : list Z :=
  match s with
  | c :: s' => match hex_digit c with
               | Some d => d :: span_hex s'
               | None => []
               end
  | [] => []
  end.

(** [parseInt(s)]: white space, a sign, "0x" or "0X" for radix 16, then the
    longest run of digits; NaN when it is empty. *)
Definition parseInt (s : jsstring) : number :=
  let (neg, s1) := take_sign (trimStart s) in
  let ds :=
    if has_prefix (js "0x") s1 || has_prefix (js "0X") s1
    then (16, span_hex (skipn 2 s1))
    else (10, fst (span_digits s1)) in
  match snd ds with
  | [] => NaN
  | l => round64 neg (digits_value (fst ds) l) 1
  end.

(** ** Number::toString, radix 10 *)

(** 10^p <= n / d *)
Definition le_pow10 (p n d : Z) : bool :=
  if 0 <=? p then d * 10 ^ p <=? n else d <=? n * 10 ^ (- p).

Fixpoint dec_exponent_from (fuel : nat) (p n d : Z) : Z :=
  match fuel with
  | O => p
  | S f => if le_pow10 p n d then dec_exponent_from f (p + 1) n d else p
  end.

(** the integer p with 10^(p-1) <= n/d < 10^p, for n, d > 0: searched
    upwards from an estimate below it *)
Definition dec_exponent (n d : Z) : Z :=
  dec_exponent_from 4 ((ilog2 n d * 30103) / 100000 - 1) n d.

(** floor (n/d * 10^j) *)
Definition scaled_floor (n d j : Z) : Z :=
  if 0 <=? j then (n * 10 ^ j) / d else n / (d * 10 ^ (- j)).

(** compares n/d * 10^j with c/2 *)
Definition scaled_cmp_half (n d j c : Z) : comparison :=
  if 0 <=? j then (2 * n * 10 ^ j ?= c * d)
  else (2 * n ?= c * d * 10 ^ (- j)).

Definition same_number (a b : number) : bool :=
  match a, b with
  | Fin s m e, Fin s' m' e' => Bool.eqb s s' && (m =? m') && (e =? e')
  | Inf s, Inf s' => Bool.eqb s s'
  | NaN, NaN => true
  | _, _ => false
  end.

(** The digits s (k of them) and the exponent of Number::toString for the
    positive finite x = n/d: the least k for which some s * 10^(p-k)
    rounds to x, and for that k the s nearest to x (the even one on a tie);
    p is [dec_exponent n d]. Result: (s, p', k). *)
Fixpoint shortest_digits (fuel : nat) (k : Z) (x : number) (n d p : Z)
  : Z * Z * Z :=
  let lo := scaled_floor n d (k - p) in
  let hi := lo + 1 in
  let pick (s : Z) := if s =? 10 ^ k then (10 ^ (k - 1), p + 1, k) else (s, p, k) in
  let nearest :=
    match scaled_cmp_half n d (k - p) (lo + hi) with
    | Lt => lo
    | Gt => hi
    | Eq => if Z.even lo then lo else hi
    end in
  match fuel with
  | O => pick nearest
  | S f =>
      let ok_lo := same_number (dec_to_number false lo (p - k)) x in
      let ok_hi := same_number (dec_to_number false hi (p - k)) x in
      if ok_lo && ok_hi then pick nearest
      else if ok_lo then pick lo
      else if ok_hi then pick hi
      else shortest_digits f (k + 1) x n d p
  end.

Definition zeros (n : Z) : jsstring := repeat (cu "0") (Z.to_nat n).

Definition Number_toString (x : number) : jsstring :=
  match x with
  | NaN => js "NaN"
  | Inf s => (if s then js "-" else []) ++ js "Infinity"
  | Fin neg m e =>
      if m <=? 0 then js "0"
      else
        let nn := scale_num m e in
        let dd := scale_den e in
        let '(s, n, k) := shortest_digits 16 1 (Fin false m e) nn dd (dec_exponent nn dd) in
        let ds := digits_of s in
        let body :=
          if (k <=? n) && (n <=? 21) then ds ++ zeros (n - k)
          else if (0 <? n) && (n <=? 21)
               then firstn (Z.to_nat n) ds ++ js "." ++ skipn (Z.to_nat n) ds
          else if (-6 <? n) && (n <=? 0)
               then js "0." ++ zeros (- n) ++ ds
          else
            let ex := (if 0 <=? n - 1 then js "+" else js "-") ++ digits_of (Z.abs (n - 1)) in
            if k =? 1 then ds ++ js "e" ++ ex
            else firstn 1 ds ++ js "." ++ skipn 1 ds ++ js "e" ++ ex in
        (if neg then js "-" else []) ++ body
  end.

(** ** Number.prototype.toFixed(f), 0 <= f <= 100 *)

(** the integer n for which n / 10^f - v is closest to zero, the larger
    one on a tie, for v = m * 2^e >= 0 *)
Definition fixed_digits (m e f : Z) : Z :=
  (2 * scale_num m e * 10 ^ f + scale_den e) / (2 * scale_den e).

Definition toFixed (x : number) (f : Z) : jsstring :=
  match x with
  | Fin neg m e =>
      if 10 ^ 21 * scale_den e <=? scale_num m e then Number_toString x
      else
        let ds := digits_of (fixed_digits m e f) in
        let k := Z.of_nat (List.length ds) in
        let ds := if k <=? f then zeros (f + 1 - k) ++ ds else ds in
        let cut := (List.length ds - Z.to_nat f)%nat in
        let body :=
          if f =? 0 then ds else firstn cut ds ++ js "." ++ skipn cut ds in
        (if neg && negb (m =? 0) then js "-" else []) ++ body
  | _ => Number_toString x
  end.

End JSConvert.
Export JSConvert.

(* ------------------------------------------------------------------ *)
(** * The host: what ECMAScript leaves to the implementation *)
(* ------------------------------------------------------------------ *)

Record Host := {
  (** [Date.parse] on a string that is not in the Date Time String Format
      (implementation-specific heuristics); [None] is NaN *)
  legacy_date_parse : jsstring -> option Z;
  (** LocalTZA(t, false): the offset of local time from UTC, in ms, at the
      local time t *)
  local_tza : Z -> Z;
  (** [Date.prototype.toString] of a time value *)
  date_to_string : option Z -> jsstring;
  (** [String.prototype.toLowerCase] on a string with a unit outside ASCII *)
  unicode_to_lower : jsstring -> jsstring;
  (** the text [Math.random().toString(36).substr(2, 9)] yields for the
      row at this index *)
  random_id : nat -> jsstring
}.

(** [String.prototype.toLowerCase] *)
Definition toLowerCase (h : Host) (s : jsstring) : jsstring :=
  if forallb is_ascii s then map lower_ascii s else unicode_to_lower h s.

(* ------------------------------------------------------------------ *)
(** * Dates *)
(* ------------------------------------------------------------------ *)

Module JSDate.

(** The time value of a Date object: [None] for NaN (an invalid date). *)
Definition time_value := option Z.

Definition msPerDay : Z := 86400000.
Definition msPerHour : Z := 3600000.
Definition msPerMinute : Z := 60000.
Definition msPerSecond : Z := 1000.
Definition maxTime : Z := 8640000000000000.

(** [new Date(0)]: the epoch, used by the code as its "unknown" date *)
Definition epoch : time_value := Some 0.

Definition DayFromYear (y : Z) : Z :=
  365 * (y - 1970) + (y - 1969) / 4 - (y - 1901) / 100 + (y - 1601) / 400.

Definition InLeapYear (y : Z) : bool :=
  ((y mod 4 =? 0) && negb (y mod 100 =? 0)) || (y mod 400 =? 0).

Definition DaysInMonth (y mn : Z) : Z :=
  if mn =? 1 then (if InLeapYear y then 29 else 28)
  else if (mn =? 3) || (mn =? 5) || (mn =? 8) || (mn =? 10) then 30
  else 31.

(** days of the year before the first of month mn (0 = January) *)
Definition month_start (y mn : Z) : Z :=
  fold_left (fun acc k => acc + DaysInMonth y (Z.of_nat k)) (seq 0 (Z.to_nat mn)) 0.

(** the day number of the first of month mn (0..11) of year y *)
Definition day_of_month_start (y mn : Z) : Z := DayFromYear y + month_start y mn.

Definition all_finite (xs : list number) : bool := forallb is_finite xs.

Definition MakeTime (hour min sec ms : number) : number :=
  if all_finite [hour; min; sec; ms] then
    nadd (nadd (nadd (nmul (trunc hour) (of_Z msPerHour))
                     (nmul (trunc min) (of_Z msPerMinute)))
               (nmul (trunc sec) (of_Z msPerSecond)))
         (trunc ms)
  else NaN.

(** MakeDay: the day number of the first of the month is found from the
    calendar; NaN when that day is not within the range of time values. *)
Definition MakeDay (year month date : number) : number :=
  if all_finite [year; month; date] then
    match to_Z (trunc month) with
    | Some m =>
        let ym := nadd (trunc year) (of_Z (m / 12)) in
        match to_Z ym with
        | Some y =>
            let day := day_of_month_start y (m mod 12) in
            if Z.abs (day * msPerDay) <=? maxTime
            then nsub (nadd (of_Z day) (trunc date)) (of_Z 1)
            else NaN
        | None => NaN
        end
    | None => NaN
    end
  else NaN.

Definition MakeDate (day time : number) : number :=
  if all_finite [day; time] then
    let tv := nadd (nmul day (of_Z msPerDay)) time in
    if is_finite tv then tv else NaN
  else NaN.

Definition MakeFullYear (year : number) : number :=
  match year with
  | NaN => NaN
  | _ => let t := trunc year in
         if nle zero t && nle t (of_Z 99) then nadd (of_Z 1900) t else t
  end.

Definition TimeClip (t : number) : time_value :=
  if is_finite t then
    match to_Z (trunc t) with
    | Some z => if Z.abs z <=? maxTime then Some z else None
    | None => None
    end
  else None.

(** UTC(t): a local time to UTC *)
Definition UTC (h : Host) (t : number) : number :=
  match to_Z t with
  | Some z => nsub t (of_Z (local_tza h z))
  | None => NaN
  end.

(** [new Date(year, month, date, hours, minutes, seconds)] *)
Definition Date_of_fields (h : Host) (year month date hours minutes seconds : number)
  : time_value :=
  TimeClip (UTC h (MakeDate (MakeDay (MakeFullYear year) month date)
                            (MakeTime hours minutes seconds zero))).

(** [new Date(year, month, date)] *)
Definition Date_of_ymd (h : Host) (year month date : number) : time_value :=
  Date_of_fields h year month date zero zero zero.

(** ** The Date Time String Format (ECMA-262, 21.4.1.32) *)

(** exactly n decimal digits *)
Fixpoint take_digits (n : nat) (s : jsstring) : option (Z * jsstring) :=
  match n with
  | O => Some (0, s)
  | S n' =>
      match s with
      | c :: r =>
          if is_digit c then
            match take_digits n' r with
            | Some (v, r') => Some ((c - 48) * 10 ^ Z.of_nat n' + v, r')
            | None => None
            end
          else None
      | [] => None
      end
  end.

Definition expect (c : code_unit) (s : jsstring) : option jsstring :=
  match s with
  | x :: r => if x =? c then Some r else None
  | [] => None
  end.

(** YYYY or +YYYYYY / -YYYYYY (-000000 is not a year) *)
Definition iso_year (s : jsstring) : option (Z * jsstring) :=
  match s with
  | c :: r =>
      if c =? cu "+" then take_digits 6 r
      else if c =? cu "-" then
        match take_digits 6 r with
        | Some (y, r') => if y =? 0 then None else Some (- y, r')
        | None => None
        end
      else take_digits 4 s
  | [] => None
  end.

(** the date part: year, month (1..12, default 1), day (default 1) *)
Definition iso_date (s : jsstring) : option (Z * Z * Z * jsstring) :=
  match iso_year s with
  | Some (y, r) =>
      match expect (cu "-") r with
      | Some r1 =>
          match take_digits 2 r1 with
          | Some (mo, r2) =>
              if (1 <=? mo) && (mo <=? 12) then
                match expect (cu "-") r2 with
                | Some r3 =>
                    match take_digits 2 r3 with
                    | Some (d, r4) =>
                        if (1 <=? d) && (d <=? DaysInMonth y (mo - 1))
                        then Some (y, mo, d, r4) else None
                    | None => None
                    end
                | None => Some (y, mo, 1, r2)
                end
              else None
          | None => None
          end
      | None => Some (y, 1, 1, r)
      end
  | None => None
  end.

(** HH:mm, HH:mm:ss or HH:mm:ss.sss, in ms since midnight; 24:00:00 is the
    end of the day *)
Definition iso_time (s : jsstring) : option (Z * jsstring) :=
  match take_digits 2 s with
  | Some (hh, r) =>
      match expect (cu ":") r with
      | Some r1 =>
          match take_digits 2 r1 with
          | Some (mi, r2) =>
              let '(ss, ms, r5) :=
                match expect (cu ":") r2 with
                | Some r3 =>
                    match take_digits 2 r3 with
                    | Some (ss, r4) =>
                        match expect (cu ".") r4 with
                        | Some r5 =>
                            match take_digits 3 r5 with
                            | Some (ms, r6) => (ss, ms, r6)
                            | None => (ss, 0, r4)
                            end
                        | None => (ss, 0, r4)
                        end
                    | None => (0, 0, r2)
                    end
                | None => (0, 0, r2)
                end in
              if ((hh <=? 23) && (mi <=? 59) && (ss <=? 59))
                 || ((hh =? 24) && (mi =? 0) && (ss =? 0) && (ms =? 0))
              then Some (hh * msPerHour + mi * msPerMinute + ss * msPerSecond + ms, r5)
              else None
          | None => None
          end
      | None => None
      end
  | None => None
  end.

(** Z, +HH:mm or -HH:mm: the offset in ms *)
Definition iso_offset (s : jsstring) : option (Z * jsstring) :=
  match s with
  | c :: r =>
      if c =? cu "Z" then Some (0, r)
      else if (c =? cu "+") || (c =? cu "-") then
        match take_digits 2 r with
        | Some (hh, r1) =>
            match expect (cu ":") r1 with
            | Some r2 =>
                match take_digits 2 r2 with
                | Some (mi, r3) =>
                    if (hh <=? 23) && (mi <=? 59)
                    then Some ((if c =? cu "-" then -1 else 1)
                               * (hh * msPerHour + mi * msPerMinute), r3)
                    else None
                | None => None
                end
            | None => None
            end
        | None => None
        end
      else None
  | [] => None
  end.

(** A string in the Date Time String Format: the time it denotes, and
    whether it is a local time (a date-time form without offset) or UTC. *)
Definition iso_parse (s : jsstring) : option (bool * Z) :=
  match iso_date s with
  | Some (y, mo, d, r) =>
      let day := day_of_month_start y (mo - 1) + d - 1 in
      match r with
      | [] => Some (false, day * msPerDay)
      | c :: r1 =>
          if c =? cu "T" then
            match iso_time r1 with
            | Some (t, []) => Some (true, day * msPerDay + t)
            | Some (t, r2) =>
                match iso_offset r2 with
                | Some (off, []) => Some (false, day * msPerDay + t - off)
                | _ => None
                end
            | None => None
            end
          else None
      end
  | None => None
  end.

(** [Date.parse]: the standard format first, otherwise the
    implementation's own heuristics. *)
Definition Date_parse (h : Host) (s : jsstring) : number :=
  match iso_parse s with
  | Some (false, t) => of_Z t
  | Some (true, t) => UTC h (of_Z t)
  | None =>
      match legacy_date_parse h s with
      | Some t => of_Z t
      | None => NaN
      end
  end.

(** [new Date(s)] for a string s *)
Definition Date_of_string (h : Host) (s : jsstring) : time_value :=
  TimeClip (Date_parse h s).

End JSDate.
Export JSDate.

(* ------------------------------------------------------------------ *)
(** * Values, completions and conversions *)
(* ------------------------------------------------------------------ *)

(** The values a cell of a row, or a node of a parsed JSON text, can be.
    [VObject] is a plain data object, given by its own properties. *)
#[local] Set Warnings "-register-all".

Inductive value :=
| VUndefined
| VNull
| VBool (b : bool)
| VNumber (n : number)
| VString (s : jsstring)
| VDate (tv : time_value)
| VArray (elems : list value)
| VObject (props : list (jsstring * value)).

Inductive error := TypeError | SyntaxError.

(** The outcome of evaluating an expression: a value, or a thrown error. *)
Inductive completion (A : Type) :=
| Normal (a : A)
| Throw (e : error).
Arguments Normal {A} a.
Arguments Throw {A} e.

Definition bind {A B} (c : completion A) (k : A -> completion B) : completion B :=
  match c with
  | Normal a => k a
  | Throw e => Throw e
  end.

Notation "x <- c ;; k" := (bind c (fun x => k))
  (at level 61, c at next level, right associativity).

(** [xs.map(f)] for an f that can throw: stops at the first throw *)
Fixpoint mapM {A B} (f : A -> completion B) (xs : list A) : completion (list B) :=
  match xs with
  | [] => Normal []
  | x :: r => y <- f x ;; ys <- mapM f r ;; Normal (y :: ys)
  end.

(** [try { body } catch (e) { handler }] *)
Definition try_catch {A} (body : completion A) (handler : error -> completion A)
  : completion A :=
  match body with
  | Normal a => Normal a
  | Throw e => handler e
  end.

Definition has_own (key : jsstring) (props : list (jsstring * value)) : bool :=
  existsb (fun kv => str_eqb (fst kv) key) props.

(** ToString, as [String(v)] applies it.  An array is joined with commas
    (undefined and null elements as the empty string).  A plain object
    without an own "toString" inherits Object.prototype.toString; with an
    own "toString" (which is data, not callable) the conversion falls to
    valueOf, which yields no primitive either, and throws a TypeError. *)
Fixpoint ToString (h : Host) (v : value) : completion jsstring :=
  match v with
  | VUndefined => Normal (js "undefined")
  | VNull => Normal (js "null")
  | VBool b => Normal (if b then js "true" else js "false")
  | VNumber n => Normal (Number_toString n)
  | VString s => Normal s
  | VDate tv => Normal (date_to_string h tv)
  | VArray elems =>
      (fix join_elems (l : list value) : completion jsstring :=
         match l with
         | [] => Normal []
         | x :: r =>
             sx <- match x with
                   | VUndefined | VNull => Normal []
                   | _ => ToString h x
                   end ;;
             match r with
             | [] => Normal sx
             | _ => sr <- join_elems r ;; Normal (sx ++ js "," ++ sr)
             end
         end) elems
  | VObject props =>
      if has_own (js "toString") props then Throw TypeError
      else Normal (js "[object Object]")
  end.

(** ToBoolean *)
Definition ToBoolean (v : value) : bool :=
  match v with
  | VUndefined | VNull => false
  | VBool b => b
  | VNumber n => truthy_number n
  | VString [] => false
  | _ => true
  end.

(** [v === s] for a string s *)
Definition is_string (v : value) (s : jsstring) : bool :=
  match v with
  | VString x => str_eqb x s
  | _ => false
  end.

(** A scalar: what a spreadsheet cell holds. *)
Definition is_scalar (v : value) : bool :=
  match v with
  | VArray _ | VObject _ => false
  | _ => true
  end.

(* ------------------------------------------------------------------ *)
(** * JSON.parse *)
(* ------------------------------------------------------------------ *)

Module JSON.

Inductive token :=
| TLBracket | TRBracket | TLBrace | TRBrace | TComma | TColon
| TString (s : jsstring)
| TNumber (lexeme : jsstring)
| TWord (w : jsstring).

(** The lexer reads one code unit at a time; a mode says what it is in
    the middle of (accumulated text is kept reversed). *)
Inductive lex_mode :=
| LIdle
| LStr (acc : jsstring)
| LEsc (acc : jsstring)
| LUni (left : nat) (v : Z) (acc : jsstring)
| LNum (acc : jsstring)
| LWord (acc : jsstring).

Definition is_json_ws (c : code_unit) : bool :=
  (c =? 32) || (c =? 9) || (c =? 10) || (c =? 13).

Definition is_number_char (c : code_unit) : bool :=
  is_digit c || (c =? cu "-") || (c =? cu "+") || (c =? cu ".")
  || (c =? cu "e") || (c =? cu "E").

Definition is_letter (c : code_unit) : bool :=
  ((97 <=? c) && (c <=? 122)) || ((65 <=? c) && (c <=? 90)).

Definition quote : code_unit := 34.
Definition backslash : code_unit := 92.

(** what a code unit starts when the lexer is between tokens *)
Definition idle_step (c : code_unit) : option (list token * lex_mode) :=
  if is_json_ws c then Some ([], LIdle)
  else if c =? cu "[" then Some ([TLBracket], LIdle)
  else if c =? cu "]" then Some ([TRBracket], LIdle)
  else if c =? cu "{" then Some ([TLBrace], LIdle)
  else if c =? cu "}" then Some ([TRBrace], LIdle)
  else if c =? cu "," then Some ([TComma], LIdle)
  else if c =? cu ":" then Some ([TColon], LIdle)
  else if c =? quote then Some ([], LStr [])
  else if is_digit c || (c =? cu "-") then Some ([], LNum [c])
  else if is_letter c then Some ([], LWord [c])
  else None.

Definition escape_char (c : code_unit) : option code_unit :=
  if (c =? quote) || (c =? backslash) || (c =? cu "/") then Some c
  else if c =? cu "b" then Some 8
  else if c =? cu "f" then Some 12
  else if c =? cu "n" then Some 10
  else if c =? cu "r" then Some 13
  else if c =? cu "t" then Some 9
  else None.

Fixpoint lex (mode : lex_mode) (s : jsstring) : option (list token) :=
  match s with
  | [] =>
      match mode with
      | LIdle => Some []
      | LNum acc => Some [TNumber (rev acc)]
      | LWord acc => Some [TWord (rev acc)]
      | _ => None
      end
  | c :: r =>
      match mode with
      | LIdle =>
          match idle_step c with
          | Some (ts, m) => option_map (app ts) (lex m r)
          | None => None
          end
      | LStr acc =>
          if c =? quote then option_map (cons (TString (rev acc))) (lex LIdle r)
          else if c =? backslash then lex (LEsc acc) r
          else if c <? 32 then None
          else lex (LStr (c :: acc)) r
      | LEsc acc =>
          if c =? cu "u" then lex (LUni 4 0 acc) r
          else match escape_char c with
               | Some x => lex (LStr (x :: acc)) r
               | None => None
               end
      | LUni n v acc =>
          match hex_digit c with
          | Some d =>
              match n with
              | S (S n') => lex (LUni (S n') (v * 16 + d) acc) r
              | _ => lex (LStr ((v * 16 + d) :: acc)) r
              end
          | None => None
          end
      | LNum acc =>
          if is_number_char c then lex (LNum (c :: acc)) r
          else match idle_step c with
               | Some (ts, m) =>
                   option_map (fun l => TNumber (rev acc) :: ts ++ l) (lex m r)
               | None => None
               end
      | LWord acc =>
          if is_letter c then lex (LWord (c :: acc)) r
          else match idle_step c with
               | Some (ts, m) =>
                   option_map (fun l => TWord (rev acc) :: ts ++ l) (lex m r)
               | None => None
               end
      end
  end.

Fixpoint skip_digits (s : jsstring) : jsstring :=
  match s with
  | c :: r => if is_digit c then skip_digits r else s
  | [] => []
  end.

(** one or more digits, then the rest *)
Definition digits1 (s : jsstring) : option jsstring :=
  match s with
  | c :: r => if is_digit c then Some (skip_digits r) else None
  | [] => None
  end.

(** the JSON number grammar: an optional minus; 0, or a non-zero digit
    and further digits; optionally a point and one or more digits;
    optionally e or E, an optional sign and one or more digits *)
Definition json_number_ok (s : jsstring) : bool :=
  let s1 := match s with c :: r => if c =? cu "-" then r else s | [] => [] end in
  let after_int :=
    match s1 with
    | c :: r => if c =? cu "0" then Some r
                else if is_digit c then Some (skip_digits r) else None
    | [] => None
    end in
  match after_int with
  | None => false
  | Some s2 =>
      let after_frac :=
        match s2 with
        | c :: r => if c =? cu "." then digits1 r else Some s2
        | [] => Some []
        end in
      match after_frac with
      | None => false
      | Some s3 =>
          match s3 with
          | [] => true
          | c :: r =>
              if (c =? cu "e") || (c =? cu "E") then
                match digits1 (snd (take_sign r)) with
                | Some [] => true
                | _ => false
                end
              else false
          end
      end
  end.

Definition scalar_of_token (t : token) : option value :=
  match t with
  | TString s => Some (VString s)
  | TNumber l => if json_number_ok l then Some (VNumber (parseFloat l)) else None
  | TWord w =>
      if str_eqb w (js "true") then Some (VBool true)
      else if str_eqb w (js "false") then Some (VBool false)
      else if str_eqb w (js "null") then Some VNull
      else None
  | _ => None
  end.

(** An open container: an array with its elements so far, an object
    waiting for a key, or an object waiting for the value of a key
    (elements and properties are kept reversed). *)
Inductive frame :=
| FArr (acc : list value)
| FObjKey (acc : list (jsstring * value))
| FObjVal (acc : list (jsstring * value)) (key : jsstring).

Inductive pstate :=
| PValue (stack : list frame) (fresh : bool)
| PKey (stack : list frame) (fresh : bool)
| PColon (stack : list frame)
| PAfter (stack : list frame)
| PDone (v : value).

(** a complete value goes into the innermost open container *)
Definition push_value (v : value) (stack : list frame) : option pstate :=
  match stack with
  | [] => Some (PDone v)
  | FArr acc :: st => Some (PAfter (FArr (v :: acc) :: st))
  | FObjVal acc k :: st => Some (PAfter (FObjKey ((k, v) :: acc) :: st))
  | FObjKey _ :: _ => None
  end.

Definition pstep (st : pstate) (t : token) : option pstate :=
  match st with
  | PValue stack fresh =>
      match t with
      | TLBracket => Some (PValue (FArr [] :: stack) true)
      | TLBrace => Some (PKey (FObjKey [] :: stack) true)
      | TRBracket =>
          match fresh, stack with
          | true, FArr [] :: rest => push_value (VArray []) rest
          | _, _ => None
          end
      | _ => match scalar_of_token t with
             | Some v => push_value v stack
             | None => None
             end
      end
  | PKey stack fresh =>
      match t, stack with
      | TString k, FObjKey acc :: rest => Some (PColon (FObjVal acc k :: rest))
      | TRBrace, FObjKey acc :: rest =>
          if fresh then push_value (VObject (rev acc)) rest else None
      | _, _ => None
      end
  | PColon stack =>
      match t with
      | TColon => Some (PValue stack false)
      | _ => None
      end
  | PAfter stack =>
      match t, stack with
      | TComma, FArr _ :: _ => Some (PValue stack false)
      | TRBracket, FArr acc :: rest => push_value (VArray (rev acc)) rest
      | TComma, FObjKey _ :: _ => Some (PKey stack false)
      | TRBrace, FObjKey acc :: rest => push_value (VObject (rev acc)) rest
      | _, _ => None
      end
  | PDone _ => None
  end.

Fixpoint run (st : pstate) (ts : list token) : option pstate :=
  match ts with
  | [] => Some st
  | t :: r => match pstep st t with
              | Some st' => run st' r
              | None => None
              end
  end.

(** [JSON.parse(text)] without a reviver: the value, or a SyntaxError.
    A property name given twice appears twice in [props], the later one
    being the one in force. *)
Definition parse (text : jsstring) : completion value :=
  match lex LIdle text with
  | Some ts =>
      match run (PValue [] false) ts with
      | Some (PDone v) => Normal v
      | _ => Throw SyntaxError
      end
  | None => Throw SyntaxError
  end.

End JSON.

(* ------------------------------------------------------------------ *)
(** * The utilities module: date parsing and ticket building *)
(* ------------------------------------------------------------------ *)

(** [d.getTime()] *)
Definition getTime (d : time_value) : number :=
  match d with
  | Some ms => of_Z ms
  | None => NaN
  end.

(** [s || dflt] for an optional string (undefined when absent) *)
Definition or_default (s : option jsstring) (dflt : jsstring) : jsstring :=
  match s with
  | Some (c :: r) => c :: r
  | _ => dflt
  end.

Definition nonblank (a : jsstring) : bool := negb (str_eqb (trim a) []).

(** [str.startsWith('[') && str.endsWith(']')] *)
Definition bracketed (str : jsstring) : bool :=
  startsWith (cu "[") str && endsWith (cu "]") str.

(** the text handed to [JSON.parse]: every single quote of [str] replaced
    by a double quote *)
Definition requote (str : jsstring) : jsstring := replaceAll (cu "'") JSON.quote str.

Section Utils.

Variable h : Host.

(** The manual parsers of [parseCustomDate] (the body of its [try]):
    DD-MM-YYYY or YYYY-MM-DD, with "." and "/" accepted for "-", and an
    optional time after a space. *)
Definition manualDate (dateStr : jsstring) : completion time_value :=
  let cleanDateStr := replaceAll (cu "/") (cu "-") (replaceAll (cu ".") (cu "-") dateStr) in
  let pieces := split (cu " ") cleanDateStr in
  let d := nth 0 pieces [] in
  let t := nth_error pieces 1 in
  match split (cu "-") d with
  | [p0; p1; p2] =>
      let '(day, month, year) :=
        if Z.of_nat (List.length p0) =? 4
        then (parseInt p2, parseInt p1, parseInt p0)
        else (parseInt p0, parseInt p1, parseInt p2) in
      match t with
      | Some (c :: r) =>
          let fields := split (cu ":") (c :: r) in
          let hours := nth_error fields 0 in
          let minutes := nth_error fields 1 in
          let seconds := nth_error fields 2 in
          Normal (Date_of_fields h year (nsub month (of_Z 1)) day
                    (parseInt (or_default hours (js "0")))
                    (parseInt (or_default minutes (js "0")))
                    (parseInt (or_default seconds (js "0"))))
      | _ => Normal (Date_of_ymd h year (nsub month (of_Z 1)) day)
      end
  | _ => Normal epoch
  end.

(** [parseCustomDate] *)
Definition parseCustomDate (input : value) : completion time_value :=
  if negb (ToBoolean input) || is_string input (js "-") then Normal epoch
  else
    match input with
    | VDate tv =>
        if is_nan (getTime tv) then Normal epoch else Normal tv
    | _ =>
        dateStr <- ToString h input ;;
        if str_eqb (trim dateStr) [] || str_eqb (toLowerCase h dateStr) (js "null")
        then Normal epoch
        else
          let date := Date_of_string h dateStr in
          if negb (is_nan (getTime date)) then Normal date
          else try_catch (manualDate dateStr) (fun _ => Normal epoch)
    end.

Record RawTicket := {
  Sr : value;
  Subject : value;
  Status : value;
  ResolutionBy : value;
  Assign : value;
  Customer : value;
  Priority : value;
  TicketType : value;
  Owner : value;
  Rating : value;
  Creation : value
}.

Record Ticket := {
  id : jsstring;
  subject : jsstring;
  status : jsstring;
  assignees : list jsstring;
  customer : jsstring;
  priority : value;
  ticketType : jsstring;
  owner : jsstring;
  rating : number;
  createdAt : time_value;
  resolvedAt : option time_value;
  resolutionTimeHours : number
}.

(** [xs.flat()] *)
Definition flat (xs : list value) : list value :=
  flat_map (fun v => match v with VArray l => l | _ => [v] end) xs.

(** The assignee list read from the trimmed text of the cell: a JSON
    list (what [JSON.parse] returns is kept as it is; were it no array,
    the later [flat()] would throw), comma-separated names, or one name. *)
Definition assigneesOfString (str : jsstring) : completion (list value) :=
  if bracketed str then
    parsed <- try_catch (JSON.parse (requote str))
                        (fun _ => Normal (VArray [VString str])) ;;
    match parsed with
    | VArray l => Normal l
    | _ => Throw TypeError
    end
  else if includes (cu ",") str then
    Normal (map (fun p => VString (trim p)) (split (cu ",") str))
  else Normal [VString str].

(** The first half of the row callback: the raw assignee list, before it
    is flattened and filtered. *)
Definition rawAssignees (rawAssign : value) : completion (list value) :=
  if ToBoolean rawAssign then
    match rawAssign with
    | VArray elems =>
        ss <- mapM (ToString h) elems ;;
        Normal (map VString ss)
    | _ =>
        s <- ToString h rawAssign ;;
        assigneesOfString (trim s)
    end
  else Normal [].

(** [assignees.flat().map(a => String(a || '')).filter(a => a.trim() !== '')] *)
Definition cleanAssignees (xs : list value) : completion (list jsstring) :=
  ss <- mapM (fun a => if ToBoolean a then ToString h a else Normal []) (flat xs) ;;
  Normal (filter nonblank ss).

Definition parseAssignees (row : RawTicket) : completion (list jsstring) :=
  raw <- rawAssignees (Assign row) ;;
  cleaned <- cleanAssignees raw ;;
  match cleaned with
  | [] => if ToBoolean (Owner row)
          then o <- ToString h (Owner row) ;; Normal [o]
          else Normal []
  | _ => Normal cleaned
  end.

Definition parseStatus (row : RawTicket) : completion jsstring :=
  statusStr <- (if ToBoolean (Status row)
                then s <- ToString h (Status row) ;; Normal (trim s)
                else Normal (js "Open")) ;;
  let lowerStatus := toLowerCase h statusStr in
  if str_eqb lowerStatus (js "resolved") || str_eqb lowerStatus (js "completed")
     || str_eqb lowerStatus (js "verified")
  then Normal (js "Closed")
  else Normal statusStr.

(** the resolution time in hours, before rounding *)
Definition resolutionHours (created : time_value) (resolved : option time_value)
  : number :=
  match resolved with
  | Some r =>
      if ngt (getTime created) zero && ngt (getTime r) zero
      then ndiv (nsub (getTime r) (getTime created))
                (nmul (nmul (of_Z 1000) (of_Z 60)) (of_Z 60))
      else zero
  | None => zero
  end.

(** [v ? String(v) : dflt] *)
Definition stringOr (v : value) (dflt : jsstring) : completion jsstring :=
  if ToBoolean v then ToString h v else Normal dflt.

Definition parseRating (v : value) : completion number :=
  if ToBoolean v then
    s <- ToString h v ;;
    let x := parseFloat s in
    Normal (if truthy_number x then x else zero)
  else Normal zero.

(** The callback [parseRawData] maps over the rows; [i] is the index of
    the row, which selects the random identifier. *)
Definition parseRow (i : nat) (row : RawTicket) : completion Ticket :=
  assignees <- parseAssignees row ;;
  statusStr <- parseStatus row ;;
  created <- parseCustomDate (Creation row) ;;
  resolved <- (if str_eqb statusStr (js "Closed") && ToBoolean (ResolutionBy row)
               then r <- parseCustomDate (ResolutionBy row) ;; Normal (Some r)
               else Normal None) ;;
  let hours := resolutionHours created resolved in
  tType <- (if ToBoolean (TicketType row)
            then s <- ToString h (TicketType row) ;; Normal (trim s)
            else Normal (js "Unspecified")) ;;
  id <- stringOr (Sr row) (random_id h i) ;;
  subject <- stringOr (Subject row) (js "No Subject") ;;
  customer <- stringOr (Customer row) (js "Unknown") ;;
  owner <- stringOr (Owner row) [] ;;
  rating <- parseRating (Rating row) ;;
  Normal {|
    id := id;
    subject := subject;
    status := statusStr;
    assignees := assignees;
    customer := customer;
    priority := if ToBoolean (Priority row) then Priority row else VString (js "Medium");
    ticketType := or_default (Some tType) (js "Unspecified");
    owner := owner;
    rating := rating;
    createdAt := created;
    resolvedAt := resolved;
    resolutionTimeHours := Math_max zero (parseFloat (toFixed hours 2))
  |}.

Fixpoint parseRows (i : nat) (data : list RawTicket) : completion (list Ticket) :=
  match data with
  | [] => Normal []
  | row :: rest =>
      t <- parseRow i row ;;
      ts <- parseRows (S i) rest ;;
      Normal (t :: ts)
  end.

(** [parseRawData] *)
Definition parseRawData (data : list RawTicket) : completion (list Ticket) :=
  parseRows 0 data.

End Utils.

(* ------------------------------------------------------------------ *)
(** * Agent metrics *)
(* ------------------------------------------------------------------ *)

(** The record kept per agent in the [Map] of [calculateAgentMetrics].
    The three counters are incremented by one per visit; they are
    integers here (a count stays far below 2^53, where a number stops
    being exact). *)
Record AgentStats := {
  total : Z;
  ratingSum : number;
  timeSum : number;
  resolvedCount : Z;
  active : Z
}.

Record AgentMetrics := {
  email : jsstring;
  totalTickets : Z;
  avgRating : number;
  avgResolutionHours : number;
  activeTickets : Z
}.

(** A [Map] with string keys: the entries in insertion order. *)
Definition AgentMap := list (jsstring * AgentStats).

Fixpoint map_has (key : jsstring) (m : AgentMap) : bool :=
  match m with
  | [] => false
  | (k, _) :: r => str_eqb k key || map_has key r
  end.

(** [stats = map.get(key); ...]: the entry of the key is updated in
    place *)
Fixpoint map_update (key : jsstring) (f : AgentStats -> AgentStats) (m : AgentMap)
  : AgentMap :=
  match m with
  | [] => []
  | (k, v) :: r => if str_eqb k key then (k, f v) :: r else (k, v) :: map_update key f r
  end.

Definition newStats : AgentStats :=
  {| total := 0; ratingSum := zero; timeSum := zero; resolvedCount := 0; active := 0 |}.

(** what one visit of an agent on ticket t does to the agent's record *)
Definition visit (t : Ticket) (stats : AgentStats) : AgentStats :=
  if str_eqb (status t) (js "Closed") then
    {| total := total stats + 1;
       ratingSum := nadd (ratingSum stats) (rating t);
       timeSum := nadd (timeSum stats) (resolutionTimeHours t);
       resolvedCount := resolvedCount stats + 1;
       active := active stats |}
  else
    {| total := total stats + 1;
       ratingSum := ratingSum stats;
       timeSum := timeSum stats;
       resolvedCount := resolvedCount stats;
       active := active stats + 1 |}.

(** the body of [t.assignees.forEach(agent => ...)] *)
Definition visitAgent (t : Ticket) (m : AgentMap) (agent : jsstring) : AgentMap :=
  match agent with
  | [] => m
  | _ =>
      let cleanAgent := trim agent in
      match cleanAgent with
      | [] => m
      | _ =>
          let m1 := if map_has cleanAgent m then m else m ++ [(cleanAgent, newStats)] in
          map_update cleanAgent (visit t) m1
      end
  end.

Definition visitTicket (m : AgentMap) (t : Ticket) : AgentMap :=
  fold_left (visitAgent t) (assignees t) m.

Definition agentMap (tickets : list Ticket) : AgentMap :=
  fold_left visitTicket tickets [].

Definition toMetrics (kv : jsstring * AgentStats) : AgentMetrics :=
  let (key, value) := kv in
  {| email := key;
     totalTickets := total value;
     avgRating := if 0 <? resolvedCount value
                  then ndiv (ratingSum value) (of_Z (resolvedCount value)) else zero;
     avgResolutionHours := if 0 <? resolvedCount value
                           then ndiv (timeSum value) (of_Z (resolvedCount value)) else zero;
     activeTickets := active value |}.

(** [metrics.sort((a, b) => b.totalTickets - a.totalTickets)]: the sort is
    stable, so it is the insertion sort that keeps equal keys in order. *)
Fixpoint insert_desc (x : AgentMetrics) (l : list AgentMetrics) : list AgentMetrics :=
  match l with
  | [] => [x]
  | y :: r =>
      if totalTickets x <? totalTickets y then y :: insert_desc x r
      else x :: y :: r
  end.

Definition sort_desc (l : list AgentMetrics) : list AgentMetrics :=
  fold_right insert_desc [] l.

(** [calculateAgentMetrics] *)
Definition calculateAgentMetrics (tickets : list Ticket) : list AgentMetrics :=
  let metrics :=
    map toMetrics
        (filter (fun kv => negb (str_eqb (fst kv) [])) (agentMap tickets)) in
  sort_desc metrics.

(* ------------------------------------------------------------------ *)
(** * Dashboard trends *)
(* ------------------------------------------------------------------ *)

(** [getPctDiff] *)
Definition getPctDiff (curr pre : number) : number :=
  if neqb pre zero then (if neqb curr zero then zero else of_Z 100)
  else nmul (ndiv (nsub curr pre) pre) (of_Z 100).

(** [formatTrend(diff, suffix)] *)
Definition formatTrend (diff : number) (suffix : jsstring) : jsstring :=
  (if ngt diff zero then js "+" else []) ++ toFixed diff 1 ++ suffix.

(** [formatTrend(getPctDiff(curr, pre))], with the default suffix *)
Definition trendText (curr pre : number) : jsstring :=
  formatTrend (getPctDiff curr pre) (js "%").

(* ------------------------------------------------------------------ *)
(** * A reference host *)
(* ------------------------------------------------------------------ *)

(** A host that parses the standard date format only and whose local
    time is at a fixed offset from UTC. *)
Definition fixed_zone_host (offset_ms : Z) : Host :=
  {| legacy_date_parse := fun _ => None;
     local_tza := fun _ => offset_ms;
     date_to_string := fun tv => match tv with
                                 | Some ms => js "Date " ++ digits_of (Z.abs ms)
                                 | None => js "Invalid Date"
                                 end;
     unicode_to_lower := fun s => s;
     random_id := fun i => js "r" ++ digits_of (Z.of_nat i) |}.

Definition utc_host : Host := fixed_zone_host 0.

(** India Standard Time, UTC+05:30 *)
Definition ist_host : Host := fixed_zone_host 19800000.

(** A row with the given cells and nothing else. *)
Definition row_of (status resolutionBy assign owner rating creation : value) : RawTicket :=
  {| Sr := VUndefined; Subject := VUndefined; Status := status;
     ResolutionBy := resolutionBy; Assign := assign; Customer := VUndefined;
     Priority := VUndefined; TicketType := VUndefined; Owner := owner;
     Rating := rating; Creation := creation |}.

Definition S_ (s : string) : value := VString (js s).

(* ------------------------------------------------------------------ *)
(** * Notions used in the statements *)
(* ------------------------------------------------------------------ *)

(** The statuses that are collapsed to "Closed": the comparison of the
    lower-cased text with the three names. *)
Definition is_closed_synonym (h : Host) (s : jsstring) : bool :=
  let l := toLowerCase h s in
  str_eqb l (js "resolved") || str_eqb l (js "completed") || str_eqb l (js "verified").

(** x is the integer a, held exactly *)
Definition holds_int (x : number) (a : Z) : Prop :=
  match x with
  | Fin s m e => e <= 0 /\ 0 <= m /\ signed s m = a * 2 ^ (- e)
  | _ => False
  end.

(** the values of the digits of a decimal text *)
Definition digit_vals (l : jsstring) : list Z := map (fun c => c - 48) l.

(** a time value within the range of a Date: at most 8.64e15 ms from the
    epoch, or the invalid date *)
Definition time_ok (tv : time_value) : Prop :=
  match tv with
  | Some z => Z.abs z <= maxTime
  | None => True
  end.

(** A cell that is a Date object holds a time value of the range
    TimeClip enforces, as every Date object does. *)
Definition date_cell_ok (v : value) : Prop :=
  match v with
  | VDate tv => time_ok tv
  | _ => True
  end.

(** 2024-03-15T00:00:00 as a time value *)
Definition march_15_2024 : Z := 1710460800000.

(** a string with no white space at its start *)
Definition starts_clean (s : jsstring) : Prop :=
  match s with
  | [] => True
  | c :: _ => is_white_space c = false
  end.

(** the ticket counts as closed in the rollup *)
Definition is_closed (t : Ticket) : bool := str_eqb (status t) (js "Closed").

(** the visits of the rollup: one per assignee that is not blank, under
    the trimmed name, in the order of the tickets and of their lists *)
Definition occurrences (tickets : list Ticket) : list (jsstring * Ticket) :=
  flat_map (fun t => map (fun a => (trim a, t)) (filter nonblank (assignees t))) tickets.

(** the tickets an agent is visited on, once per visit *)
Definition ticketsOf (agent : jsstring) (tickets : list Ticket) : list Ticket :=
  map snd (filter (fun o => str_eqb (fst o) agent) (occurrences tickets)).

(** the sum of a list of numbers, added from the left, starting at 0 *)
Definition nsum (l : list number) : number := fold_left nadd l zero.

(** the mean of a list of numbers, 0 for the empty list *)
Definition mean (l : list number) : number :=
  if 0 <? Z.of_nat (List.length l)
  then ndiv (nsum l) (of_Z (Z.of_nat (List.length l))) else zero.

(** [map.get(key)] *)
Fixpoint map_get (key : jsstring) (m : AgentMap) : option AgentStats :=
  match m with
  | [] => None
  | (k, v) :: r => if str_eqb k key then Some v else map_get key r
  end.

(** one visit: the agent's record is created if the map has none, then
    updated *)
Definition step (m : AgentMap) (o : jsstring * Ticket) : AgentMap :=
  map_update (fst o) (visit (snd o))
    (if map_has (fst o) m then m else m ++ [(fst o, newStats)]).

(** the record of an agent, or a fresh one *)
Definition stats_of (k : jsstring) (m : AgentMap) : AgentStats :=
  match map_get k m with Some v => v | None => newStats end.

(** a record after visits on the tickets ts, in order *)
Definition visits (ts : list Ticket) (st : AgentStats) : AgentStats :=
  fold_left (fun s t => visit t s) ts st.

(** the order of the result: a comes before b *)
Definition ge_total (a b : AgentMetrics) : Prop := totalTickets b <= totalTickets a.

(** the entry of an agent, as the words of the rollup have it *)
Definition metricsOf (agent : jsstring) (tickets : list Ticket) : AgentMetrics :=
  let ts := ticketsOf agent tickets in
  let closed := filter is_closed ts in
  {| email := agent;
     totalTickets := Z.of_nat (List.length ts);
     avgRating := mean (map rating closed);
     avgResolutionHours := mean (map resolutionTimeHours closed);
     activeTickets := Z.of_nat (List.length (filter (fun t => negb (is_closed t)) ts)) |}.

(** a name is an agent of the population when some ticket lists an
    assignee that is not blank and trims to it *)
Definition agent_of (tickets : list Ticket) (k : jsstring) : Prop :=
  exists t a, In t tickets /\ In a (assignees t) /\ nonblank a = true /\ trim a = k.

(** a ticket of the given status, assignees, rating and resolution time *)
Definition ticket_of (st : string) (who : list jsstring) (r hours : Z) : Ticket :=
  {| id := []; subject := []; status := js st; assignees := who;
     customer := []; priority := VString (js "Medium"); ticketType := [];
     owner := []; rating := of_Z r; createdAt := epoch; resolvedAt := None;
     resolutionTimeHours := of_Z hours |}.

(** a value [String] converts without throwing: no object in it has a
    property named toString of its own *)
Fixpoint printable (v : value) : bool :=
  match v with
  | VArray elems => forallb printable elems
  | VObject props => negb (has_own (js "toString") props)
  | _ => true
  end.

(** the stack of open containers has an array at its bottom *)
Fixpoint arr_based (stack : list JSON.frame) : bool :=
  match stack with
  | [] => false
  | f :: r =>
      match r with
      | [] => match f with JSON.FArr _ => true | _ => false end
      | _ => arr_based r
      end
  end.

(** the states a parse that began with "[" goes through *)
Definition arr_state (st : JSON.pstate) : bool :=
  match st with
  | JSON.PValue stack _ | JSON.PKey stack _ | JSON.PColon stack | JSON.PAfter stack =>
      arr_based stack
  | JSON.PDone (VArray _) => true
  | JSON.PDone _ => false
  end.

(** a cell that holds the text of a list holds one whose values all
    convert to strings *)
Definition assign_ok (h : Host) (v : value) : bool :=
  is_scalar v
  && match ToString h v with
     | Normal s =>
         if bracketed (trim s) then
           match JSON.parse (requote (trim s)) with
           | Normal parsed => printable parsed
           | Throw _ => true
           end
         else true
     | Throw _ => false
     end.

(** a row of a sheet: scalar cells, and an assignee cell as above *)
Definition row_ok (h : Host) (row : RawTicket) : bool :=
  is_scalar (Sr row) && is_scalar (Subject row) && is_scalar (Status row)
  && is_scalar (ResolutionBy row) && assign_ok h (Assign row)
  && is_scalar (Customer row) && is_scalar (Priority row)
  && is_scalar (TicketType row) && is_scalar (Owner row)
  && is_scalar (Rating row) && is_scalar (Creation row).



(** the list with every element that is an array replaced by the
    elements of that array: flattened one level, no deeper *)
Fixpoint flattened (xs : list value) : list value :=
  match xs with
  | [] => []
  | VArray inner :: rest => inner ++ flattened rest
  | x :: rest => x :: flattened rest
  end.

(** the text of an entry of the list: the empty string for a falsy
    entry, and what [String] gives for any other *)
Definition entry_text (h : Host) (a : value) (s : jsstring) : Prop :=
  if ToBoolean a then ToString h a = Normal s else s = [].






(* ------------------------------------------------------------------ *)
(** * Time windows *)
(* ------------------------------------------------------------------ *)

(** The clock of a run: the time value [new Date()] reads, and
    LocalTZA(t, true), the offset of local time from UTC, in ms, at the
    UTC time t. *)
Record Clock := {
  current_time : Z;
  utc_tza : Z -> Z
}.

(** Day(t) *)
Definition Day (t : Z) : Z := t / msPerDay.

(** YearFromTime(t): the largest year y with DayFromYear(y) <= Day(t),
    found from an estimate that is off by one year at most. *)
Definition YearFromTime (t : Z) : Z :=
  let d := Day t in
  let y0 := 1970 + (400 * d) / 146097 in
  if d <? DayFromYear y0 then y0 - 1
  else if DayFromYear (y0 + 1) <=? d then y0 + 1
  else y0.

(** DayWithinYear(t) *)
Definition DayWithinYear (t : Z) : Z := Day t - DayFromYear (YearFromTime t).

(** MonthFromTime(t), by the table of ECMA-262 *)
Definition MonthFromTime (t : Z) : Z :=
  let leap := if InLeapYear (YearFromTime t) then 1 else 0 in
  let dw := DayWithinYear t in
  if dw <? 31 then 0
  else if dw <? 59 + leap then 1
  else if dw <? 90 + leap then 2
  else if dw <? 120 + leap then 3
  else if dw <? 151 + leap then 4
  else if dw <? 181 + leap then 5
  else if dw <? 212 + leap then 6
  else if dw <? 243 + leap then 7
  else if dw <? 273 + leap then 8
  else if dw <? 304 + leap then 9
  else if dw <? 334 + leap then 10
  else 11.

(** LocalTime(t) *)
Definition LocalTime (c : Clock) (t : Z) : Z := t + utc_tza c t.

(** [d.getFullYear()] and [d.getMonth()] *)
Definition getFullYear (c : Clock) (d : time_value) : number :=
  match d with
  | Some t => of_Z (YearFromTime (LocalTime c t))
  | None => NaN
  end.

Definition getMonth (c : Clock) (d : time_value) : number :=
  match d with
  | Some t => of_Z (MonthFromTime (LocalTime c t))
  | None => NaN
  end.

(** [new Date(value)] for a number *)
Definition Date_of_number (t : number) : time_value := TimeClip t.

(** [new Date(year, month, date, hours, minutes, seconds, ms)] *)
Definition Date_of_fields_ms (h : Host)
    (year month date hours minutes seconds ms : number) : time_value :=
  TimeClip (UTC h (MakeDate (MakeDay (MakeFullYear year) month date)
                            (MakeTime hours minutes seconds ms))).

(** [a >= b], [a <= b] and [a < b] on two Date objects: their time
    values are compared, and a comparison with NaN is false *)
Definition date_ge (a b : time_value) : bool := nge (getTime a) (getTime b).
Definition date_le (a b : time_value) : bool := nle (getTime a) (getTime b).
Definition date_lt (a b : time_value) : bool := nlt (getTime a) (getTime b).

(** [n * 24 * 60 * 60 * 1000] *)
Definition days_ms (n : Z) : number :=
  nmul (nmul (nmul (nmul (of_Z n) (of_Z 24)) (of_Z 60)) (of_Z 60)) (of_Z 1000).

Section Windows.

Variable c : Clock.
Variable h : Host.

(** [filterTickets]; the range is the string the caller passes *)
Definition filterTickets (tickets : list Ticket) (range : jsstring) : list Ticket :=
  let now : time_value := Some (current_time c) in
  if str_eqb range (js "last-7-days") then
    let sevenDaysAgo := Date_of_number (nsub (getTime now) (days_ms 7)) in
    filter (fun t => date_ge (createdAt t) sevenDaysAgo) tickets
  else if str_eqb range (js "last-30-days") then
    let thirtyDaysAgo := Date_of_number (nsub (getTime now) (days_ms 30)) in
    filter (fun t => date_ge (createdAt t) thirtyDaysAgo) tickets
  else if str_eqb range (js "this-month") then
    let startOfMonth := Date_of_ymd h (getFullYear c now) (getMonth c now) (of_Z 1) in
    filter (fun t => date_ge (createdAt t) startOfMonth) tickets
  else if str_eqb range (js "last-month") then
    let startOfLastMonth :=
      Date_of_ymd h (getFullYear c now) (nsub (getMonth c now) (of_Z 1)) (of_Z 1) in
    let endOfLastMonth :=
      Date_of_fields h (getFullYear c now) (getMonth c now) (of_Z 0)
                     (of_Z 23) (of_Z 59) (of_Z 59) in
    filter (fun t => date_ge (createdAt t) startOfLastMonth
                     && date_le (createdAt t) endOfLastMonth) tickets
  else tickets.

(** [getPreviousPeriodTickets] *)
Definition getPreviousPeriodTickets (tickets : list Ticket) (range : jsstring)
  : list Ticket :=
  let now : time_value := Some (current_time c) in
  if str_eqb range (js "last-7-days") then
    let end_ := Date_of_number (nsub (getTime now) (days_ms 7)) in
    let start := Date_of_number (nsub (getTime now) (days_ms 14)) in
    filter (fun t => date_ge (createdAt t) start && date_lt (createdAt t) end_) tickets
  else if str_eqb range (js "last-30-days") then
    let end_ := Date_of_number (nsub (getTime now) (days_ms 30)) in
    let start := Date_of_number (nsub (getTime now) (days_ms 60)) in
    filter (fun t => date_ge (createdAt t) start && date_lt (createdAt t) end_) tickets
  else if str_eqb range (js "this-month") then
    let start :=
      Date_of_ymd h (getFullYear c now) (nsub (getMonth c now) (of_Z 1)) (of_Z 1) in
    let end_ :=
      Date_of_fields_ms h (getFullYear c now) (getMonth c now) (of_Z 0)
                        (of_Z 23) (of_Z 59) (of_Z 59) (of_Z 999) in
    filter (fun t => date_ge (createdAt t) start && date_le (createdAt t) end_) tickets
  else if str_eqb range (js "last-month") then
    let start :=
      Date_of_ymd h (getFullYear c now) (nsub (getMonth c now) (of_Z 2)) (of_Z 1) in
    let end_ :=
      Date_of_fields_ms h (getFullYear c now) (nsub (getMonth c now) (of_Z 1)) (of_Z 0)
                        (of_Z 23) (of_Z 59) (of_Z 59) (of_Z 999) in
    filter (fun t => date_ge (createdAt t) start && date_le (createdAt t) end_) tickets
  else [].

End Windows.

(** ** Windows as intervals of time values *)

(** the ticket was created at a valid instant z with lo <= z *)
Definition created_from (lo : Z) (t : Ticket) : bool :=
  match createdAt t with
  | Some z => lo <=? z
  | None => false
  end.

(** the ticket was created at a valid instant z with lo <= z <= hi *)
Definition created_within (lo hi : Z) (t : Ticket) : bool :=
  match createdAt t with
  | Some z => (lo <=? z) && (z <=? hi)
  | None => false
  end.

Definition day_ms (n : Z) : Z := n * msPerDay.

(** local midnight of the first of month mn of year y, as a local time;
    mn may lie outside 0..11 and then counts into the years around *)
Definition local_month_start (y mn : Z) : Z :=
  day_of_month_start (y + mn / 12) (mn mod 12) * msPerDay.

(** a clock in India (UTC+05:30) that reads the time value [now] *)
Definition ist_clock (now : Z) : Clock :=
  {| current_time := now; utc_tza := fun _ => 19800000 |}.

(** an open ticket created at the given date *)
Definition ticket_at (tv : time_value) : Ticket :=
  {| id := []; subject := []; status := js "Open"; assignees := [];
     customer := []; priority := VString (js "Medium"); ticketType := [];
     owner := []; rating := zero; createdAt := tv; resolvedAt := None;
     resolutionTimeHours := zero |}.

(** the ranges that bound the creation date *)
Definition bounded_range (range : jsstring) : bool :=
  existsb (str_eqb range)
          [js "last-7-days"; js "last-30-days"; js "this-month"; js "last-month"].

(** the UTC time of a local time *)
Definition to_utc (h : Host) (t : Z) : Z := t - local_tza h t.

(** the local time of the clock *)
Definition local_now (c : Clock) : Z := LocalTime c (current_time c).

(** local midnight of the first of the month k months after the current
    one (k = 0: this month, k = -1: last month) *)
Definition month_at (c : Clock) (k : Z) : Z :=
  local_month_start (YearFromTime (local_now c)) (MonthFromTime (local_now c) + k).

(** the rolling windows: the last n days, for n = 7 and n = 30 *)
Definition rolling (n : Z) (range : jsstring) : Prop :=
  (n = 7 /\ range = js "last-7-days") \/ (n = 30 /\ range = js "last-30-days").

(* ------------------------------------------------------------------ *)
(** * The dashboard: statistics, trends and the agent chart *)
(* ------------------------------------------------------------------ *)

Module Dashboard.

(** what [calculateStats] returns *)
Record Stats := {
  total : number;
  open : number;
  closed : number;
  avgResolution : number;
  avgRating : number
}.

(** [xs.length] *)
Definition length_of {A} (xs : list A) : number := of_Z (Z.of_nat (List.length xs)).

(** [calculateStats] *)
Definition calculateStats (data : list Ticket) : Stats :=
  let total := length_of data in
  let open := length_of (filter (fun t => negb (str_eqb (status t) (js "Closed"))) data) in
  let closed := length_of (filter (fun t => str_eqb (status t) (js "Closed")) data) in
  let resolutionSum :=
    fold_left (fun acc t =>
                 nadd acc (if str_eqb (status t) (js "Closed")
                           then resolutionTimeHours t else zero))
              data zero in
  let avgResolution := if ngt closed zero then ndiv resolutionSum closed else zero in
  let ratingSum :=
    fold_left (fun acc t =>
                 nadd acc (if str_eqb (status t) (js "Closed") then rating t else zero))
              data zero in
  let avgRating := if ngt closed zero then ndiv ratingSum closed else zero in
  {| total := total; open := open; closed := closed;
     avgResolution := avgResolution; avgRating := avgRating |}.

(** a trend of the dashboard: its text, and whether it is shown as
    favourable *)
Record Trend := {
  text : jsstring;
  isPositive : bool
}.

Record Trends := {
  total_trend : Trend;
  resolution_trend : Trend;
  rating_trend : Trend;
  open_trend : Trend
}.

(** the [stats] of the dashboard: the statistics of the current tickets
    and their trends against the previous ones *)
Definition stats (tickets previousTickets : list Ticket) : Stats * Trends :=
  let current := calculateStats tickets in
  let prev := calculateStats previousTickets in
  let totalDiff := getPctDiff (total current) (total prev) in
  let resolutionDiff := getPctDiff (avgResolution current) (avgResolution prev) in
  let ratingDiff := nsub (avgRating current) (avgRating prev) in
  let openDiff := getPctDiff (open current) (open prev) in
  (current,
   {| total_trend := {| text := formatTrend totalDiff (js "%");
                        isPositive := nle totalDiff zero |};
      resolution_trend := {| text := formatTrend resolutionDiff (js "%");
                             isPositive := nle resolutionDiff zero |};
      rating_trend := {| text := formatTrend ratingDiff [];
                         isPositive := nge ratingDiff zero |};
      open_trend := {| text := formatTrend openDiff (js "%");
                       isPositive := nle openDiff zero |} |}).

End Dashboard.

Module AgentChart.

(** a bar of the agent chart *)
Record AgentBar := {
  name : jsstring;
  tickets : Z;
  rating : number
}.

(** [agentLoad] *)
Definition agentLoad (agents : list AgentMetrics) : list AgentBar :=
  firstn 10
    (map (fun a =>
            {| name := or_default (nth_error (split (cu "@") (email a)) 0) (js "Unknown");
               tickets := totalTickets a;
               rating := parseFloat (toFixed (avgRating a) 1) |})
         agents).

End AgentChart.

(** a binary64 value: a NaN, an infinity, a zero, or a finite number in
    normal or subnormal form *)
Definition is_binary64 (x : number) : bool :=
  match x with
  | Fin _ m e =>
      ((m =? 0) && (e =? 0))
      || ((2 ^ 52 <=? m) && (m <? 2 ^ 53) && (-1074 <=? e) && (e <=? 971))
      || ((0 <? m) && (m <? 2 ^ 52) && (e =? -1074))
  | _ => true
  end.

(** the numbers of a ticket are binary64 values *)
Definition ticket_numbers_ok (t : Ticket) : bool :=
  is_binary64 (rating t) && is_binary64 (resolutionTimeHours t).

(* ------------------------------------------------------------------ *)
(** * The values of the number model are binary64 values *)
(* ------------------------------------------------------------------ *)

(** 2^k <= n / d, without fractions *)
Definition ge_pow2 (k n d : Z) : Prop := d * 2 ^ Z.max k 0 <= n * 2 ^ Z.max (- k) 0.

(** ** The text of a number never starts with a plus sign *)

Definition digit_head (s : jsstring) : Prop :=
  match s with
  | c :: _ => is_digit c = true
  | [] => False
  end.

(** the open tickets of the dashboard *)
Definition open_tickets (data : list Ticket) : list Ticket :=
  filter (fun t => negb (str_eqb (status t) (js "Closed"))) data.

(** the text of an address before its first "@" *)
Definition local_part (s : jsstring) : jsstring :=
  match split (cu "@") s with
  | p :: _ => p
  | [] => []
  end.

(* ------------------------------------------------------------------ *)
(** * The upload of a sheet *)
(* ------------------------------------------------------------------ *)

(** A row of [XLSX.utils.sheet_to_json]: its own enumerable properties,
    header and cell, in the order of [Object.keys]. *)
Definition SheetRow := list (jsstring * value).

(** The object [newRow] of the row callback: its own properties, and its
    prototype once an assignment to "__proto__" has replaced
    Object.prototype ([None]) by an object or by null. *)
Record RowObject := {
  own : list (jsstring * value);
  proto : option value
}.

(** the own property of a name, in a list of properties *)
Fixpoint prop_get (key : jsstring) (props : list (jsstring * value)) : option value :=
  match props with
  | [] => None
  | (k, v) :: r => if str_eqb k key then Some v else prop_get key r
  end.

(** the properties with the one of that name set: replaced in place, or
    added at the end *)
Fixpoint prop_set (key : jsstring) (v : value) (props : list (jsstring * value))
  : list (jsstring * value) :=
  match props with
  | [] => [(key, v)]
  | (k, x) :: r => if str_eqb k key then (k, v) :: r else (k, x) :: prop_set key v r
  end.

(** [o[key]] for a key that no built-in prototype defines (an array, a
    Date and Object.prototype have no property of such a name): the own
    property, else the property of a prototype that is a data object,
    else undefined. *)
Definition get (o : RowObject) (key : jsstring) : value :=
  match prop_get key (own o) with
  | Some v => v
  | None =>
      match proto o with
      | Some (VObject props) =>
          match prop_get key props with
          | Some v => v
          | None => VUndefined
          end
      | _ => VUndefined
      end
  end.

(** the assignment reaches the "__proto__" accessor of Object.prototype:
    the object has no such property of its own, and no prototype in
    between is null or has a data property of that name *)
Definition reaches_proto_setter (o : RowObject) : bool :=
  negb (has_own (js "__proto__") (own o))
  && match proto o with
     | Some VNull => false
     | Some (VObject props) => negb (has_own (js "__proto__") props)
     | _ => true
     end.

(** [o[key] = v].  Every property the object can inherit is a writable
    data property, which the assignment shadows by an own property;
    the exception is the accessor "__proto__", whose setter replaces the
    prototype by an object or null and ignores any other value. *)
Definition set (o : RowObject) (key : jsstring) (v : value) : RowObject :=
  if str_eqb key (js "__proto__") && reaches_proto_setter o then
    match v with
    | VNull | VDate _ | VArray _ | VObject _ => {| own := own o; proto := Some v |}
    | _ => o
    end
  else {| own := prop_set key v (own o); proto := proto o |}.

(** the literal [columnMap] *)
Definition columnMap : list (jsstring * jsstring) :=
  [
    (js "tickettype", js "TicketType"); (js "type", js "TicketType");
    (js "module", js "TicketType"); (js "category", js "TicketType");
    (js "classification", js "TicketType"); (js "item", js "TicketType");
    (js "issuetype", js "TicketType");
    (js "resolutionby", js "ResolutionBy"); (js "resolveddate", js "ResolutionBy");
    (js "resolvedon", js "ResolutionBy"); (js "completedon", js "ResolutionBy");
    (js "closedon", js "ResolutionBy"); (js "resolutiontime", js "ResolutionBy");
    (js "assignedto", js "Assign"); (js "assign", js "Assign");
    (js "assignee", js "Assign"); (js "assignees", js "Assign");
    (js "agent", js "Assign"); (js "handledby", js "Assign");
    (js "allocatedto", js "Assign"); (js "user", js "Assign");
    (js "createdon", js "Creation"); (js "creation", js "Creation");
    (js "created", js "Creation"); (js "date", js "Creation");
    (js "opendate", js "Creation"); (js "timestamp", js "Creation");
    (js "postingdate", js "Creation"); (js "submittedon", js "Creation");
    (js "subject", js "Subject"); (js "title", js "Subject");
    (js "issue", js "Subject"); (js "description", js "Subject");
    (js "summary", js "Subject"); (js "name", js "Subject");
    (js "workflowstate", js "Status"); (js "state", js "Status");
    (js "status", js "Status"); (js "stage", js "Status");
    (js "currentstatus", js "Status");
    (js "customer", js "Customer"); (js "client", js "Customer");
    (js "caller", js "Customer"); (js "raisedby", js "Customer");
    (js "contact", js "Customer"); (js "sender", js "Customer");
    (js "priority", js "Priority"); (js "urgency", js "Priority");
    (js "severity", js "Priority"); (js "impact", js "Priority");
    (js "owner", js "Owner"); (js "createdby", js "Owner"); (js "author", js "Owner");
    (js "rating", js "Rating"); (js "feedback", js "Rating"); (js "csat", js "Rating");
    (js "score", js "Rating"); (js "stars", js "Rating");
    (js "sr", js "Sr"); (js "id", js "Sr"); (js "ticketid", js "Sr");
    (js "number", js "Sr"); (js "ref", js "Sr")  ].

(** the functions a plain object inherits from Object.prototype *)
Definition object_prototype_functions : list jsstring :=
  [js "constructor"; js "hasOwnProperty"; js "isPrototypeOf";
   js "propertyIsEnumerable"; js "toLocaleString"; js "toString"; js "valueOf";
   js "__defineGetter__"; js "__defineSetter__"; js "__lookupGetter__";
   js "__lookupSetter__"].

(** [/[\s_-]/]: a unit the header normaliser removes *)
Definition is_separator (c : code_unit) : bool :=
  is_white_space c || (c =? cu "_") || (c =? cu "-").

Fixpoint table_get (key : jsstring) (m : list (jsstring * jsstring)) : option jsstring :=
  match m with
  | [] => None
  | (k, v) :: r => if str_eqb k key then Some v else table_get key r
  end.

(** What [processFile] does with the rows of the sheet: it hands the
    tickets to [onDataLoaded], or it shows the message of the error it
    threw or of the error the engine threw. *)
Inductive UploadOutcome :=
| DataLoaded (tickets : list Ticket)
| ErrorShown (message : jsstring)
| EngineError (e : error).

Section Upload.

Variable h : Host.

(** [String(f)] for the built-in function of Object.prototype of the
    given name: its source text, which is the engine's *)
Variable function_text : jsstring -> jsstring.

(** [normalizeHeader] *)
Definition normalizeHeader (s : jsstring) : jsstring :=
  filter (fun c => negb (is_separator c)) (trim (toLowerCase h s)).

(** [columnMap[normalized]] when it is truthy, as the property key the
    row callback uses it for.  An entry of the literal is its text.  A
    name the literal inherits from Object.prototype is a function, or
    for "__proto__" the prototype itself; as a property key these are
    converted to strings. *)
Definition columnMap_get (normalized : jsstring) : option jsstring :=
  match table_get normalized columnMap with
  | Some field => Some field
  | None =>
      if str_eqb normalized (js "__proto__") then Some (js "[object Object]")
      else if existsb (str_eqb normalized) object_prototype_functions
           then Some (function_text normalized)
           else None
  end.

(** the property the cell under a header is stored under: the field of
    a header the map knows, and the header itself otherwise *)
Definition target (key : jsstring) : jsstring :=
  match columnMap_get (normalizeHeader key) with
  | Some field => field
  | None => key
  end.

(** the body of [Object.keys(row).forEach] *)
Definition renameKey (newRow : RowObject) (kv : jsstring * value) : RowObject :=
  let (key, cell) := kv in
  let normalized := normalizeHeader key in
  match columnMap_get normalized with
  | Some field => set newRow field cell
  | None => set newRow key cell
  end.

(** the callback of [rawData.map] *)
Definition mapRow (row : SheetRow) : RowObject :=
  let newRow := fold_left renameKey row {| own := []; proto := None |} in
  let newRow := if negb (ToBoolean (get newRow (js "TicketType")))
                then set newRow (js "TicketType") (VString (js "Unspecified"))
                else newRow in
  let newRow := if negb (ToBoolean (get newRow (js "Status")))
                then set newRow (js "Status") (VString (js "Open"))
                else newRow in
  let newRow := if negb (ToBoolean (get newRow (js "Subject")))
                then set newRow (js "Subject") (VString (js "No Subject"))
                else newRow in
  let newRow := if negb (ToBoolean (get newRow (js "Assign")))
                   && ToBoolean (get newRow (js "Owner"))
                then set newRow (js "Assign") (get newRow (js "Owner"))
                else newRow in
  newRow.

(** the row as [parseRawData] reads it *)
Definition rawTicket (o : RowObject) : RawTicket :=
  {| Sr := get o (js "Sr");
     Subject := get o (js "Subject");
     Status := get o (js "Status");
     ResolutionBy := get o (js "ResolutionBy");
     Assign := get o (js "Assign");
     Customer := get o (js "Customer");
     Priority := get o (js "Priority");
     TicketType := get o (js "TicketType");
     Owner := get o (js "Owner");
     Rating := get o (js "Rating");
     Creation := get o (js "Creation") |}.

(** [processFile], from the rows [sheet_to_json] returns *)
Definition processFile (rawData : list SheetRow) : UploadOutcome :=
  match rawData with
  | [] => ErrorShown (js "The file appears to be empty.")
  | _ =>
      let jsonData := map (fun row => rawTicket (mapRow row)) rawData in
      match parseRawData h jsonData with
      | Normal tickets =>
          if (List.length tickets =? 0)%nat
          then ErrorShown
                 (js "Could not parse any tickets. Please check your column headers.")
          else DataLoaded tickets
      | Throw e => EngineError e
      end
  end.

End Upload.

(** the letters of a header: its units in lower case, without the
    separators *)
Definition letters (key : jsstring) : jsstring :=
  filter (fun c => negb (is_separator c)) (map lower_ascii key).

(** the ticket of a row in which nothing is filled in *)
Definition placeholder (id : jsstring) : Ticket :=
  {| id := id; subject := js "No Subject"; status := js "Open"; assignees := [];
     customer := js "Unknown"; priority := VString (js "Medium");
     ticketType := js "Unspecified"; owner := []; rating := zero;
     createdAt := epoch; resolvedAt := None; resolutionTimeHours := zero |}.

(** the header is one the upload does not know *)
Definition unknown_header (h : Host) (function_text : jsstring -> jsstring)
    (key : jsstring) : bool :=
  match columnMap_get function_text (normalizeHeader h key) with
  | Some _ => false
  | None => true
  end.

(** the text V8 gives for a built-in function *)
Definition v8_function_text (name : jsstring) : jsstring :=
  js "function " ++ name ++ js "() { [native code] }".

(** the names [parseRawData] reads from a row *)
Definition raw_fields : list jsstring :=
  [js "Sr"; js "Subject"; js "Status"; js "ResolutionBy"; js "Assign"; js "Customer";
   js "Priority"; js "TicketType"; js "Owner"; js "Rating"; js "Creation"].

(** the object has none of the fields, of its own or inherited *)
Definition blank (o : RowObject) : Prop :=
  (forall F, In F raw_fields -> prop_get F (own o) = None)
  /\ match proto o with
     | Some (VObject _) | Some (VArray _) => False
     | _ => True
     end.

(** the raw ticket of a row in which nothing is filled in, after the
    defaults of the upload *)
Definition blank_row : RawTicket :=
  {| Sr := VUndefined; Subject := VString (js "No Subject");
     Status := VString (js "Open"); ResolutionBy := VUndefined; Assign := VUndefined;
     Customer := VUndefined; Priority := VUndefined;
     TicketType := VString (js "Unspecified"); Owner := VUndefined;
     Rating := VUndefined; Creation := VUndefined |}.

(** the trend against a previous value of 0: no change when the current
    value is 0 too, and a rise by 100 percent otherwise *)
Definition trend_from_nothing (still_nothing : bool) : Dashboard.Trend :=
  if still_nothing
  then {| Dashboard.text := js "0.0%"; Dashboard.isPositive := true |}
  else {| Dashboard.text := js "+100.0%"; Dashboard.isPositive := false |}.

(* ------------------------------------------------------------------ *)
(** * The data context of the assistant *)
(* ------------------------------------------------------------------ *)

(** [Array.from(new Set(xs))] for strings: the elements in the order of
    their first occurrence, each once *)
Definition distinct (xs : list jsstring) : list jsstring :=
  fold_left (fun set x => if existsb (str_eqb x) set then set else set ++ [x]) xs [].

(** the [avgRating] of the context: the mean of the agents' averages, to
    one decimal place *)
Definition contextRating (filteredAgents : list AgentMetrics) : jsstring :=
  if ngt (Dashboard.length_of filteredAgents) zero
  then toFixed (ndiv (fold_left (fun acc a => nadd acc (avgRating a)) filteredAgents zero)
                     (Dashboard.length_of filteredAgents)) 1
  else js "0".

(** the [topAgent] of the context; where the length is above 0 the list
    has a first element *)
Definition topAgent (filteredAgents : list AgentMetrics) : jsstring :=
  if ngt (Dashboard.length_of filteredAgents) zero
  then match filteredAgents with
       | a :: _ => email a
       | [] => []
       end
  else js "N/A".

(** the ticket types of the context *)
Definition contextTypes (filteredTickets : list Ticket) : jsstring :=
  join (js ", ") (distinct (map ticketType filteredTickets)).

(** a line break and the indentation of the template *)
Definition template_line : jsstring := [10] ++ js "        ".

(** [aiDataContext] *)
Definition aiDataContext (filteredTickets : list Ticket)
    (filteredAgents : list AgentMetrics) (timeRange : jsstring) : jsstring :=
  let total := Dashboard.length_of filteredTickets in
  let open :=
    Dashboard.length_of
      (filter (fun t => negb (str_eqb (status t) (js "Closed"))) filteredTickets) in
  let closed :=
    Dashboard.length_of
      (filter (fun t => str_eqb (status t) (js "Closed")) filteredTickets) in
  template_line ++ js "Total Tickets: " ++ Number_toString total
  ++ template_line ++ js "Open Tickets: " ++ Number_toString open
  ++ template_line ++ js "Closed Tickets: " ++ Number_toString closed
  ++ template_line ++ js "Average Agent Rating: " ++ contextRating filteredAgents
  ++ js "/5"
  ++ template_line ++ js "Top Agent by Volume: " ++ topAgent filteredAgents
  ++ template_line ++ js "Time Period: " ++ timeRange
  ++ template_line
  ++ template_line ++ js "Ticket Types: " ++ contextTypes filteredTickets
  ++ [10] ++ js "     ".

(* ------------------------------------------------------------------ *)
(** * Audio helpers *)
(* ------------------------------------------------------------------ *)

(** An ArrayBuffer, and a Uint8Array over the whole of it, is the list of
    its bytes. *)
Definition is_byte (b : Z) : bool := (0 <=? b) && (b <? 256).

(** ** Base64, as [btoa] and [atob] implement it (forgiving-base64 of
    the WHATWG Infra standard) *)

(** the unit of the alphabet for a 6-bit value *)
Definition base64_unit (v : Z) : code_unit :=
  if v <? 26 then cu "A" + v
  else if v <? 52 then cu "a" + (v - 26)
  else if v <? 62 then cu "0" + (v - 52)
  else if v =? 62 then cu "+"
  else cu "/".

(** the 6-bit value of a unit of the alphabet *)
Definition base64_value (c : code_unit) : option Z :=
  if (cu "A" <=? c) && (c <=? cu "Z") then Some (c - cu "A")
  else if (cu "a" <=? c) && (c <=? cu "z") then Some (c - cu "a" + 26)
  else if (cu "0" <=? c) && (c <=? cu "9") then Some (c - cu "0" + 52)
  else if c =? cu "+" then Some 62
  else if c =? cu "/" then Some 63
  else None.

(** base64 of a byte sequence: four units for three bytes, the last group
    padded with "=" *)
Fixpoint base64_encode (bytes : list Z) : jsstring :=
  match bytes with
  | [] => []
  | [a] => [base64_unit (a / 4); base64_unit (a mod 4 * 16); cu "="; cu "="]
  | [a; b] =>
      [base64_unit (a / 4); base64_unit (a mod 4 * 16 + b / 16);
       base64_unit (b mod 16 * 4); cu "="]
  | a :: b :: c :: rest =>
      base64_unit (a / 4) :: base64_unit (a mod 4 * 16 + b / 16)
      :: base64_unit (b mod 16 * 4 + c / 64) :: base64_unit (c mod 64)
      :: base64_encode rest
  end.

(** [btoa]: [None] when it throws an InvalidCharacterError, for a unit
    above 255 *)
Definition btoa (s : jsstring) : option jsstring :=
  if forallb (fun c => c <=? 255) s then Some (base64_encode s) else None.

Definition is_ascii_whitespace (c : code_unit) : bool :=
  (c =? 9) || (c =? 10) || (c =? 12) || (c =? 13) || (c =? 32).

(** one or two "=" at the end removed *)
Definition strip_padding (s : jsstring) : jsstring :=
  match rev s with
  | c1 :: c2 :: r =>
      if c1 =? cu "=" then (if c2 =? cu "=" then rev r else rev (c2 :: r)) else s
  | [c1] => if c1 =? cu "=" then [] else s
  | [] => s
  end.

(** the 6-bit values of a text of the alphabet *)
Fixpoint base64_values (s : jsstring) : option (list Z) :=
  match s with
  | [] => Some []
  | c :: r =>
      match base64_value c, base64_values r with
      | Some v, Some vs => Some (v :: vs)
      | _, _ => None
      end
  end.

(** the bytes of a sequence of 6-bit values: three for every four, and
    for two or three values left over one or two bytes, the bits beyond
    them dropped *)
Fixpoint base64_bytes (vs : list Z) : list Z :=
  match vs with
  | a :: b :: c :: d :: rest =>
      (a * 4 + b / 16) :: (b mod 16 * 16 + c / 4) :: (c mod 4 * 64 + d)
      :: base64_bytes rest
  | [a; b; c] => [a * 4 + b / 16; b mod 16 * 16 + c / 4]
  | [a; b] => [a * 4 + b / 16]
  | _ => []
  end.

(** [atob]: [None] when it throws an InvalidCharacterError *)
Definition atob (s : jsstring) : option jsstring :=
  let data := filter (fun c => negb (is_ascii_whitespace c)) s in
  let data := if Z.of_nat (List.length data) mod 4 =? 0 then strip_padding data
              else data in
  if Z.of_nat (List.length data) mod 4 =? 1 then None
  else option_map base64_bytes (base64_values data).

(** [base64ToUint8Array]; a store into a Uint8Array keeps the unit
    modulo 256 *)
Definition base64ToUint8Array (base64 : jsstring) : option (list Z) :=
  match atob base64 with
  | Some binaryString => Some (map (fun c => c mod 256) binaryString)
  | None => None
  end.

(** [arrayBufferToBase64] *)
Definition arrayBufferToBase64 (buffer : list Z) : option jsstring :=
  let binary := fold_left (fun binary b => binary ++ [b]) buffer [] in
  btoa binary.

(** ToInt16, the conversion of a store into an Int16Array *)
Definition ToInt16 (x : number) : Z :=
  match x with
  | Fin s m e =>
      let int := signed s (scale_num m e / scale_den e) in
      let int16bit := int mod 65536 in
      if 32768 <=? int16bit then int16bit - 65536 else int16bit
  | _ => 0
  end.

(** the two bytes of an element of an Int16Array, in the byte order of
    the platform *)
Definition int16_bytes (big_endian : bool) (v : Z) : list Z :=
  let u := v mod 65536 in
  if big_endian then [u / 256; u mod 256] else [u mod 256; u / 256].

Module GenAI.

(** the [Blob] of the @google/genai package *)
Record Blob := {
  data : jsstring;
  mimeType : jsstring
}.

End GenAI.

(** the element [pcmToGeminiBlob] stores for a sample *)
Definition pcm_int16 (sample : number) : Z := ToInt16 (nmul sample (of_Z 32768)).

(** [pcmToGeminiBlob]; [data] holds the samples of the Float32Array, and
    [None] is a throw of [btoa] *)
Definition pcmToGeminiBlob (big_endian : bool) (data : list number) : option GenAI.Blob :=
  let int16 := map pcm_int16 data in
  match arrayBufferToBase64 (flat_map (int16_bytes big_endian) int16) with
  | Some text => Some {| GenAI.data := text;
                         GenAI.mimeType := js "audio/pcm;rate=16000" |}
  | None => None
  end.

(** the sample k / 32768 *)
Definition pcm_sample (k : Z) : number := ndiv (of_Z k) (of_Z 32768).

(* ------------------------------------------------------------------ *)
(** * The chart of ticket types *)
(* ------------------------------------------------------------------ *)

(** What a property of the object [counts] holds: a number, or the text
    that adding 1 to an inherited property has made. *)
Inductive count_value :=
| CountNumber (n : number)
| CountText (s : jsstring).

Module TypeChart.

(** an entry of the chart *)
Record Slice := {
  name : jsstring;
  value : count_value
}.

End TypeChart.

(** [(t.ticketType || 'Unspecified').trim() || 'Unspecified'] *)
Definition ticketTypeOf (t : Ticket) : jsstring :=
  or_default (Some (trim (or_default (Some (ticketType t)) (js "Unspecified"))))
             (js "Unspecified").

(** the own property of a name in [counts] *)
Fixpoint counts_own (key : jsstring) (counts : list (jsstring * count_value))
  : option count_value :=
  match counts with
  | [] => None
  | (k, v) :: r => if str_eqb k key then Some v else counts_own key r
  end.

(** the property of a name set in [counts]: replaced in place, or added
    at the end *)
Fixpoint counts_set (key : jsstring) (v : count_value)
    (counts : list (jsstring * count_value)) : list (jsstring * count_value) :=
  match counts with
  | [] => [(key, v)]
  | (k, x) :: r => if str_eqb k key then (k, v) :: r else (k, x) :: counts_set key v r
  end.

(** an array index: the canonical text of an integer from 0 to 2^32 - 2 *)
Definition is_array_index (s : jsstring) : bool :=
  match s with
  | [] => false
  | c :: r =>
      forallb is_digit s
      && (negb (c =? cu "0") || match r with [] => true | _ => false end)
      && (digits_value 10 (digit_vals s) <=? 4294967294)
  end.

(** the place of an entry among those named by array indices, which
    come in ascending order *)
Fixpoint insert_index (kv : jsstring * count_value) (l : list (jsstring * count_value))
  : list (jsstring * count_value) :=
  match l with
  | [] => [kv]
  | y :: r =>
      if digits_value 10 (digit_vals (fst kv)) <? digits_value 10 (digit_vals (fst y))
      then kv :: l
      else y :: insert_index kv r
  end.

(** the own properties in the order of [Object.keys]: the array indices
    in ascending order, then the other names in the order of creation *)
Definition own_keys (counts : list (jsstring * count_value))
  : list (jsstring * count_value) :=
  fold_right insert_index [] (filter (fun kv => is_array_index (fst kv)) counts)
  ++ filter (fun kv => negb (is_array_index (fst kv))) counts.

(** the value of an entry as a number *)
Definition slice_number (s : TypeChart.Slice) : number :=
  match TypeChart.value s with
  | CountNumber n => n
  | CountText _ => NaN
  end.

(** the place of an entry in a list sorted by [(a, b) => b.value -
    a.value], for numbers: behind the entries the comparison puts first,
    before the others *)
Fixpoint insert_slice (x : TypeChart.Slice) (l : list TypeChart.Slice)
  : list TypeChart.Slice :=
  match l with
  | [] => [x]
  | y :: r =>
      if ngt (nsub (slice_number y) (slice_number x)) zero
      then y :: insert_slice x r
      else x :: l
  end.

Section TypeCounts.

(** [String(f)] for the built-in function of Object.prototype of the
    given name *)
Variable function_text : jsstring -> jsstring.

(** the order [Array.prototype.sort] gives entries of which one is no
    number: the comparison is then NaN, no consistent order, and the
    result is the engine's *)
Variable engine_sort : list TypeChart.Slice -> list TypeChart.Slice.

(** [(counts[type] || 0) + 1] *)
Definition next_count (counts : list (jsstring * count_value)) (type : jsstring)
  : count_value :=
  match counts_own type counts with
  | Some (CountNumber n) =>
      CountNumber (nadd (if truthy_number n then n else zero) (of_Z 1))
  | Some (CountText []) => CountNumber (nadd zero (of_Z 1))
  | Some (CountText s) => CountText (s ++ js "1")
  | None =>
      if str_eqb type (js "__proto__") then CountText (js "[object Object]1")
      else if existsb (str_eqb type) object_prototype_functions
           then CountText (function_text type ++ js "1")
           else CountNumber (nadd zero (of_Z 1))
  end.

(** the callback of [tickets.forEach]; the setter of "__proto__" ignores
    a value that is no object *)
Definition countTicket (counts : list (jsstring * count_value)) (t : Ticket)
  : list (jsstring * count_value) :=
  let type := ticketTypeOf t in
  if str_eqb type (js "__proto__") then counts
  else counts_set type (next_count counts type) counts.

(** [entries.sort((a, b) => b.value - a.value)]: stable *)
Definition sort_slices (entries : list TypeChart.Slice) : list TypeChart.Slice :=
  if forallb (fun s => match TypeChart.value s with
                       | CountNumber _ => true
                       | CountText _ => false
                       end) entries
  then fold_right insert_slice [] entries
  else engine_sort entries.

(** [ticketByType] *)
Definition ticketByType (tickets : list Ticket) : list TypeChart.Slice :=
  let counts := fold_left countTicket tickets [] in
  firstn 10
    (sort_slices
       (map (fun kv => {| TypeChart.name := fst kv; TypeChart.value := snd kv |})
            (own_keys counts))).

End TypeCounts.

(** the type is no name a plain object inherits *)
Definition plain_type (type : jsstring) : bool :=
  negb (str_eqb type (js "__proto__"))
  && negb (existsb (str_eqb type) object_prototype_functions).

(** the number of tickets of a type *)
Definition type_count (type : jsstring) (tickets : list Ticket) : Z :=
  Z.of_nat (List.length (filter (fun t => str_eqb (ticketTypeOf t) type) tickets)).

(** the entry holds the number f gives for it *)
Definition counts_as (f : TypeChart.Slice -> Z) (s : TypeChart.Slice) : Prop :=
  TypeChart.value s = CountNumber (of_Z (f s)) /\ 0 <= f s < 2 ^ 53.

(** the object [counts] after the tickets seen: one property per type,
    which holds the number of tickets of the type *)
Definition counted (seen : list Ticket) (cs : list (jsstring * count_value)) : Prop :=
  NoDup (map fst cs)
  /\ forall ty, counts_own ty cs
                = if type_count ty seen =? 0 then None
                  else Some (CountNumber (of_Z (type_count ty seen))).

(** a ticket of the given type *)
Definition ticket_typed (ty : string) : Ticket :=
  {| id := []; subject := []; status := js "Open"; assignees := [];
     customer := []; priority := VString (js "Medium"); ticketType := js ty;
     owner := []; rating := zero; createdAt := epoch; resolvedAt := None;
     resolutionTimeHours := zero |}.

(** the sum of a list of integers *)
Definition zsum (l : list Z) : Z := fold_right Z.add 0 l.

(** the number of agents a ticket is counted for: its assignees that
    are not blank *)
Definition visits_of (t : Ticket) : Z :=
  Z.of_nat (List.length (filter nonblank (assignees t))).

(* ------------------------------------------------------------------ *)
(** * Checks of the run-time model *)
(* ------------------------------------------------------------------ *)

Lemma str_eqb_spec a b : reflect (a = b) (str_eqb a b).
Proof.
  revert b; induction a as [|x a IH]; intros [|y b]; simpl;
    try (constructor; congruence).
  destruct (Z.eqb_spec x y) as [->|Hne]; simpl.
  - destruct (IH b) as [->|Hne]; constructor; congruence.
  - constructor; congruence.
Qed.

Lemma str_eqb_eq a b : str_eqb a b = true <-> a = b.
Proof. destruct (str_eqb_spec a b); split; congruence. Qed.

Lemma str_eqb_refl a : str_eqb a a = true.
Proof. apply str_eqb_eq; reflexivity. Qed.

Example trim_example : trim (js "  a b  ") = js "a b".
Proof. reflexivity. Qed.

Example split_example :
  split (cu ",") (js "a,,b,") = [js "a"; js ""; js "b"; js ""].
Proof. reflexivity. Qed.

Example of_Z_3600000 : of_Z 3600000 = Fin false 7730941132800000 (-31).
Proof. reflexivity. Qed.

Example one_third :
  ndiv (of_Z 1) (of_Z 3) = Fin false 6004799503160661 (-54).
Proof. vm_compute. reflexivity. Qed.

Example tenth_plus_fifth :
  nadd (ndiv (of_Z 1) (of_Z 10)) (ndiv (of_Z 2) (of_Z 10))
  = Fin false 5404319552844596 (-54).
Proof. vm_compute. reflexivity. Qed.

Example max_double_plus_ulp :
  nadd (Fin false (2 ^ 53 - 1) 971) (Fin false (2 ^ 52) 918) = Inf false.
Proof. vm_compute. reflexivity. Qed.

Example day_of_2024_03_15 : day_of_month_start 2024 2 + 14 = 19797.
Proof. reflexivity. Qed.

Example iso_2024_03_15 : iso_parse (js "2024-03-15") = Some (false, 1710460800000).
Proof. reflexivity. Qed.

Example iso_local_datetime :
  iso_parse (js "2024-03-15T10:30") = Some (true, 1710498600000).
Proof. reflexivity. Qed.

Example iso_offset_datetime :
  iso_parse (js "2024-03-15T10:30:00.000+05:30") = Some (false, 1710478800000).
Proof. reflexivity. Qed.

Example iso_rejects_dmy : iso_parse (js "15-03-2024") = None.
Proof. reflexivity. Qed.

Example json_strings :
  JSON.parse (replaceAll (cu "'") JSON.quote (js "['a@x.com', 'b@x.com']"))
  = Normal (VArray [VString (js "a@x.com"); VString (js "b@x.com")]).
Proof. reflexivity. Qed.

Example json_nested :
  JSON.parse (js "[[1, null], {'k': [], 'toString': 1.5e0}, true ]")
  = Throw SyntaxError.
Proof. reflexivity. Qed.

Example json_nested_dq :
  JSON.parse (replaceAll (cu "'") JSON.quote
                (js "[[1, null], {'k': [], 'toString': 1.5e0}, true ]"))
  = Normal (VArray [VArray [VNumber (of_Z 1); VNull];
                    VObject [(js "k", VArray []);
                             (js "toString", VNumber (ndiv (of_Z 3) (of_Z 2)))];
                    VBool true]).
Proof. vm_compute. reflexivity. Qed.

Example json_rejects :
  map JSON.parse [js "[1,]"; js "[01]"; js "[1 2]"; js "]"; js ""; js "[tru]";
                  js "[1.]"; js "[.5]"; js "[+1]"; js "[1e]"; js "[[]"; js "{,}"]
  = repeat (Throw SyntaxError) 12.
Proof. vm_compute. reflexivity. Qed.

(* ------------------------------------------------------------------ *)
(** * Reasoning about completions and rows *)
(* ------------------------------------------------------------------ *)

Lemma bind_Normal {A B} (c : completion A) (k : A -> completion B) (b : B) :
  bind c k = Normal b -> exists a, c = Normal a /\ k a = Normal b.
Proof. destruct c as [a|e]; simpl; intros H; [eauto | discriminate]. Qed.

Lemma Normal_inj {A} (a b : A) : Normal a = Normal b -> a = b.
Proof. congruence. Qed.

(** Splits a hypothesis [x <- c ;; k = Normal b] into its first step,
    [c = Normal a], and the rest. *)
Tactic Notation "bind_inv" hyp(H) "as" ident(a) ident(Ha) :=
  apply bind_Normal in H; destruct H as (a & Ha & H).

(** What a ticket that [parseRow] returns is made of. *)
Lemma parseRow_inv h i row t :
  parseRow h i row = Normal t ->
  parseAssignees h row = Normal (assignees t)
  /\ parseStatus h row = Normal (status t)
  /\ parseCustomDate h (Creation row) = Normal (createdAt t)
  /\ (if str_eqb (status t) (js "Closed") && ToBoolean (ResolutionBy row)
      then exists r, parseCustomDate h (ResolutionBy row) = Normal r
                     /\ resolvedAt t = Some r
      else resolvedAt t = None)
  /\ parseRating h (Rating row) = Normal (rating t)
  /\ resolutionTimeHours t
     = Math_max zero
         (parseFloat (toFixed (resolutionHours (createdAt t) (resolvedAt t)) 2)).
Proof.
  unfold parseRow; intros H.
  bind_inv H as asg Hasg. bind_inv H as st Hst. bind_inv H as cr Hcr.
  bind_inv H as rs Hrs. bind_inv H as ty Hty. bind_inv H as sr Hsr.
  bind_inv H as sb Hsb. bind_inv H as cs Hcs. bind_inv H as ow How.
  bind_inv H as rt Hrt.
  apply Normal_inj in H; subst t; simpl.
  repeat split; auto.
  destruct (str_eqb st (js "Closed") && ToBoolean (ResolutionBy row)).
  - bind_inv Hrs as r Hr. apply Normal_inj in Hrs; subst. eauto.
  - apply Normal_inj in Hrs; subst; reflexivity.
Qed.

(* ------------------------------------------------------------------ *)
(** * Status *)
(* ------------------------------------------------------------------ *)

Lemma parseStatus_absent h row :
  ToBoolean (Status row) = false -> parseStatus h row = Normal (js "Open").
Proof.
  intros Hf; unfold parseStatus; rewrite Hf; simpl.
  reflexivity.
Qed.

Lemma parseStatus_present h row s :
  ToBoolean (Status row) = true ->
  ToString h (Status row) = Normal s ->
  parseStatus h row
  = Normal (if is_closed_synonym h (trim s) then js "Closed" else trim s).
Proof.
  intros Ht Hs; unfold parseStatus, is_closed_synonym.
  rewrite Ht, Hs; simpl.
  destruct (str_eqb (toLowerCase h (trim s)) (js "resolved")
            || str_eqb (toLowerCase h (trim s)) (js "completed")
            || str_eqb (toLowerCase h (trim s)) (js "verified")); reflexivity.
Qed.

(** C4, as stated, fails: a source status "Closed" yields the status
    "Closed" although it is none of the three names, and a status with
    surrounding white space is not passed through unchanged but trimmed. *)
Lemma status_closed_counterexample :
  (exists t,
      parseRow utc_host 0
        (row_of (S_ "Closed") VUndefined VUndefined VUndefined VUndefined VUndefined)
      = Normal t
      /\ status t = js "Closed"
      /\ is_closed_synonym utc_host (js "Closed") = false)
  /\ (exists t,
         parseRow utc_host 0
           (row_of (S_ " Replied ") VUndefined VUndefined VUndefined VUndefined VUndefined)
         = Normal t
         /\ status t = js "Replied"
         /\ str_eqb (status t) (js " Replied ") = false).
Proof.
  split; eexists; (split; [vm_compute; reflexivity | split; reflexivity]).
Qed.

(** C4 (amended): an absent (falsy) status yields "Open"; a present one is
    converted to a string and trimmed, and the result is "Closed" when its
    lower-cased text is "resolved", "completed" or "verified", and the
    trimmed text itself otherwise.  So the status is "Closed" exactly when
    the trimmed source is one of the three names up to case, or is
    "Closed" already. *)
Theorem status_collapse h i row t :
  parseRow h i row = Normal t ->
  (ToBoolean (Status row) = false -> status t = js "Open")
  /\ (ToBoolean (Status row) = true ->
      exists s,
        ToString h (Status row) = Normal s
        /\ status t = (if is_closed_synonym h (trim s) then js "Closed" else trim s)
        /\ (status t = js "Closed"
            <-> is_closed_synonym h (trim s) = true \/ trim s = js "Closed")).
Proof.
  intros H; apply parseRow_inv in H; destruct H as (_ & Hst & _).
  split; intros Hb.
  - rewrite (parseStatus_absent h row Hb) in Hst; congruence.
  - assert (Hs : exists s, ToString h (Status row) = Normal s).
    { unfold parseStatus in Hst; rewrite Hb in Hst.
      destruct (ToString h (Status row)) as [s|e]; [eauto | discriminate]. }
    destruct Hs as (s & Hs); exists s.
    rewrite (parseStatus_present h row s Hb Hs) in Hst.
    apply Normal_inj in Hst; split; [exact Hs | split; [congruence |]].
    rewrite <- Hst.
    destruct (is_closed_synonym h (trim s)); split; auto.
    intros [Habs | Heq]; [discriminate | exact Heq].
Qed.

(** [status_collapse] on a row whose status cell is " completed". *)
Lemma status_collapse_witness :
  exists t,
    parseRow utc_host 0
      (row_of (S_ " completed") VUndefined VUndefined VUndefined VUndefined VUndefined)
    = Normal t
    /\ status t = js "Closed"
    /\ ((ToBoolean (S_ " completed") = false -> status t = js "Open")
        /\ (ToBoolean (S_ " completed") = true ->
            exists s,
              ToString utc_host (S_ " completed") = Normal s
              /\ status t
                 = (if is_closed_synonym utc_host (trim s) then js "Closed" else trim s)
              /\ (status t = js "Closed"
                  <-> is_closed_synonym utc_host (trim s) = true
                      \/ trim s = js "Closed"))).
Proof.
  eexists; split; [vm_compute; reflexivity |].
  split; [reflexivity |].
  apply (status_collapse utc_host 0
           (row_of (S_ " completed") VUndefined VUndefined VUndefined VUndefined VUndefined)).
  vm_compute; reflexivity.
Defined.

Example status_examples :
  map (fun s => parseStatus utc_host
                  (row_of s VUndefined VUndefined VUndefined VUndefined VUndefined))
      [S_ "Resolved"; S_ "completed"; S_ "VERIFIED"; S_ "Replied"; VUndefined; S_ ""]
  = map Normal [js "Closed"; js "Closed"; js "Closed"; js "Replied"; js "Open"; js "Open"].
Proof. vm_compute. reflexivity. Qed.

(* ------------------------------------------------------------------ *)
(** * Rating *)
(* ------------------------------------------------------------------ *)

(** C6, as stated, fails: a rating cell "-3" gives the rating -3, which
    is negative. *)
Lemma rating_negative_counterexample :
  exists t,
    parseRow utc_host 0
      (row_of VUndefined VUndefined VUndefined VUndefined (S_ "-3") VUndefined)
    = Normal t
    /\ rating t = of_Z (-3)
    /\ nlt (rating t) zero = true.
Proof.
  eexists; split; [vm_compute; reflexivity | split; vm_compute; reflexivity].
Qed.

Lemma parseRating_spec h v x :
  parseRating h v = Normal x ->
  is_nan x = false
  /\ (ToBoolean v = false -> x = zero)
  /\ (ToBoolean v = true ->
      exists s, ToString h v = Normal s
        /\ x = (if truthy_number (parseFloat s) then parseFloat s else zero)).
Proof.
  unfold parseRating; intros H.
  destruct (ToBoolean v).
  - bind_inv H as s Hs. apply Normal_inj in H; subst x.
    split; [| split; [discriminate | intros _; eauto]].
    destruct (parseFloat s) as [|sg|sg m e]; simpl; try reflexivity.
    destruct (m =? 0); reflexivity.
  - apply Normal_inj in H; subst x.
    split; [reflexivity | split; [reflexivity | discriminate]].
Qed.

(** C6 (amended): the rating is never NaN; it is 0 when the rating cell is
    absent (falsy) and when its text does not parse as a number (or parses
    as a zero); otherwise it is the number [parseFloat] reads from the
    text of the cell, whatever its sign. *)
Theorem rating_spec h i row t :
  parseRow h i row = Normal t ->
  is_nan (rating t) = false
  /\ (ToBoolean (Rating row) = false -> rating t = zero)
  /\ (ToBoolean (Rating row) = true ->
      exists s,
        ToString h (Rating row) = Normal s
        /\ (is_nan (parseFloat s) = true -> rating t = zero)
        /\ (truthy_number (parseFloat s) = true -> rating t = parseFloat s)
        /\ (truthy_number (parseFloat s) = false -> rating t = zero)).
Proof.
  intros H; apply parseRow_inv in H; destruct H as (_ & _ & _ & _ & Hr & _).
  apply parseRating_spec in Hr; destruct Hr as (Hn & Hf & Ht).
  split; [exact Hn | split; [exact Hf |]].
  intros Hb; destruct (Ht Hb) as (s & Hs & Hx); exists s.
  split; [exact Hs |]; rewrite Hx.
  destruct (parseFloat s) as [|sg|sg m e]; simpl;
    repeat split; intros; try reflexivity; try discriminate;
    match goal with
    | H : ?b = _ |- context [if ?b then _ else _] => rewrite H; reflexivity
    end.
Qed.

(** [rating_spec] on a row whose rating cell is "4.5 stars". *)
Lemma rating_spec_witness :
  exists t,
    parseRow utc_host 0
      (row_of VUndefined VUndefined VUndefined VUndefined (S_ "4.5 stars") VUndefined)
    = Normal t
    /\ rating t = ndiv (of_Z 9) (of_Z 2)
    /\ (is_nan (rating t) = false
        /\ (ToBoolean (S_ "4.5 stars") = false -> rating t = zero)
        /\ (ToBoolean (S_ "4.5 stars") = true ->
            exists s,
              ToString utc_host (S_ "4.5 stars") = Normal s
              /\ (is_nan (parseFloat s) = true -> rating t = zero)
              /\ (truthy_number (parseFloat s) = true -> rating t = parseFloat s)
              /\ (truthy_number (parseFloat s) = false -> rating t = zero))).
Proof.
  eexists; split; [vm_compute; reflexivity |].
  split; [vm_compute; reflexivity |].
  apply (rating_spec utc_host 0
           (row_of VUndefined VUndefined VUndefined VUndefined (S_ "4.5 stars") VUndefined)).
  vm_compute; reflexivity.
Defined.

Example rating_examples :
  map (parseRating utc_host)
      [S_ "5"; S_ "n/a"; S_ ""; VUndefined; VNumber (of_Z 4); VNumber zero; S_ "0"; S_ "-0"]
  = map Normal [of_Z 5; zero; zero; zero; of_Z 4; zero; zero; zero].
Proof. vm_compute. reflexivity. Qed.

(* ------------------------------------------------------------------ *)
(** * Resolution date *)
(* ------------------------------------------------------------------ *)


(* ------------------------------------------------------------------ *)
(** * Trend strings *)
(* ------------------------------------------------------------------ *)

(** C8, as stated, fails: a change of zero is non-negative, yet its text
    carries no "+" sign, for equal non-zero aggregates as for two zeros. *)
Lemma trend_zero_counterexample :
  getPctDiff (of_Z 100) (of_Z 100) = zero
  /\ nge (getPctDiff (of_Z 100) (of_Z 100)) zero = true
  /\ trendText (of_Z 100) (of_Z 100) = js "0.0%"
  /\ trendText zero zero = js "0.0%".
Proof. vm_compute. repeat split; reflexivity. Qed.

Lemma getPctDiff_zero_prev curr pre :
  neqb pre zero = true ->
  getPctDiff curr pre = if neqb curr zero then zero else of_Z 100.
Proof. intros H; unfold getPctDiff; rewrite H; reflexivity. Qed.

Lemma getPctDiff_nonzero_prev curr pre :
  neqb pre zero = false ->
  getPctDiff curr pre = nmul (ndiv (nsub curr pre) pre) (of_Z 100).
Proof. intros H; unfold getPctDiff; rewrite H; reflexivity. Qed.

(** C8 (amended): the trend text is the percentage change
    ((current - previous) / previous) * 100, computed in binary64
    arithmetic and formatted to one decimal place, followed by "%", with a
    "+" in front exactly when the change is strictly positive; when
    previous is 0 the change is 0 if current is 0 too (text "0.0%") and
    100 otherwise (text "+100.0%"). *)
Theorem trendText_spec curr pre :
  (neqb pre zero = true -> neqb curr zero = true -> trendText curr pre = js "0.0%")
  /\ (neqb pre zero = true -> neqb curr zero = false ->
      trendText curr pre = js "+100.0%")
  /\ (neqb pre zero = false ->
      let d := nmul (ndiv (nsub curr pre) pre) (of_Z 100) in
      (ngt d zero = true -> trendText curr pre = js "+" ++ toFixed d 1 ++ js "%")
      /\ (ngt d zero = false -> trendText curr pre = toFixed d 1 ++ js "%")).
Proof.
  unfold trendText, formatTrend.
  split; [| split].
  - intros Hp Hc. rewrite (getPctDiff_zero_prev curr pre Hp), Hc. reflexivity.
  - intros Hp Hc. rewrite (getPctDiff_zero_prev curr pre Hp), Hc.
    vm_compute. reflexivity.
  - intros Hp. cbv zeta. rewrite (getPctDiff_nonzero_prev curr pre Hp).
    split; intros Hd; rewrite Hd; reflexivity.
Qed.

(** [trendText_spec] for 120 against 100. *)
Lemma trendText_spec_witness :
  trendText (of_Z 120) (of_Z 100) = js "+20.0%"
  /\ ((neqb (of_Z 100) zero = true -> neqb (of_Z 120) zero = true ->
       trendText (of_Z 120) (of_Z 100) = js "0.0%")
      /\ (neqb (of_Z 100) zero = true -> neqb (of_Z 120) zero = false ->
          trendText (of_Z 120) (of_Z 100) = js "+100.0%")
      /\ (neqb (of_Z 100) zero = false ->
          let d := nmul (ndiv (nsub (of_Z 120) (of_Z 100)) (of_Z 100)) (of_Z 100) in
          (ngt d zero = true ->
           trendText (of_Z 120) (of_Z 100) = js "+" ++ toFixed d 1 ++ js "%")
          /\ (ngt d zero = false ->
              trendText (of_Z 120) (of_Z 100) = toFixed d 1 ++ js "%"))).
Proof.
  split; [vm_compute; reflexivity |].
  apply (trendText_spec (of_Z 120) (of_Z 100)).
Defined.

Example trend_examples :
  map (fun cp => trendText (of_Z (fst cp)) (of_Z (snd cp)))
      [(120, 100); (0, 0); (5, 0); (100, 120); (1, 3)]
  = [js "+20.0%"; js "0.0%"; js "+100.0%"; js "-16.7%"; js "-66.7%"].
Proof. vm_compute. reflexivity. Qed.

(* ------------------------------------------------------------------ *)
(** * Facts about binary64 rounding *)
(* ------------------------------------------------------------------ *)

Lemma rhe_error n d : 0 < d -> 2 * Z.abs (round_half_even n d * d - n) <= d.
Proof.
  intros Hd; unfold round_half_even.
  pose proof (Z.div_mod n d ltac:(lia)) as Hdm.
  pose proof (Z.mod_pos_bound n d Hd) as Hr.
  destruct (2 * (n mod d) <? d) eqn:E1; [apply Z.ltb_lt in E1; lia|].
  apply Z.ltb_ge in E1.
  destruct (d <? 2 * (n mod d)) eqn:E2; [apply Z.ltb_lt in E2; lia|].
  apply Z.ltb_ge in E2.
  destruct (Z.even (n / d)); lia.
Qed.

Lemma rhe_nonneg n d : 0 <= n -> 0 < d -> 0 <= round_half_even n d.
Proof.
  intros Hn Hd; unfold round_half_even.
  pose proof (Z.div_pos n d Hn Hd).
  repeat match goal with |- context [if ?b then _ else _] => destruct b end; lia.
Qed.

Lemma rhe_scale n d c : 0 < d -> 0 < c ->
  round_half_even (n * c) (d * c) = round_half_even n d.
Proof.
  intros Hd Hc; unfold round_half_even.
  rewrite Z.div_mul_cancel_r by lia.
  rewrite Z.mul_mod_distr_r by lia.
  replace (2 * (n mod d * c) <? d * c) with (2 * (n mod d) <? d).
  2:{ destruct (Z.ltb_spec (2 * (n mod d)) d), (Z.ltb_spec (2 * (n mod d * c)) (d * c)); auto; nia. }
  replace (d * c <? 2 * (n mod d * c)) with (d <? 2 * (n mod d)).
  2:{ destruct (Z.ltb_spec d (2 * (n mod d))), (Z.ltb_spec (d * c) (2 * (n mod d * c))); auto; nia. }
  reflexivity.
Qed.

Lemma rhe_exact q d : 0 < d -> round_half_even (q * d) d = q.
Proof.
  intros Hd; unfold round_half_even.
  rewrite Z.div_mul by lia. rewrite Z.mod_mul by lia.
  destruct (Z.ltb_spec (2 * 0) d); [reflexivity | lia].
Qed.

Lemma ilog2_scale n d j : 0 < n -> 0 < d -> 0 <= j ->
  ilog2 (n * 2 ^ j) (d * 2 ^ j) = ilog2 n d.
Proof.
  intros Hn Hd Hj; unfold ilog2.
  assert (Hp : 0 < 2 ^ j) by (apply Z.pow_pos_nonneg; lia).
  rewrite !Z.log2_mul_pow2 by lia.
  replace (j + Z.log2 n - (j + Z.log2 d)) with (Z.log2 n - Z.log2 d) by lia.
  set (k := Z.log2 n - Z.log2 d).
  destruct (0 <=? k) eqn:Ek.
  - apply Z.leb_le in Ek.
    assert (0 < 2 ^ k) by (apply Z.pow_pos_nonneg; lia).
    replace (d * 2 ^ j * 2 ^ k <=? n * 2 ^ j) with (d * 2 ^ k <=? n); [reflexivity|].
    destruct (Z.leb_spec (d * 2 ^ k) n), (Z.leb_spec (d * 2 ^ j * 2 ^ k) (n * 2 ^ j)); auto; nia.
  - apply Z.leb_gt in Ek.
    assert (0 < 2 ^ (- k)) by (apply Z.pow_pos_nonneg; lia).
    replace (d * 2 ^ j <=? n * 2 ^ j * 2 ^ (- k)) with (d <=? n * 2 ^ (- k)); [reflexivity|].
    destruct (Z.leb_spec d (n * 2 ^ (- k))), (Z.leb_spec (d * 2 ^ j) (n * 2 ^ j * 2 ^ (- k))); auto; nia.
Qed.

Lemma round64_scale s n d j : 0 < n -> 0 < d -> 0 <= j ->
  round64 s (n * 2 ^ j) (d * 2 ^ j) = round64 s n d.
Proof.
  intros Hn Hd Hj; unfold round64.
  assert (Hp : 0 < 2 ^ j) by (apply Z.pow_pos_nonneg; lia).
  destruct (Z.leb_spec (n * 2 ^ j) 0); [nia|].
  destruct (Z.leb_spec n 0); [lia|].
  rewrite ilog2_scale by lia.
  set (e := Z.max (ilog2 n d - 52) (-1074)).
  destruct (0 <=? e) eqn:Ee.
  - apply Z.leb_le in Ee.
    assert (0 < 2 ^ e) by (apply Z.pow_pos_nonneg; lia).
    replace (d * 2 ^ j * 2 ^ e) with (d * 2 ^ e * 2 ^ j) by ring.
    rewrite rhe_scale by nia. reflexivity.
  - apply Z.leb_gt in Ee.
    assert (0 < 2 ^ (- e)) by (apply Z.pow_pos_nonneg; lia).
    replace (n * 2 ^ j * 2 ^ (- e)) with (n * 2 ^ (- e) * 2 ^ j) by ring.
    rewrite rhe_scale by nia. reflexivity.
Qed.

Lemma ilog2_int z : 0 < z -> ilog2 z 1 = Z.log2 z.
Proof.
  intros Hz; unfold ilog2. change (Z.log2 1) with 0. rewrite Z.sub_0_r.
  pose proof (Z.log2_nonneg z) as Hl.
  destruct (Z.leb_spec 0 (Z.log2 z)); [|lia].
  pose proof (Z.log2_spec z Hz) as [Hlo _].
  destruct (Z.leb_spec (1 * 2 ^ Z.log2 z) z); [reflexivity | lia].
Qed.

Lemma of_Z_pos z : 0 < z -> z < 2 ^ 53 ->
  of_Z z = Fin false (z * 2 ^ (52 - Z.log2 z)) (Z.log2 z - 52).
Proof.
  intros Hz Hb; unfold of_Z, round64.
  destruct (Z.ltb_spec z 0); [lia|].
  rewrite Z.abs_eq by lia.
  destruct (Z.leb_spec z 0); [lia|].
  rewrite ilog2_int by lia.
  pose proof (Z.log2_nonneg z) as Hl.
  pose proof (Z.log2_spec z Hz) as [Hlo Hhi].
  assert (Hl52 : Z.log2 z <= 52).
  { destruct (Z.le_gt_cases (Z.log2 z) 52); [assumption|].
    assert (2 ^ 53 <= 2 ^ Z.log2 z) by (apply Z.pow_le_mono_r; lia). lia. }
  rewrite Z.max_l by lia.
  set (L := Z.log2 z) in *.
  assert (Hp : 0 < 2 ^ (52 - L)) by (apply Z.pow_pos_nonneg; lia).
  assert (Hm : z * 2 ^ (52 - L) < 2 ^ 53).
  { replace 53 with ((L + 1) + (52 - L)) by lia. rewrite Z.pow_add_r by lia.
    replace (Z.succ L) with (L + 1) in Hhi by lia. nia. }
  assert (Hm0 : 0 < z * 2 ^ (52 - L)) by nia.
  assert (Hrhe : (if 0 <=? L - 52 then round_half_even z (1 * 2 ^ (L - 52))
                  else round_half_even (z * 2 ^ (- (L - 52))) 1) = z * 2 ^ (52 - L)).
  { destruct (Z.leb_spec 0 (L - 52)).
    - replace (L - 52) with 0 by lia. replace (52 - L) with 0 by lia.
      simpl. rewrite Z.mul_1_r. rewrite <- (Z.mul_1_r z) at 1. apply rhe_exact; lia.
    - replace (- (L - 52)) with (52 - L) by lia.
      rewrite <- (Z.mul_1_r (z * 2 ^ (52 - L))) at 1. apply rhe_exact; lia. }
  rewrite Hrhe.
  destruct (Z.eqb_spec (z * 2 ^ (52 - L)) 0); [lia|].
  destruct (Z.eqb_spec (z * 2 ^ (52 - L)) (2 ^ 53)); [lia|].
  destruct (Z.ltb_spec 971 (L - 52)); [lia | reflexivity].
Qed.

Lemma of_Z_holds z : Z.abs z < 2 ^ 53 -> holds_int (of_Z z) z.
Proof.
  intros Hb.
  destruct (Z.lt_trichotomy z 0) as [Hn | [-> | Hp]].
  - assert (Hz : of_Z z = nneg (of_Z (- z))).
    { unfold of_Z. rewrite Z.abs_opp.
      destruct (Z.ltb_spec z 0); [|lia]. destruct (Z.ltb_spec (- z) 0); [lia|].
      unfold round64. destruct (Z.abs z <=? 0); [reflexivity|].
      repeat match goal with |- context [if ?b then _ else _] => destruct b end; reflexivity. }
    rewrite Hz, of_Z_pos by lia. unfold nneg, holds_int, signed, negb.
    pose proof (Z.log2_nonneg (- z)).
    pose proof (Z.log2_spec (- z) ltac:(lia)) as [Hlo Hhi].
    assert (Z.log2 (- z) <= 52).
    { destruct (Z.le_gt_cases (Z.log2 (- z)) 52); [assumption|].
      assert (2 ^ 53 <= 2 ^ Z.log2 (- z)) by (apply Z.pow_le_mono_r; lia). lia. }
    assert (0 < 2 ^ (52 - Z.log2 (- z))) by (apply Z.pow_pos_nonneg; lia).
    replace (- (Z.log2 (- z) - 52)) with (52 - Z.log2 (- z)) by lia.
    repeat split; try lia; nia.
  - vm_compute. repeat split; discriminate.
  - rewrite of_Z_pos by lia. unfold holds_int, signed.
    pose proof (Z.log2_nonneg z).
    pose proof (Z.log2_spec z ltac:(lia)) as [Hlo Hhi].
    assert (Z.log2 z <= 52).
    { destruct (Z.le_gt_cases (Z.log2 z) 52); [assumption|].
      assert (2 ^ 53 <= 2 ^ Z.log2 z) by (apply Z.pow_le_mono_r; lia). lia. }
    assert (0 < 2 ^ (52 - Z.log2 z)) by (apply Z.pow_pos_nonneg; lia).
    replace (- (Z.log2 z - 52)) with (52 - Z.log2 z) by lia.
    repeat split; try lia; nia.
Qed.

Lemma pow2_split a b : 0 <= a -> 0 <= b -> 2 ^ (a + b) = 2 ^ a * 2 ^ b.
Proof. intros; apply Z.pow_add_r; lia. Qed.

Lemma holds_int_neg x a : holds_int x a -> holds_int (nneg x) (- a).
Proof.
  destruct x as [| |s m e]; simpl; try tauto.
  intros (He & Hm & Hs).
  assert (0 < 2 ^ (- e)) by (apply Z.pow_pos_nonneg; lia).
  repeat split; try lia.
  unfold signed in *. destruct s; simpl; nia.
Qed.

Lemma nadd_int x y a b :
  holds_int x a -> holds_int y b -> a + b <> 0 -> nadd x y = of_Z (a + b).
Proof.
  destruct x as [| |sx mx ex]; simpl; try tauto.
  destruct y as [| |sy my ey]; simpl; try tauto.
  intros (Hex & Hmx & Hsx) (Hey & Hmy & Hsy) Hab.
  set (e0 := Z.min ex ey).
  assert (He0 : e0 <= 0) by lia.
  assert (H0 : 0 < 2 ^ (- e0)) by (apply Z.pow_pos_nonneg; lia).
  assert (Hsum : signed sx mx * 2 ^ (ex - e0) + signed sy my * 2 ^ (ey - e0)
                 = (a + b) * 2 ^ (- e0)).
  { rewrite Hsx, Hsy.
    assert (E1 : 2 ^ (- ex) * 2 ^ (ex - e0) = 2 ^ (- e0))
      by (rewrite <- pow2_split by lia; f_equal; lia).
    assert (E2 : 2 ^ (- ey) * 2 ^ (ey - e0) = 2 ^ (- e0))
      by (rewrite <- pow2_split by lia; f_equal; lia).
    rewrite <- !Z.mul_assoc, E1, E2. ring. }
  rewrite Hsum.
  destruct (Z.eqb_spec ((a + b) * 2 ^ (- e0)) 0); [nia|].
  unfold of_Z, scale_num, scale_den.
  rewrite Z.max_r by lia. rewrite Z.max_l by lia.
  rewrite Z.pow_0_r, Z.mul_1_r.
  rewrite Z.abs_mul, (Z.abs_eq (2 ^ (- e0))) by lia.
  replace ((a + b) * 2 ^ (- e0) <? 0) with (a + b <? 0).
  2:{ destruct (Z.ltb_spec (a + b) 0), (Z.ltb_spec ((a + b) * 2 ^ (- e0)) 0); auto; nia. }
  rewrite <- (Z.mul_1_l (2 ^ (- e0))) at 2.
  apply round64_scale; lia.
Qed.

Lemma ndiv_int x y a b :
  holds_int x a -> holds_int y b -> a <> 0 -> b <> 0 ->
  ndiv x y = round64 (xorb (a <? 0) (b <? 0)) (Z.abs a) (Z.abs b).
Proof.
  destruct x as [| |sx mx ex]; simpl; try tauto.
  destruct y as [| |sy my ey]; simpl; try tauto.
  intros (Hex & Hmx & Hsx) (Hey & Hmy & Hsy) Ha Hb.
  assert (Hpx : 0 < 2 ^ (- ex)) by (apply Z.pow_pos_nonneg; lia).
  assert (Hpy : 0 < 2 ^ (- ey)) by (apply Z.pow_pos_nonneg; lia).
  assert (Hmx' : mx = Z.abs a * 2 ^ (- ex) /\ sx = (a <? 0)).
  { unfold signed in Hsx. destruct sx, (Z.ltb_spec a 0); split; auto; try nia. }
  assert (Hmy' : my = Z.abs b * 2 ^ (- ey) /\ sy = (b <? 0)).
  { unfold signed in Hsy. destruct sy, (Z.ltb_spec b 0); split; auto; try nia. }
  destruct Hmx' as (-> & ->), Hmy' as (-> & ->).
  destruct (Z.eqb_spec (Z.abs b * 2 ^ (- ey)) 0); [nia|].
  unfold scale_num, scale_den.
  set (j := Z.max (- ex) (- ey)).
  replace (Z.abs a * 2 ^ (- ex) * 2 ^ Z.max (ex - ey) 0) with (Z.abs a * 2 ^ j).
  2:{ rewrite <- Z.mul_assoc, <- pow2_split by lia. f_equal. f_equal. lia. }
  replace (Z.abs b * 2 ^ (- ey) * 2 ^ Z.max (- (ex - ey)) 0) with (Z.abs b * 2 ^ j).
  2:{ rewrite <- Z.mul_assoc, <- pow2_split by lia. f_equal. f_equal. lia. }
  apply round64_scale; lia.
Qed.

Lemma ngt_zero_int x a : holds_int x a -> ngt x zero = (0 <? a).
Proof.
  destruct x as [| |s m e]; simpl; try tauto.
  intros (He & Hm & Hs).
  unfold ngt, nlt, zero, ncompare.
  rewrite Z.min_r by lia. rewrite Hs.
  replace (e - e) with 0 by lia.
  assert (0 < 2 ^ (- e)) by (apply Z.pow_pos_nonneg; lia).
  simpl (signed false 0). rewrite Z.mul_0_l, Z.pow_0_r, Z.mul_1_r.
  destruct (Z.compare_spec 0 (a * 2 ^ (- e))), (Z.ltb_spec 0 a); auto; nia.
Qed.

(* ------------------------------------------------------------------ *)
(** * Facts about printing and reading decimal digits *)
(* ------------------------------------------------------------------ *)

Lemma digit_vals_app a b : digit_vals (a ++ b) = digit_vals a ++ digit_vals b.
Proof. apply map_app. Qed.

Lemma digit_vals_length a : List.length (digit_vals a) = List.length a.
Proof. apply length_map. Qed.

Lemma digits_value_snoc r l d :
  digits_value r (l ++ [d]) = digits_value r l * r + d.
Proof. unfold digits_value. rewrite fold_left_app. reflexivity. Qed.

Lemma digits_aux_small fuel n acc :
  0 <= n -> n < 10 ->
  exists l, digits_aux (S fuel) n acc = l ++ acc
            /\ Forall (fun c => is_digit c = true) l
            /\ l <> []
            /\ digits_value 10 (digit_vals l) = n.
Proof.
  intros Hn Hlt. exists [48 + n mod 10].
  cbn [digits_aux]. destruct (Z.ltb_spec n 10); [|lia].
  split; [reflexivity|]. split; [|split].
  - constructor; [|constructor].
    unfold is_digit. rewrite Z.mod_small by lia.
    apply andb_true_intro; split; apply Z.leb_le; lia.
  - discriminate.
  - unfold digit_vals, digits_value; cbn [map fold_left]. rewrite Z.mod_small by lia. lia.
Qed.

Lemma digits_aux_spec fuel : forall n acc,
  0 <= n -> n < 2 ^ Z.of_nat (S fuel) ->
  exists l, digits_aux (S fuel) n acc = l ++ acc
            /\ Forall (fun c => is_digit c = true) l
            /\ l <> []
            /\ digits_value 10 (digit_vals l) = n.
Proof.
  induction fuel as [|f IH]; intros n acc Hn Hb.
  - apply digits_aux_small; [lia|]. change (2 ^ Z.of_nat 1) with 2 in Hb. lia.
  - destruct (Z.ltb_spec n 10) as [Hlt | Hge]; [apply digits_aux_small; lia|].
    assert (Hd : is_digit (48 + n mod 10) = true).
    { unfold is_digit; pose proof (Z.mod_pos_bound n 10 ltac:(lia)).
      apply andb_true_intro; split; apply Z.leb_le; lia. }
    assert (Hf : n / 10 < 2 ^ Z.of_nat (S f)).
    { rewrite (Nat2Z.inj_succ (S f)), Z.pow_succ_r in Hb by lia.
      apply Z.div_lt_upper_bound; lia. }
    destruct (IH (n / 10) ((48 + n mod 10) :: acc)
                ltac:(apply Z.div_pos; lia) Hf) as (l & El & Fl & _ & Vl).
    exists (l ++ [48 + n mod 10]). split; [| split; [| split]].
    + change (digits_aux (S (S f)) n acc)
        with (if n <? 10 then (48 + n mod 10) :: acc
              else digits_aux (S f) (n / 10) ((48 + n mod 10) :: acc)).
      destruct (Z.ltb_spec n 10); [lia|].
      rewrite El, <- app_assoc. reflexivity.
    + apply Forall_app; split; [exact Fl | constructor; [exact Hd | constructor]].
    + destruct l; discriminate.
    + rewrite digit_vals_app. change (digit_vals [48 + n mod 10]) with [48 + n mod 10 - 48].
      rewrite digits_value_snoc, Vl.
      pose proof (Z.div_mod n 10 ltac:(lia)). lia.
Qed.

Lemma digits_of_spec n : 0 <= n ->
  Forall (fun c => is_digit c = true) (digits_of n)
  /\ digits_of n <> []
  /\ digits_value 10 (digit_vals (digits_of n)) = n.
Proof.
  intros Hn. unfold digits_of.
  destruct (digits_aux_spec (Z.to_nat (Z.log2 n)) n [] Hn) as (l & El & Fl & Nl & Vl).
  - rewrite Nat2Z.inj_succ, Z2Nat.id by apply Z.log2_nonneg.
    destruct (Z.eq_dec n 0) as [-> | Hz]; [reflexivity|].
    apply Z.log2_spec; lia.
  - rewrite El, app_nil_r. auto.
Qed.

Lemma span_digits_app a r :
  Forall (fun c => is_digit c = true) a ->
  (match r with c :: _ => is_digit c = false | [] => True end) ->
  span_digits (a ++ r) = (digit_vals a, r).
Proof.
  intros Ha Hr. induction Ha as [|c a Hc _ IH]; cbn [span_digits app].
  - destruct r as [|c r]; [reflexivity | cbn [span_digits]; rewrite Hr; reflexivity].
  - rewrite Hc, IH. reflexivity.
Qed.

Lemma digits_value_zeros k l :
  digits_value 10 (digit_vals (zeros k ++ l)) = digits_value 10 (digit_vals l).
Proof.
  unfold zeros. induction (Z.to_nat k) as [|j IH]; [reflexivity|].
  simpl. unfold digits_value in *. simpl. exact IH.
Qed.

Lemma zeros_digits k : Forall (fun c => is_digit c = true) (zeros k).
Proof. unfold zeros. apply Forall_forall. intros x Hx. apply repeat_spec in Hx. subst. reflexivity. Qed.

Lemma zeros_length k : 0 <= k -> Z.of_nat (List.length (zeros k)) = k.
Proof. intros; unfold zeros. rewrite repeat_length. lia. Qed.

Lemma digit_not_ws c : is_digit c = true -> is_white_space c = false.
Proof.
  unfold is_digit, is_white_space. intros H.
  apply andb_prop in H; destruct H as [H1 H2].
  apply Z.leb_le in H1, H2.
  repeat match goal with
         | |- context [?a <=? ?b] => destruct (Z.leb_spec a b); try lia
         | |- context [?a =? ?b] => destruct (Z.eqb_spec a b); try lia
         end; reflexivity.
Qed.

(** what [parseFloat] reads from digits, a point and digits *)
Lemma parseFloat_fixed (neg : bool) a b :
  Forall (fun c => is_digit c = true) a -> a <> [] ->
  Forall (fun c => is_digit c = true) b ->
  parseFloat ((if neg then js "-" else []) ++ a ++ js "." ++ b)
  = dec_to_number neg (digits_value 10 (digit_vals (a ++ b)))
                  (- Z.of_nat (List.length b)).
Proof.
  intros Ha Hne Hb.
  destruct a as [|c a]; [congruence|].
  assert (Hc : is_digit c = true) by (inversion Ha; assumption).
  assert (Hc' : 48 <= c <= 57).
  { unfold is_digit in Hc. apply andb_prop in Hc. destruct Hc as [H1 H2].
    apply Z.leb_le in H1, H2. lia. }
  unfold parseFloat.
  assert (Hsign : take_sign (trimStart ((if neg then js "-" else []) ++ (c :: a) ++ js "." ++ b))
                  = (neg, (c :: a) ++ js "." ++ b)).
  { destruct neg.
    - reflexivity.
    - cbn [app trimStart]. rewrite (digit_not_ws c Hc).
      unfold take_sign.
      destruct (Z.eqb_spec c (cu "-")) as [E|_]; [vm_compute in E; lia|].
      destruct (Z.eqb_spec c (cu "+")) as [E|_]; [vm_compute in E; lia|].
      reflexivity. }
  rewrite Hsign.
  assert (Hinf : has_prefix (js "Infinity") ((c :: a) ++ js "." ++ b) = false).
  { change (js "Infinity") with (73 :: js "nfinity"). cbn [app has_prefix].
    destruct (Z.eqb_spec 73 c); [lia | reflexivity]. }
  rewrite Hinf.
  rewrite (span_digits_app (c :: a) (js "." ++ b) Ha) by reflexivity.
  change (js "." ++ b) with (46 :: b).
  change (46 =? cu ".") with true. cbn iota.
  replace b with (b ++ []) at 1 by apply app_nil_r.
  rewrite (span_digits_app b [] Hb I).
  change (46 =? cu ".") with true. cbv beta iota.
  rewrite <- digit_vals_app.
  destruct (digit_vals ((c :: a) ++ b)) eqn:E; [discriminate|].
  rewrite <- E. cbn [exponent_part]. rewrite digit_vals_length. f_equal.
Qed.

Lemma scale_den_pos e : 0 < scale_den e.
Proof. unfold scale_den. apply Z.pow_pos_nonneg; lia. Qed.

Lemma scale_num_nonneg m e : 0 <= m -> 0 <= scale_num m e.
Proof.
  intros; unfold scale_num.
  assert (0 < 2 ^ Z.max e 0) by (apply Z.pow_pos_nonneg; lia). nia.
Qed.

Lemma fixed_digits_nonneg m e f : 0 <= m -> 0 <= f -> 0 <= fixed_digits m e f.
Proof.
  intros Hm Hf; unfold fixed_digits.
  pose proof (scale_den_pos e). pose proof (scale_num_nonneg m e Hm).
  assert (0 < 10 ^ f) by (apply Z.pow_pos_nonneg; lia).
  apply Z.div_pos; nia.
Qed.

(** [parseFloat(x.toFixed(2))] reads back the hundredths that [toFixed]
    printed. *)
Lemma parseFloat_toFixed2 s m e :
  0 <= m -> scale_num m e < 10 ^ 21 * scale_den e ->
  parseFloat (toFixed (Fin s m e) 2)
  = dec_to_number (s && negb (m =? 0)) (fixed_digits m e 2) (-2).
Proof.
  intros Hm Hb. unfold toFixed.
  destruct (Z.leb_spec (10 ^ 21 * scale_den e) (scale_num m e)); [lia|].
  destruct (digits_of_spec (fixed_digits m e 2) (fixed_digits_nonneg m e 2 Hm ltac:(lia)))
    as (Fd & Nd & Vd).
  set (ds0 := digits_of (fixed_digits m e 2)) in *.
  set (ds := if Z.of_nat (List.length ds0) <=? 2
             then zeros (2 + 1 - Z.of_nat (List.length ds0)) ++ ds0 else ds0).
  assert (Fds : Forall (fun c => is_digit c = true) ds).
  { unfold ds. destruct (Z.of_nat (List.length ds0) <=? 2); [|exact Fd].
    apply Forall_app; split; [apply zeros_digits | exact Fd]. }
  assert (Vds : digits_value 10 (digit_vals ds) = fixed_digits m e 2).
  { unfold ds. destruct (Z.of_nat (List.length ds0) <=? 2); [|exact Vd].
    rewrite digits_value_zeros. exact Vd. }
  assert (Lds : (3 <= List.length ds)%nat).
  { unfold ds. destruct (Z.leb_spec (Z.of_nat (List.length ds0)) 2).
    - rewrite length_app.
      pose proof (zeros_length (2 + 1 - Z.of_nat (List.length ds0)) ltac:(lia)). lia.
    - lia. }
  change (2 =? 0) with false. cbv iota.
  change (Z.to_nat 2) with 2%nat.
  set (cut := (List.length ds - 2)%nat).
  assert (Fsplit : Forall (fun c => is_digit c = true) (firstn cut ds)
                   /\ Forall (fun c => is_digit c = true) (skipn cut ds)).
  { apply Forall_app. rewrite firstn_skipn. exact Fds. }
  destruct Fsplit as (Fa & Fb).
  rewrite (parseFloat_fixed (s && negb (m =? 0)) (firstn cut ds) (skipn cut ds) Fa).
  - rewrite firstn_skipn, Vds, length_skipn.
    replace (Z.of_nat (List.length ds - cut)) with 2 by (unfold cut; lia).
    reflexivity.
  - intros Hnil. apply (f_equal (@List.length _)) in Hnil.
    rewrite length_firstn in Hnil. simpl in Hnil. unfold cut in Hnil. lia.
  - exact Fb.
Qed.

(** [Math.max(0, x)] for a number read from a decimal text *)
Lemma Math_max_zero_round64 s n d :
  0 <= n -> 0 < d ->
  Math_max zero (round64 s n d) = if s then zero else round64 false n d.
Proof.
  intros Hn Hd. unfold round64.
  destruct (n <=? 0); [destruct s; reflexivity|].
  set (e := Z.max (ilog2 n d - 52) (-1074)).
  set (m := if 0 <=? e then round_half_even n (d * 2 ^ e)
            else round_half_even (n * 2 ^ (- e)) d).
  assert (Hm : 0 <= m).
  { unfold m. destruct (Z.leb_spec 0 e).
    - assert (0 < 2 ^ e) by (apply Z.pow_pos_nonneg; lia).
      unfold round_half_even.
      pose proof (Z.div_pos n (d * 2 ^ e) Hn ltac:(nia)).
      repeat match goal with |- context [if ?b then _ else _] => destruct b end; lia.
    - assert (0 < 2 ^ (- e)) by (apply Z.pow_pos_nonneg; lia).
      unfold round_half_even.
      pose proof (Z.div_pos (n * 2 ^ (- e)) d ltac:(nia) Hd).
      repeat match goal with |- context [if ?b then _ else _] => destruct b end; lia. }
  assert (Hcmp : forall mm ee, 0 < mm ->
            Math_max zero (Fin s mm ee) = if s then zero else Fin false mm ee).
  { intros mm ee Hmm. unfold Math_max, zero, ncompare.
    assert (0 < 2 ^ (ee - Z.min 0 ee)) by (apply Z.pow_pos_nonneg; lia).
    destruct s; unfold signed.
    - destruct (Z.compare_spec (0 * 2 ^ (0 - Z.min 0 ee)) (- mm * 2 ^ (ee - Z.min 0 ee)));
        try reflexivity; nia.
    - destruct (Z.compare_spec (0 * 2 ^ (0 - Z.min 0 ee)) (mm * 2 ^ (ee - Z.min 0 ee)));
        try reflexivity; nia. }
  destruct (Z.eqb_spec m 0); [destruct s; reflexivity|].
  destruct (Z.eqb_spec m (2 ^ 53)).
  - destruct (971 <? e + 1); [destruct s; reflexivity|].
    apply Hcmp. reflexivity.
  - destruct (971 <? e); [destruct s; reflexivity|].
    apply Hcmp. lia.
Qed.

(* ------------------------------------------------------------------ *)
(** * Resolution time *)
(* ------------------------------------------------------------------ *)

Lemma hundredths_bound N m P k n :
  0 < P -> 1 <= k -> 2097152 <= k * P ->
  2 * Z.abs (k * m * 3600000 - N * (k * P)) <= 3600000 ->
  2 * P * n <= 200 * m + P < 2 * P * n + 2 * P ->
  2 * Z.abs (36000 * n - N) <= 36000.
Proof.
  intros HP Hk HkP Herr [Hlo Hhi].
  destruct (Z_le_gt_dec (36000 * n - N) 18000) as [Hu | Hu];
    destruct (Z_le_gt_dec (N - 36000 * n) 18000) as [Hl | Hl]; try lia; exfalso.
  - assert (H1 : (N - 36000 * n - 18001) * (2 * k * P) >= 0) by nia.
    nia.
  - assert (H1 : (36000 * n - N - 18001) * (2 * k * P) >= 0) by nia.
    nia.
Qed.

Lemma log2_le_52 z : 0 < z -> z < 2 ^ 53 -> 0 <= Z.log2 z <= 52.
Proof.
  intros Hz Hb. split; [apply Z.log2_nonneg|].
  pose proof (Z.log2_spec z Hz) as [Hlo _].
  destruct (Z.le_gt_cases (Z.log2 z) 52); [assumption|].
  assert (2 ^ 53 <= 2 ^ Z.log2 z) by (apply Z.pow_le_mono_r; lia). lia.
Qed.

(** The quotient of a number of milliseconds by the milliseconds of an
    hour, as binary64 computes it, and the hundredths [toFixed(2)] prints
    for it: they are the quotient rounded to two decimals. *)
Lemma round64_hours sg N :
  0 < N -> N < 2 ^ 53 ->
  exists m e,
    round64 sg N 3600000 = Fin sg m e
    /\ 0 < m
    /\ scale_num m e < 10 ^ 21 * scale_den e
    /\ 2 * Z.abs (36000 * fixed_digits m e 2 - N) <= 36000.
Proof.
  intros HN Hb. unfold round64.
  destruct (Z.leb_spec N 0); [lia|].
  assert (HL : -22 <= ilog2 N 3600000 <= 31).
  { unfold ilog2. change (Z.log2 3600000) with 21.
    pose proof (log2_le_52 N HN Hb).
    match goal with |- context [if ?b then _ else _] => destruct b end; lia. }
  set (L := ilog2 N 3600000) in *.
  rewrite Z.max_l by lia.
  destruct (Z.leb_spec 0 (L - 52)); [lia|].
  set (P0 := 2 ^ (- (L - 52))).
  assert (HP0 : 2097152 <= P0).
  { unfold P0. change 2097152 with (2 ^ 21). apply Z.pow_le_mono_r; lia. }
  pose proof (rhe_error (N * P0) 3600000 ltac:(lia)) as Herr.
  set (m0 := round_half_even (N * P0) 3600000) in *.
  assert (Hm0 : 0 < m0) by nia.
  destruct (Z.eqb_spec m0 0); [lia|].
  assert (Hfix : forall m e k, e < 0 -> 1 <= k -> 2 ^ (- e) * k = P0 -> m * k = m0 ->
            scale_num m e < 10 ^ 21 * scale_den e
            /\ 2 * Z.abs (36000 * fixed_digits m e 2 - N) <= 36000).
  { intros m e k He Hk HP Hm.
    unfold fixed_digits, scale_num, scale_den.
    rewrite Z.max_r by lia. rewrite Z.max_l by lia.
    rewrite Z.pow_0_r, Z.mul_1_r.
    set (P := 2 ^ (- e)) in *.
    assert (0 < P) by (apply Z.pow_pos_nonneg; lia).
    split; [nia|].
    apply (hundredths_bound N m P k); [lia | lia | lia | |].
    - replace (k * m * 3600000 - N * (k * P))
        with (m0 * 3600000 - N * P0) by (rewrite <- HP, <- Hm; ring). exact Herr.
    - change (10 ^ 2) with 100.
      pose proof (Z.div_mod (2 * m * 100 + P) (2 * P) ltac:(lia)).
      pose proof (Z.mod_pos_bound (2 * m * 100 + P) (2 * P) ltac:(lia)). lia. }
  destruct (Z.eqb_spec m0 (2 ^ 53)) as [E53 | N53].
  - destruct (Z.ltb_spec 971 (L - 52 + 1)); [lia|].
    exists (2 ^ 52), (L - 52 + 1). split; [reflexivity|]. split; [reflexivity|].
    apply (Hfix (2 ^ 52) (L - 52 + 1) 2); try lia.
    unfold P0. replace (- (L - 52)) with (- (L - 52 + 1) + 1) by lia.
    rewrite Z.pow_add_r by lia. reflexivity.
  - destruct (Z.ltb_spec 971 (L - 52)); [lia|].
    exists m0, (L - 52). split; [reflexivity|]. split; [exact Hm0|].
    apply (Hfix m0 (L - 52) 1); try lia.
Qed.

Lemma nadd_int_cancel x y a :
  holds_int x a -> holds_int y (- a) -> 0 < a -> nadd x y = zero.
Proof.
  destruct x as [| |sx mx ex]; simpl; try tauto.
  destruct y as [| |sy my ey]; simpl; try tauto.
  intros (Hex & Hmx & Hsx) (Hey & Hmy & Hsy) Ha.
  set (e0 := Z.min ex ey).
  assert (E1 : 2 ^ (- ex) * 2 ^ (ex - e0) = 2 ^ (- e0))
    by (rewrite <- pow2_split by lia; f_equal; lia).
  assert (E2 : 2 ^ (- ey) * 2 ^ (ey - e0) = 2 ^ (- e0))
    by (rewrite <- pow2_split by lia; f_equal; lia).
  rewrite Hsx, Hsy, <- !Z.mul_assoc, E1, E2.
  replace (a * 2 ^ (- e0) + - a * 2 ^ (- e0)) with 0 by ring.
  assert (sx = false).
  { assert (0 < 2 ^ (- ex)) by (apply Z.pow_pos_nonneg; lia).
    unfold signed in Hsx. destruct sx; [nia | reflexivity]. }
  subst sx. reflexivity.
Qed.

Lemma ms_per_hour : nmul (nmul (of_Z 1000) (of_Z 60)) (of_Z 60) = of_Z 3600000.
Proof. vm_compute. reflexivity. Qed.

Lemma getTime_gt_zero z : Z.abs z <= maxTime -> ngt (getTime (Some z)) zero = (0 <? z).
Proof.
  intros Hz. apply ngt_zero_int. apply of_Z_holds.
  unfold maxTime in Hz. change (2 ^ 53) with 9007199254740992. lia.
Qed.

Lemma rounded_zero : Math_max zero (parseFloat (toFixed zero 2)) = zero.
Proof. vm_compute. reflexivity. Qed.

Lemma Math_max_zero_ge y : is_nan y = false -> nge (Math_max zero y) zero = true.
Proof.
  destruct y as [|s|s m e]; [discriminate | destruct s; reflexivity |].
  intros _. unfold Math_max.
  destruct (ncompare zero (Fin s m e)) as [[| |]|] eqn:E.
  - reflexivity.
  - unfold nge, nle. rewrite E. reflexivity.
  - reflexivity.
  - discriminate E.
Qed.

Lemma round64_not_nan s n d : is_nan (round64 s n d) = false.
Proof.
  unfold round64.
  repeat match goal with |- context [if ?b then _ else _] => destruct b end;
    reflexivity.
Qed.

(** The resolution time of a ticket created at c and resolved at r, both
    after the epoch. *)
Lemma resolution_rounded c r :
  0 < c <= maxTime -> 0 < r <= maxTime ->
  let x := Math_max zero
             (parseFloat (toFixed (resolutionHours (Some c) (Some (Some r))) 2)) in
  nge x zero = true
  /\ (c <= r -> exists n, 0 <= n /\ 2 * Z.abs (36000 * n - (r - c)) <= 36000
                          /\ x = round64 false n 100)
  /\ (r < c -> x = zero).
Proof.
  intros Hc Hr x. unfold maxTime in *.
  assert (H53 : 2 ^ 53 = 9007199254740992) by reflexivity.
  assert (Hx : x = Math_max zero
                 (parseFloat (toFixed (ndiv (nsub (of_Z r) (of_Z c)) (of_Z 3600000)) 2))).
  { unfold x, resolutionHours.
    rewrite !getTime_gt_zero by (unfold maxTime; lia).
    destruct (Z.ltb_spec 0 c); [|lia]. destruct (Z.ltb_spec 0 r); [|lia].
    cbn [andb getTime]. rewrite ms_per_hour. reflexivity. }
  assert (Hhc : holds_int (of_Z c) c) by (apply of_Z_holds; lia).
  assert (Hhr : holds_int (of_Z r) r) by (apply of_Z_holds; lia).
  assert (Hhd : holds_int (of_Z 3600000) 3600000) by (apply of_Z_holds; lia).
  destruct (Z.eq_dec r c) as [-> | Hne].
  - assert (Hx0 : x = zero).
    { rewrite Hx. unfold nsub.
      rewrite (nadd_int_cancel (of_Z c) (nneg (of_Z c)) c Hhc
                 (holds_int_neg _ _ Hhc) ltac:(lia)).
      vm_compute. reflexivity. }
    split; [rewrite Hx0; reflexivity |].
    split; [intros _ | lia].
    exists 0. split; [lia | split; [lia |]].
    rewrite Hx0. reflexivity.
  - assert (Hdiff : nsub (of_Z r) (of_Z c) = of_Z (r - c)).
    { unfold nsub. replace (r - c) with (r + - c) by lia.
      apply nadd_int; [exact Hhr | apply holds_int_neg; exact Hhc | lia]. }
    assert (Hq : ndiv (of_Z (r - c)) (of_Z 3600000)
                 = round64 (r - c <? 0) (Z.abs (r - c)) 3600000).
    { rewrite (ndiv_int (of_Z (r - c)) (of_Z 3600000) (r - c) 3600000
                 (of_Z_holds (r - c) ltac:(lia)) Hhd ltac:(lia) ltac:(lia)).
      change (3600000 <? 0) with false. rewrite xorb_false_r. reflexivity. }
    destruct (round64_hours (r - c <? 0) (Z.abs (r - c)) ltac:(lia) ltac:(lia))
      as (m & e & Em & Hm & Hguard & Hn).
    rewrite Hdiff, Hq, Em, parseFloat_toFixed2 in Hx by lia.
    destruct (Z.eqb_spec m 0); [lia|]. rewrite andb_true_r in Hx.
    assert (Hd : forall s n, dec_to_number s n (-2) = round64 s n 100) by reflexivity.
    rewrite Hd in Hx.
    split; [rewrite Hx; apply Math_max_zero_ge, round64_not_nan |].
    rewrite Math_max_zero_round64 in Hx
      by (try lia; apply fixed_digits_nonneg; lia).
    split; intros Hcr.
    + destruct (Z.ltb_spec (r - c) 0); [lia|].
      exists (fixed_digits m e 2). split; [apply fixed_digits_nonneg; lia|].
      split; [|exact Hx]. rewrite (Z.abs_eq (r - c)) in Hn by lia. exact Hn.
    + destruct (Z.ltb_spec (r - c) 0); [exact Hx | lia].
Qed.

Lemma TimeClip_ok x : time_ok (TimeClip x).
Proof.
  unfold TimeClip.
  destruct (is_finite x); [|exact I].
  destruct (to_Z (trunc x)) as [z|]; [|exact I].
  destruct (Z.leb_spec (Z.abs z) maxTime); [assumption | exact I].
Qed.

Lemma manualDate_ok h s d : manualDate h s = Normal d -> time_ok d.
Proof.
  unfold manualDate.
  destruct (split (cu "-") (nth 0 (split (cu " ") (replaceAll (cu "/") (cu "-")
              (replaceAll (cu ".") (cu "-") s))) [])) as [|p0 [|p1 [|p2 [|p3 ps]]]];
    try (intros H; apply Normal_inj in H; subst d; simpl; unfold maxTime; lia).
  destruct (Z.of_nat (List.length p0) =? 4);
    destruct (nth_error _ 1) as [[|c r]|];
    intros H; apply Normal_inj in H; subst d; apply TimeClip_ok.
Qed.

Lemma parseCustomDate_ok h v d :
  date_cell_ok v -> parseCustomDate h v = Normal d -> time_ok d.
Proof.
  intros Hv. unfold parseCustomDate.
  assert (He : time_ok epoch) by (simpl; unfold maxTime; lia).
  destruct (negb (ToBoolean v) || is_string v (js "-"));
    [intros H; apply Normal_inj in H; subst d; exact He |].
  assert (Hgen : forall s,
            (if str_eqb (trim s) [] || str_eqb (toLowerCase h s) (js "null")
             then Normal epoch
             else if negb (is_nan (getTime (Date_of_string h s)))
                  then Normal (Date_of_string h s)
                  else try_catch (manualDate h s) (fun _ => Normal epoch))
            = Normal d -> time_ok d).
  { intros s.
    destruct (str_eqb (trim s) [] || str_eqb (toLowerCase h s) (js "null"));
      [intros H; apply Normal_inj in H; subst d; exact He|].
    destruct (negb (is_nan (getTime (Date_of_string h s))));
      [intros H; apply Normal_inj in H; subst d; apply TimeClip_ok|].
    destruct (manualDate h s) as [d'|e] eqn:Em; simpl;
      intros H; apply Normal_inj in H; subst d;
      [apply (manualDate_ok h s); exact Em | exact He]. }
  destruct v as [| |b|n|s|tv|l|props];
    try (intros H; apply bind_Normal in H; destruct H as (s0 & _ & H);
         exact (Hgen s0 H)).
  destruct (is_nan (getTime tv));
    intros H; apply Normal_inj in H; subst d; [exact He | exact Hv].
Qed.

Lemma ngt_nan_zero : ngt NaN zero = false.
Proof. reflexivity. Qed.

(** The rounded resolution time, by cases on the two dates. *)
Lemma resolution_cases (created : time_value) (resolved : option time_value) :
  time_ok created ->
  (forall r, resolved = Some r -> time_ok r) ->
  let x := Math_max zero (parseFloat (toFixed (resolutionHours created resolved) 2)) in
  nge x zero = true
  /\ (forall c r, created = Some c -> resolved = Some (Some r) -> 0 < c -> 0 < r ->
      (c <= r -> exists n, 0 <= n /\ 2 * Z.abs (36000 * n - (r - c)) <= 36000
                           /\ x = round64 false n 100)
      /\ (r < c -> x = zero))
  /\ ((forall c r, created = Some c -> resolved = Some (Some r) -> c <= 0 \/ r <= 0) ->
      x = zero).
Proof.
  intros Hc Hr x.
  assert (Hzero : resolutionHours created resolved = zero -> x = zero).
  { intros E. unfold x. rewrite E. exact rounded_zero. }
  destruct resolved as [[r|]|]; destruct created as [c|];
    try (assert (Hx0 : x = zero)
           by (apply Hzero; unfold resolutionHours; cbn [getTime];
               rewrite ?ngt_nan_zero, ?andb_false_r; reflexivity);
         split; [rewrite Hx0; reflexivity |];
         split; [intros c0 r0 E1 E2; discriminate | intros _; exact Hx0]).
  specialize (Hr (Some r) eq_refl). simpl in Hc, Hr.
  destruct (Z.lt_ge_cases 0 c) as [Hcp | Hcn];
    [destruct (Z.lt_ge_cases 0 r) as [Hrp | Hrn] |].
  - destruct (resolution_rounded c r ltac:(lia) ltac:(lia)) as (Hge & Hle & Hlt).
    fold x in Hge, Hle, Hlt.
    split; [exact Hge |].
    split.
    + intros c0 r0 E1 E2 _ _. injection E1 as <-. injection E2 as <-.
      split; assumption.
    + intros Hno. destruct (Hno c r eq_refl eq_refl); lia.
  - assert (Hx0 : x = zero).
    { apply Hzero. unfold resolutionHours.
      rewrite (getTime_gt_zero r Hr). destruct (Z.ltb_spec 0 r); [lia|].
      rewrite andb_false_r. reflexivity. }
    split; [rewrite Hx0; reflexivity |].
    split; [| intros _; exact Hx0].
    intros c0 r0 E1 E2 H1 H2. injection E2 as <-. lia.
  - assert (Hx0 : x = zero).
    { apply Hzero. unfold resolutionHours.
      rewrite (getTime_gt_zero c Hc). destruct (Z.ltb_spec 0 c); [lia|].
      reflexivity. }
    split; [rewrite Hx0; reflexivity |].
    split; [| intros _; exact Hx0].
    intros c0 r0 E1 E2 H1 H2. injection E1 as <-. lia.
Qed.

(** C1: the resolution time of a built ticket is never negative.  When
    the ticket was created at c and resolved at r, both valid instants
    after the epoch, it is (r - c) in hours rounded to two decimals: the
    number nearest to n / 100 for an integer n nearest to (r - c) / 36000
    (an hour has 3600000 ms), and 0 when r is before c.  In every other
    case (no resolution date, an invalid date, a date at or before the
    epoch) it is 0. *)
Theorem resolutionTimeHours_spec h i row t :
  date_cell_ok (Creation row) ->
  date_cell_ok (ResolutionBy row) ->
  parseRow h i row = Normal t ->
  nge (resolutionTimeHours t) zero = true
  /\ (forall c r,
        createdAt t = Some c -> resolvedAt t = Some (Some r) -> 0 < c -> 0 < r ->
        (c <= r ->
         exists n, 0 <= n /\ 2 * Z.abs (36000 * n - (r - c)) <= 36000
                   /\ resolutionTimeHours t = round64 false n 100)
        /\ (r < c -> resolutionTimeHours t = zero))
  /\ ((forall c r,
         createdAt t = Some c -> resolvedAt t = Some (Some r) -> c <= 0 \/ r <= 0) ->
      resolutionTimeHours t = zero).
Proof.
  intros Hc Hr H. apply parseRow_inv in H.
  destruct H as (_ & _ & Hcr & Hrs & _ & Hx).
  rewrite Hx. apply resolution_cases.
  - exact (parseCustomDate_ok h _ _ Hc Hcr).
  - intros r Er.
    destruct (str_eqb (status t) (js "Closed") && ToBoolean (ResolutionBy row)).
    + destruct Hrs as (r' & Hp & Er'). rewrite Er' in Er. injection Er as <-.
      exact (parseCustomDate_ok h _ _ Hr Hp).
    + rewrite Hrs in Er. discriminate.
Qed.

(** [resolutionTimeHours_spec] on a ticket created on 15-03-2024 and
    resolved at 10:30 the day after: 34.5 hours. *)
Lemma resolutionTimeHours_spec_witness :
  exists t,
    parseRow ist_host 0
      (row_of (S_ "Resolved") (S_ "16-03-2024 10:30") VUndefined VUndefined VUndefined
              (S_ "15-03-2024"))
    = Normal t
    /\ resolutionTimeHours t = ndiv (of_Z 69) (of_Z 2)
    /\ (nge (resolutionTimeHours t) zero = true
        /\ (forall c r,
              createdAt t = Some c -> resolvedAt t = Some (Some r) -> 0 < c -> 0 < r ->
              (c <= r ->
               exists n, 0 <= n /\ 2 * Z.abs (36000 * n - (r - c)) <= 36000
                         /\ resolutionTimeHours t = round64 false n 100)
              /\ (r < c -> resolutionTimeHours t = zero))
        /\ ((forall c r,
               createdAt t = Some c -> resolvedAt t = Some (Some r) -> c <= 0 \/ r <= 0) ->
            resolutionTimeHours t = zero)).
Proof.
  eexists; split; [vm_compute; reflexivity |].
  split; [vm_compute; reflexivity |].
  apply (resolutionTimeHours_spec ist_host 0
           (row_of (S_ "Resolved") (S_ "16-03-2024 10:30") VUndefined VUndefined VUndefined
                   (S_ "15-03-2024"))).
  - exact I.
  - exact I.
  - vm_compute; reflexivity.
Defined.

(** 1 h 0 min 18 s is 1.005 h; the binary64 quotient lies just below
    1.005, so it is printed as "1.00": a tie of the exact quotient goes
    whichever way the binary64 quotient falls. *)
Example resolution_tie :
  Math_max zero
    (parseFloat
       (toFixed (resolutionHours (Some 1710460800000) (Some (Some 1710464418000))) 2))
  = of_Z 1.
Proof. vm_compute. reflexivity. Qed.

Example resolution_clamped :
  Math_max zero
    (parseFloat
       (toFixed (resolutionHours (Some 1710464418000) (Some (Some 1710460800000))) 2))
  = zero.
Proof. vm_compute. reflexivity. Qed.

(* ------------------------------------------------------------------ *)
(** * The date parser *)
(* ------------------------------------------------------------------ *)

Lemma ToString_scalar h v :
  is_scalar v = true -> exists s, ToString h v = Normal s.
Proof.
  destruct v; simpl; intros H; try discriminate; eauto.
Qed.

Lemma manualDate_total h s : exists d, manualDate h s = Normal d.
Proof.
  unfold manualDate.
  destruct (split (cu "-") (nth 0 (split (cu " ") (replaceAll (cu "/") (cu "-")
              (replaceAll (cu ".") (cu "-") s))) [])) as [|p0 [|p1 [|p2 [|p3 ps]]]];
    eauto.
  destruct (Z.of_nat (List.length p0) =? 4);
    destruct (nth_error _ 1) as [[|c r]|]; eauto.
Qed.

(** The date parser raises nothing on a scalar: it always returns a Date. *)
Lemma parseCustomDate_total h v :
  is_scalar v = true -> exists d, parseCustomDate h v = Normal d.
Proof.
  intros Hs. unfold parseCustomDate.
  destruct (negb (ToBoolean v) || is_string v (js "-")); [eauto |].
  assert (Hgen : forall s, exists d,
            (if str_eqb (trim s) [] || str_eqb (toLowerCase h s) (js "null")
             then Normal epoch
             else if negb (is_nan (getTime (Date_of_string h s)))
                  then Normal (Date_of_string h s)
                  else try_catch (manualDate h s) (fun _ => Normal epoch))
            = Normal d).
  { intros s.
    destruct (str_eqb (trim s) [] || str_eqb (toLowerCase h s) (js "null")); [eauto |].
    destruct (negb (is_nan (getTime (Date_of_string h s)))); [eauto |].
    destruct (manualDate_total h s) as (d & ->). simpl. eauto. }
  destruct v as [| |b|n|s|tv|l|props]; try discriminate Hs;
    try (cbn [ToString bind]; apply Hgen).
  destruct (is_nan (getTime tv)); eauto.
Qed.

(** C2 fails on the code: a text of three "-"-separated parts that are
    no numbers, such as "--", is not absorbed to the epoch.  The manual
    parser passes the NaN fields to the Date constructor and returns the
    invalid Date. *)
Theorem parseCustomDate_invalid_date h :
  legacy_date_parse h (js "--") = None ->
  parseCustomDate h (S_ "--") = Normal None.
Proof.
  intros Hl. unfold parseCustomDate, S_.
  change (negb (ToBoolean (VString (js "--"))) || is_string (VString (js "--")) (js "-"))
    with false.
  cbn [ToString bind].
  change (str_eqb (trim (js "--")) [] || str_eqb (toLowerCase h (js "--")) (js "null"))
    with false.
  assert (Hd : Date_of_string h (js "--") = None).
  { unfold Date_of_string, Date_parse.
    change (iso_parse (js "--")) with (@None (bool * Z)). rewrite Hl. reflexivity. }
  rewrite Hd. reflexivity.
Qed.

(** [parseCustomDate_invalid_date] on the reference host at UTC. *)
Lemma parseCustomDate_invalid_date_witness :
  legacy_date_parse utc_host (js "--") = None
  /\ parseCustomDate utc_host (S_ "--") = Normal None.
Proof.
  split; [reflexivity |].
  apply (parseCustomDate_invalid_date utc_host). reflexivity.
Defined.

Example parseCustomDate_invalid_examples :
  map (parseCustomDate ist_host) [S_ "--"; S_ "ab-cd-ef"; S_ "n/a/x"; S_ "1.2.x"; S_ "14-9-275760"]
  = repeat (Normal None) 5.
Proof. vm_compute. reflexivity. Qed.

Lemma nsub_of_Z a b :
  Z.abs a < 2 ^ 53 -> Z.abs b < 2 ^ 53 -> nsub (of_Z a) (of_Z b) = of_Z (a - b).
Proof.
  intros Ha Hb. unfold nsub.
  destruct (Z.eq_dec a b) as [-> | Hne].
  - rewrite Z.sub_diag.
    pose proof (of_Z_holds b Hb) as Hh.
    destruct (of_Z b) as [| |s m e]; simpl in Hh; try tauto.
    unfold nneg, nadd. rewrite Z.min_id, Z.sub_diag, Z.pow_0_r, !Z.mul_1_r.
    replace (signed s m + signed (negb s) m) with 0 by (destruct s; simpl; lia).
    destruct s; reflexivity.
  - replace (a - b) with (a + - b) by lia.
    apply nadd_int; [apply of_Z_holds; exact Ha | | lia].
    apply holds_int_neg, of_Z_holds; exact Hb.
Qed.

Lemma to_Z_int x a : holds_int x a -> to_Z x = Some a.
Proof.
  destruct x as [| |s m e]; simpl; try tauto.
  intros (He & Hm & Hs).
  assert (HP : 0 < 2 ^ (- e)) by (apply Z.pow_pos_nonneg; lia).
  destruct (Z.leb_spec 0 e).
  - replace e with 0 in * by lia.
    f_equal. rewrite Hs. change (2 ^ (- 0)) with 1. lia.
  - assert (Hma : m = Z.abs a * 2 ^ (- e)).
    { unfold signed in Hs. destruct s; nia. }
    rewrite Hma, Z.mod_mul, Z.div_mul by lia. rewrite Z.eqb_refl.
    f_equal. unfold signed in *. destruct s; nia.
Qed.

Lemma trunc_int x a : holds_int x a -> Z.abs a < 2 ^ 53 -> holds_int (trunc x) a.
Proof.
  destruct x as [| |s m e]; try (simpl; tauto).
  intros Hx Ha. pose proof Hx as (He & Hm & Hs).
  assert (HP : 0 < 2 ^ (- e)) by (apply Z.pow_pos_nonneg; lia).
  unfold trunc.
  destruct (Z.leb_spec 0 e).
  - destruct (Z.eqb_spec m 0) as [-> | Hm0]; [| exact Hx].
    assert (a = 0) by (unfold signed in Hs; destruct s; nia). subst a.
    vm_compute. repeat split; discriminate.
  - assert (Hma : m = Z.abs a * 2 ^ (- e)).
    { unfold signed in Hs. destruct s; nia. }
    rewrite Hma, Z.div_mul by lia.
    destruct (Z.eqb_spec (Z.abs a) 0) as [Ha0 | Ha0].
    + assert (a = 0) by lia. subst a. vm_compute. repeat split; discriminate.
    + assert (Hsg : s = (a <? 0)).
      { unfold signed in Hs. destruct s, (Z.ltb_spec a 0); auto; nia. }
      rewrite Hsg. change (round64 (a <? 0) (Z.abs a) 1) with (of_Z a).
      apply of_Z_holds; exact Ha.
Qed.

Lemma TimeClip_of_Z z : Z.abs z <= maxTime -> TimeClip (of_Z z) = Some z.
Proof.
  intros Hz. unfold maxTime in Hz.
  assert (Hb : Z.abs z < 2 ^ 53) by (change (2 ^ 53) with 9007199254740992; lia).
  pose proof (of_Z_holds z Hb) as Hh.
  unfold TimeClip.
  assert (Hf : is_finite (of_Z z) = true).
  { destruct (of_Z z); simpl in Hh; try tauto; reflexivity. }
  rewrite Hf, (to_Z_int _ z (trunc_int _ z Hh Hb)).
  destruct (Z.leb_spec (Z.abs z) maxTime); [reflexivity | unfold maxTime in *; lia].
Qed.

(** UTC(t) for a local time t that is an integer *)
Lemma UTC_of_Z h t :
  Z.abs t < 2 ^ 53 -> Z.abs (local_tza h t) < 2 ^ 53 ->
  UTC h (of_Z t) = of_Z (t - local_tza h t).
Proof.
  intros Ht Ho. unfold UTC.
  rewrite (to_Z_int _ t (of_Z_holds t Ht)).
  apply nsub_of_Z; assumption.
Qed.

(* ------------------------------------------------------------------ *)
(** * Resolution date: the Date of a closed ticket *)
(* ------------------------------------------------------------------ *)

(** The manual parser and the Date constructor on fields that are no
    numbers. *)








(* ------------------------------------------------------------------ *)
(** * The dates of the specification's examples *)
(* ------------------------------------------------------------------ *)

Lemma local_march_15_2024 :
  MakeDate (MakeDay (MakeFullYear (of_Z 2024)) (nsub (of_Z 3) (of_Z 1)) (of_Z 15))
           (MakeTime zero zero zero zero)
  = of_Z march_15_2024.
Proof. vm_compute. reflexivity. Qed.

Lemma parse_date_fields :
  parseInt (js "2024") = of_Z 2024 /\ parseInt (js "03") = of_Z 3
  /\ parseInt (js "15") = of_Z 15.
Proof. vm_compute. repeat split; reflexivity. Qed.

Lemma manual_15_03_2024 h :
  manualDate h (js "15-03-2024")
  = Normal (TimeClip (UTC h (of_Z march_15_2024))).
Proof.
  destruct parse_date_fields as (Ey & Em & Ed).
  unfold manualDate.
  change (split (cu "-") (nth 0 (split (cu " ") (replaceAll (cu "/") (cu "-")
            (replaceAll (cu ".") (cu "-") (js "15-03-2024")))) []))
    with [js "15"; js "03"; js "2024"].
  change (nth_error (split (cu " ") (replaceAll (cu "/") (cu "-")
            (replaceAll (cu ".") (cu "-") (js "15-03-2024")))) 1)
    with (@None jsstring).
  cbv beta iota.
  change (Z.of_nat (List.length (js "15")) =? 4) with false.
  cbv beta iota. rewrite Ey, Em, Ed.
  unfold Date_of_ymd, Date_of_fields. rewrite local_march_15_2024. reflexivity.
Qed.

Lemma manual_2024_03_15 h :
  manualDate h (js "2024.03.15")
  = Normal (TimeClip (UTC h (of_Z march_15_2024))).
Proof.
  destruct parse_date_fields as (Ey & Em & Ed).
  unfold manualDate.
  change (split (cu "-") (nth 0 (split (cu " ") (replaceAll (cu "/") (cu "-")
            (replaceAll (cu ".") (cu "-") (js "2024.03.15")))) []))
    with [js "2024"; js "03"; js "15"].
  change (nth_error (split (cu " ") (replaceAll (cu "/") (cu "-")
            (replaceAll (cu ".") (cu "-") (js "2024.03.15")))) 1)
    with (@None jsstring).
  cbv beta iota.
  change (Z.of_nat (List.length (js "2024")) =? 4) with true.
  cbv beta iota. rewrite Ey, Em, Ed.
  unfold Date_of_ymd, Date_of_fields. rewrite local_march_15_2024. reflexivity.
Qed.

(** C3, as stated, fails: in a zone that is not at UTC the two texts
    denote different instants.  "2024-03-15" is in the standard format,
    which reads a date without time as UTC; "15-03-2024" goes to the manual
    parser, which builds a local date.  In India (UTC+05:30) they are
    5 h 30 min apart. *)
Lemma same_instant_counterexample :
  parseCustomDate ist_host (S_ "15-03-2024") = Normal (Some 1710441000000)
  /\ parseCustomDate ist_host (S_ "2024-03-15") = Normal (Some 1710460800000)
  /\ 1710460800000 - 1710441000000 = 5 * msPerHour + 30 * msPerMinute.
Proof. vm_compute. repeat split; reflexivity. Qed.

(** C3 (amended): where the implementation's own date heuristics do not
    recognise "15-03-2024", it is read as day-month-year and gives local
    midnight of March 15, 2024; "2024-03-15" gives midnight UTC of March
    15, 2024; the two are the same instant exactly when local time is at
    UTC on that day; "" and "-" give the epoch. *)
Theorem spec_dates h :
  legacy_date_parse h (js "15-03-2024") = None ->
  Z.abs (local_tza h march_15_2024) <= msPerDay ->
  parseCustomDate h (S_ "15-03-2024")
  = Normal (Some (march_15_2024 - local_tza h march_15_2024))
  /\ parseCustomDate h (S_ "2024-03-15") = Normal (Some march_15_2024)
  /\ (parseCustomDate h (S_ "15-03-2024") = parseCustomDate h (S_ "2024-03-15")
      <-> local_tza h march_15_2024 = 0)
  /\ parseCustomDate h (S_ "") = Normal epoch
  /\ parseCustomDate h (S_ "-") = Normal epoch.
Proof.
  intros Hl Ho. unfold msPerDay in Ho.
  assert (H53 : 2 ^ 53 = 9007199254740992) by reflexivity.
  assert (Hm : march_15_2024 = 1710460800000) by reflexivity.
  assert (H1 : parseCustomDate h (S_ "15-03-2024")
               = Normal (Some (march_15_2024 - local_tza h march_15_2024))).
  { unfold parseCustomDate, S_.
    change (negb (ToBoolean (VString (js "15-03-2024")))
            || is_string (VString (js "15-03-2024")) (js "-")) with false.
    cbn [ToString bind].
    change (str_eqb (trim (js "15-03-2024")) []
            || str_eqb (toLowerCase h (js "15-03-2024")) (js "null")) with false.
    assert (Hd : Date_of_string h (js "15-03-2024") = None).
    { unfold Date_of_string, Date_parse.
      change (iso_parse (js "15-03-2024")) with (@None (bool * Z)).
      rewrite Hl. reflexivity. }
    rewrite Hd. cbn [getTime is_nan negb].
    rewrite manual_15_03_2024. cbn [try_catch].
    rewrite UTC_of_Z, TimeClip_of_Z by (unfold maxTime; lia).
    reflexivity. }
  assert (H2 : parseCustomDate h (S_ "2024-03-15") = Normal (Some march_15_2024)).
  { unfold parseCustomDate, S_.
    change (negb (ToBoolean (VString (js "2024-03-15")))
            || is_string (VString (js "2024-03-15")) (js "-")) with false.
    cbn [ToString bind].
    change (str_eqb (trim (js "2024-03-15")) []
            || str_eqb (toLowerCase h (js "2024-03-15")) (js "null")) with false.
    assert (Hd : Date_of_string h (js "2024-03-15") = Some march_15_2024).
    { unfold Date_of_string, Date_parse.
      change (iso_parse (js "2024-03-15")) with (Some (false, march_15_2024)).
      apply TimeClip_of_Z. unfold maxTime; lia. }
    rewrite Hd. cbn [getTime]. unfold of_Z at 1.
    rewrite round64_not_nan. reflexivity. }
  split; [exact H1 |]. split; [exact H2 |].
  split; [| split; vm_compute; reflexivity].
  rewrite H1, H2. split.
  - intros E. apply Normal_inj in E.
    assert (E' : forall a b : Z, Some a = Some b -> a = b) by (intros a b Hab; congruence).
    apply E' in E. clear - E. lia.
  - intros ->. rewrite Z.sub_0_r. reflexivity.
Qed.

(** [spec_dates] in India. *)
Lemma spec_dates_witness :
  legacy_date_parse ist_host (js "15-03-2024") = None
  /\ Z.abs (local_tza ist_host march_15_2024) <= msPerDay
  /\ (parseCustomDate ist_host (S_ "15-03-2024")
      = Normal (Some (march_15_2024 - local_tza ist_host march_15_2024))
      /\ parseCustomDate ist_host (S_ "2024-03-15") = Normal (Some march_15_2024)
      /\ (parseCustomDate ist_host (S_ "15-03-2024")
          = parseCustomDate ist_host (S_ "2024-03-15")
          <-> local_tza ist_host march_15_2024 = 0)
      /\ parseCustomDate ist_host (S_ "") = Normal epoch
      /\ parseCustomDate ist_host (S_ "-") = Normal epoch).
Proof.
  split; [reflexivity |].
  split; [apply Z.leb_le; vm_compute; reflexivity |].
  apply (spec_dates ist_host).
  - reflexivity.
  - apply Z.leb_le; vm_compute; reflexivity.
Defined.

Example sentinel_examples :
  map (parseCustomDate ist_host)
      [S_ ""; S_ "-"; S_ "null"; S_ "NULL"; S_ "  "; VNull; VUndefined; VDate None;
       VNumber zero]
  = repeat (Normal epoch) 9.
Proof. vm_compute. reflexivity. Qed.

(* ------------------------------------------------------------------ *)
(** * Trimming *)
(* ------------------------------------------------------------------ *)

Lemma trimStart_clean s : starts_clean (trimStart s).
Proof.
  induction s as [|c s IH]; simpl; [exact I |].
  destruct (is_white_space c) eqn:E; [exact IH | simpl; exact E].
Qed.

Lemma trimStart_id s : starts_clean s -> trimStart s = s.
Proof.
  destruct s as [|c s]; simpl; [reflexivity |].
  intros ->. reflexivity.
Qed.

Lemma trimStart_suffix s : exists p, s = p ++ trimStart s.
Proof.
  induction s as [|c s (p & IH)]; simpl.
  - exists []. reflexivity.
  - destruct (is_white_space c).
    + exists (c :: p). simpl. congruence.
    + exists []. reflexivity.
Qed.

Lemma trimEnd_prefix s : exists q, s = trimEnd s ++ q.
Proof.
  unfold trimEnd. destruct (trimStart_suffix (rev s)) as (p & Hp).
  exists (rev p). rewrite <- rev_app_distr, <- Hp, rev_involutive. reflexivity.
Qed.

Lemma trimEnd_starts_clean s : starts_clean s -> starts_clean (trimEnd s).
Proof.
  intros Hs. destruct (trimEnd_prefix s) as (q & Hq).
  destruct (trimEnd s) as [|c r]; [exact I |].
  rewrite Hq in Hs. exact Hs.
Qed.

Lemma trimEnd_id s : starts_clean (rev s) -> trimEnd s = s.
Proof.
  intros H. unfold trimEnd. rewrite trimStart_id by exact H. apply rev_involutive.
Qed.

Lemma trimEnd_ends_clean s : starts_clean (rev (trimEnd s)).
Proof. unfold trimEnd. rewrite rev_involutive. apply trimStart_clean. Qed.

(** Trimming a trimmed string changes nothing. *)
Lemma trim_idempotent s : trim (trim s) = trim s.
Proof.
  unfold trim at 1.
  rewrite (trimStart_id (trim s)).
  - apply trimEnd_id. unfold trim. apply trimEnd_ends_clean.
  - unfold trim. apply trimEnd_starts_clean, trimStart_clean.
Qed.

(* ------------------------------------------------------------------ *)
(** * Assignees *)
(* ------------------------------------------------------------------ *)

Lemma mapM_Normal {A B} (f : A -> completion B) (g : A -> B) xs :
  (forall x, In x xs -> f x = Normal (g x)) -> mapM f xs = Normal (map g xs).
Proof.
  induction xs as [|x xs IH]; simpl; intros H; [reflexivity |].
  rewrite (H x (or_introl eq_refl)). simpl.
  rewrite IH by (intros y Hy; apply H; right; exact Hy). reflexivity.
Qed.

Lemma flat_strings ss : flat (map VString ss) = map VString ss.
Proof.
  unfold flat. induction ss as [|s ss IH]; simpl; [reflexivity | rewrite IH; reflexivity].
Qed.

(** Cleaning a list of strings keeps the non-blank ones, in order. *)
Lemma cleanAssignees_strings h ss :
  cleanAssignees h (map VString ss) = Normal (filter nonblank ss).
Proof.
  unfold cleanAssignees. rewrite flat_strings.
  rewrite (mapM_Normal _ (fun v => match v with VString s => s | _ => [] end)).
  - simpl. rewrite map_map, map_id. reflexivity.
  - intros x Hx. apply in_map_iff in Hx. destruct Hx as (s & <- & _).
    destruct s; reflexivity.
Qed.

Lemma cleanAssignees_nonblank h xs ys :
  cleanAssignees h xs = Normal ys -> Forall (fun a => nonblank a = true) ys.
Proof.
  unfold cleanAssignees. intros H. bind_inv H as ss Hss.
  apply Normal_inj in H. subst ys.
  apply Forall_forall. intros a Ha. apply filter_In in Ha. tauto.
Qed.

(** C5, as stated, fails: the entries of the list need not be trimmed,
    and need not be non-blank.  An entry of a pseudo-JSON list keeps the
    white space inside its quotes, and the owner fallback is neither
    trimmed nor filtered. *)
Lemma assignees_untrimmed_counterexample :
  (exists t,
      parseRow utc_host 0
        (row_of VUndefined VUndefined (S_ "[' a@x.com ', 'b@x.com']") VUndefined VUndefined
                VUndefined)
      = Normal t
      /\ assignees t = [js " a@x.com "; js "b@x.com"]
      /\ trim (js " a@x.com ") = js "a@x.com")
  /\ (exists t,
         parseRow utc_host 0
           (row_of VUndefined VUndefined VUndefined (S_ " ") VUndefined VUndefined)
         = Normal t
         /\ assignees t = [js " "]
         /\ nonblank (js " ") = false).
Proof.
  split; eexists; (split; [vm_compute; reflexivity | split; reflexivity]).
Qed.

Lemma assigneesOfString_spec str raw :
  assigneesOfString str = Normal raw ->
  if bracketed str then
    match JSON.parse (requote str) with
    | Normal v => v = VArray raw
    | Throw _ => raw = [VString str]
    end
  else if includes (cu ",") str
       then raw = map (fun p => VString (trim p)) (split (cu ",") str)
       else raw = [VString str].
Proof.
  unfold assigneesOfString.
  destruct (bracketed str).
  - destruct (JSON.parse (requote str)) as [v|e]; simpl.
    + destruct v; intros H; try discriminate. apply Normal_inj in H. congruence.
    + intros H. apply Normal_inj in H. congruence.
  - destruct (includes (cu ",") str); intros H; apply Normal_inj in H; congruence.
Qed.

Lemma rawAssignees_spec h v raw :
  rawAssignees h v = Normal raw ->
  (ToBoolean v = false -> raw = [])
  /\ (forall elems, v = VArray elems ->
      exists ss, mapM (ToString h) elems = Normal ss /\ raw = map VString ss)
  /\ (ToBoolean v = true -> (forall elems, v <> VArray elems) ->
      exists s, ToString h v = Normal s /\ assigneesOfString (trim s) = Normal raw).
Proof.
  unfold rawAssignees. intros H.
  destruct (ToBoolean v) eqn:Eb.
  - split; [discriminate |]. split.
    + intros elems ->. bind_inv H as ss Hss. apply Normal_inj in H. eauto.
    + intros _ Hna.
      destruct v; try (bind_inv H as str0 Hstr0; eauto).
      exfalso. eapply Hna. reflexivity.
  - apply Normal_inj in H. subst raw.
    split; [reflexivity |]. split; [| discriminate].
    intros elems ->. discriminate Eb.
Qed.

Lemma trimmed_map_trim ps :
  Forall (fun a => trim a = a) (filter nonblank (map trim ps)).
Proof.
  apply Forall_forall. intros a Ha. apply filter_In in Ha. destruct Ha as (Ha & _).
  apply in_map_iff in Ha. destruct Ha as (p & <- & _). apply trim_idempotent.
Qed.

Lemma flat_flattened xs : flat xs = flattened xs.
Proof.
  unfold flat. induction xs as [| x xs IH]; [reflexivity |].
  cbn [flat_map flattened]. rewrite IH. destruct x; reflexivity.
Qed.

Lemma mapM_Forall2 {A B} (f : A -> completion B) xs : forall ys,
  mapM f xs = Normal ys -> Forall2 (fun x y => f x = Normal y) xs ys.
Proof.
  induction xs as [| x xs IH]; intros ys H; cbn [mapM] in H.
  - apply Normal_inj in H. subst. constructor.
  - bind_inv H as y Hy. bind_inv H as ys' Hys. apply Normal_inj in H. subst.
    constructor; [exact Hy | exact (IH _ Hys)].
Qed.

(** What is left of a raw list: its entries one level down, as texts,
    without the blank ones. *)
Lemma cleanAssignees_texts h raw cleaned :
  cleanAssignees h raw = Normal cleaned ->
  exists texts, Forall2 (entry_text h) (flattened raw) texts
                /\ cleaned = filter nonblank texts.
Proof.
  unfold cleanAssignees. intros H. bind_inv H as texts Ht.
  apply Normal_inj in H. exists texts. split; [| congruence].
  rewrite flat_flattened in Ht. apply mapM_Forall2 in Ht.
  revert Ht. apply Forall2_impl. intros a s E. unfold entry_text.
  destruct (ToBoolean a); [exact E | apply Normal_inj in E; congruence].
Qed.

(** C5 (amended): the assignees of a ticket are an ordered list of
    strings.  The raw list is [] for an absent (falsy) cell; the
    stringified elements of an array; and for any other cell, from the
    trimmed text of the cell, the elements of the pseudo-JSON list when
    the text is bracketed and parses (single quotes read as double quotes;
    the whole text as one name when it does not parse), the trimmed parts
    between commas when it has a comma, and else the text itself.  The
    raw list is flattened one level (an element that is a list gives its
    elements, and a list inside those is not opened), each entry gives
    its text (a falsy one the empty string, any other what String gives),
    and the blank texts are dropped: every string left is non-blank.  In
    the comma and single-name cases it is trimmed; the strings of an
    array or of a pseudo-JSON list are kept as they are written, white
    space included.  If nothing is left and there is an owner, the list
    is the owner's text alone, as it is. *)
Theorem assignees_spec h i row t :
  parseRow h i row = Normal t ->
  exists raw texts cleaned,
    rawAssignees h (Assign row) = Normal raw
    /\ cleanAssignees h raw = Normal cleaned
    /\ Forall2 (entry_text h) (flattened raw) texts
    /\ cleaned = filter nonblank texts
    /\ Forall (fun a => nonblank a = true) cleaned
    /\ (cleaned <> [] -> assignees t = cleaned)
    /\ (cleaned = [] ->
        if ToBoolean (Owner row)
        then exists o, ToString h (Owner row) = Normal o /\ assignees t = [o]
        else assignees t = [])
    /\ (ToBoolean (Assign row) = false -> raw = [])
    /\ (forall elems, Assign row = VArray elems ->
        exists ss, mapM (ToString h) elems = Normal ss
                   /\ raw = map VString ss /\ cleaned = filter nonblank ss)
    /\ (ToBoolean (Assign row) = true -> (forall elems, Assign row <> VArray elems) ->
        exists s,
          ToString h (Assign row) = Normal s
          /\ if bracketed (trim s) then
               match JSON.parse (requote (trim s)) with
               | Normal v =>
                   v = VArray raw
                   /\ (forall ss, raw = map VString ss -> cleaned = filter nonblank ss)
               | Throw _ => raw = [VString (trim s)]
                            /\ cleaned = filter nonblank [trim s]
               end
             else if includes (cu ",") (trim s) then
               raw = map (fun p => VString (trim p)) (split (cu ",") (trim s))
               /\ cleaned = filter nonblank (map trim (split (cu ",") (trim s)))
               /\ Forall (fun a => trim a = a) cleaned
             else
               raw = [VString (trim s)]
               /\ cleaned = filter nonblank [trim s]
               /\ Forall (fun a => trim a = a) cleaned).
Proof.
  intros H. apply parseRow_inv in H. destruct H as (Ha & _).
  unfold parseAssignees in Ha.
  bind_inv Ha as raw Hraw. bind_inv Ha as cleaned Hcl.
  destruct (cleanAssignees_texts h raw cleaned Hcl) as (texts & Htexts & Hclean).
  exists raw, texts, cleaned.
  split; [exact Hraw |]. split; [exact Hcl |].
  split; [exact Htexts |]. split; [exact Hclean |].
  split; [exact (cleanAssignees_nonblank h raw cleaned Hcl) |].
  assert (Hstr : forall ss, raw = map VString ss -> cleaned = filter nonblank ss).
  { intros ss ->. rewrite cleanAssignees_strings in Hcl. congruence. }
  destruct (rawAssignees_spec h (Assign row) raw Hraw) as (Hf & Harr & Hsc).
  split; [| split; [| split; [exact Hf | split]]].
  - intros Hne. destruct cleaned; [congruence | congruence].
  - intros ->. destruct (ToBoolean (Owner row)).
    + bind_inv Ha as o Ho. exists o. split; congruence.
    + congruence.
  - intros elems He. destruct (Harr elems He) as (ss & Hss & Hr).
    exists ss. repeat split; auto.
  - intros Hb Hna. destruct (Hsc Hb Hna) as (s & Hs & Hos).
    exists s. split; [exact Hs |].
    apply assigneesOfString_spec in Hos.
    destruct (bracketed (trim s)).
    + destruct (JSON.parse (requote (trim s))) as [v|e]; [split; [exact Hos | exact Hstr] |].
      split; [exact Hos |]. apply (Hstr [trim s]). rewrite Hos. reflexivity.
    + destruct (includes (cu ",") (trim s)).
      * assert (Hc : cleaned = filter nonblank (map trim (split (cu ",") (trim s)))).
        { apply Hstr. rewrite Hos, map_map. reflexivity. }
        split; [exact Hos |]. split; [exact Hc |].
        rewrite Hc. apply trimmed_map_trim.
      * assert (Hc : cleaned = filter nonblank [trim s]).
        { apply (Hstr [trim s]). rewrite Hos. reflexivity. }
        split; [exact Hos |]. split; [exact Hc |].
        rewrite Hc. replace [trim s] with (map trim [s]) by reflexivity.
        apply trimmed_map_trim.
Qed.

Example assignee_examples :
  map (fun r => parseAssignees utc_host (row_of VUndefined VUndefined (fst r) (snd r)
                                                VUndefined VUndefined))
      [(S_ "['a@x.com', 'b@x.com']", VUndefined);
       (S_ "a@x.com, b@x.com", VUndefined);
       (S_ "", S_ "c@x.com");
       (S_ " [not json] ", VUndefined);
       (S_ "[['a', 'b'], null, 0, 'c', ' ']", VUndefined);
       (S_ "a,,b, ,", S_ "c@x.com");
       (VArray [S_ "a"; VNumber (of_Z 7); S_ ""], VUndefined);
       (VNumber (of_Z 42), VUndefined)]
  = map Normal
      [[js "a@x.com"; js "b@x.com"];
       [js "a@x.com"; js "b@x.com"];
       [js "c@x.com"];
       [js "[not json]"];
       [js "a"; js "b"; js "c"];
       [js "a"; js "b"];
       [js "a"; js "7"];
       [js "42"]].
Proof. vm_compute. reflexivity. Qed.

(** [assignees_spec] on a pseudo-JSON cell with a name in spaces, a
    list inside the list, a number 0 and a blank name. *)
Lemma assignees_spec_witness :
  exists t raw texts,
    parseRow utc_host 0
      (row_of VUndefined VUndefined (S_ "[' a@x.com ', ['b', 'c'], 0, ' ']") VUndefined
              VUndefined VUndefined)
    = Normal t
    /\ raw = [S_ " a@x.com "; VArray [S_ "b"; S_ "c"]; VNumber zero; S_ " "]
    /\ flattened raw = [S_ " a@x.com "; S_ "b"; S_ "c"; VNumber zero; S_ " "]
    /\ Forall2 (entry_text utc_host) (flattened raw) texts
    /\ texts = [js " a@x.com "; js "b"; js "c"; []; js " "]
    /\ assignees t = filter nonblank texts
    /\ assignees t = [js " a@x.com "; js "b"; js "c"].
Proof.
  assert (Ht : exists t,
             parseRow utc_host 0
               (row_of VUndefined VUndefined (S_ "[' a@x.com ', ['b', 'c'], 0, ' ']")
                       VUndefined VUndefined VUndefined)
             = Normal t
             /\ assignees t = [js " a@x.com "; js "b"; js "c"]).
  { eexists; split; vm_compute; reflexivity. }
  destruct Ht as (t & Ht & Ha).
  destruct (assignees_spec utc_host 0 _ t Ht)
    as (raw & texts & cleaned & H1 & _ & H3 & H4 & _ & H6 & _).
  assert (Hraw : raw = [S_ " a@x.com "; VArray [S_ "b"; S_ "c"]; VNumber zero; S_ " "]).
  { apply Normal_inj. rewrite <- H1. vm_compute. reflexivity. }
  subst raw.
  assert (Htexts : texts = [js " a@x.com "; js "b"; js "c"; []; js " "]).
  { cbn [flattened S_ app] in H3.
    repeat match goal with
           | H : Forall2 _ (_ :: _) _ |- _ => inversion H; subst; clear H
           | H : Forall2 _ [] _ |- _ => inversion H; subst; clear H
           end.
    repeat match goal with
           | H : entry_text _ _ _ |- _ =>
               unfold entry_text in H; cbn in H; try apply Normal_inj in H; subst
           end.
    reflexivity. }
  exists t, [S_ " a@x.com "; VArray [S_ "b"; S_ "c"]; VNumber zero; S_ " "], texts.
  split; [exact Ht |]. split; [reflexivity |]. split; [reflexivity |].
  split; [exact H3 |]. split; [exact Htexts |]. split; [| exact Ha].
  rewrite <- H4. apply H6. subst cleaned texts. vm_compute. discriminate.
Defined.

(* ------------------------------------------------------------------ *)
(** * The date parser on the cells of a sheet *)
(* ------------------------------------------------------------------ *)

(** On the cells of a sheet the date parser raises nothing, and it maps
    to the epoch: an absent (falsy) cell, the text "-", a blank text,
    the text "null" in any case, and an invalid Date; a valid Date is
    returned as it is. *)
Theorem parseCustomDate_sentinel h v :
  is_scalar v = true ->
  (exists d, parseCustomDate h v = Normal d)
  /\ (ToBoolean v = false -> parseCustomDate h v = Normal epoch)
  /\ (forall s, v = VString s ->
        s = js "-" \/ trim s = [] \/ toLowerCase h s = js "null" ->
        parseCustomDate h v = Normal epoch)
  /\ (v = VDate None -> parseCustomDate h v = Normal epoch)
  /\ (forall z, v = VDate (Some z) -> parseCustomDate h v = Normal (Some z)).
Proof.
  intros Hs. split; [apply parseCustomDate_total; exact Hs |].
  split; [| split; [| split]].
  - intros Hf. unfold parseCustomDate. rewrite Hf. reflexivity.
  - intros s -> Hc. unfold parseCustomDate. cbn [is_string ToString bind].
    destruct (negb (ToBoolean (VString s)) || str_eqb s (js "-")) eqn:E; [reflexivity |].
    apply orb_false_iff in E. destruct E as [_ E].
    destruct Hc as [-> | [Ht | Hl]].
    + rewrite str_eqb_refl in E. discriminate.
    + rewrite Ht. reflexivity.
    + rewrite Hl. rewrite str_eqb_refl, orb_true_r. reflexivity.
  - intros ->. reflexivity.
  - intros z ->. unfold parseCustomDate. cbn [ToBoolean is_string negb orb getTime].
    unfold of_Z. rewrite round64_not_nan. reflexivity.
Qed.

(** [parseCustomDate_sentinel] on the text "NULL". *)
Lemma parseCustomDate_sentinel_witness :
  is_scalar (S_ "NULL") = true
  /\ (exists d, parseCustomDate utc_host (S_ "NULL") = Normal d)
  /\ parseCustomDate utc_host (S_ "NULL") = Normal epoch.
Proof.
  split; [reflexivity |].
  destruct (parseCustomDate_sentinel utc_host (S_ "NULL") eq_refl) as (Hd & _ & Hstr & _).
  split; [exact Hd |].
  apply (Hstr (js "NULL")); [reflexivity |].
  right; right. reflexivity.
Defined.

(* ------------------------------------------------------------------ *)
(** * The agent rollup *)
(* ------------------------------------------------------------------ *)

Lemma trim_nil : trim [] = [].
Proof. reflexivity. Qed.

Lemma visitAgent_step t m a :
  visitAgent t m a = if nonblank a then step m (trim a, t) else m.
Proof.
  unfold visitAgent, nonblank, step.
  destruct a as [|c a]; [reflexivity |].
  destruct (trim (c :: a)) as [|c' r] eqn:E; reflexivity.
Qed.

Lemma fold_visitAgent t l : forall m,
  fold_left (visitAgent t) l m
  = fold_left step (map (fun a => (trim a, t)) (filter nonblank l)) m.
Proof.
  induction l as [|a l IH]; intros m; simpl; [reflexivity |].
  rewrite visitAgent_step, IH.
  destruct (nonblank a); reflexivity.
Qed.

Lemma agentMap_occurrences tickets :
  agentMap tickets = fold_left step (occurrences tickets) [].
Proof.
  unfold agentMap, occurrences. generalize (@nil (jsstring * AgentStats)).
  induction tickets as [|t ts IH]; intros m; simpl; [reflexivity |].
  rewrite fold_left_app, IH. unfold visitTicket. rewrite fold_visitAgent.
  reflexivity.
Qed.

Lemma map_has_In k m : map_has k m = true <-> In k (map fst m).
Proof.
  induction m as [|[k' v] m IH]; simpl; [split; [discriminate | tauto] |].
  destruct (str_eqb_spec k' k) as [-> | Hne]; simpl.
  - split; auto.
  - rewrite IH. split; [auto | intros [E | H]; [congruence | exact H]].
Qed.

Lemma map_update_keys k f m : map fst (map_update k f m) = map fst m.
Proof.
  induction m as [|[k' v] m IH]; simpl; [reflexivity |].
  destruct (str_eqb k' k); simpl; [reflexivity | rewrite IH; reflexivity].
Qed.

Lemma map_get_update k k' f m :
  map_get k (map_update k' f m)
  = if str_eqb k' k then option_map f (map_get k m) else map_get k m.
Proof.
  induction m as [|[k0 v] m IH]; simpl.
  - destruct (str_eqb k' k); reflexivity.
  - destruct (str_eqb k0 k') eqn:E1; simpl;
      destruct (str_eqb k0 k) eqn:E2; destruct (str_eqb k' k) eqn:E3;
      try reflexivity;
      try exact IH;
      exfalso;
      repeat match goal with
             | H : str_eqb _ _ = true |- _ => apply str_eqb_eq in H
             end; subst;
      rewrite ?str_eqb_refl in *; discriminate.
Qed.

Lemma map_get_app k m m' :
  map_get k (m ++ m') = match map_get k m with Some v => Some v | None => map_get k m' end.
Proof.
  induction m as [|[k0 v] m IH]; simpl; [reflexivity |].
  destruct (str_eqb k0 k); [reflexivity | exact IH].
Qed.

Lemma map_get_None k m : map_get k m = None <-> ~ In k (map fst m).
Proof.
  induction m as [|[k0 v] m IH]; simpl; [tauto |].
  destruct (str_eqb_spec k0 k) as [-> | Hne].
  - split; [discriminate | tauto].
  - rewrite IH. tauto.
Qed.

Lemma step_keys m o :
  map fst (step m o) = if map_has (fst o) m then map fst m else map fst m ++ [fst o].
Proof.
  unfold step. rewrite map_update_keys.
  destruct (map_has (fst o) m); [reflexivity |].
  rewrite map_app. reflexivity.
Qed.

Lemma step_get k m o :
  map_get k (step m o)
  = if str_eqb (fst o) k then Some (visit (snd o) (stats_of k m)) else map_get k m.
Proof.
  unfold step, stats_of. rewrite map_get_update.
  destruct (str_eqb_spec (fst o) k) as [E | Hne].
  - destruct (map_has (fst o) m) eqn:Eh.
    + apply map_has_In in Eh. rewrite E in Eh.
      destruct (map_get k m) eqn:Eg; [reflexivity |].
      apply map_get_None in Eg. contradiction.
    + assert (Hn : map_get k m = None).
      { apply map_get_None. rewrite <- E. intros Hin. apply map_has_In in Hin. congruence. }
      rewrite map_get_app, Hn. simpl. rewrite E, str_eqb_refl. reflexivity.
  - destruct (map_has (fst o) m); [reflexivity |].
    rewrite map_get_app. simpl.
    destruct (str_eqb_spec (fst o) k); [congruence |].
    destruct (map_get k m); reflexivity.
Qed.

Lemma fold_step_keys os : forall m,
  NoDup (map fst m) ->
  NoDup (map fst (fold_left step os m))
  /\ (forall k, In k (map fst (fold_left step os m))
                <-> In k (map fst m) \/ In k (map fst os)).
Proof.
  induction os as [|o os IH]; intros m Hm; simpl.
  - split; [exact Hm | intros k; tauto].
  - assert (Hm' : NoDup (map fst (step m o))).
    { rewrite step_keys. destruct (map_has (fst o) m) eqn:Eh; [exact Hm |].
      apply NoDup_app; [exact Hm | constructor; [simpl; tauto | constructor] |].
      intros x Hx [<- | []]. apply map_has_In in Hx. congruence. }
    destruct (IH (step m o) Hm') as (Hnd & Hin).
    split; [exact Hnd |].
    intros k. rewrite Hin, step_keys.
    destruct (map_has (fst o) m) eqn:Eh.
    + apply map_has_In in Eh. split; [tauto |].
      intros [H | [<- | H]]; auto.
    + rewrite in_app_iff. simpl. tauto.
Qed.

Lemma filter_none {A} (p : A -> bool) l : existsb p l = false -> filter p l = [].
Proof.
  induction l as [|x l IH]; simpl; [reflexivity |].
  destruct (p x); simpl; [discriminate | exact IH].
Qed.

Lemma fold_step_get k os : forall m,
  map_get k (fold_left step os m)
  = if existsb (fun o => str_eqb (fst o) k) os
    then Some (visits (map snd (filter (fun o => str_eqb (fst o) k) os)) (stats_of k m))
    else map_get k m.
Proof.
  induction os as [|o os IH]; intros m; simpl; [reflexivity |].
  rewrite IH. unfold stats_of. rewrite step_get.
  destruct (str_eqb (fst o) k) eqn:E; simpl.
  - destruct (existsb (fun o0 => str_eqb (fst o0) k) os) eqn:Ex; [reflexivity |].
    rewrite (filter_none _ _ Ex). reflexivity.
  - reflexivity.
Qed.

Lemma visits_spec ts : forall st,
  let closed := filter is_closed ts in
  let r := visits ts st in
  total r = total st + Z.of_nat (List.length ts)
  /\ active r = active st + Z.of_nat (List.length (filter (fun t => negb (is_closed t)) ts))
  /\ resolvedCount r = resolvedCount st + Z.of_nat (List.length closed)
  /\ ratingSum r = fold_left nadd (map rating closed) (ratingSum st)
  /\ timeSum r = fold_left nadd (map resolutionTimeHours closed) (timeSum st).
Proof.
  induction ts as [|t ts IH]; intros st; cbn zeta.
  - simpl. repeat split; lia.
  - unfold visits in *. cbn [fold_left filter].
    destruct (IH (visit t st)) as (H1 & H2 & H3 & H4 & H5).
    rewrite H1, H2, H3, H4, H5. unfold visit, is_closed.
    destruct (str_eqb (status t) (js "Closed")); cbn [negb List.length map fold_left
      total active resolvedCount ratingSum timeSum];
      repeat split; lia.
Qed.

Lemma insert_desc_perm x l : Permutation (insert_desc x l) (x :: l).
Proof.
  induction l as [|y l IH]; simpl; [reflexivity |].
  destruct (totalTickets x <? totalTickets y); [| reflexivity].
  rewrite IH. apply perm_swap.
Qed.

Lemma sort_desc_perm l : Permutation (sort_desc l) l.
Proof.
  induction l as [|x l IH]; simpl; [reflexivity |].
  rewrite insert_desc_perm. constructor. exact IH.
Qed.

Lemma insert_desc_sorted x l :
  StronglySorted ge_total l -> StronglySorted ge_total (insert_desc x l).
Proof.
  induction 1 as [|y l Hs IH Hy]; simpl.
  - constructor; constructor.
  - destruct (Z.ltb_spec (totalTickets x) (totalTickets y)).
    + constructor; [exact IH |].
      apply Forall_forall. intros z Hz.
      apply (Permutation_in _ (insert_desc_perm x l)) in Hz.
      destruct Hz as [<- | Hz]; [unfold ge_total; lia |].
      rewrite Forall_forall in Hy. apply Hy; exact Hz.
    + constructor; [constructor; assumption |].
      constructor; [exact H |].
      apply Forall_forall. intros z Hz. rewrite Forall_forall in Hy.
      specialize (Hy z Hz). unfold ge_total in *. lia.
Qed.

Lemma sort_desc_sorted l : StronglySorted ge_total (sort_desc l).
Proof.
  induction l as [|x l IH]; simpl; [constructor |].
  apply insert_desc_sorted; exact IH.
Qed.

Lemma nonblank_trim_nonempty a : nonblank a = true -> trim a <> [].
Proof.
  unfold nonblank. intros H E. rewrite E in H. discriminate.
Qed.

Lemma occurrences_keys tickets k :
  In k (map fst (occurrences tickets))
  <-> exists t a, In t tickets /\ In a (assignees t) /\ nonblank a = true /\ trim a = k.
Proof.
  unfold occurrences. rewrite in_map_iff. split.
  - intros ((k', t) & <- & Hin). apply in_flat_map in Hin.
    destruct Hin as (t' & Ht' & Hin). apply in_map_iff in Hin.
    destruct Hin as (a & E & Ha). injection E as <- <-.
    apply filter_In in Ha. exists t', a. tauto.
  - intros (t & a & Ht & Ha & Hn & <-). exists (trim a, t). split; [reflexivity |].
    apply in_flat_map. exists t. split; [exact Ht |].
    apply in_map_iff. exists a. split; [reflexivity |].
    apply filter_In. tauto.
Qed.

Lemma existsb_key k (os : list (jsstring * Ticket)) :
  existsb (fun o => str_eqb (fst o) k) os = true <-> In k (map fst os).
Proof.
  rewrite existsb_exists, in_map_iff. split.
  - intros (o & Ho & E). apply str_eqb_eq in E. eauto.
  - intros (o & E & Ho). exists o. split; [exact Ho | apply str_eqb_eq; exact E].
Qed.

Lemma map_get_In k v m : NoDup (map fst m) -> In (k, v) m -> map_get k m = Some v.
Proof.
  induction m as [|[k0 v0] m IH]; simpl; [tauto |].
  intros Hnd [E | Hin].
  - injection E as -> ->. rewrite str_eqb_refl. reflexivity.
  - inversion Hnd as [|? ? Hni Hnd']; subst.
    destruct (str_eqb_spec k0 k) as [-> | Hne].
    + exfalso. apply Hni. apply in_map_iff. exists (k, v). auto.
    + apply IH; assumption.
Qed.

(** The entries of the map: one per trimmed name, each with the record
    its visits add up to. *)
Lemma agentMap_spec tickets :
  NoDup (map fst (agentMap tickets))
  /\ (forall k, In k (map fst (agentMap tickets))
                <-> In k (map fst (occurrences tickets)))
  /\ (forall k v, In (k, v) (agentMap tickets) ->
                  v = visits (ticketsOf k tickets) newStats).
Proof.
  rewrite agentMap_occurrences.
  destruct (fold_step_keys (occurrences tickets) [] (NoDup_nil _)) as (Hnd & Hin).
  split; [exact Hnd |]. split.
  - intros k. rewrite Hin. simpl. tauto.
  - intros k v Hkv.
    pose proof (map_get_In k v _ Hnd Hkv) as Hg.
    rewrite fold_step_get in Hg.
    assert (Hk : In k (map fst (fold_left step (occurrences tickets) []))).
    { apply in_map_iff. exists (k, v). auto. }
    apply Hin in Hk. destruct Hk as [[] | Hk].
    apply existsb_key in Hk. rewrite Hk in Hg.
    injection Hg as <-. reflexivity.
Qed.

Lemma toMetrics_visits k tickets :
  toMetrics (k, visits (ticketsOf k tickets) newStats) = metricsOf k tickets.
Proof.
  destruct (visits_spec (ticketsOf k tickets) newStats) as (H1 & H2 & H3 & H4 & H5).
  cbv zeta in *. unfold toMetrics, metricsOf, mean, nsum.
  rewrite H1, H2, H3, H4, H5. cbn [total active resolvedCount ratingSum timeSum newStats].
  rewrite !length_map. rewrite !Z.add_0_l. reflexivity.
Qed.

Lemma filter_all {A} (p : A -> bool) l : (forall x, In x l -> p x = true) -> filter p l = l.
Proof.
  induction l as [|x l IH]; intros H; simpl; [reflexivity |].
  rewrite (H x (or_introl eq_refl)). f_equal. apply IH. intros y Hy. apply H. right. exact Hy.
Qed.

Lemma agentMap_keys_nonempty tickets :
  filter (fun kv => negb (str_eqb (fst kv) [])) (agentMap tickets) = agentMap tickets.
Proof.
  apply filter_all. intros [k v] Hin. cbn [fst].
  destruct (agentMap_spec tickets) as (_ & Hk & _).
  assert (Hk' : In k (map fst (agentMap tickets))).
  { apply in_map_iff. exists (k, v). auto. }
  apply Hk, occurrences_keys in Hk'. destruct Hk' as (t & a & _ & _ & Hn & <-).
  destruct (str_eqb_spec (trim a) []) as [E | _]; [| reflexivity].
  exfalso. exact (nonblank_trim_nonempty a Hn E).
Qed.

Lemma calculateAgentMetrics_perm tickets :
  Permutation (calculateAgentMetrics tickets) (map toMetrics (agentMap tickets)).
Proof.
  unfold calculateAgentMetrics. cbv zeta. rewrite agentMap_keys_nonempty.
  apply sort_desc_perm.
Qed.

Lemma map_email_toMetrics m : map email (map toMetrics m) = map fst m.
Proof.
  rewrite map_map. apply map_ext. intros [k v]. reflexivity.
Qed.

(** C9 (amended): an agent is the trimmed text of an assignee that is not
    blank.  The rollup has exactly one entry per agent, under pairwise
    distinct names.  The entry of an agent adds up its visits, one per
    assignee entry that trims to the name (a name listed twice on a ticket
    is visited twice on it): totalTickets is the number of visits,
    activeTickets the number of visits on tickets whose status is not
    "Closed", avgRating and avgResolutionHours are the means over the
    visits on closed tickets (the binary64 sum in ticket order divided by
    their number; 0 when there is none).  The entries are in descending
    order of totalTickets. *)
Theorem calculateAgentMetrics_spec tickets :
  NoDup (map email (calculateAgentMetrics tickets))
  /\ (forall k, In k (map email (calculateAgentMetrics tickets)) <-> agent_of tickets k)
  /\ (forall m, In m (calculateAgentMetrics tickets) -> m = metricsOf (email m) tickets)
  /\ StronglySorted ge_total (calculateAgentMetrics tickets).
Proof.
  pose proof (calculateAgentMetrics_perm tickets) as Hp.
  destruct (agentMap_spec tickets) as (Hnd & Hk & Hv).
  split; [| split; [| split]].
  - apply (Permutation_NoDup (l := map email (map toMetrics (agentMap tickets)))).
    + apply Permutation_map. symmetry. exact Hp.
    + rewrite map_email_toMetrics. exact Hnd.
  - intros k. unfold agent_of. rewrite <- occurrences_keys, <- Hk, <- map_email_toMetrics.
    split; apply Permutation_in; apply Permutation_map; [| symmetry]; exact Hp.
  - intros m Hm. apply (Permutation_in _ Hp) in Hm. apply in_map_iff in Hm.
    destruct Hm as ([k v] & <- & Hin). rewrite (Hv k v Hin).
    rewrite toMetrics_visits. reflexivity.
  - apply sort_desc_sorted.
Qed.

(** C9, as stated, fails: entries are per trimmed name, not per assignee
    string, and a ticket counts once per entry of its list.  The cell
    "['a', ' a']" gives a ticket with the two distinct assignees "a" and
    " a"; the rollup has the single entry "a", with two tickets.  The cell
    "a,a" gives a ticket that lists "a" twice; it adds 2 to the total of
    "a". *)
Lemma agents_merged_counterexample :
  (exists t,
      parseRawData utc_host
        [row_of VUndefined VUndefined (S_ "['a', ' a']") VUndefined VUndefined VUndefined]
      = Normal [t]
      /\ assignees t = [js "a"; js " a"]
      /\ map (fun m => (email m, totalTickets m)) (calculateAgentMetrics [t])
         = [(js "a", 2)])
  /\ (exists t,
         parseRawData utc_host
           [row_of VUndefined VUndefined (S_ "a,a") VUndefined VUndefined VUndefined]
         = Normal [t]
         /\ assignees t = [js "a"; js "a"]
         /\ map (fun m => (email m, totalTickets m)) (calculateAgentMetrics [t])
            = [(js "a", 2)]).
Proof.
  split; eexists; (split; [vm_compute; reflexivity | split; vm_compute; reflexivity]).
Qed.

(** The scenario of the specification: an agent on three tickets, two of
    them closed with ratings 4 and 5 (resolved in 2 and 3 hours), one
    open. *)
Example agent_rollup_scenario :
  calculateAgentMetrics
    [ticket_of "Closed" [js "x@y.com"] 4 2;
     ticket_of "Open" [js "x@y.com"; js "z@y.com"] 0 0;
     ticket_of "Closed" [js "x@y.com"] 5 3]
  = [ {| email := js "x@y.com"; totalTickets := 3;
         avgRating := ndiv (of_Z 9) (of_Z 2);
         avgResolutionHours := ndiv (of_Z 5) (of_Z 2);
         activeTickets := 1 |};
      {| email := js "z@y.com"; totalTickets := 1; avgRating := zero;
         avgResolutionHours := zero; activeTickets := 1 |} ].
Proof. vm_compute. reflexivity. Qed.

(* ------------------------------------------------------------------ *)
(** * Totality of the ticket builder *)
(* ------------------------------------------------------------------ *)

Lemma arr_based_cons f stack : arr_based stack = true -> arr_based (f :: stack) = true.
Proof. destruct stack; [discriminate | intros H; exact H]. Qed.

Lemma arr_based_tail f g stack : arr_based (f :: g :: stack) = arr_based (g :: stack).
Proof. reflexivity. Qed.

Lemma push_value_arr v stack st :
  match stack with [] => exists l, v = VArray l | _ => arr_based stack = true end ->
  JSON.push_value v stack = Some st -> arr_state st = true.
Proof.
  destruct stack as [|f rest]; simpl.
  - intros (l & ->) E. injection E as <-. reflexivity.
  - intros Hb. destruct f; intros E; try discriminate; injection E as <-; simpl;
      destruct rest; try exact Hb; try discriminate Hb; reflexivity.
Qed.

Lemma pop_arr v f rest st :
  arr_based (f :: rest) = true ->
  (rest = [] -> exists l, v = VArray l) ->
  JSON.push_value v rest = Some st -> arr_state st = true.
Proof.
  intros Hb Hv. apply push_value_arr.
  destruct rest as [|g rest']; [apply Hv; reflexivity | exact Hb].
Qed.

Lemma push_scalar_arr v stack st :
  arr_based stack = true -> JSON.push_value v stack = Some st -> arr_state st = true.
Proof.
  intros Hb. apply push_value_arr. destruct stack; [discriminate Hb | exact Hb].
Qed.

Lemma pstep_arr st t st' :
  arr_state st = true -> JSON.pstep st t = Some st' -> arr_state st' = true.
Proof.
  destruct st as [stack fresh|stack fresh|stack|stack|v]; cbn [arr_state JSON.pstep]; intros Hb.
  - assert (Hsc : match JSON.scalar_of_token t with
                  | Some v => JSON.push_value v stack
                  | None => None
                  end = Some st' -> arr_state st' = true).
    { destruct (JSON.scalar_of_token t) as [v|]; [| discriminate].
      apply push_scalar_arr. exact Hb. }
    destruct t; try exact Hsc.
    + intros E. injection E as <-. cbn [arr_state]. apply arr_based_cons. exact Hb.
    + destruct fresh; [| discriminate]. destruct stack as [|[acc| |] rest]; try discriminate.
      destruct acc; [| discriminate].
      apply (pop_arr _ (JSON.FArr []) rest); [exact Hb |]. intros _. eauto.
    + intros E. injection E as <-. cbn [arr_state]. apply arr_based_cons. exact Hb.
  - destruct t; try discriminate; destruct stack as [|[| acc |] rest]; try discriminate.
    + destruct fresh; [| discriminate].
      apply (pop_arr _ (JSON.FObjKey acc) rest); [exact Hb |].
      intros ->. discriminate Hb.
    + intros E. injection E as <-. cbn [arr_state]. destruct rest; [discriminate Hb | exact Hb].
  - destruct t; try discriminate. intros E. injection E as <-. exact Hb.
  - destruct t; try discriminate; destruct stack as [|[acc| acc |] rest]; try discriminate.
    + apply (pop_arr _ (JSON.FArr acc) rest); [exact Hb |]. intros _. eauto.
    + apply (pop_arr _ (JSON.FObjKey acc) rest); [exact Hb |].
      intros ->. discriminate Hb.
    + intros E. injection E as <-. exact Hb.
    + intros E. injection E as <-. exact Hb.
  - discriminate.
Qed.

Lemma run_arr ts : forall st st',
  arr_state st = true -> JSON.run st ts = Some st' -> arr_state st' = true.
Proof.
  induction ts as [|t ts IH]; simpl; intros st st' Hb E.
  - injection E as <-. exact Hb.
  - destruct (JSON.pstep st t) as [st1|] eqn:E1; [| discriminate].
    apply (IH st1); [| exact E]. apply (pstep_arr st t); assumption.
Qed.

Lemma lex_bracket r :
  JSON.lex JSON.LIdle (cu "[" :: r)
  = option_map (cons JSON.TLBracket) (JSON.lex JSON.LIdle r).
Proof. reflexivity. Qed.

(** A text that begins with "[" parses to an array, if it parses. *)
Lemma parse_bracket_array r v :
  JSON.parse (cu "[" :: r) = Normal v -> exists l, v = VArray l.
Proof.
  unfold JSON.parse. rewrite lex_bracket.
  destruct (JSON.lex JSON.LIdle r) as [ts|]; cbn [option_map]; [| discriminate].
  cbn [JSON.run JSON.pstep].
  destruct (JSON.run (JSON.PValue [JSON.FArr []] true) ts) as [st|] eqn:E; [| discriminate].
  apply run_arr in E; [| reflexivity].
  destruct st; try discriminate. intros H. apply Normal_inj in H. subst.
  destruct v; try discriminate E. eauto.
Qed.

Lemma requote_bracketed str :
  bracketed str = true -> exists r, requote str = cu "[" :: r.
Proof.
  unfold bracketed, requote, replaceAll. intros H. apply andb_true_iff in H.
  destruct H as [H _]. destruct str as [|c r]; [discriminate |].
  simpl in H. apply Z.eqb_eq in H. subst c. exists (replaceAll (cu "'") JSON.quote r).
  reflexivity.
Qed.

(** Induction on a value, with the property at hand for the elements
    of an array. *)
Lemma value_elems_ind (P : value -> Prop) :
  P VUndefined -> P VNull -> (forall b, P (VBool b)) -> (forall n, P (VNumber n)) ->
  (forall s, P (VString s)) -> (forall tv, P (VDate tv)) ->
  (forall elems, Forall P elems -> P (VArray elems)) ->
  (forall props, P (VObject props)) ->
  forall v, P v.
Proof.
  intros Hu Hn Hb Hnum Hs Hd Ha Ho.
  refine (fix go (v : value) : P v :=
            match v with
            | VUndefined => Hu
            | VNull => Hn
            | VBool b => Hb b
            | VNumber n => Hnum n
            | VString s => Hs s
            | VDate tv => Hd tv
            | VArray elems =>
                Ha elems ((fix all (l : list value) : Forall P l :=
                             match l with
                             | [] => Forall_nil P
                             | x :: r => Forall_cons x (go x) (all r)
                             end) elems)
            | VObject props => Ho props
            end).
Qed.

Lemma ToString_printable h : forall v,
  printable v = true -> exists s, ToString h v = Normal s.
Proof.
  induction v as [| |b|n|s|tv|elems IH|props] using value_elems_ind;
    try (simpl; eauto; fail).
  - cbn [printable ToString].
    induction IH as [|x r IHx _ IHr]; [eauto |].
    cbn [forallb]. intros H. apply andb_true_iff in H. destruct H as [Hx Hr].
    assert (Hsx : exists sx, match x with
                             | VUndefined | VNull => Normal []
                             | _ => ToString h x
                             end = Normal sx).
    { destruct (IHx Hx) as (sx & E). destruct x; eauto. }
    destruct Hsx as (sx & ->). cbn [bind].
    destruct r as [|y r']; [eauto |].
    destruct (IHr Hr) as (sr & ->). cbn [bind]. eauto.
  - cbn [printable ToString]. intros H. apply negb_true_iff in H. rewrite H. eauto.
Qed.

Lemma mapM_total {A B} (f : A -> completion B) xs :
  Forall (fun x => exists y, f x = Normal y) xs -> exists ys, mapM f xs = Normal ys.
Proof.
  induction 1 as [|x xs (y & Hy) _ (ys & Hys)]; simpl; [eauto |].
  rewrite Hy, Hys. simpl. eauto.
Qed.

Lemma flat_printable xs :
  Forall (fun x => printable x = true) xs -> Forall (fun x => printable x = true) (flat xs).
Proof.
  unfold flat. induction 1 as [|x xs Hx _ IH]; simpl; [constructor |].
  apply Forall_app. split; [| exact IH].
  destruct x; try (constructor; [exact Hx | constructor]).
  apply Forall_forall. intros y Hy. cbn [printable] in Hx.
  rewrite forallb_forall in Hx. apply Hx. exact Hy.
Qed.

Lemma cleanAssignees_total h xs :
  Forall (fun x => printable x = true) xs -> exists ss, cleanAssignees h xs = Normal ss.
Proof.
  intros H. unfold cleanAssignees.
  destruct (mapM_total (fun a => if ToBoolean a then ToString h a else Normal []) (flat xs))
    as (ss & ->).
  - apply flat_printable in H. revert H. apply Forall_impl. intros a Ha.
    destruct (ToBoolean a); [apply ToString_printable; exact Ha | eauto].
  - simpl. eauto.
Qed.

Lemma rawAssignees_total h v :
  assign_ok h v = true ->
  exists raw, rawAssignees h v = Normal raw /\ Forall (fun x => printable x = true) raw.
Proof.
  unfold assign_ok, rawAssignees. intros H. apply andb_true_iff in H. destruct H as [Hs H].
  destruct (ToBoolean v); [| eauto].
  destruct (ToString h v) as [s|e] eqn:Es; [| discriminate].
  assert (Hstr : exists raw, assigneesOfString (trim s) = Normal raw
                             /\ Forall (fun x => printable x = true) raw).
  { unfold assigneesOfString.
    destruct (bracketed (trim s)) eqn:Eb.
    - destruct (requote_bracketed _ Eb) as (r & Er).
      destruct (JSON.parse (requote (trim s))) as [parsed|e] eqn:Ep; cbn [try_catch bind].
      + rewrite Er in Ep. destruct (parse_bracket_array _ _ Ep) as (l & ->).
        exists l. split; [reflexivity |]. cbn [printable] in H.
        apply Forall_forall. rewrite forallb_forall in H. exact H.
      + eexists. split; [reflexivity |]. constructor; [reflexivity | constructor].
    - destruct (includes (cu ",") (trim s)).
      + eexists. split; [reflexivity |]. apply Forall_forall. intros x Hx.
        apply in_map_iff in Hx. destruct Hx as (p & <- & _). reflexivity.
      + eexists. split; [reflexivity |]. constructor; [reflexivity | constructor]. }
  destruct v; try discriminate Hs; cbn [bind]; rewrite ?Es; cbn [bind]; try exact Hstr.
  all: simpl in Es; apply Normal_inj in Es; subst s; exact Hstr.
Qed.

Lemma stringOr_total h v dflt :
  is_scalar v = true -> exists s, stringOr h v dflt = Normal s.
Proof.
  intros Hs. unfold stringOr. destruct (ToBoolean v); [| eauto].
  apply ToString_scalar. exact Hs.
Qed.

Lemma parseAssignees_total h row :
  assign_ok h (Assign row) = true -> is_scalar (Owner row) = true ->
  exists l, parseAssignees h row = Normal l.
Proof.
  intros Ha Ho. unfold parseAssignees.
  destruct (rawAssignees_total h _ Ha) as (raw & -> & Hraw). cbn [bind].
  destruct (cleanAssignees_total h raw Hraw) as (ss & ->). cbn [bind].
  destruct ss; [| eauto].
  destruct (ToBoolean (Owner row)); [| eauto].
  destruct (ToString_scalar h _ Ho) as (o & ->). cbn [bind]. eauto.
Qed.

Lemma parseStatus_total h row :
  is_scalar (Status row) = true -> exists s, parseStatus h row = Normal s.
Proof.
  intros Hs. unfold parseStatus.
  destruct (ToBoolean (Status row)).
  - destruct (ToString_scalar h _ Hs) as (s & ->). cbn [bind].
    destruct (_ || _); eauto.
  - cbn [bind]. destruct (_ || _); eauto.
Qed.

Lemma parseRating_total h v :
  is_scalar v = true -> exists x, parseRating h v = Normal x.
Proof.
  intros Hs. unfold parseRating. destruct (ToBoolean v); [| eauto].
  destruct (ToString_scalar h _ Hs) as (s & ->). cbn [bind]. eauto.
Qed.

Lemma parseRow_total h i row :
  row_ok h row = true -> exists t, parseRow h i row = Normal t.
Proof.
  unfold row_ok. intros H.
  repeat (apply andb_true_iff in H; let H' := fresh "H" in destruct H as [H H']).
  unfold parseRow.
  destruct (parseAssignees_total h row) as (l & ->); try assumption. cbn [bind].
  destruct (parseStatus_total h row) as (st & ->); try assumption. cbn [bind].
  destruct (parseCustomDate_total h (Creation row)) as (c & ->); try assumption. cbn [bind].
  assert (Hres : exists r,
            (if str_eqb st (js "Closed") && ToBoolean (ResolutionBy row)
             then r <- parseCustomDate h (ResolutionBy row) ;; Normal (Some r)
             else Normal None) = Normal r).
  { destruct (_ && _); [| eauto].
    destruct (parseCustomDate_total h (ResolutionBy row)) as (r & ->); try assumption.
    cbn [bind]. eauto. }
  destruct Hres as (r & ->). cbn [bind].
  assert (Hty : exists s,
            (if ToBoolean (TicketType row)
             then s <- ToString h (TicketType row) ;; Normal (trim s)
             else Normal (js "Unspecified")) = Normal s).
  { destruct (ToBoolean (TicketType row)); [| eauto].
    destruct (ToString_scalar h (TicketType row)) as (s & ->); try assumption.
    cbn [bind]. eauto. }
  destruct Hty as (ty & ->). cbn [bind].
  destruct (stringOr_total h (Sr row) (random_id h i)) as (s1 & ->); try assumption. cbn [bind].
  destruct (stringOr_total h (Subject row) (js "No Subject")) as (s2 & ->); try assumption.
  cbn [bind].
  destruct (stringOr_total h (Customer row) (js "Unknown")) as (s3 & ->); try assumption.
  cbn [bind].
  destruct (stringOr_total h (Owner row) []) as (s4 & ->); try assumption. cbn [bind].
  destruct (parseRating_total h (Rating row)) as (x & ->); try assumption. cbn [bind].
  eauto.
Qed.

Lemma parseRows_length h data : forall i ts,
  parseRows h i data = Normal ts -> List.length ts = List.length data.
Proof.
  induction data as [|row rest IH]; intros i ts H; cbn [parseRows] in H.
  - apply Normal_inj in H. subst. reflexivity.
  - bind_inv H as t Ht. bind_inv H as ts' Hts. apply Normal_inj in H. subst ts.
    simpl. f_equal. exact (IH _ _ Hts).
Qed.

Lemma parseRows_total h data : forall i,
  forallb (row_ok h) data = true -> exists ts, parseRows h i data = Normal ts.
Proof.
  induction data as [|row rest IH]; intros i H; cbn [parseRows]; [eauto |].
  cbn [forallb] in H. apply andb_true_iff in H. destruct H as [Hr Hrest].
  destruct (parseRow_total h i row Hr) as (t & ->). cbn [bind].
  destruct (IH (S i) Hrest) as (ts & ->). cbn [bind]. eauto.
Qed.

(** The tickets are built row by row, in the order of the rows. *)
Lemma parseRows_rows h data : forall i ts,
  parseRows h i data = Normal ts ->
  Forall2 (fun row t => exists j, parseRow h j row = Normal t) data ts.
Proof.
  induction data as [|row rest IH]; intros i ts H; cbn [parseRows] in H.
  - apply Normal_inj in H. subst. constructor.
  - bind_inv H as t Ht. bind_inv H as ts' Hts. apply Normal_inj in H. subst ts.
    constructor; [eauto | exact (IH _ _ Hts)].
Qed.

(** When [parseRawData] returns, it returns one ticket per row, each
    built from the row at its place. *)
Theorem parseRawData_rows h data ts :
  parseRawData h data = Normal ts ->
  List.length ts = List.length data
  /\ Forall2 (fun row t => exists j, parseRow h j row = Normal t) data ts.
Proof.
  intros H. split; [exact (parseRows_length h data 0 ts H) |].
  exact (parseRows_rows h data 0 ts H).
Qed.

(** [parseRawData_rows] on a sheet of one row. *)
Lemma parseRawData_rows_witness :
  exists ts,
    parseRawData utc_host
      [row_of (S_ "Open") VUndefined (S_ "a@x.com") VUndefined VUndefined VUndefined]
    = Normal ts
    /\ List.length ts = 1%nat
    /\ Forall2 (fun row t => exists j, parseRow utc_host j row = Normal t)
         [row_of (S_ "Open") VUndefined (S_ "a@x.com") VUndefined VUndefined VUndefined]
         ts.
Proof.
  eexists. split; [vm_compute; reflexivity |].
  apply (parseRawData_rows utc_host
           [row_of (S_ "Open") VUndefined (S_ "a@x.com") VUndefined VUndefined VUndefined]).
  vm_compute. reflexivity.
Defined.

(** The builder is total on the rows of a sheet whose assignee lists
    convert to strings: when every cell of every row is a scalar, and a
    cell that holds the text of a JSON list holds no object with a
    property named toString, [parseRawData] raises nothing and returns
    one ticket per row. *)
Theorem parseRawData_total h data :
  forallb (row_ok h) data = true ->
  exists ts, parseRawData h data = Normal ts /\ List.length ts = List.length data.
Proof.
  intros H. destruct (parseRows_total h data 0 H) as (ts & E).
  exists ts. split; [exact E |]. exact (parseRows_length h data 0 ts E).
Qed.

(** [parseRawData_total] on a sheet of two rows: a pseudo-JSON list with
    an object in it, and a list that does not parse. *)
Lemma parseRawData_total_witness :
  forallb (row_ok utc_host)
    [row_of (S_ "Resolved") (S_ "2024-03-16") (S_ "['a@x.com', {'k': 1}]") VUndefined
            (S_ "4") (S_ "2024-03-15");
     row_of VUndefined VUndefined (S_ "[oops") (S_ "o@x.com") VUndefined (S_ "--")]
  = true
  /\ exists ts,
       parseRawData utc_host
         [row_of (S_ "Resolved") (S_ "2024-03-16") (S_ "['a@x.com', {'k': 1}]") VUndefined
                 (S_ "4") (S_ "2024-03-15");
          row_of VUndefined VUndefined (S_ "[oops") (S_ "o@x.com") VUndefined (S_ "--")]
       = Normal ts
       /\ List.length ts = 2%nat.
Proof.
  split; [vm_compute; reflexivity |].
  apply (parseRawData_total utc_host
           [row_of (S_ "Resolved") (S_ "2024-03-16") (S_ "['a@x.com', {'k': 1}]") VUndefined
                   (S_ "4") (S_ "2024-03-15");
            row_of VUndefined VUndefined (S_ "[oops") (S_ "o@x.com") VUndefined (S_ "--")]).
  vm_compute. reflexivity.
Defined.

(** C10 fails on the code: the builder raises on a row whose assignee
    cell is the text of a JSON list that holds an object with a property
    named toString.  [JSON.parse] accepts the text, so the handler around
    it does not run, and the conversion of the object to a string, which
    is outside the handler, throws a TypeError that [parseRawData] lets
    through. *)
Theorem parseRawData_throws h :
  is_scalar (S_ "[{'toString': 1}]") = true
  /\ JSON.parse (requote (js "[{'toString': 1}]"))
     = Normal (VArray [VObject [(js "toString", VNumber (of_Z 1))]])
  /\ parseRawData h
       [row_of VUndefined VUndefined (S_ "[{'toString': 1}]") VUndefined VUndefined
               VUndefined]
     = Throw TypeError.
Proof. split; [| split]; vm_compute; reflexivity. Qed.

(* ------------------------------------------------------------------ *)
(** * Defaults, and building the tickets again *)
(* ------------------------------------------------------------------ *)

(** The fields of a ticket that have a default: what they are when the
    cell is absent (falsy), and that the ticket type is never empty. *)
Theorem ticket_defaults h i row t :
  parseRow h i row = Normal t ->
  (exists c r, ticketType t = c :: r)
  /\ (ToBoolean (TicketType row) = false -> ticketType t = js "Unspecified")
  /\ (forall s, ToBoolean (TicketType row) = true ->
        ToString h (TicketType row) = Normal s ->
        ticketType t = if str_eqb (trim s) [] then js "Unspecified" else trim s)
  /\ (ToBoolean (Subject row) = false -> subject t = js "No Subject")
  /\ (ToBoolean (Customer row) = false -> customer t = js "Unknown")
  /\ (ToBoolean (Priority row) = false -> priority t = VString (js "Medium"))
  /\ (ToBoolean (Owner row) = false -> owner t = [])
  /\ (ToBoolean (Sr row) = false -> id t = random_id h i).
Proof.
  unfold parseRow; intros H.
  bind_inv H as asg Hasg. bind_inv H as st Hst. bind_inv H as cr Hcr.
  bind_inv H as rs Hrs. bind_inv H as ty Hty. bind_inv H as sr Hsr.
  bind_inv H as sb Hsb. bind_inv H as cs Hcs. bind_inv H as ow How.
  bind_inv H as rt Hrt.
  apply Normal_inj in H; subst t;
    cbn [id subject customer priority ticketType owner].
  unfold stringOr in *.
  split; [| split; [| split; [| split; [| split; [| split; [| split]]]]]].
  - destruct ty as [|c r]; cbn [or_default]; [| eauto].
    exists (cu "U"), (js "nspecified"). reflexivity.
  - intros Hf. rewrite Hf in Hty. apply Normal_inj in Hty. subst ty. reflexivity.
  - intros s Ht Hs. rewrite Ht, Hs in Hty. cbn [bind] in Hty.
    apply Normal_inj in Hty. subst ty.
    destruct (trim s); reflexivity.
  - intros Hf. rewrite Hf in Hsb. apply Normal_inj in Hsb. congruence.
  - intros Hf. rewrite Hf in Hcs. apply Normal_inj in Hcs. congruence.
  - intros Hf. rewrite Hf. reflexivity.
  - intros Hf. rewrite Hf in How. apply Normal_inj in How. congruence.
  - intros Hf. rewrite Hf in Hsr. apply Normal_inj in Hsr. congruence.
Qed.

(** [ticket_defaults] on a row with no cell but a blank ticket type. *)
Lemma ticket_defaults_witness :
  exists t,
    parseRow utc_host 7
      {| Sr := VUndefined; Subject := VUndefined; Status := VUndefined;
         ResolutionBy := VUndefined; Assign := VUndefined; Customer := VUndefined;
         Priority := VUndefined; TicketType := S_ "  "; Owner := VUndefined;
         Rating := VUndefined; Creation := VUndefined |}
    = Normal t
    /\ (exists c r, ticketType t = c :: r)
    /\ ticketType t = js "Unspecified"
    /\ subject t = js "No Subject"
    /\ customer t = js "Unknown"
    /\ priority t = VString (js "Medium")
    /\ owner t = []
    /\ id t = js "r7".
Proof.
  eexists. split; [vm_compute; reflexivity |].
  destruct (ticket_defaults utc_host 7
              {| Sr := VUndefined; Subject := VUndefined; Status := VUndefined;
                 ResolutionBy := VUndefined; Assign := VUndefined; Customer := VUndefined;
                 Priority := VUndefined; TicketType := S_ "  "; Owner := VUndefined;
                 Rating := VUndefined; Creation := VUndefined |} _ eq_refl)
    as (H1 & _ & H3 & H4 & H5 & H6 & H7 & H8).
  split; [exact H1 |].
  split; [exact (H3 (js "  ") eq_refl eq_refl) |].
  split; [exact (H4 eq_refl) |].
  split; [exact (H5 eq_refl) |].
  split; [exact (H6 eq_refl) |].
  split; [exact (H7 eq_refl) | exact (H8 eq_refl)].
Defined.














(* ------------------------------------------------------------------ *)
(** * Integers as numbers *)
(* ------------------------------------------------------------------ *)

Ltac div_lia := Z.to_euclidean_division_equations; lia.

Lemma holds_finite x a : holds_int x a -> is_finite x = true.
Proof. destruct x; simpl; tauto. Qed.

Lemma holds_zero s : holds_int (Fin s 0 0) 0.
Proof. simpl. destruct s; simpl; lia. Qed.

Lemma nadd_holds x y a b :
  holds_int x a -> holds_int y b -> Z.abs (a + b) < 2 ^ 53 ->
  holds_int (nadd x y) (a + b).
Proof.
  intros Hx Hy Hb.
  destruct (Z.eq_dec (a + b) 0) as [E | E].
  - rewrite E. destruct x as [| |sx mx ex]; simpl in Hx; try tauto.
    destruct y as [| |sy my ey]; simpl in Hy; try tauto.
    destruct Hx as (Hex & Hmx & Hsx), Hy as (Hey & Hmy & Hsy).
    unfold nadd.
    assert (H0 : 0 < 2 ^ (- Z.min ex ey)) by (apply Z.pow_pos_nonneg; lia).
    assert (Hsum : signed sx mx * 2 ^ (ex - Z.min ex ey)
                   + signed sy my * 2 ^ (ey - Z.min ex ey) = 0).
    { rewrite Hsx, Hsy.
      assert (E1 : 2 ^ (- ex) * 2 ^ (ex - Z.min ex ey) = 2 ^ (- Z.min ex ey))
        by (rewrite <- pow2_split by lia; f_equal; lia).
      assert (E2 : 2 ^ (- ey) * 2 ^ (ey - Z.min ex ey) = 2 ^ (- Z.min ex ey))
        by (rewrite <- pow2_split by lia; f_equal; lia).
      rewrite <- !Z.mul_assoc, E1, E2.
      rewrite <- Z.mul_add_distr_r, E. reflexivity. }
    cbv zeta. rewrite Hsum. cbn [Z.eqb]. apply holds_zero.
  - rewrite (nadd_int x y a b Hx Hy E). apply of_Z_holds. exact Hb.
Qed.

Lemma nsub_holds x y a b :
  holds_int x a -> holds_int y b -> Z.abs (a - b) < 2 ^ 53 ->
  holds_int (nsub x y) (a - b).
Proof.
  intros Hx Hy Hb. unfold nsub. replace (a - b) with (a + - b) by lia.
  apply nadd_holds; [exact Hx | apply holds_int_neg; exact Hy | ].
  replace (a + - b) with (a - b) by lia. exact Hb.
Qed.

Lemma nmul_holds x y a b :
  holds_int x a -> holds_int y b -> Z.abs (a * b) < 2 ^ 53 ->
  holds_int (nmul x y) (a * b).
Proof.
  destruct x as [| |sx mx ex]; simpl; try tauto.
  destruct y as [| |sy my ey]; simpl; try tauto.
  intros (Hex & Hmx & Hsx) (Hey & Hmy & Hsy) Hb.
  assert (Hpx : 0 < 2 ^ (- ex)) by (apply Z.pow_pos_nonneg; lia).
  assert (Hpy : 0 < 2 ^ (- ey)) by (apply Z.pow_pos_nonneg; lia).
  assert (Hmx' : mx = Z.abs a * 2 ^ (- ex)).
  { unfold signed in Hsx. destruct sx; nia. }
  assert (Hmy' : my = Z.abs b * 2 ^ (- ey)).
  { unfold signed in Hsy. destruct sy; nia. }
  unfold scale_num, scale_den.
  rewrite Z.max_r by lia. rewrite Z.max_l by lia.
  rewrite Z.pow_0_r, Z.mul_1_r.
  replace (- (ex + ey)) with (- ex + - ey) by lia.
  rewrite pow2_split by lia.
  destruct (Z.eq_dec (a * b) 0) as [E | E].
  - assert (Hz : mx * my = 0).
    { destruct (proj1 (Z.mul_eq_0 a b) E) as [-> | ->]; subst; simpl; lia. }
    rewrite Hz, E. unfold round64. cbn [Z.leb Z.compare]. apply holds_zero.
  - assert (Hsg : xorb sx sy = (a * b <? 0)).
    { unfold signed in Hsx, Hsy.
      destruct sx, sy, (Z.ltb_spec (a * b) 0); simpl; auto; nia. }
    rewrite Hsg.
    replace (mx * my) with (Z.abs (a * b) * (2 ^ (- ex) * 2 ^ (- ey))).
    2:{ rewrite Z.abs_mul. nia. }
    rewrite <- (Z.mul_1_l (2 ^ (- ex) * 2 ^ (- ey))) at 2.
    rewrite <- pow2_split by lia.
    rewrite round64_scale by lia.
    change (round64 (a * b <? 0) (Z.abs (a * b)) 1) with (of_Z (a * b)).
    apply of_Z_holds. exact Hb.
Qed.

Lemma ncompare_holds x y a b :
  holds_int x a -> holds_int y b -> ncompare x y = Some (a ?= b).
Proof.
  destruct x as [| |sx mx ex]; simpl; try tauto.
  destruct y as [| |sy my ey]; simpl; try tauto.
  intros (Hex & Hmx & Hsx) (Hey & Hmy & Hsy).
  assert (H0 : 0 < 2 ^ (- Z.min ex ey)) by (apply Z.pow_pos_nonneg; lia).
  assert (E1 : 2 ^ (- ex) * 2 ^ (ex - Z.min ex ey) = 2 ^ (- Z.min ex ey))
    by (rewrite <- pow2_split by lia; f_equal; lia).
  assert (E2 : 2 ^ (- ey) * 2 ^ (ey - Z.min ex ey) = 2 ^ (- Z.min ex ey))
    by (rewrite <- pow2_split by lia; f_equal; lia).
  rewrite Hsx, Hsy, <- !Z.mul_assoc, E1, E2. f_equal.
  destruct (Z.compare_spec a b);
    [apply Z.compare_eq_iff | apply Z.compare_lt_iff | apply Z.compare_gt_iff]; nia.
Qed.

Lemma nle_holds x y a b : holds_int x a -> holds_int y b -> nle x y = (a <=? b).
Proof.
  intros Hx Hy. unfold nle. rewrite (ncompare_holds x y a b Hx Hy).
  unfold Z.leb. destruct (a ?= b); reflexivity.
Qed.

Lemma nlt_holds x y a b : holds_int x a -> holds_int y b -> nlt x y = (a <? b).
Proof.
  intros Hx Hy. unfold nlt. rewrite (ncompare_holds x y a b Hx Hy).
  unfold Z.ltb. destruct (a ?= b); reflexivity.
Qed.

Lemma getTime_holds z : Z.abs z <= maxTime -> holds_int (getTime (Some z)) z.
Proof.
  intros Hz. apply of_Z_holds. unfold maxTime in Hz.
  change (2 ^ 53) with 9007199254740992. lia.
Qed.

Lemma TimeClip_holds x z :
  holds_int x z -> Z.abs z < 2 ^ 53 ->
  TimeClip x = if Z.abs z <=? maxTime then Some z else None.
Proof.
  intros Hx Hb. unfold TimeClip.
  rewrite (holds_finite x z Hx), (to_Z_int _ z (trunc_int _ z Hx Hb)). reflexivity.
Qed.

(* ------------------------------------------------------------------ *)
(** * The calendar *)
(* ------------------------------------------------------------------ *)

Lemma DayFromYear_step y : 365 <= DayFromYear (y + 1) - DayFromYear y <= 366.
Proof. unfold DayFromYear. div_lia. Qed.

Lemma DayFromYear_bounds y :
  146097 * (y - 1970) - 600 <= 400 * DayFromYear y <= 146097 * (y - 1970) + 600.
Proof. unfold DayFromYear. div_lia. Qed.

Lemma DayFromYear_mono y y' : y <= y' -> DayFromYear y <= DayFromYear y'.
Proof.
  intros H. pose proof (DayFromYear_bounds y). pose proof (DayFromYear_bounds y').
  destruct (Z.eq_dec y y') as [-> | Hne]; [lia |].
  destruct (Z.eq_dec (y + 1) y') as [<- | Hne'].
  - pose proof (DayFromYear_step y). lia.
  - lia.
Qed.

(** [YearFromTime] is the year ECMA-262 defines: the largest y whose
    first day is not after the day of t. *)
Lemma YearFromTime_spec t :
  DayFromYear (YearFromTime t) <= Day t < DayFromYear (YearFromTime t + 1).
Proof.
  unfold YearFromTime. cbv zeta.
  set (d := Day t). set (y0 := 1970 + 400 * d / 146097).
  pose proof (DayFromYear_bounds y0) as B0.
  pose proof (DayFromYear_bounds (y0 - 1)) as Bm.
  pose proof (DayFromYear_bounds (y0 + 1)) as Bp.
  pose proof (DayFromYear_bounds (y0 + 1 + 1)) as Bpp.
  assert (Hy0 : 146097 * (y0 - 1970) <= 400 * d < 146097 * (y0 - 1970) + 146097).
  { unfold y0. div_lia. }
  destruct (Z.ltb_spec d (DayFromYear y0)).
  - replace (y0 - 1 + 1) with y0 by lia. lia.
  - destruct (Z.leb_spec (DayFromYear (y0 + 1)) d); lia.
Qed.

Lemma YearFromTime_unique t y :
  DayFromYear y <= Day t < DayFromYear (y + 1) -> YearFromTime t = y.
Proof.
  intros H. pose proof (YearFromTime_spec t) as Hs.
  destruct (Z.lt_trichotomy (YearFromTime t) y) as [Hlt | [E | Hgt]]; [| exact E |].
  - pose proof (DayFromYear_mono (YearFromTime t + 1) y). lia.
  - pose proof (DayFromYear_mono (y + 1) (YearFromTime t)). lia.
Qed.

Lemma days_in_year y :
  DayFromYear (y + 1) - DayFromYear y = if InLeapYear y then 366 else 365.
Proof.
  unfold DayFromYear, InLeapYear.
  destruct (Z.eqb_spec (y mod 4) 0), (Z.eqb_spec (y mod 100) 0),
    (Z.eqb_spec (y mod 400) 0); cbn [negb andb orb]; div_lia.
Qed.

Lemma DayWithinYear_range t :
  0 <= DayWithinYear t < (if InLeapYear (YearFromTime t) then 366 else 365).
Proof.
  unfold DayWithinYear. pose proof (YearFromTime_spec t).
  rewrite <- days_in_year. lia.
Qed.

Lemma month_start_table y :
  let leap := if InLeapYear y then 1 else 0 in
  month_start y 0 = 0 /\ month_start y 1 = 31 /\ month_start y 2 = 59 + leap
  /\ month_start y 3 = 90 + leap /\ month_start y 4 = 120 + leap
  /\ month_start y 5 = 151 + leap /\ month_start y 6 = 181 + leap
  /\ month_start y 7 = 212 + leap /\ month_start y 8 = 243 + leap
  /\ month_start y 9 = 273 + leap /\ month_start y 10 = 304 + leap
  /\ month_start y 11 = 334 + leap /\ month_start y 12 = 365 + leap.
Proof.
  unfold month_start, DaysInMonth. destruct (InLeapYear y); cbv; repeat split.
Qed.

Lemma month_cases (P : Z -> Prop) mn :
  0 <= mn <= 11 ->
  P 0 -> P 1 -> P 2 -> P 3 -> P 4 -> P 5 -> P 6 -> P 7 -> P 8 -> P 9 -> P 10 -> P 11 ->
  P mn.
Proof.
  intros H; intros.
  assert (E : mn = 0 \/ mn = 1 \/ mn = 2 \/ mn = 3 \/ mn = 4 \/ mn = 5 \/ mn = 6
              \/ mn = 7 \/ mn = 8 \/ mn = 9 \/ mn = 10 \/ mn = 11) by lia.
  repeat (destruct E as [-> | E]; [assumption |]). subst; assumption.
Qed.

(** [MonthFromTime] is the month whose days hold the day of t. *)
Lemma MonthFromTime_spec t :
  let y := YearFromTime t in
  let mn := MonthFromTime t in
  0 <= mn <= 11
  /\ month_start y mn <= DayWithinYear t < month_start y (mn + 1).
Proof.
  cbv zeta. pose proof (DayWithinYear_range t) as Hr.
  destruct (month_start_table (YearFromTime t))
    as (H0 & H1 & H2 & H3 & H4 & H5 & H6 & H7 & H8 & H9 & H10 & H11 & H12).
  unfold MonthFromTime. cbv zeta.
  set (dw := DayWithinYear t) in *.
  assert (Hl : (if InLeapYear (YearFromTime t) then 366 else 365)
               = 365 + (if InLeapYear (YearFromTime t) then 1 else 0)).
  { destruct (InLeapYear (YearFromTime t)); reflexivity. }
  rewrite Hl in Hr.
  repeat match goal with
         | |- context [?a <? ?b] => destruct (Z.ltb_spec a b)
         end;
    cbn [Z.add Pos.add Pos.succ];
    rewrite ?H0, ?H1, ?H2, ?H3, ?H4, ?H5, ?H6, ?H7, ?H8, ?H9, ?H10, ?H11, ?H12; lia.
Qed.

(* ------------------------------------------------------------------ *)
(** * The Date constructor on integer fields *)
(* ------------------------------------------------------------------ *)

Lemma pow53 : 2 ^ 53 = 9007199254740992.
Proof. reflexivity. Qed.

Lemma MakeFullYear_holds x y :
  holds_int x y -> 99 < y < 2 ^ 53 -> holds_int (MakeFullYear x) y.
Proof.
  intros Hx Hy. rewrite pow53 in Hy.
  assert (Ht : holds_int (trunc x) y) by (apply trunc_int; [exact Hx | rewrite pow53; lia]).
  unfold MakeFullYear. destruct x; try (simpl in Hx; tauto).
  cbv zeta.
  rewrite (nle_holds _ _ y 99 Ht (of_Z_holds 99 ltac:(rewrite pow53; simpl; lia))).
  destruct (Z.leb_spec y 99); [lia |]. rewrite andb_false_r. exact Ht.
Qed.

Lemma DayFromYear_last : DayFromYear 275760 = 99999744.
Proof. reflexivity. Qed.

Lemma DayFromYear_first : DayFromYear 1969 = -365.
Proof. reflexivity. Qed.

Lemma month_start_range y mn : 0 <= mn <= 11 -> 0 <= month_start y mn <= 335.
Proof.
  intros H.
  destruct (month_start_table y)
    as (H0 & H1 & H2 & H3 & H4 & H5 & H6 & H7 & H8 & H9 & H10 & H11 & _).
  pattern mn. apply month_cases; [exact H | ..];
    rewrite ?H0, ?H1, ?H2, ?H3, ?H4, ?H5, ?H6, ?H7, ?H8, ?H9, ?H10, ?H11;
    destruct (InLeapYear y); lia.
Qed.

(** the day of the first of a month, for the years a Date can hold after
    1969 *)
Lemma day_of_month_start_range y mn :
  1969 <= y <= 275759 -> 0 <= mn <= 11 ->
  -365 <= day_of_month_start y mn < 99999744.
Proof.
  intros Hy Hm. unfold day_of_month_start.
  pose proof (month_start_range y mn Hm).
  pose proof (DayFromYear_mono 1969 y ltac:(lia)).
  pose proof (DayFromYear_mono (y + 1) 275760 ltac:(lia)).
  pose proof (days_in_year y).
  rewrite DayFromYear_last in *. rewrite DayFromYear_first in *.
  destruct (InLeapYear y); lia.
Qed.

Lemma MakeDay_holds X M D y m d :
  holds_int X y -> holds_int M m -> holds_int D d ->
  1970 <= y <= 275759 -> -12 <= m <= 11 -> Z.abs d <= 1000 ->
  holds_int (MakeDay X M D) (day_of_month_start (y + m / 12) (m mod 12) + d - 1).
Proof.
  intros HX HM HD Hy Hm Hd.
  assert (Hmd : -1 <= m / 12 <= 0 /\ 0 <= m mod 12 <= 11) by div_lia.
  pose proof (day_of_month_start_range (y + m / 12) (m mod 12) ltac:(lia) ltac:(lia))
    as Hr.
  unfold MakeDay. unfold all_finite. cbn [forallb].
  rewrite (holds_finite X y HX), (holds_finite M m HM), (holds_finite D d HD).
  cbn [andb].
  rewrite (to_Z_int _ m (trunc_int M m HM ltac:(rewrite pow53; lia))).
  assert (Hym : holds_int (nadd (trunc X) (of_Z (m / 12))) (y + m / 12)).
  { apply nadd_holds.
    - apply trunc_int; [exact HX | rewrite pow53; lia].
    - apply of_Z_holds. rewrite pow53. lia.
    - rewrite pow53. lia. }
  rewrite (to_Z_int _ _ Hym). cbv zeta.
  set (day := day_of_month_start (y + m / 12) (m mod 12)) in *.
  destruct (Z.leb_spec (Z.abs (day * msPerDay)) maxTime) as [_ | Hbad].
  2:{ unfold msPerDay, maxTime in Hbad. lia. }
  replace (day + d - 1) with (day + d - 1) by lia.
  apply nsub_holds.
  - apply nadd_holds.
    + apply of_Z_holds. rewrite pow53. lia.
    + apply trunc_int; [exact HD | rewrite pow53; lia].
    + rewrite pow53. lia.
  - apply of_Z_holds. rewrite pow53. simpl. lia.
  - rewrite pow53. lia.
Qed.

Lemma MakeTime_holds H Mi S Ms hh mi s ms :
  holds_int H hh -> holds_int Mi mi -> holds_int S s -> holds_int Ms ms ->
  0 <= hh <= 23 -> 0 <= mi <= 59 -> 0 <= s <= 59 -> 0 <= ms <= 999 ->
  holds_int (MakeTime H Mi S Ms)
            (hh * msPerHour + mi * msPerMinute + s * msPerSecond + ms).
Proof.
  intros HH HMi HS HMs Bh Bm Bs Bms.
  unfold MakeTime, all_finite. cbn [forallb].
  rewrite (holds_finite _ _ HH), (holds_finite _ _ HMi), (holds_finite _ _ HS),
    (holds_finite _ _ HMs). cbn [andb].
  unfold msPerHour, msPerMinute, msPerSecond.
  repeat first
    [ apply nadd_holds | apply nmul_holds | apply trunc_int | apply of_Z_holds
    | assumption | rewrite pow53; lia ].
Qed.

Lemma MakeDate_holds Dy T day time :
  holds_int Dy day -> holds_int T time ->
  Z.abs day <= 100000000 -> 0 <= time < msPerDay ->
  holds_int (MakeDate Dy T) (day * msPerDay + time).
Proof.
  intros HD HT Bd Bt. unfold msPerDay in *.
  unfold MakeDate, all_finite. cbn [forallb].
  rewrite (holds_finite _ _ HD), (holds_finite _ _ HT). cbn [andb]. cbv zeta.
  assert (Hs : holds_int (nadd (nmul Dy (of_Z 86400000)) T) (day * 86400000 + time)).
  { apply nadd_holds; [apply nmul_holds | |];
      repeat first [assumption | apply of_Z_holds | rewrite pow53; lia]. }
  unfold msPerDay. rewrite (holds_finite _ _ Hs). exact Hs.
Qed.

Lemma UTC_holds h T t :
  holds_int T t -> Z.abs t <= maxTime + msPerDay ->
  Z.abs (local_tza h t) <= msPerDay ->
  holds_int (UTC h T) (to_utc h t).
Proof.
  intros HT Bt Bo. unfold UTC, to_utc. rewrite (to_Z_int _ _ HT).
  unfold msPerDay, maxTime in *.
  apply nsub_holds; [exact HT | apply of_Z_holds |]; rewrite pow53; lia.
Qed.

(** The Date built from integer fields: the local time they denote, taken
    to UTC, when that is a time value. *)
Lemma Date_of_fields_ms_int h Y M D H Mi S Ms y m d hh mi s ms :
  holds_int Y y -> holds_int M m -> holds_int D d ->
  holds_int H hh -> holds_int Mi mi -> holds_int S s -> holds_int Ms ms ->
  1970 <= y <= 275759 -> -12 <= m <= 11 -> 0 <= d <= 31 ->
  0 <= hh <= 23 -> 0 <= mi <= 59 -> 0 <= s <= 59 -> 0 <= ms <= 999 ->
  let t := local_month_start y m + (d - 1) * msPerDay
           + (hh * msPerHour + mi * msPerMinute + s * msPerSecond + ms) in
  Z.abs (local_tza h t) <= msPerDay ->
  Date_of_fields_ms h Y M D H Mi S Ms
  = if Z.abs (to_utc h t) <=? maxTime then Some (to_utc h t) else None.
Proof.
  intros HY HM HD HH HMi HS HMs By Bm Bd Bh Bmi Bs Bms t Bo.
  assert (Hmd : -1 <= m / 12 <= 0 /\ 0 <= m mod 12 <= 11) by div_lia.
  pose proof (day_of_month_start_range (y + m / 12) (m mod 12) ltac:(lia) ltac:(lia))
    as Hr.
  pose proof (MakeDay_holds _ _ _ y m d (MakeFullYear_holds Y y HY ltac:(rewrite pow53; lia))
                HM HD By Bm ltac:(lia)) as Hday.
  pose proof (MakeTime_holds _ _ _ _ hh mi s ms HH HMi HS HMs Bh Bmi Bs Bms) as Htime.
  pose proof (MakeDate_holds _ _ _ _ Hday Htime) as Hdate.
  assert (Ht : t = (day_of_month_start (y + m / 12) (m mod 12) + d - 1) * msPerDay
                   + (hh * msPerHour + mi * msPerMinute + s * msPerSecond + ms)).
  { unfold t, local_month_start. ring. }
  unfold msPerHour, msPerMinute, msPerSecond, msPerDay in *.
  assert (B1 : Z.abs (day_of_month_start (y + m / 12) (m mod 12) + d - 1) <= 100000000) by lia.
  assert (B2 : 0 <= hh * 3600000 + mi * 60000 + s * 1000 + ms < 86400000) by lia.
  specialize (Hdate B1 B2).
  rewrite <- Ht in Hdate.
  assert (Bt : Z.abs t <= maxTime + 86400000).
  { unfold maxTime. rewrite Ht. lia. }
  pose proof (UTC_holds h _ t Hdate Bt Bo) as Hutc.
  unfold Date_of_fields_ms.
  apply TimeClip_holds; [exact Hutc |].
  unfold to_utc. rewrite pow53. unfold maxTime in Bt. lia.
Qed.

(* ------------------------------------------------------------------ *)
(** * The time windows *)
(* ------------------------------------------------------------------ *)

Lemma ncompare_nan_r x : ncompare x NaN = None.
Proof. destruct x; reflexivity. Qed.

Lemma date_ge_created t lo :
  time_ok (createdAt t) -> Z.abs lo <= maxTime ->
  date_ge (createdAt t) (Some lo) = created_from lo t.
Proof.
  intros Ht Hlo. unfold date_ge, created_from, nge.
  destruct (createdAt t) as [z|];
    [| unfold nle; cbn [getTime]; rewrite ncompare_nan_r; reflexivity].
  simpl in Ht.
  exact (nle_holds _ _ lo z (getTime_holds lo Hlo) (getTime_holds z Ht)).
Qed.

Lemma date_le_created t hi :
  time_ok (createdAt t) -> Z.abs hi <= maxTime ->
  date_le (createdAt t) (Some hi)
  = match createdAt t with Some z => z <=? hi | None => false end.
Proof.
  intros Ht Hhi. unfold date_le.
  destruct (createdAt t) as [z|]; [| reflexivity].
  simpl in Ht.
  exact (nle_holds _ _ z hi (getTime_holds z Ht) (getTime_holds hi Hhi)).
Qed.

Lemma date_lt_created t hi :
  time_ok (createdAt t) -> Z.abs hi <= maxTime ->
  date_lt (createdAt t) (Some hi)
  = match createdAt t with Some z => z <? hi | None => false end.
Proof.
  intros Ht Hhi. unfold date_lt.
  destruct (createdAt t) as [z|]; [| reflexivity].
  simpl in Ht.
  exact (nlt_holds _ _ z hi (getTime_holds z Ht) (getTime_holds hi Hhi)).
Qed.

Lemma filter_from tickets lo :
  Forall (fun t => time_ok (createdAt t)) tickets -> Z.abs lo <= maxTime ->
  filter (fun t => date_ge (createdAt t) (Some lo)) tickets
  = filter (created_from lo) tickets.
Proof.
  intros Hok Hlo. apply filter_ext_in. intros t Hin.
  rewrite Forall_forall in Hok. apply date_ge_created; auto.
Qed.

Lemma filter_within tickets lo hi :
  Forall (fun t => time_ok (createdAt t)) tickets ->
  Z.abs lo <= maxTime -> Z.abs hi <= maxTime ->
  filter (fun t => date_ge (createdAt t) (Some lo) && date_le (createdAt t) (Some hi))
         tickets
  = filter (created_within lo hi) tickets.
Proof.
  intros Hok Hlo Hhi. apply filter_ext_in. intros t Hin.
  rewrite Forall_forall in Hok.
  rewrite date_ge_created, date_le_created by auto.
  unfold created_from, created_within. destruct (createdAt t); reflexivity.
Qed.

Lemma filter_before tickets lo hi :
  Forall (fun t => time_ok (createdAt t)) tickets ->
  Z.abs lo <= maxTime -> Z.abs hi <= maxTime ->
  filter (fun t => date_ge (createdAt t) (Some lo) && date_lt (createdAt t) (Some hi))
         tickets
  = filter (created_within lo (hi - 1)) tickets.
Proof.
  intros Hok Hlo Hhi. apply filter_ext_in. intros t Hin.
  rewrite Forall_forall in Hok.
  rewrite date_ge_created, date_lt_created by auto.
  unfold created_from, created_within. destruct (createdAt t) as [z|]; [| reflexivity].
  f_equal. destruct (Z.ltb_spec z hi), (Z.leb_spec z (hi - 1)); auto; lia.
Qed.

(** two adjacent windows make up one *)
Lemma windows_adjacent tickets lo mid :
  lo <= mid ->
  Permutation (filter (created_from mid) tickets
               ++ filter (created_within lo (mid - 1)) tickets)
              (filter (created_from lo) tickets).
Proof.
  intros Hle. induction tickets as [|t ts IH]; [constructor |].
  cbn [filter]. unfold created_from, created_within in *.
  destruct (createdAt t) as [z|]; [| exact IH].
  destruct (Z.leb_spec mid z), (Z.leb_spec lo z), (Z.leb_spec z (mid - 1));
    cbn [andb app]; try lia; try exact IH.
  - constructor. exact IH.
  - apply Permutation_sym, Permutation_cons_app, Permutation_sym. exact IH.
Qed.

Lemma days_ms_values :
  days_ms 7 = of_Z (day_ms 7) /\ days_ms 14 = of_Z (day_ms 14)
  /\ days_ms 30 = of_Z (day_ms 30) /\ days_ms 60 = of_Z (day_ms 60).
Proof. repeat split; vm_compute; reflexivity. Qed.

(** the Date [n] days before now *)
Lemma days_ago now n :
  0 <= n <= 60 -> Z.abs now <= maxTime -> - maxTime <= now - day_ms n ->
  Date_of_number (nsub (getTime (Some now)) (of_Z (day_ms n)))
  = Some (now - day_ms n).
Proof.
  intros Hn Hnow Hlo. unfold Date_of_number, getTime, day_ms, msPerDay, maxTime in *.
  rewrite nsub_of_Z by (rewrite pow53; lia).
  apply TimeClip_of_Z. unfold maxTime. lia.
Qed.

Lemma rolling_eq c h tickets n range :
  rolling n range ->
  Forall (fun t => time_ok (createdAt t)) tickets ->
  - maxTime + day_ms (2 * n) <= current_time c <= maxTime ->
  filterTickets c h tickets range
  = filter (created_from (current_time c - day_ms n)) tickets
  /\ getPreviousPeriodTickets c h tickets range
     = filter (created_within (current_time c - day_ms (2 * n))
                              (current_time c - day_ms n - 1)) tickets.
Proof.
  intros Hr Hok Hnow.
  destruct days_ms_values as (D7 & D14 & D30 & D60).
  destruct Hr as [[-> ->] | [-> ->]];
    unfold filterTickets, getPreviousPeriodTickets; cbv zeta;
    change (2 * 7) with 14 in *; change (2 * 30) with 60 in *;
    unfold day_ms, msPerDay, maxTime in Hnow.
  - change (str_eqb (js "last-7-days") (js "last-7-days")) with true. cbv iota.
    rewrite D7, D14, !days_ago by (unfold day_ms, msPerDay, maxTime; lia).
    split; [apply filter_from | apply filter_before]; auto;
      unfold day_ms, msPerDay, maxTime; lia.
  - change (str_eqb (js "last-30-days") (js "last-7-days")) with false.
    change (str_eqb (js "last-30-days") (js "last-30-days")) with true. cbv iota.
    rewrite D30, D60, !days_ago by (unfold day_ms, msPerDay, maxTime; lia).
    split; [apply filter_from | apply filter_before]; auto;
      unfold day_ms, msPerDay, maxTime; lia.
Qed.

Lemma time_ok_dec tv :
  (match tv with Some z => Z.abs z <=? maxTime | None => true end) = true -> time_ok tv.
Proof. destruct tv as [z|]; simpl; [apply Z.leb_le | trivial]. Qed.

Lemma ist_zone_ok t : Z.abs (local_tza ist_host t) <= msPerDay.
Proof. apply Z.leb_le. reflexivity. Qed.

(** A rolling window holds the tickets created in the last n days (and
    any created later), its previous period those of the n days before,
    and the two together are the tickets of the last 2 n days, each
    once. *)
Theorem rolling_windows c h tickets n range :
  rolling n range ->
  Forall (fun t => time_ok (createdAt t)) tickets ->
  - maxTime + day_ms (2 * n) <= current_time c <= maxTime ->
  filterTickets c h tickets range
  = filter (created_from (current_time c - day_ms n)) tickets
  /\ getPreviousPeriodTickets c h tickets range
     = filter (created_within (current_time c - day_ms (2 * n))
                              (current_time c - day_ms n - 1)) tickets
  /\ Permutation (filterTickets c h tickets range
                  ++ getPreviousPeriodTickets c h tickets range)
                 (filter (created_from (current_time c - day_ms (2 * n))) tickets).
Proof.
  intros Hr Hok Hnow.
  destruct (rolling_eq c h tickets n range Hr Hok Hnow) as (E1 & E2).
  split; [exact E1 |]. split; [exact E2 |].
  rewrite E1, E2. apply windows_adjacent.
  unfold day_ms, msPerDay. destruct Hr as [[-> _] | [-> _]]; lia.
Qed.

(** [rolling_windows] on 15 March 2024, 12:00 UTC, for a ticket of the
    day before, one of ten days before, one of the epoch and one with an
    invalid date. *)
Lemma rolling_windows_witness :
  let c := ist_clock 1710504000000 in
  let tickets := [ticket_at (Some 1710417600000); ticket_at (Some 1709640000000);
                  ticket_at epoch; ticket_at None] in
  filterTickets c ist_host tickets (js "last-7-days") = [ticket_at (Some 1710417600000)]
  /\ getPreviousPeriodTickets c ist_host tickets (js "last-7-days")
     = [ticket_at (Some 1709640000000)]
  /\ Permutation (filterTickets c ist_host tickets (js "last-7-days")
                  ++ getPreviousPeriodTickets c ist_host tickets (js "last-7-days"))
                 (filter (created_from (current_time c - day_ms (2 * 7))) tickets).
Proof.
  cbv zeta.
  destruct (rolling_windows (ist_clock 1710504000000) ist_host
              [ticket_at (Some 1710417600000); ticket_at (Some 1709640000000);
               ticket_at epoch; ticket_at None] 7 (js "last-7-days"))
    as (E1 & E2 & P).
  - left. split; reflexivity.
  - repeat constructor; apply time_ok_dec; reflexivity.
  - split; apply Z.leb_le; reflexivity.
  - split; [rewrite E1; vm_compute; reflexivity |]. split; [rewrite E2; vm_compute; reflexivity | exact P].
Defined.

(** ** Calendar months *)

Lemma year_range t :
  0 <= t <= maxTime - day_ms 400 -> 1970 <= YearFromTime t <= 275759.
Proof.
  intros Ht. pose proof (YearFromTime_spec t) as Hs.
  assert (Hd : 0 <= Day t <= 99999600).
  { unfold Day, maxTime, day_ms, msPerDay in *. div_lia. }
  split.
  - destruct (Z_le_gt_dec 1970 (YearFromTime t)); [assumption |].
    pose proof (DayFromYear_mono (YearFromTime t + 1) 1970 ltac:(lia)) as Hm.
    change (DayFromYear 1970) with 0 in Hm. lia.
  - destruct (Z_le_gt_dec (YearFromTime t) 275759); [assumption |].
    pose proof (DayFromYear_mono 275760 (YearFromTime t) ltac:(lia)) as Hm.
    rewrite DayFromYear_last in Hm. lia.
Qed.

Lemma local_month_start_in_year y mn :
  0 <= mn <= 11 -> local_month_start y mn = day_of_month_start y mn * msPerDay.
Proof.
  intros H. unfold local_month_start.
  replace (mn / 12) with 0 by div_lia. replace (mn mod 12) with mn by div_lia.
  rewrite Z.add_0_r. reflexivity.
Qed.

(** the clock is in its month *)
Lemma month_holds_now t :
  let y := YearFromTime t in
  let mn := MonthFromTime t in
  0 <= mn <= 11 /\ local_month_start y mn <= t.
Proof.
  cbv zeta. destruct (MonthFromTime_spec t) as (Hm & Hlo & _).
  split; [exact Hm |].
  rewrite local_month_start_in_year by exact Hm.
  unfold day_of_month_start, DayWithinYear, Day, msPerDay in *. div_lia.
Qed.

(** a month has 28 to 31 days, also across the end of a year *)
Lemma month_length y mn :
  -2 <= mn <= 10 ->
  day_ms 28 <= local_month_start y (mn + 1) - local_month_start y mn <= day_ms 31.
Proof.
  intros H. unfold day_ms.
  assert (Hc : mn = -2 \/ mn = -1 \/ 0 <= mn <= 10) by lia.
  destruct Hc as [-> | [-> | Hc]].
  - unfold local_month_start, day_of_month_start.
    change (-2 / 12) with (-1). change (-2 mod 12) with 10.
    change ((-2 + 1) / 12) with (-1). change ((-2 + 1) mod 12) with 11.
    destruct (month_start_table (y + -1))
      as (_ & _ & _ & _ & _ & _ & _ & _ & _ & _ & H10 & H11 & _).
    rewrite H10, H11. unfold msPerDay. lia.
  - unfold local_month_start, day_of_month_start.
    change (-1 / 12) with (-1). change (-1 mod 12) with 11.
    change ((-1 + 1) / 12) with 0. change ((-1 + 1) mod 12) with 0.
    destruct (month_start_table (y + -1))
      as (_ & _ & _ & _ & _ & _ & _ & _ & _ & _ & _ & H11 & _).
    destruct (month_start_table (y + 0)) as (H0 & _).
    rewrite H11, H0. pose proof (days_in_year (y + -1)) as Hy.
    replace (y + -1 + 1) with (y + 0) in Hy by lia.
    unfold msPerDay. destruct (InLeapYear (y + -1)); lia.
  - rewrite !local_month_start_in_year by lia.
    unfold day_of_month_start.
    destruct (month_start_table y)
      as (H0 & H1 & H2 & H3 & H4 & H5 & H6 & H7 & H8 & H9 & H10 & H11 & _).
    assert (E : mn = 0 \/ mn = 1 \/ mn = 2 \/ mn = 3 \/ mn = 4 \/ mn = 5 \/ mn = 6
                \/ mn = 7 \/ mn = 8 \/ mn = 9 \/ mn = 10) by lia.
    unfold msPerDay.
    repeat (destruct E as [-> | E];
            [cbn [Z.add Pos.add Pos.succ];
             rewrite ?H0, ?H1, ?H2, ?H3, ?H4, ?H5, ?H6, ?H7, ?H8, ?H9, ?H10, ?H11;
             destruct (InLeapYear y); lia |]).
    subst. cbn [Z.add Pos.add Pos.succ]. rewrite H10, H11.
    destruct (InLeapYear y); lia.
Qed.

Lemma local_month_start_range y mn :
  1970 <= y <= 275759 -> -12 <= mn <= 11 ->
  - day_ms 365 <= local_month_start y mn < day_ms 99999744.
Proof.
  intros Hy Hm. unfold local_month_start, day_ms.
  assert (Hmd : -1 <= mn / 12 <= 0 /\ 0 <= mn mod 12 <= 11) by div_lia.
  pose proof (day_of_month_start_range (y + mn / 12) (mn mod 12) ltac:(lia) ltac:(lia)).
  unfold msPerDay. lia.
Qed.

(** [new Date(year, month, 1)] *)
Lemma Date_first h Y M y m :
  holds_int Y y -> holds_int M m ->
  1970 <= y <= 275759 -> -12 <= m <= 11 ->
  Z.abs (local_tza h (local_month_start y m)) <= msPerDay ->
  to_utc h (local_month_start y m) <= maxTime ->
  Date_of_ymd h Y M (of_Z 1) = Some (to_utc h (local_month_start y m)).
Proof.
  intros HY HM By Bm Bo Bu.
  pose proof (Date_of_fields_ms_int h Y M (of_Z 1) zero zero zero zero y m 1 0 0 0 0
                HY HM (of_Z_holds 1 ltac:(rewrite pow53; simpl; lia))
                (holds_zero false) (holds_zero false) (holds_zero false) (holds_zero false)
                By Bm ltac:(lia) ltac:(lia) ltac:(lia) ltac:(lia) ltac:(lia)) as E.
  cbv zeta in E.
  replace (local_month_start y m + (1 - 1) * msPerDay
           + (0 * msPerHour + 0 * msPerMinute + 0 * msPerSecond + 0))
    with (local_month_start y m) in E by ring.
  specialize (E Bo).
  change (Date_of_fields_ms h Y M (of_Z 1) zero zero zero zero)
    with (Date_of_ymd h Y M (of_Z 1)) in E.
  rewrite E.
  pose proof (local_month_start_range y m By Bm) as Hr.
  unfold to_utc, day_ms, msPerDay, maxTime in *.
  destruct (Z.leb_spec (Z.abs (local_month_start y m - local_tza h (local_month_start y m)))
                       8640000000000000); [reflexivity | lia].
Qed.

(** [new Date(year, month, 0, 23, 59, 59, ms)]: the last second of the
    month before *)
Lemma Date_last h Y M Ms y m ms :
  holds_int Y y -> holds_int M m -> holds_int Ms ms ->
  1970 <= y <= 275759 -> -12 <= m <= 11 -> 0 <= ms <= 999 ->
  Z.abs (local_tza h (local_month_start y m - 1000 + ms)) <= msPerDay ->
  to_utc h (local_month_start y m - 1000 + ms) <= maxTime ->
  Date_of_fields_ms h Y M (of_Z 0) (of_Z 23) (of_Z 59) (of_Z 59) Ms
  = Some (to_utc h (local_month_start y m - 1000 + ms)).
Proof.
  intros HY HM HMs By Bm Bms Bo Bu.
  pose proof (Date_of_fields_ms_int h Y M (of_Z 0) (of_Z 23) (of_Z 59) (of_Z 59) Ms
                y m 0 23 59 59 ms
                HY HM (holds_zero false)
                (of_Z_holds 23 ltac:(rewrite pow53; simpl; lia))
                (of_Z_holds 59 ltac:(rewrite pow53; simpl; lia))
                (of_Z_holds 59 ltac:(rewrite pow53; simpl; lia)) HMs
                By Bm ltac:(lia) ltac:(lia) ltac:(lia) ltac:(lia) Bms) as E.
  cbv zeta in E.
  replace (local_month_start y m + (0 - 1) * msPerDay
           + (23 * msPerHour + 59 * msPerMinute + 59 * msPerSecond + ms))
    with (local_month_start y m - 1000 + ms) in E
    by (unfold msPerDay, msPerHour, msPerMinute, msPerSecond; ring).
  specialize (E Bo). rewrite E.
  pose proof (local_month_start_range y m By Bm) as Hr.
  unfold to_utc, day_ms, msPerDay, maxTime in *.
  match goal with |- (if ?a <=? ?b then _ else _) = _ => destruct (Z.leb_spec a b) end;
    [reflexivity | lia].
Qed.

Section CalendarWindows.

Variable c : Clock.
Variable h : Host.
Variable tickets : list Ticket.

Hypothesis tickets_ok : Forall (fun t => time_ok (createdAt t)) tickets.
Hypothesis clock_ok : 0 <= local_now c <= maxTime - day_ms 400.
Hypothesis zone_ok : forall t, Z.abs (local_tza h t) <= msPerDay.

Lemma calendar_fields :
  getFullYear c (Some (current_time c)) = of_Z (YearFromTime (local_now c))
  /\ getMonth c (Some (current_time c)) = of_Z (MonthFromTime (local_now c))
  /\ 1970 <= YearFromTime (local_now c) <= 275759
  /\ 0 <= MonthFromTime (local_now c) <= 11
  /\ month_at c 0 <= local_now c.
Proof.
  split; [reflexivity |]. split; [reflexivity |].
  split; [apply year_range; exact clock_ok |].
  destruct (month_holds_now (local_now c)) as (Hm & Hle).
  split; [exact Hm |]. unfold month_at. rewrite Z.add_0_r. exact Hle.
Qed.

Lemma month_at_bounds k :
  -2 <= k <= 0 ->
  - day_ms 365 <= month_at c k <= local_now c
  /\ (k < 0 -> month_at c k + day_ms 28 <= month_at c (k + 1)).
Proof.
  intros Hk. destruct calendar_fields as (_ & _ & Hy & Hm & Hnow).
  unfold month_at in *.
  set (y := YearFromTime (local_now c)) in *.
  set (m := MonthFromTime (local_now c)) in *.
  rewrite Z.add_0_r in Hnow.
  pose proof (local_month_start_range y (m + k) Hy ltac:(lia)) as Hr.
  assert (H1 : local_month_start y (m + -1) + day_ms 28 <= local_month_start y m).
  { pose proof (month_length y (m + -1) ltac:(lia)) as Hl.
    replace (m + -1 + 1) with m in Hl by lia. lia. }
  assert (H2 : local_month_start y (m + -2) + day_ms 28
               <= local_month_start y (m + -1)).
  { pose proof (month_length y (m + -2) ltac:(lia)) as Hl.
    replace (m + -2 + 1) with (m + -1) in Hl by lia. lia. }
  assert (Hd : 0 < day_ms 28) by (unfold day_ms, msPerDay; lia).
  assert (E : k = -2 \/ k = -1 \/ k = 0) by lia.
  destruct E as [-> | [-> | ->]];
    change (-2 + 1) with (-1); change (-1 + 1) with 0; rewrite ?Z.add_0_r in *;
    (split; [split; [apply Hr | lia] |]); intros; lia.
Qed.

Lemma calendar_eq :
  filterTickets c h tickets (js "this-month")
  = filter (created_from (to_utc h (month_at c 0))) tickets
  /\ filterTickets c h tickets (js "last-month")
     = filter (created_within (to_utc h (month_at c (-1)))
                              (to_utc h (month_at c 0 - 1000))) tickets
  /\ getPreviousPeriodTickets c h tickets (js "this-month")
     = filter (created_within (to_utc h (month_at c (-1)))
                              (to_utc h (month_at c 0 - 1))) tickets
  /\ getPreviousPeriodTickets c h tickets (js "last-month")
     = filter (created_within (to_utc h (month_at c (-2)))
                              (to_utc h (month_at c (-1) - 1))) tickets.
Proof.
  destruct calendar_fields as (EY & EM & Hy & Hm & Hnow).
  destruct (month_at_bounds 0 ltac:(lia)) as (B0 & _).
  destruct (month_at_bounds (-1) ltac:(lia)) as (B1 & L1).
  destruct (month_at_bounds (-2) ltac:(lia)) as (B2 & L2).
  specialize (L1 ltac:(lia)). specialize (L2 ltac:(lia)).
  change (-1 + 1) with 0 in L1. change (-2 + 1) with (-1) in L2.
  unfold month_at in *.
  set (y := YearFromTime (local_now c)) in *.
  set (m := MonthFromTime (local_now c)) in *.
  rewrite Z.add_0_r in *.
  pose proof (of_Z_holds y ltac:(rewrite pow53; lia)) as HY.
  pose proof (of_Z_holds m ltac:(rewrite pow53; lia)) as HM.
  assert (HM1 : holds_int (nsub (of_Z m) (of_Z 1)) (m + -1)).
  { replace (m + -1) with (m - 1) by lia.
    apply nsub_holds; [exact HM | apply of_Z_holds; rewrite pow53; simpl; lia |].
    rewrite pow53. lia. }
  assert (HM2 : holds_int (nsub (of_Z m) (of_Z 2)) (m + -2)).
  { replace (m + -2) with (m - 2) by lia.
    apply nsub_holds; [exact HM | apply of_Z_holds; rewrite pow53; simpl; lia |].
    rewrite pow53. lia. }
  assert (H999 : holds_int (of_Z 999) 999)
    by (apply of_Z_holds; rewrite pow53; simpl; lia).
  assert (Hz : forall t, - day_ms 366 <= t <= local_now c ->
                         Z.abs (to_utc h t) <= maxTime).
  { intros t Ht. pose proof (zone_ok t). unfold to_utc, day_ms, msPerDay, maxTime in *.
    lia. }
  assert (Hd : day_ms 365 + 1000 <= day_ms 366 /\ 0 < day_ms 28)
    by (unfold day_ms, msPerDay; lia).
  pose proof (Date_first h _ _ y m HY HM Hy ltac:(lia) (zone_ok _)
                ltac:(pose proof (Hz (local_month_start y m) ltac:(lia)); lia)) as D0.
  pose proof (Date_first h _ _ y (m + -1) HY HM1 Hy ltac:(lia) (zone_ok _)
                ltac:(pose proof (Hz (local_month_start y (m + -1)) ltac:(lia)); lia))
    as D1.
  pose proof (Date_first h _ _ y (m + -2) HY HM2 Hy ltac:(lia) (zone_ok _)
                ltac:(pose proof (Hz (local_month_start y (m + -2)) ltac:(lia)); lia))
    as D2.
  pose proof (Date_last h _ _ zero y m 0 HY HM (holds_zero false) Hy ltac:(lia)
                ltac:(lia) (zone_ok _)
                ltac:(pose proof (Hz (local_month_start y m - 1000 + 0) ltac:(lia)); lia))
    as E0.
  pose proof (Date_last h _ _ _ y m 999 HY HM H999 Hy ltac:(lia)
                ltac:(lia) (zone_ok _)
                ltac:(pose proof (Hz (local_month_start y m - 1000 + 999) ltac:(lia)); lia))
    as E9.
  pose proof (Date_last h _ _ _ y (m + -1) 999 HY HM1 H999 Hy ltac:(lia)
                ltac:(lia) (zone_ok _)
                ltac:(pose proof (Hz (local_month_start y (m + -1) - 1000 + 999)
                                     ltac:(lia)); lia))
    as F9.
  replace (local_month_start y m - 1000 + 0) with (local_month_start y m - 1000)
    in E0 by lia.
  replace (local_month_start y m - 1000 + 999) with (local_month_start y m - 1)
    in E9 by lia.
  replace (local_month_start y (m + -1) - 1000 + 999)
    with (local_month_start y (m + -1) - 1) in F9 by lia.
  change (Date_of_fields_ms h (of_Z y) (of_Z m) (of_Z 0) (of_Z 23) (of_Z 59) (of_Z 59)
            zero)
    with (Date_of_fields h (of_Z y) (of_Z m) (of_Z 0) (of_Z 23) (of_Z 59) (of_Z 59))
    in E0.
  unfold filterTickets, getPreviousPeriodTickets. cbv zeta.
  rewrite EY, EM.
  change (str_eqb (js "this-month") (js "last-7-days")) with false.
  change (str_eqb (js "this-month") (js "last-30-days")) with false.
  change (str_eqb (js "this-month") (js "this-month")) with true.
  change (str_eqb (js "last-month") (js "last-7-days")) with false.
  change (str_eqb (js "last-month") (js "last-30-days")) with false.
  change (str_eqb (js "last-month") (js "this-month")) with false.
  change (str_eqb (js "last-month") (js "last-month")) with true.
  cbv iota. rewrite D0, D1, D2, E0, E9, F9.
  repeat split; first [apply filter_from | apply filter_within]; try exact tickets_ok;
    apply Hz; lia.
Qed.

End CalendarWindows.

Lemma windows_split tickets lo mid hi :
  lo <= mid + 1 -> mid <= hi ->
  Permutation (filter (created_within lo hi) tickets)
              (filter (created_within lo mid) tickets
               ++ filter (created_within (mid + 1) hi) tickets).
Proof.
  intros H1 H2. induction tickets as [|t ts IH]; [constructor |].
  cbn [filter]. unfold created_within in *.
  destruct (createdAt t) as [z|]; [| exact IH].
  destruct (Z.leb_spec lo z), (Z.leb_spec z hi), (Z.leb_spec z mid),
    (Z.leb_spec (mid + 1) z); cbn [andb app]; try lia; try exact IH.
  - constructor. exact IH.
  - apply Permutation_cons_app. exact IH.
Qed.

(** The calendar windows as intervals of time values: this month from its
    first instant on, and the period before it the whole month before;
    where the zone does not change its offset at the turn of the month,
    the two are adjacent, and together hold the tickets created since the
    start of last month, each once. *)
Theorem calendar_windows c h tickets :
  Forall (fun t => time_ok (createdAt t)) tickets ->
  0 <= local_now c <= maxTime - day_ms 400 ->
  (forall t, Z.abs (local_tza h t) <= msPerDay) ->
  filterTickets c h tickets (js "this-month")
  = filter (created_from (to_utc h (month_at c 0))) tickets
  /\ getPreviousPeriodTickets c h tickets (js "this-month")
     = filter (created_within (to_utc h (month_at c (-1)))
                              (to_utc h (month_at c 0 - 1))) tickets
  /\ (local_tza h (month_at c 0 - 1) = local_tza h (month_at c 0) ->
      Permutation (filterTickets c h tickets (js "this-month")
                   ++ getPreviousPeriodTickets c h tickets (js "this-month"))
                  (filter (created_from (to_utc h (month_at c (-1)))) tickets))
  /\ (utc_tza c (current_time c) = local_tza h (month_at c 0) ->
      to_utc h (month_at c 0) <= current_time c).
Proof.
  intros Hok Hclock Hzone.
  destruct (calendar_eq c h tickets Hok Hclock Hzone) as (E1 & _ & E3 & _).
  split; [exact E1 |]. split; [exact E3 |]. split.
  - intros Hsame. rewrite E1, E3.
    assert (Ee : to_utc h (month_at c 0 - 1) = to_utc h (month_at c 0) - 1).
    { unfold to_utc. rewrite Hsame. lia. }
    rewrite Ee. apply windows_adjacent.
    destruct (month_at_bounds c Hclock (-1) ltac:(lia)) as (_ & L1).
    specialize (L1 ltac:(lia)). change (-1 + 1) with 0 in L1.
    pose proof (Hzone (month_at c (-1))). pose proof (Hzone (month_at c 0)).
    unfold to_utc, day_ms, msPerDay in *. lia.
  - intros Hsame.
    destruct (calendar_fields c Hclock) as (_ & _ & _ & _ & Hnow).
    unfold to_utc, local_now, LocalTime in *. lia.
Qed.

(** [calendar_windows] on 15 March 2024 in India: this month starts on
    29 February at 18:30 UTC. *)
Lemma calendar_windows_witness :
  let c := ist_clock 1710504000000 in
  let tickets := [ticket_at (Some 1710417600000); ticket_at (Some 1709231400000);
                  ticket_at (Some 1709231399999); ticket_at (Some 1706725800000);
                  ticket_at (Some 1706725799999); ticket_at None] in
  to_utc ist_host (month_at c 0) = 1709231400000
  /\ filterTickets c ist_host tickets (js "this-month")
     = [ticket_at (Some 1710417600000); ticket_at (Some 1709231400000)]
  /\ getPreviousPeriodTickets c ist_host tickets (js "this-month")
     = [ticket_at (Some 1709231399999); ticket_at (Some 1706725800000)]
  /\ Permutation (filterTickets c ist_host tickets (js "this-month")
                  ++ getPreviousPeriodTickets c ist_host tickets (js "this-month"))
                 (filter (created_from (to_utc ist_host (month_at c (-1)))) tickets)
  /\ to_utc ist_host (month_at c 0) <= current_time c.
Proof.
  cbv zeta.
  destruct (calendar_windows (ist_clock 1710504000000) ist_host
              [ticket_at (Some 1710417600000); ticket_at (Some 1709231400000);
               ticket_at (Some 1709231399999); ticket_at (Some 1706725800000);
               ticket_at (Some 1706725799999); ticket_at None])
    as (E1 & E2 & P & N).
  - repeat constructor; apply time_ok_dec; reflexivity.
  - split; apply Z.leb_le; vm_compute; reflexivity.
  - exact ist_zone_ok.
  - split; [vm_compute; reflexivity |].
    split; [rewrite E1; vm_compute; reflexivity |].
    split; [rewrite E2; vm_compute; reflexivity |].
    split; [apply P; vm_compute; reflexivity | apply N; vm_compute; reflexivity].
Defined.

(** The "last month" view ends at 23:59:59.000 of the last day of the
    month, the previous period of "this month" at 23:59:59.999: the view
    leaves out the tickets created in the last 999 ms of the month, which
    the previous period holds. *)
Theorem last_month_views c h tickets :
  Forall (fun t => time_ok (createdAt t)) tickets ->
  0 <= local_now c <= maxTime - day_ms 400 ->
  (forall t, Z.abs (local_tza h t) <= msPerDay) ->
  local_tza h (month_at c 0 - 1000) = local_tza h (month_at c 0 - 1) ->
  let last_second := to_utc h (month_at c 0 - 1000) in
  filterTickets c h tickets (js "last-month")
  = filter (created_within (to_utc h (month_at c (-1))) last_second) tickets
  /\ Permutation (getPreviousPeriodTickets c h tickets (js "this-month"))
                 (filterTickets c h tickets (js "last-month")
                  ++ filter (created_within (last_second + 1) (last_second + 999))
                            tickets).
Proof.
  intros Hok Hclock Hzone Hsame. cbv zeta.
  destruct (calendar_eq c h tickets Hok Hclock Hzone) as (_ & E2 & E3 & _).
  split; [exact E2 |]. rewrite E2, E3.
  assert (Ee : to_utc h (month_at c 0 - 1) = to_utc h (month_at c 0 - 1000) + 999).
  { unfold to_utc. rewrite Hsame. lia. }
  rewrite Ee. apply windows_split; [| lia].
  destruct (month_at_bounds c Hclock (-1) ltac:(lia)) as (_ & L1).
  specialize (L1 ltac:(lia)). change (-1 + 1) with 0 in L1.
  pose proof (Hzone (month_at c (-1))). pose proof (Hzone (month_at c 0 - 1000)).
  unfold to_utc, day_ms, msPerDay in *. lia.
Qed.

(** [last_month_views] on 15 March 2024 in India, for two tickets of the
    last second of February. *)
Lemma last_month_views_witness :
  let c := ist_clock 1710504000000 in
  let tickets := [ticket_at (Some 1709231399000); ticket_at (Some 1709231399500)] in
  filterTickets c ist_host tickets (js "last-month") = [ticket_at (Some 1709231399000)]
  /\ getPreviousPeriodTickets c ist_host tickets (js "this-month") = tickets
  /\ Permutation (getPreviousPeriodTickets c ist_host tickets (js "this-month"))
                 (filterTickets c ist_host tickets (js "last-month")
                  ++ filter (created_within (to_utc ist_host (month_at c 0 - 1000) + 1)
                                            (to_utc ist_host (month_at c 0 - 1000) + 999))
                            tickets).
Proof.
  cbv zeta.
  destruct (last_month_views (ist_clock 1710504000000) ist_host
              [ticket_at (Some 1709231399000); ticket_at (Some 1709231399500)])
    as (E1 & P).
  - repeat constructor; apply time_ok_dec; reflexivity.
  - split; apply Z.leb_le; vm_compute; reflexivity.
  - exact ist_zone_ok.
  - vm_compute. reflexivity.
  - split; [rewrite E1; vm_compute; reflexivity |].
    split; [| exact P].
    vm_compute. reflexivity.
Defined.

Lemma month_ends_after t :
  t < local_month_start (YearFromTime t) (MonthFromTime t) + day_ms 31.
Proof.
  destruct (MonthFromTime_spec t) as (Hm & _ & Hhi). cbv zeta in Hhi.
  rewrite local_month_start_in_year by exact Hm.
  assert (Hlen : month_start (YearFromTime t) (MonthFromTime t + 1)
                 <= month_start (YearFromTime t) (MonthFromTime t) + 31).
  { destruct (month_start_table (YearFromTime t))
      as (H0 & H1 & H2 & H3 & H4 & H5 & H6 & H7 & H8 & H9 & H10 & H11 & H12).
    pattern (MonthFromTime t). apply month_cases; [exact Hm | ..];
      cbn [Z.add Pos.add Pos.succ];
      rewrite ?H0, ?H1, ?H2, ?H3, ?H4, ?H5, ?H6, ?H7, ?H8, ?H9, ?H10, ?H11, ?H12;
      destruct (InLeapYear (YearFromTime t)); lia. }
  unfold day_of_month_start, DayWithinYear, Day, day_ms, msPerDay in *. div_lia.
Qed.

Lemma In_filter_from tickets lo t :
  In t (filter (created_from lo) tickets) -> exists z, createdAt t = Some z /\ lo <= z.
Proof.
  intros H. apply filter_In in H. destruct H as (_ & H). unfold created_from in H.
  destruct (createdAt t) as [z|]; [| discriminate].
  exists z. split; [reflexivity | apply Z.leb_le; exact H].
Qed.

Lemma In_filter_within tickets lo hi t :
  In t (filter (created_within lo hi) tickets) ->
  exists z, createdAt t = Some z /\ lo <= z <= hi.
Proof.
  intros H. apply filter_In in H. destruct H as (_ & H). unfold created_within in H.
  destruct (createdAt t) as [z|]; [| discriminate].
  apply andb_true_iff in H. destruct H as (H1 & H2).
  exists z. split; [reflexivity |]. split; apply Z.leb_le; assumption.
Qed.

(** A ticket whose creation date is unknown (the invalid date, or the
    epoch the date parser falls back to) is in no bounded window and in
    no previous period: it is seen under "all" only. *)
Theorem undated_tickets_hidden c h tickets range t :
  bounded_range range = true ->
  Forall (fun t => time_ok (createdAt t)) tickets ->
  day_ms 100 <= current_time c <= maxTime ->
  day_ms 100 <= local_now c <= maxTime - day_ms 400 ->
  (forall t, Z.abs (local_tza h t) <= msPerDay) ->
  In t (filterTickets c h tickets range)
  \/ In t (getPreviousPeriodTickets c h tickets range) ->
  exists z, createdAt t = Some z /\ 0 < z.
Proof.
  intros Hr Hok Hnow Hloc Hzone Hin.
  assert (Hloc' : 0 <= local_now c <= maxTime - day_ms 400)
    by (unfold day_ms, msPerDay in *; lia).
  assert (Hcases : rolling 7 range \/ rolling 30 range
                   \/ range = js "this-month" \/ range = js "last-month").
  { unfold bounded_range in Hr. cbn [existsb] in Hr.
    repeat (apply orb_true_iff in Hr; destruct Hr as [Hr | Hr]);
      try discriminate Hr; apply str_eqb_eq in Hr; unfold rolling; auto. }
  assert (Hroll : forall n, rolling n range -> exists z, createdAt t = Some z /\ 0 < z).
  { intros n Hn.
    assert (Hn' : n = 7 \/ n = 30) by (destruct Hn as [[? _] | [? _]]; auto).
    destruct (rolling_eq c h tickets n range Hn Hok) as (E1 & E2).
    { unfold day_ms, msPerDay, maxTime in *. lia. }
    rewrite E1, E2 in Hin.
    destruct Hin as [Hin | Hin];
      [apply In_filter_from in Hin | apply In_filter_within in Hin];
      destruct Hin as (z & Ez & Hz); exists z; (split; [exact Ez |]);
      unfold day_ms, msPerDay in *; lia. }
  destruct Hcases as [Hn | [Hn | Hcal]]; [exact (Hroll 7 Hn) | exact (Hroll 30 Hn) |].
  destruct (calendar_eq c h tickets Hok Hloc' Hzone) as (E1 & E2 & E3 & E4).
  destruct (month_at_bounds c Hloc' (-1) ltac:(lia)) as (_ & L1).
  destruct (month_at_bounds c Hloc' (-2) ltac:(lia)) as (_ & L2).
  specialize (L1 ltac:(lia)). specialize (L2 ltac:(lia)).
  change (-1 + 1) with 0 in L1. change (-2 + 1) with (-1) in L2.
  pose proof (month_ends_after (local_now c)) as Hend.
  pose proof (month_length (YearFromTime (local_now c)) (MonthFromTime (local_now c) + -1))
    as M1.
  pose proof (month_length (YearFromTime (local_now c)) (MonthFromTime (local_now c) + -2))
    as M2.
  destruct (calendar_fields c Hloc') as (_ & _ & _ & Hm & _).
  specialize (M1 ltac:(lia)). specialize (M2 ltac:(lia)).
  unfold month_at in *.
  replace (MonthFromTime (local_now c) + -1 + 1) with (MonthFromTime (local_now c) + 0)
    in M1 by lia.
  replace (MonthFromTime (local_now c) + -2 + 1) with (MonthFromTime (local_now c) + -1)
    in M2 by lia.
  rewrite Z.add_0_r in *.
  pose proof (Hzone (local_month_start (YearFromTime (local_now c))
                                       (MonthFromTime (local_now c)))) as Z0.
  pose proof (Hzone (local_month_start (YearFromTime (local_now c))
                                       (MonthFromTime (local_now c) + -1))) as Z1.
  pose proof (Hzone (local_month_start (YearFromTime (local_now c))
                                       (MonthFromTime (local_now c) + -2))) as Z2.
  destruct Hcal as [-> | ->]; rewrite ?E1, ?E2, ?E3, ?E4 in Hin;
    (destruct Hin as [Hin | Hin];
     [first [apply In_filter_from in Hin | apply In_filter_within in Hin]
     | apply In_filter_within in Hin]);
    destruct Hin as (z & Ez & Hz); exists z; (split; [exact Ez |]);
    unfold to_utc, day_ms, msPerDay in *; lia.
Qed.

(** [undated_tickets_hidden] on 15 March 2024 in India: the one ticket
    the seven-day window keeps has a date. *)
Lemma undated_tickets_hidden_witness :
  let c := ist_clock 1710504000000 in
  let tickets := [ticket_at (Some 1710417600000); ticket_at epoch; ticket_at None] in
  In (ticket_at (Some 1710417600000)) (filterTickets c ist_host tickets (js "last-7-days"))
  /\ exists z, createdAt (ticket_at (Some 1710417600000)) = Some z /\ 0 < z.
Proof.
  cbv zeta.
  assert (Hin : In (ticket_at (Some 1710417600000))
                   (filterTickets (ist_clock 1710504000000) ist_host
                      [ticket_at (Some 1710417600000); ticket_at epoch; ticket_at None]
                      (js "last-7-days"))).
  { vm_compute. left. reflexivity. }
  split; [exact Hin |].
  apply (undated_tickets_hidden (ist_clock 1710504000000) ist_host
           [ticket_at (Some 1710417600000); ticket_at epoch; ticket_at None]
           (js "last-7-days")).
  - reflexivity.
  - repeat constructor; apply time_ok_dec; reflexivity.
  - split; apply Z.leb_le; vm_compute; reflexivity.
  - split; apply Z.leb_le; vm_compute; reflexivity.
  - exact ist_zone_ok.
  - left. exact Hin.
Defined.

Lemma ge_pow2_test k n d :
  (if 0 <=? k then d * 2 ^ k <=? n else d <=? n * 2 ^ (- k)) = true <-> ge_pow2 k n d.
Proof.
  unfold ge_pow2. destruct (Z.leb_spec 0 k).
  - rewrite Z.max_l, Z.max_r by lia. rewrite Z.pow_0_r, Z.mul_1_r. apply Z.leb_le.
  - rewrite Z.max_r, Z.max_l by lia. rewrite Z.pow_0_r, Z.mul_1_r. apply Z.leb_le.
Qed.

Lemma ge_pow2_down k n d : 0 < n -> 0 < d -> ge_pow2 (k + 1) n d -> ge_pow2 k n d.
Proof.
  unfold ge_pow2. intros Hn Hd H.
  destruct (Z.le_gt_cases 0 k).
  - rewrite Z.max_l, Z.max_r in * by lia.
    rewrite Z.pow_add_r in H by lia. change (2 ^ 1) with 2 in H.
    assert (0 < 2 ^ k) by (apply Z.pow_pos_nonneg; lia). nia.
  - rewrite (Z.max_r k), (Z.max_l (- k)) by lia.
    rewrite (Z.max_r (k + 1)), (Z.max_l (- (k + 1))) in H by lia.
    replace (- k) with (- (k + 1) + 1) by lia.
    rewrite Z.pow_add_r by lia. change (2 ^ 1) with 2.
    assert (0 < 2 ^ (- (k + 1))) by (apply Z.pow_pos_nonneg; lia). nia.
Qed.

Lemma ge_pow2_below n d :
  0 < n -> 0 < d -> ge_pow2 (Z.log2 n - Z.log2 d - 1) n d.
Proof.
  intros Hn Hd. unfold ge_pow2.
  destruct (Z.log2_spec n Hn) as [Hn1 _]. destruct (Z.log2_spec d Hd) as [_ Hd2].
  pose proof (Z.log2_nonneg n). pose proof (Z.log2_nonneg d).
  set (a := Z.log2 n) in *. set (b := Z.log2 d) in *.
  replace (Z.succ b) with (b + 1) in Hd2 by lia.
  destruct (Z.le_gt_cases 0 (a - b - 1)).
  - rewrite Z.max_l, Z.max_r by lia. rewrite Z.pow_0_r, Z.mul_1_r.
    assert (E : 2 ^ a = 2 ^ (b + 1) * 2 ^ (a - b - 1))
      by (rewrite <- Z.pow_add_r by lia; f_equal; lia).
    assert (0 < 2 ^ (a - b - 1)) by (apply Z.pow_pos_nonneg; lia). nia.
  - rewrite Z.max_r, Z.max_l by lia. rewrite Z.pow_0_r, Z.mul_1_r.
    assert (E : 2 ^ (b + 1) = 2 ^ a * 2 ^ (- (a - b - 1)))
      by (rewrite <- Z.pow_add_r by lia; f_equal; lia).
    assert (0 < 2 ^ (- (a - b - 1))) by (apply Z.pow_pos_nonneg; lia). nia.
Qed.

Lemma ge_pow2_above n d :
  0 < n -> 0 < d -> ~ ge_pow2 (Z.log2 n - Z.log2 d + 1) n d.
Proof.
  intros Hn Hd. unfold ge_pow2.
  destruct (Z.log2_spec n Hn) as [_ Hn2]. destruct (Z.log2_spec d Hd) as [Hd1 _].
  pose proof (Z.log2_nonneg n). pose proof (Z.log2_nonneg d).
  set (a := Z.log2 n) in *. set (b := Z.log2 d) in *.
  replace (Z.succ a) with (a + 1) in Hn2 by lia.
  destruct (Z.le_gt_cases 0 (a - b + 1)).
  - rewrite Z.max_l, Z.max_r by lia. rewrite Z.pow_0_r, Z.mul_1_r.
    assert (E : 2 ^ (a + 1) = 2 ^ b * 2 ^ (a - b + 1))
      by (rewrite <- Z.pow_add_r by lia; f_equal; lia).
    assert (0 < 2 ^ (a - b + 1)) by (apply Z.pow_pos_nonneg; lia). nia.
  - rewrite Z.max_r, Z.max_l by lia. rewrite Z.pow_0_r, Z.mul_1_r.
    assert (E : 2 ^ b = 2 ^ (a + 1) * 2 ^ (- (a - b + 1)))
      by (rewrite <- Z.pow_add_r by lia; f_equal; lia).
    assert (0 < 2 ^ (- (a - b + 1))) by (apply Z.pow_pos_nonneg; lia). nia.
Qed.

(** [ilog2 n d] is the exponent of n / d: 2^k <= n / d < 2^(k+1). *)
Lemma ilog2_spec n d :
  0 < n -> 0 < d -> ge_pow2 (ilog2 n d) n d /\ ~ ge_pow2 (ilog2 n d + 1) n d.
Proof.
  intros Hn Hd. unfold ilog2. cbv zeta.
  set (k := Z.log2 n - Z.log2 d).
  pose proof (ge_pow2_test k n d) as Ht.
  destruct (if 0 <=? k then d * 2 ^ k <=? n else d <=? n * 2 ^ (- k)).
  - split; [apply Ht; reflexivity | apply ge_pow2_above; assumption].
  - split.
    + apply ge_pow2_below; assumption.
    + replace (k - 1 + 1) with k by lia. intros Hc. apply Ht in Hc. discriminate.
Qed.

Lemma rhe_bounds n d lo hi :
  0 < d -> lo * d <= n -> n <= hi * d -> lo <= round_half_even n d <= hi.
Proof.
  intros Hd Hlo Hhi. pose proof (rhe_error n d Hd) as He.
  split; nia.
Qed.

Lemma pow2_pos k : 0 <= k -> 0 < 2 ^ k.
Proof. intros. apply Z.pow_pos_nonneg; lia. Qed.

(** the significand [round64] rounds to, with its bounds: in the normal
    range it has 53 bits (or carries into the 54th), below it 52 at most *)
Lemma round64_significand n d :
  0 < n -> 0 < d ->
  let e := Z.max (ilog2 n d - 52) (-1074) in
  let m := if 0 <=? e then round_half_even n (d * 2 ^ e)
           else round_half_even (n * 2 ^ (- e)) d in
  (-1074 <= ilog2 n d - 52 -> 2 ^ 52 <= m <= 2 ^ 53)
  /\ (ilog2 n d - 52 < -1074 -> 0 <= m <= 2 ^ 52).
Proof.
  intros Hn Hd. cbv zeta.
  destruct (ilog2_spec n d Hn Hd) as (Hge & Hlt). unfold ge_pow2 in *.
  set (k := ilog2 n d) in *.
  split.
  - intros Hk. rewrite Z.max_l by lia.
    destruct (Z.leb_spec 0 (k - 52)) as [He | He].
    + (* 52 <= k *)
      rewrite (Z.max_l k), (Z.max_r (- k)) in Hge by lia.
      rewrite (Z.max_l (k + 1)), (Z.max_r (- (k + 1))) in Hlt by lia.
      rewrite Z.pow_0_r, Z.mul_1_r in *.
      assert (E1 : 2 ^ k = 2 ^ 52 * 2 ^ (k - 52))
        by (rewrite <- Z.pow_add_r by lia; f_equal; lia).
      assert (E2 : 2 ^ (k + 1) = 2 ^ 53 * 2 ^ (k - 52))
        by (rewrite <- Z.pow_add_r by lia; f_equal; lia).
      pose proof (pow2_pos (k - 52) He).
      apply rhe_bounds; nia.
    + replace (- (k - 52)) with (52 - k) by lia.
      pose proof (pow2_pos (52 - k) ltac:(lia)).
      destruct (Z.le_gt_cases 0 k) as [Hk0 | Hk0].
      * rewrite (Z.max_l k), (Z.max_r (- k)) in Hge by lia.
        rewrite (Z.max_l (k + 1)), (Z.max_r (- (k + 1))) in Hlt by lia.
        rewrite Z.pow_0_r, Z.mul_1_r in *.
        assert (E1 : 2 ^ 52 = 2 ^ k * 2 ^ (52 - k))
          by (rewrite <- Z.pow_add_r by lia; f_equal; lia).
        assert (E2 : 2 ^ 53 = 2 ^ (k + 1) * 2 ^ (52 - k))
          by (rewrite <- Z.pow_add_r by lia; f_equal; lia).
        pose proof (pow2_pos k Hk0). pose proof (pow2_pos (k + 1) ltac:(lia)).
        apply rhe_bounds; nia.
      * rewrite (Z.max_r k), (Z.max_l (- k)) in Hge by lia.
        rewrite Z.pow_0_r, Z.mul_1_r in Hge.
        assert (E1 : 2 ^ (52 - k) = 2 ^ (- k) * 2 ^ 52)
          by (rewrite <- Z.pow_add_r by lia; f_equal; lia).
        pose proof (pow2_pos (- k) ltac:(lia)).
        assert (Hup : n * 2 ^ (52 - k) < 2 ^ 53 * d).
        { destruct (Z.eq_dec (k + 1) 0) as [E0 | E0].
          - rewrite E0 in Hlt. simpl in Hlt.
            replace (52 - k) with 53 by lia. nia.
          - rewrite (Z.max_r (k + 1)), (Z.max_l (- (k + 1))) in Hlt by lia.
            rewrite Z.pow_0_r, Z.mul_1_r in Hlt.
            assert (E2 : 2 ^ (52 - k) = 2 ^ (- (k + 1)) * 2 ^ 53)
              by (rewrite <- Z.pow_add_r by lia; f_equal; lia).
            pose proof (pow2_pos (- (k + 1)) ltac:(lia)). nia. }
        apply rhe_bounds; nia.
  - intros Hk. rewrite Z.max_r by lia. cbn [Z.leb Z.compare Z.opp].
    rewrite (Z.max_r (k + 1)), (Z.max_l (- (k + 1))) in Hlt by lia.
    rewrite Z.pow_0_r, Z.mul_1_r in Hlt.
    pose proof (pow2_pos (- (k + 1)) ltac:(lia)) as Hp1.
    assert (H1074 : 0 < 2 ^ 1074) by (apply pow2_pos; lia).
    assert (Hup : n * 2 ^ 1074 <= 2 ^ 52 * d).
    { destruct (Z.le_gt_cases 0 (1075 + k)) as [Hc | Hc].
      - assert (E : 2 ^ 1074 = 2 ^ (- (k + 1)) * 2 ^ (1075 + k))
          by (rewrite <- Z.pow_add_r by lia; f_equal; lia).
        assert (E52 : 2 ^ 52 = 2 ^ (1075 + k) * 2 ^ (- 1023 - k))
          by (rewrite <- Z.pow_add_r by lia; f_equal; lia).
        pose proof (pow2_pos (1075 + k) Hc).
        pose proof (pow2_pos (- 1023 - k) ltac:(lia)).
        rewrite E, E52.
        assert (n * 2 ^ (- (k + 1)) * 2 ^ (1075 + k) <= d * 2 ^ (1075 + k)) by nia.
        nia.
      - assert (E : 2 ^ (- (k + 1)) = 2 ^ 1074 * 2 ^ (- 1075 - k))
          by (rewrite <- Z.pow_add_r by lia; f_equal; lia).
        pose proof (pow2_pos (- 1075 - k) ltac:(lia)).
        assert (H52 : 0 < 2 ^ 52) by (apply pow2_pos; lia).
        assert (n * 2 ^ 1074 <= n * 2 ^ (- (k + 1))) by (rewrite E; nia).
        nia. }
    apply rhe_bounds; [lia | nia | lia].
Qed.

(** what [round64] returns is a binary64 value *)
Lemma round64_binary64 s n d : 0 < d -> is_binary64 (round64 s n d) = true.
Proof.
  intros Hd. unfold round64.
  destruct (Z.leb_spec n 0); [reflexivity |].
  pose proof (round64_significand n d ltac:(lia) Hd) as (Hnorm & Hsub).
  cbv zeta in *.
  set (e := Z.max (ilog2 n d - 52) (-1074)) in *.
  set (m := if 0 <=? e then round_half_even n (d * 2 ^ e)
            else round_half_even (n * 2 ^ (- e)) d) in *.
  assert (He : -1074 <= e) by (unfold e; lia).
  destruct (Z.eqb_spec m 0); [reflexivity |].
  destruct (Z.eqb_spec m (2 ^ 53)) as [Em | Em].
  - destruct (Z.ltb_spec 971 (e + 1)); [reflexivity |].
    unfold is_binary64.
    destruct (Z.leb_spec (-1074) (e + 1)); [| lia].
    destruct (Z.leb_spec (e + 1) 971); [| lia].
    change (2 ^ 52 <=? 2 ^ 52) with true. change (2 ^ 52 <? 2 ^ 53) with true.
    cbn [andb]. rewrite orb_true_r. reflexivity.
  - destruct (Z.ltb_spec 971 e); [reflexivity |].
    unfold is_binary64.
    destruct (Z.le_gt_cases (-1074) (ilog2 n d - 52)) as [Hc | Hc].
    + specialize (Hnorm Hc).
      destruct (Z.leb_spec (2 ^ 52) m); [| lia].
      destruct (Z.ltb_spec m (2 ^ 53)); [| lia].
      destruct (Z.leb_spec (-1074) e); [| lia].
      destruct (Z.leb_spec e 971); [| lia].
      cbn [andb]. rewrite orb_true_r. reflexivity.
    + specialize (Hsub Hc).
      assert (Ee : e = -1074) by (unfold e; lia).
      rewrite Ee. change (-1074 =? -1074) with true.
      destruct (Z.ltb_spec m (2 ^ 52)).
      * destruct (Z.ltb_spec 0 m); [| lia]. cbn [andb]. apply orb_true_r.
      * destruct (Z.leb_spec (2 ^ 52) m); [| lia].
        destruct (Z.ltb_spec m (2 ^ 53)); [| lia].
        change (-1074 <=? -1074) with true. change (-1074 <=? 971) with true.
        cbn [andb]. rewrite orb_true_r. reflexivity.
Qed.

(** a binary64 value that is not a zero rounds to itself *)
Lemma round64_exact s m a b :
  0 <= a -> 0 <= b -> 0 < m -> is_binary64 (Fin s m (a - b)) = true ->
  round64 s (m * 2 ^ a) (2 ^ b) = Fin s m (a - b).
Proof.
  intros Ha Hb Hm Hc. unfold is_binary64 in Hc.
  pose proof (pow2_pos a Ha) as Pa. pose proof (pow2_pos b Hb) as Pb.
  destruct (Z.eqb_spec m 0); [lia |]. cbn [andb orb] in Hc.
  unfold round64.
  destruct (Z.leb_spec (m * 2 ^ a) 0); [nia |].
  assert (Hlog : Z.log2 (m * 2 ^ a) - Z.log2 (2 ^ b) = Z.log2 m + a - b).
  { rewrite Z.log2_mul_pow2, Z.log2_pow2 by lia. lia. }
  apply orb_true_iff in Hc. destruct Hc as [Hc | Hc].
  - (* normal *)
    apply andb_true_iff in Hc. destruct Hc as (Hc & He2).
    apply andb_true_iff in Hc. destruct Hc as (Hc & He1).
    apply andb_true_iff in Hc. destruct Hc as (Hm1 & Hm2).
    apply Z.leb_le in Hm1, He1, He2. apply Z.ltb_lt in Hm2.
    assert (Hl : Z.log2 m = 52).
    { apply Z.log2_unique; [lia |]. split; [exact Hm1 | exact Hm2]. }
    assert (Hi : ilog2 (m * 2 ^ a) (2 ^ b) = 52 + (a - b)).
    { unfold ilog2. cbv zeta. rewrite Hlog, Hl.
      replace (52 + a - b) with (52 + (a - b)) by lia.
      set (k := 52 + (a - b)).
      assert (Ht : (if 0 <=? k then 2 ^ b * 2 ^ k <=? m * 2 ^ a
                    else 2 ^ b <=? m * 2 ^ a * 2 ^ (- k)) = true).
      { apply ge_pow2_test. unfold ge_pow2.
        destruct (Z.le_gt_cases 0 k).
        - rewrite Z.max_l, Z.max_r by lia. rewrite Z.pow_0_r, Z.mul_1_r.
          rewrite <- Z.pow_add_r by lia. replace (b + k) with (52 + a) by (unfold k; lia).
          rewrite Z.pow_add_r by lia. nia.
        - rewrite Z.max_r, Z.max_l by lia. rewrite Z.pow_0_r, Z.mul_1_r.
          rewrite <- Z.mul_assoc, <- Z.pow_add_r by lia.
          replace b with (52 + (a + - k)) at 1 by (unfold k; lia).
          rewrite (Z.pow_add_r 2 52) by lia.
          pose proof (pow2_pos (a + - k) ltac:(lia)). nia. }
      rewrite Ht. reflexivity. }
    rewrite Hi. replace (52 + (a - b) - 52) with (a - b) by lia.
    rewrite Z.max_l by lia.
    assert (Hr : (if 0 <=? a - b then round_half_even (m * 2 ^ a) (2 ^ b * 2 ^ (a - b))
                  else round_half_even (m * 2 ^ a * 2 ^ (- (a - b))) (2 ^ b)) = m).
    { destruct (Z.leb_spec 0 (a - b)).
      - rewrite <- Z.pow_add_r by lia. replace (b + (a - b)) with a by lia.
        apply rhe_exact. exact Pa.
      - rewrite <- Z.mul_assoc, <- Z.pow_add_r by lia.
        replace (a + - (a - b)) with b by lia. apply rhe_exact. exact Pb. }
    rewrite Hr.
    destruct (Z.eqb_spec m 0); [lia |].
    destruct (Z.eqb_spec m (2 ^ 53)); [lia |].
    destruct (Z.ltb_spec 971 (a - b)); [lia | reflexivity].
  - (* subnormal *)
    apply andb_true_iff in Hc. destruct Hc as (Hc & He).
    apply andb_true_iff in Hc. destruct Hc as (Hm1 & Hm2).
    apply Z.ltb_lt in Hm1, Hm2. apply Z.eqb_eq in He.
    assert (Hl : Z.log2 m <= 51).
    { destruct (Z.le_gt_cases (Z.log2 m) 51); [assumption |].
      destruct (Z.log2_spec m Hm) as [Hlo _].
      assert (2 ^ 52 <= 2 ^ Z.log2 m) by (apply Z.pow_le_mono_r; lia). lia. }
    assert (Hi : ilog2 (m * 2 ^ a) (2 ^ b) - 52 < -1074).
    { unfold ilog2. cbv zeta. rewrite Hlog.
      destruct (if 0 <=? Z.log2 m + a - b
                then 2 ^ b * 2 ^ (Z.log2 m + a - b) <=? m * 2 ^ a
                else 2 ^ b <=? m * 2 ^ a * 2 ^ (- (Z.log2 m + a - b))); lia. }
    rewrite Z.max_r by lia. cbn [Z.leb Z.compare Z.opp].
    assert (Hr : round_half_even (m * 2 ^ a * 2 ^ 1074) (2 ^ b) = m).
    { rewrite <- Z.mul_assoc, <- Z.pow_add_r by lia.
      replace (a + 1074) with b by lia. apply rhe_exact. exact Pb. }
    rewrite Hr.
    destruct (Z.eqb_spec m 0); [lia |].
    destruct (Z.eqb_spec m (2 ^ 53));
      [assert (2 ^ 52 < 2 ^ 53) by (apply Z.pow_lt_mono_r; lia); lia |].
    cbn [Z.ltb Z.compare]. rewrite He. reflexivity.
Qed.

Lemma binary64_nonneg s m e : is_binary64 (Fin s m e) = true -> 0 <= m.
Proof.
  unfold is_binary64. intros H.
  destruct (Z.eqb_spec m 0); [lia |]. cbn [andb orb] in H.
  apply orb_true_iff in H. destruct H as [H | H].
  - destruct (Z.leb_spec (2 ^ 52) m); [| discriminate H].
    pose proof (pow2_pos 52 ltac:(lia)). lia.
  - destruct (Z.ltb_spec 0 m); [lia | discriminate H].
Qed.

Lemma binary64_zero s e : is_binary64 (Fin s 0 e) = true -> e = 0.
Proof.
  unfold is_binary64. change (0 =? 0) with true. change (2 ^ 52 <=? 0) with false.
  change (0 <? 0) with false. cbn [andb orb]. rewrite !orb_false_r.
  apply Z.eqb_eq.
Qed.

(** x + 0 = x, except for x = -0 *)
Lemma nadd_zero_r x : is_binary64 x = true -> x <> neg_zero -> nadd x zero = x.
Proof.
  destruct x as [| sx |s m e]; try reflexivity.
  intros Hc Hnz. pose proof (binary64_nonneg s m e Hc) as Hm.
  unfold nadd, zero. cbv zeta.
  destruct (Z.eq_dec m 0) as [-> | Hm0].
  - apply binary64_zero in Hc. subst e. destruct s; [exfalso; apply Hnz; reflexivity | reflexivity].
  - assert (Hs : signed s m * 2 ^ (e - Z.min e 0) + signed false 0 * 2 ^ (0 - Z.min e 0)
                 = signed s (m * 2 ^ (e - Z.min e 0))).
    { unfold signed. destruct s; ring. }
    rewrite Hs.
    pose proof (pow2_pos (e - Z.min e 0) ltac:(lia)) as Pp.
    assert (Hne : signed s (m * 2 ^ (e - Z.min e 0)) <> 0).
    { unfold signed. destruct s; nia. }
    destruct (Z.eqb_spec (signed s (m * 2 ^ (e - Z.min e 0))) 0); [contradiction |].
    assert (Hsg : (signed s (m * 2 ^ (e - Z.min e 0)) <? 0) = s).
    { unfold signed. destruct s.
      - apply Z.ltb_lt. nia.
      - apply Z.ltb_ge. nia. }
    rewrite Hsg.
    assert (Habs : Z.abs (signed s (m * 2 ^ (e - Z.min e 0))) = m * 2 ^ (e - Z.min e 0)).
    { unfold signed. destruct s; [rewrite Z.abs_opp |]; apply Z.abs_eq; nia. }
    rewrite Habs. unfold scale_num, scale_den.
    destruct (Z.le_gt_cases 0 e) as [He | He].
    + rewrite Z.min_r by lia. rewrite Z.sub_0_r.
      change (Z.max 0 0) with 0. change (Z.max (- 0) 0) with 0.
      rewrite Z.pow_0_r, Z.mul_1_r.
      pose proof (round64_exact s m e 0 He ltac:(lia) ltac:(lia)) as Hx.
      rewrite Z.sub_0_r in Hx. rewrite Z.pow_0_r in Hx. apply Hx. exact Hc.
    + rewrite Z.min_l by lia. rewrite Z.sub_diag, Z.pow_0_r, Z.mul_1_r.
      rewrite Z.max_r, Z.max_l by lia.
      pose proof (round64_exact s m 0 (- e) ltac:(lia) ltac:(lia) ltac:(lia)) as Hx.
      replace (0 - - e) with e in Hx by lia. apply Hx. exact Hc.
Qed.

(** a sum is a binary64 value *)
Lemma nadd_binary64 x y : is_binary64 (nadd x y) = true.
Proof.
  destruct x as [| sx |sx mx ex], y as [| sy |sy my ey]; try reflexivity.
  - simpl. destruct (Bool.eqb sx sy); reflexivity.
  - unfold nadd. cbv zeta.
    destruct (_ =? 0); [reflexivity |].
    apply round64_binary64. apply scale_den_pos.
Qed.

(** a quotient of at least 2^-1074 rounds to an infinity or to a number
    that is not a zero, of its sign *)
Lemma round64_form s n d :
  0 < n -> 0 < d -> d <= n * 2 ^ 1074 ->
  round64 s n d = Inf s \/ exists m e, round64 s n d = Fin s m e /\ 0 < m.
Proof.
  intros Hn Hd Hbig. unfold round64.
  destruct (Z.leb_spec n 0); [lia |].
  pose proof (round64_significand n d Hn Hd) as (Hnorm & Hsub). cbv zeta in *.
  set (e := Z.max (ilog2 n d - 52) (-1074)) in *.
  set (m := if 0 <=? e then round_half_even n (d * 2 ^ e)
            else round_half_even (n * 2 ^ (- e)) d) in *.
  assert (H52 : 0 < 2 ^ 52) by (apply pow2_pos; lia).
  assert (Hm : 1 <= m).
  { destruct (Z.le_gt_cases (-1074) (ilog2 n d - 52)) as [Hc | Hc].
    - specialize (Hnorm Hc). lia.
    - unfold m, e. rewrite Z.max_r by lia. cbn [Z.leb Z.compare Z.opp].
      apply (rhe_bounds _ _ 1 (n * 2 ^ 1074)); [exact Hd | lia |].
      assert (0 < 2 ^ 1074) by (apply pow2_pos; lia). nia. }
  destruct (Z.eqb_spec m 0); [lia |].
  destruct (m =? 2 ^ 53).
  - destruct (971 <? e + 1); [left; reflexivity |]. right. eauto.
  - destruct (971 <? e); [left; reflexivity |]. right. exists m, e. split; [reflexivity | lia].
Qed.

Lemma round64_not_zero s n d s' e' :
  0 < n -> 0 < d -> d <= n * 2 ^ 1074 -> round64 s n d <> Fin s' 0 e'.
Proof.
  intros Hn Hd Hbig.
  destruct (round64_form s n d Hn Hd Hbig) as [-> | (m & e & -> & Hm)];
    [discriminate |].
  intros Hq. injection Hq as _ Hq _. lia.
Qed.

Lemma binary64_exponent s m e : is_binary64 (Fin s m e) = true -> -1074 <= e.
Proof.
  unfold is_binary64. intros H.
  apply orb_true_iff in H. destruct H as [H | H];
    [apply orb_true_iff in H; destruct H as [H | H] |].
  - apply andb_true_iff in H. destruct H as (_ & H). apply Z.eqb_eq in H. lia.
  - apply andb_true_iff in H. destruct H as (H & _).
    apply andb_true_iff in H. destruct H as (_ & H). apply Z.leb_le in H. lia.
  - apply andb_true_iff in H. destruct H as (_ & H). apply Z.eqb_eq in H. lia.
Qed.

(** a sum is -0 only when both terms are zeros with the minus sign *)
Lemma nadd_neg_zero x y :
  is_binary64 x = true -> is_binary64 y = true ->
  nadd x y = neg_zero -> x = neg_zero /\ y = neg_zero.
Proof.
  destruct x as [| sx |sx mx ex], y as [| sy |sy my ey]; try discriminate.
  - simpl. destruct (Bool.eqb sx sy); discriminate.
  - intros Hx Hy. pose proof (binary64_nonneg _ _ _ Hx) as Hmx.
    pose proof (binary64_nonneg _ _ _ Hy) as Hmy.
    pose proof (binary64_exponent _ _ _ Hx) as Hex.
    pose proof (binary64_exponent _ _ _ Hy) as Hey.
    unfold nadd. cbv zeta.
    set (e0 := Z.min ex ey).
    pose proof (pow2_pos (ex - e0) ltac:(unfold e0; lia)) as P1.
    pose proof (pow2_pos (ey - e0) ltac:(unfold e0; lia)) as P2.
    set (sm := signed sx mx * 2 ^ (ex - e0) + signed sy my * 2 ^ (ey - e0)).
    destruct (Z.eqb_spec sm 0) as [E | E].
    + intros H. injection H as Hs.
      apply andb_true_iff in Hs. destruct Hs as (-> & ->).
      unfold sm, signed in E.
      assert (mx = 0 /\ my = 0) as (-> & ->) by nia.
      apply binary64_zero in Hx, Hy. subst. split; reflexivity.
    + intros H. exfalso. revert H. apply round64_not_zero.
      * unfold scale_num. pose proof (pow2_pos (Z.max e0 0) ltac:(lia)). nia.
      * apply scale_den_pos.
      * unfold scale_num, scale_den.
        assert (Hpow : 2 ^ Z.max (- e0) 0 <= 2 ^ 1074)
          by (apply Z.pow_le_mono_r; unfold e0; lia).
        pose proof (pow2_pos (Z.max e0 0) ltac:(lia)).
        pose proof (pow2_pos (Z.max (- e0) 0) ltac:(lia)).
        assert (1 <= Z.abs sm) by lia. nia.
Qed.

(* ------------------------------------------------------------------ *)
(** * The statistics of the dashboard *)
(* ------------------------------------------------------------------ *)

Lemma ngt_of_Z_zero n : 0 <= n -> ngt (of_Z n) zero = (0 <? n).
Proof.
  intros Hn. destruct (Z.eq_dec n 0) as [-> | Hne]; [reflexivity |].
  destruct (Z.ltb_spec 0 n); [| lia].
  unfold of_Z. destruct (Z.ltb_spec n 0); [lia |]. rewrite Z.abs_eq by lia.
  destruct (round64_form false n 1 ltac:(lia) ltac:(lia)) as [-> | (m & e & -> & Hm)].
  - assert (0 < 2 ^ 1074) by (apply pow2_pos; lia). nia.
  - reflexivity.
  - unfold ngt, nlt, ncompare, zero. cbv zeta. unfold signed.
    pose proof (pow2_pos (e - Z.min 0 e) ltac:(lia)).
    rewrite Z.mul_0_l.
    destruct (Z.compare_spec 0 (m * 2 ^ (e - Z.min 0 e))); [nia | reflexivity | nia].
Qed.

(** the sum the dashboard folds, 0 for every ticket that is not closed,
    is the sum over the closed tickets *)
Lemma closed_sum (v : Ticket -> number) data :
  Forall (fun t => is_binary64 (v t) = true) data ->
  forall acc, is_binary64 acc = true -> acc <> neg_zero ->
  fold_left (fun acc t => nadd acc (if str_eqb (status t) (js "Closed")
                                    then v t else zero)) data acc
  = fold_left nadd (map v (filter is_closed data)) acc.
Proof.
  induction 1 as [|t ts Ht _ IH]; intros acc Hacc Hnz; [reflexivity |].
  cbn [fold_left filter]. unfold is_closed at 1.
  destruct (str_eqb (status t) (js "Closed")).
  - cbn [map fold_left]. apply IH; [apply nadd_binary64 |].
    intros E. apply nadd_neg_zero in E; [| assumption | assumption].
    destruct E as (E & _). contradiction.
  - rewrite nadd_zero_r by assumption. apply IH; assumption.
Qed.

Lemma filter_lengths {A} (p : A -> bool) l :
  (List.length (filter p l) + List.length (filter (fun x => negb (p x)) l))%nat
  = List.length l.
Proof.
  induction l as [|x l IH]; [reflexivity |].
  cbn [filter]. destruct (p x); cbn [negb List.length]; lia.
Qed.

Lemma stats_averages data :
  Forall (fun t => ticket_numbers_ok t = true) data ->
  Dashboard.avgResolution (Dashboard.calculateStats data)
  = mean (map resolutionTimeHours (filter is_closed data))
  /\ Dashboard.avgRating (Dashboard.calculateStats data)
     = mean (map rating (filter is_closed data)).
Proof.
  intros Hok. unfold Dashboard.calculateStats. cbv zeta.
  cbn [Dashboard.avgResolution Dashboard.avgRating].
  unfold Dashboard.length_of.
  change (fun t => str_eqb (status t) (js "Closed")) with is_closed.
  rewrite ngt_of_Z_zero by lia.
  assert (H1 : Forall (fun t => is_binary64 (resolutionTimeHours t) = true) data).
  { revert Hok. apply Forall_impl. intros t Ht. unfold ticket_numbers_ok in Ht.
    apply andb_true_iff in Ht. tauto. }
  assert (H2 : Forall (fun t => is_binary64 (rating t) = true) data).
  { revert Hok. apply Forall_impl. intros t Ht. unfold ticket_numbers_ok in Ht.
    apply andb_true_iff in Ht. tauto. }
  rewrite (closed_sum resolutionTimeHours data H1 zero eq_refl ltac:(discriminate)).
  rewrite (closed_sum rating data H2 zero eq_refl ltac:(discriminate)).
  unfold mean, nsum. rewrite !length_map. split; reflexivity.
Qed.

(** The statistics of a population: the tickets are the open and the
    closed ones; the two averages are the means over the closed tickets,
    which the open ones do not touch, and 0 when none is closed. *)
Theorem calculateStats_spec data :
  Forall (fun t => ticket_numbers_ok t = true) data ->
  let st := Dashboard.calculateStats data in
  let closed := filter is_closed data in
  let n_closed := Z.of_nat (List.length closed) in
  let n_open := Z.of_nat (List.length (filter (fun t => negb (is_closed t)) data)) in
  Dashboard.total st = of_Z (n_open + n_closed)
  /\ Dashboard.open st = of_Z n_open
  /\ Dashboard.closed st = of_Z n_closed
  /\ Dashboard.avgResolution st = mean (map resolutionTimeHours closed)
  /\ Dashboard.avgRating st = mean (map rating closed).
Proof.
  intros Hok. cbv zeta.
  destruct (stats_averages data Hok) as (E1 & E2).
  split; [| split; [reflexivity | split; [reflexivity | split; assumption]]].
  unfold Dashboard.calculateStats, Dashboard.length_of. cbv zeta.
  cbn [Dashboard.total]. f_equal.
  pose proof (filter_lengths is_closed data). lia.
Qed.

(** [calculateStats_spec] for two closed tickets, rated 4 and 5 and
    resolved in 2 and 6 hours, and an open one between them. *)
Lemma calculateStats_spec_witness :
  let data := [ticket_of "Closed" [js "amy"] 4 2; ticket_of "Open" [js "amy"] 0 0;
               ticket_of "Closed" [js "amy"] 5 6] in
  Dashboard.total (Dashboard.calculateStats data) = of_Z 3
  /\ Dashboard.open (Dashboard.calculateStats data) = of_Z 1
  /\ Dashboard.closed (Dashboard.calculateStats data) = of_Z 2
  /\ Dashboard.avgResolution (Dashboard.calculateStats data) = of_Z 4
  /\ Dashboard.avgRating (Dashboard.calculateStats data)
     = mean (map rating (filter is_closed data)).
Proof.
  cbv zeta.
  destruct (calculateStats_spec
              [ticket_of "Closed" [js "amy"] 4 2; ticket_of "Open" [js "amy"] 0 0;
               ticket_of "Closed" [js "amy"] 5 6]) as (E1 & E2 & E3 & E4 & E5).
  - repeat constructor.
  - split; [rewrite E1; vm_compute; reflexivity |].
    split; [rewrite E2; vm_compute; reflexivity |].
    split; [rewrite E3; vm_compute; reflexivity |].
    split; [rewrite E4; vm_compute; reflexivity | exact E5].
Defined.

Lemma single_key_map (m : AgentMap) k0 :
  NoDup (map fst m) -> m <> [] -> (forall k, In k (map fst m) -> k = k0) ->
  exists v, m = [(k0, v)].
Proof.
  intros Hnd Hne Hk. destruct m as [|[k v] m]; [contradiction |].
  assert (k = k0) by (apply Hk; left; reflexivity). subst k.
  destruct m as [|[k' v'] m]; [eauto |].
  exfalso. inversion Hnd as [|? ? Hni _]; subst. apply Hni.
  left. cbn [fst]. apply Hk. right. left. reflexivity.
Qed.

Lemma occurrences_single a data :
  nonblank a = true -> Forall (fun t => assignees t = [a]) data ->
  occurrences data = map (fun t => (trim a, t)) data.
Proof.
  intros Ha. induction 1 as [|t ts Ht _ IH]; [reflexivity |].
  unfold occurrences in *. cbn [flat_map map]. rewrite IH, Ht.
  cbn [filter]. rewrite Ha. reflexivity.
Qed.

Lemma ticketsOf_single a data :
  nonblank a = true -> Forall (fun t => assignees t = [a]) data ->
  ticketsOf (trim a) data = data.
Proof.
  intros Ha Hall. unfold ticketsOf. rewrite (occurrences_single a data Ha Hall).
  clear Hall. induction data as [|t ts IH]; [reflexivity |].
  cbn [map filter fst]. rewrite str_eqb_refl. cbn [map snd]. f_equal. exact IH.
Qed.

(** Where one agent holds every ticket, the agent's row of the rollup
    shows the statistics of the dashboard: as many tickets as the total,
    the same two averages, and the open tickets as the active ones. *)
Theorem single_agent_rollup a data :
  nonblank a = true -> data <> [] ->
  Forall (fun t => assignees t = [a]) data ->
  Forall (fun t => ticket_numbers_ok t = true) data ->
  calculateAgentMetrics data
  = [ {| email := trim a;
         totalTickets := Z.of_nat (List.length data);
         avgRating := Dashboard.avgRating (Dashboard.calculateStats data);
         avgResolutionHours := Dashboard.avgResolution (Dashboard.calculateStats data);
         activeTickets :=
           Z.of_nat (List.length (filter (fun t => negb (is_closed t)) data)) |} ].
Proof.
  intros Ha Hne Hall Hok.
  destruct (agentMap_spec data) as (Hnd & Hkeys & Hvals).
  pose proof (occurrences_single a data Ha Hall) as Hocc.
  assert (Hk : forall k, In k (map fst (agentMap data)) -> k = trim a).
  { intros k Hin. apply Hkeys in Hin. rewrite Hocc, map_map in Hin.
    apply in_map_iff in Hin. destruct Hin as (t & E & _). symmetry. exact E. }
  assert (Hnonempty : agentMap data <> []).
  { destruct data as [|t ts]; [contradiction |].
    assert (Hin : In (trim a) (map fst (agentMap (t :: ts)))).
    { apply Hkeys. rewrite Hocc. left. reflexivity. }
    intros E. rewrite E in Hin. exact Hin. }
  destruct (single_key_map _ _ Hnd Hnonempty Hk) as (v & Em).
  assert (Ev : v = visits (ticketsOf (trim a) data) newStats).
  { apply Hvals. rewrite Em. left. reflexivity. }
  unfold calculateAgentMetrics. cbv zeta. rewrite agentMap_keys_nonempty, Em.
  cbn [map sort_desc fold_right insert_desc]. rewrite Ev, toMetrics_visits.
  unfold metricsOf. cbv zeta. rewrite (ticketsOf_single a data Ha Hall).
  destruct (stats_averages data Hok) as (-> & ->). reflexivity.
Qed.

(** [single_agent_rollup] for three tickets of one agent, whose name is
    written with a space in front. *)
Lemma single_agent_rollup_witness :
  let data := [ticket_of "Closed" [js " amy"] 4 2; ticket_of "Open" [js " amy"] 0 0;
               ticket_of "Closed" [js " amy"] 5 6] in
  map email (calculateAgentMetrics data) = [js "amy"]
  /\ map totalTickets (calculateAgentMetrics data) = [3]
  /\ map avgRating (calculateAgentMetrics data)
     = [Dashboard.avgRating (Dashboard.calculateStats data)]
  /\ map avgResolutionHours (calculateAgentMetrics data)
     = [Dashboard.avgResolution (Dashboard.calculateStats data)]
  /\ map activeTickets (calculateAgentMetrics data) = [1].
Proof.
  cbv zeta.
  rewrite (single_agent_rollup (js " amy")
             [ticket_of "Closed" [js " amy"] 4 2; ticket_of "Open" [js " amy"] 0 0;
              ticket_of "Closed" [js " amy"] 5 6]).
  - repeat split; vm_compute; reflexivity.
  - reflexivity.
  - discriminate.
  - repeat constructor.
  - repeat constructor.
Defined.

(** ** Trends of counts *)

Lemma ilog2_ge k n d : 0 < n -> 0 < d -> ge_pow2 k n d -> k <= ilog2 n d.
Proof.
  intros Hn Hd Hk. destruct (ilog2_spec n d Hn Hd) as (_ & Hno).
  destruct (Z.le_gt_cases k (ilog2 n d)) as [H | H]; [exact H |].
  exfalso. apply Hno.
  assert (Hdown : forall j, (0 <= j)%Z -> ge_pow2 (ilog2 n d + 1 + j) n d ->
                            ge_pow2 (ilog2 n d + 1) n d).
  { intros j Hj. pattern j. apply natlike_ind; [| | exact Hj].
    - rewrite Z.add_0_r. auto.
    - intros x Hx IH Hg. apply IH. apply ge_pow2_down; [assumption | assumption |].
      replace (ilog2 n d + 1 + x + 1) with (ilog2 n d + 1 + Z.succ x) by lia. exact Hg. }
  apply (Hdown (k - (ilog2 n d + 1))); [lia |].
  replace (ilog2 n d + 1 + (k - (ilog2 n d + 1))) with k by lia. exact Hk.
Qed.

(** the exponent of a rounded quotient is not below that of the quotient *)
Lemma round64_exponent s n d s' m e :
  0 < n -> round64 s n d = Fin s' m e -> 0 < m -> ilog2 n d - 52 <= e.
Proof.
  intros Hn. unfold round64. destruct (Z.leb_spec n 0); [lia |]. cbv zeta.
  set (e0 := Z.max (ilog2 n d - 52) (-1074)).
  assert (ilog2 n d - 52 <= e0) by (unfold e0; lia).
  destruct (_ =? 0).
  - intros Hq Hm. injection Hq as _ Hq _. lia.
  - destruct (_ =? 2 ^ 53).
    + destruct (971 <? e0 + 1); [discriminate |].
      intros Hq _. injection Hq as _ _ Hq. lia.
    + destruct (971 <? e0); [discriminate |].
      intros Hq _. injection Hq as _ _ Hq. lia.
Qed.

Lemma nle_zero_form s m e : 0 <= m -> nle (Fin s m e) zero = s || (m =? 0).
Proof.
  intros Hm. unfold nle, ncompare, zero. cbv zeta.
  pose proof (pow2_pos (e - Z.min e 0) ltac:(lia)).
  rewrite Z.mul_0_l. unfold signed.
  destruct s, (Z.eqb_spec m 0); cbn [orb];
    match goal with
    | |- context [?a ?= 0] => destruct (Z.compare_spec a 0)
    end; try reflexivity; nia.
Qed.

Lemma ngt_zero_form s m e : 0 <= m -> ngt (Fin s m e) zero = negb s && (0 <? m).
Proof.
  intros Hm. unfold ngt, nlt, ncompare, zero. cbv zeta.
  pose proof (pow2_pos (e - Z.min 0 e) ltac:(lia)).
  rewrite Z.mul_0_l. unfold signed.
  destruct s, (Z.ltb_spec 0 m); cbn [negb andb];
    match goal with
    | |- context [0 ?= ?a] => destruct (Z.compare_spec 0 a)
    end; try reflexivity; nia.
Qed.

Lemma of_Z_100 : of_Z 100 = Fin false 7036874417766400 (-46).
Proof. reflexivity. Qed.

(** the sign of a percentage change between two counts *)
Lemma pct_count_sign a b :
  0 <= a < 2 ^ 53 -> 0 <= b < 2 ^ 53 ->
  nle (getPctDiff (of_Z a) (of_Z b)) zero = (a <=? b)
  /\ ngt (getPctDiff (of_Z a) (of_Z b)) zero = (b <? a).
Proof.
  intros Ha Hb.
  pose proof (of_Z_holds a ltac:(lia)) as HA.
  pose proof (of_Z_holds b ltac:(lia)) as HB.
  pose proof (holds_zero false) as H0. change (Fin false 0 0) with zero in H0.
  assert (Ez : forall x n, holds_int x n -> neqb x zero = (n =? 0)).
  { intros x n Hx. unfold neqb. rewrite (ncompare_holds x zero n 0 Hx H0).
    unfold Z.eqb. destruct n; reflexivity. }
  destruct (Z.eq_dec b 0) as [-> | Hb0].
  - rewrite getPctDiff_zero_prev by reflexivity.
    rewrite (Ez _ a HA).
    destruct (Z.eqb_spec a 0) as [-> | Ha0]; [split; reflexivity |].
    destruct (Z.leb_spec a 0); [lia |]. destruct (Z.ltb_spec 0 a); [| lia].
    split; reflexivity.
  - rewrite getPctDiff_nonzero_prev
      by (rewrite (Ez _ b HB); apply Z.eqb_neq; exact Hb0).
    rewrite nsub_of_Z by lia.
    destruct (Z.eq_dec a b) as [-> | Hab].
    + rewrite Z.sub_diag.
      rewrite (of_Z_pos b ltac:(lia) ltac:(lia)).
      change (of_Z 0) with zero. unfold ndiv, zero.
      pose proof (pow2_pos (52 - Z.log2 b)
                    ltac:(pose proof (log2_le_52 b ltac:(lia) ltac:(lia)); lia)).
      destruct (Z.eqb_spec (b * 2 ^ (52 - Z.log2 b)) 0); [nia |].
      unfold scale_num at 1. rewrite Z.mul_0_l. unfold round64 at 1.
      cbn [Z.leb Z.compare]. rewrite of_Z_100. unfold nmul.
      unfold scale_num. rewrite Z.mul_0_l. unfold round64. cbn [Z.leb Z.compare xorb].
      destruct (Z.leb_spec b b); [| lia]. destruct (Z.ltb_spec b b); [lia |].
      split; reflexivity.
    + assert (Hsub : Z.abs (a - b) < 2 ^ 53) by lia.
      rewrite (ndiv_int _ _ (a - b) b (of_Z_holds _ Hsub) HB ltac:(lia) Hb0).
      destruct (Z.ltb_spec b 0); [lia |]. rewrite xorb_false_r.
      rewrite (Z.abs_eq b) by lia.
      assert (Hsg : (a - b <? 0) = (a <? b)).
      { destruct (Z.ltb_spec (a - b) 0), (Z.ltb_spec a b); auto; lia. }
      rewrite Hsg.
      assert (H1074 : 2 ^ 53 <= 2 ^ 1074) by (apply Z.pow_le_mono_r; lia).
      assert (Hexp : (a <=? b) = (a <? b) /\ (b <? a) = negb (a <? b)).
      { destruct (Z.leb_spec a b), (Z.ltb_spec a b), (Z.ltb_spec b a);
          split; auto; lia. }
      destruct Hexp as (-> & ->).
      destruct (round64_form (a <? b) (Z.abs (a - b)) b ltac:(lia) ltac:(lia)
                  ltac:(nia)) as [Eq | (m & e & Eq & Hm)].
      * rewrite Eq, of_Z_100. cbn [nmul Z.eqb xorb].
        rewrite xorb_false_r. destruct (a <? b); split; reflexivity.
      * assert (Hpos : 0 < Z.abs (a - b)) by lia.
        pose proof (round64_exponent _ _ _ _ _ _ Hpos Eq Hm) as He.
        assert (Hil : -53 <= ilog2 (Z.abs (a - b)) b).
        { apply ilog2_ge; [lia | lia |]. unfold ge_pow2.
          change (Z.max (-53) 0) with 0. change (Z.max (- -53) 0) with 53.
          rewrite Z.pow_0_r. lia. }
        rewrite Eq, of_Z_100. unfold nmul. rewrite xorb_false_r.
        set (E := e + -46).
        pose proof (pow2_pos (Z.max E 0) ltac:(lia)) as P1.
        pose proof (pow2_pos (Z.max (- E) 0) ltac:(lia)) as P2.
        assert (Hd : 2 ^ Z.max (- E) 0 <= 2 ^ 1074)
          by (apply Z.pow_le_mono_r; unfold E; lia).
        destruct (round64_form (a <? b)
                    (scale_num (m * 7036874417766400) E) (scale_den E))
          as [Eq2 | (m2 & e2 & Eq2 & Hm2)].
        -- unfold scale_num. nia.
        -- apply scale_den_pos.
        -- unfold scale_num, scale_den.
           assert (1 <= m * 7036874417766400 * 2 ^ Z.max E 0) by nia.
           assert (0 < 2 ^ 1074) by (apply pow2_pos; lia). nia.
        -- rewrite Eq2. destruct (a <? b); split; reflexivity.
        -- rewrite Eq2, nle_zero_form, ngt_zero_form by lia.
           destruct (Z.eqb_spec m2 0); [lia |]. destruct (Z.ltb_spec 0 m2); [| lia].
           destruct (a <? b); split; reflexivity.
Qed.

Lemma digit_head_app l r : digit_head l -> digit_head (l ++ r).
Proof. destruct l; [intros [] | auto]. Qed.

Lemma digit_head_firstn n l : (0 < n)%nat -> digit_head l -> digit_head (firstn n l).
Proof. destruct n; [lia |]. destruct l; auto. Qed.

Lemma digit_head_no_plus s : digit_head s -> has_prefix (js "+") s = false.
Proof.
  destruct s as [| c s]; [intros [] |]. unfold digit_head, is_digit. intros H.
  apply andb_prop in H. destruct H as (H1 & H2). apply Z.leb_le in H1.
  change (has_prefix (js "+") (c :: s)) with ((43 =? c) && true).
  destruct (Z.eqb_spec 43 c); [lia | reflexivity].
Qed.

Lemma signed_no_plus (neg : bool) s :
  digit_head s -> has_prefix (js "+") ((if neg then js "-" else []) ++ s) = false.
Proof. destruct neg; [reflexivity | apply digit_head_no_plus]. Qed.

Lemma digits_of_head n : digit_head (digits_of n).
Proof.
  destruct (Z.le_gt_cases 0 n) as [Hn | Hn].
  - destruct (digits_of_spec n Hn) as (F & Ne & _).
    destruct (digits_of n); [congruence |]. inversion F; assumption.
  - unfold digits_of. rewrite Z.log2_nonpos by lia. cbn [Z.to_nat digits_aux].
    destruct (Z.ltb_spec n 10); [| lia]. unfold digit_head, is_digit.
    pose proof (Z.mod_pos_bound n 10 ltac:(lia)).
    apply andb_true_intro; split; apply Z.leb_le; lia.
Qed.

Lemma Number_toString_no_plus x : has_prefix (js "+") (Number_toString x) = false.
Proof.
  destruct x as [| s | neg m e]; [reflexivity | destruct s; reflexivity |].
  unfold Number_toString. destruct (m <=? 0); [reflexivity |]. cbv zeta.
  destruct (shortest_digits _ _ _ _ _ _) as ((s & n) & k).
  apply signed_no_plus. pose proof (digits_of_head s) as Hd.
  destruct ((k <=? n) && (n <=? 21)); [apply digit_head_app; exact Hd |].
  destruct (Z.ltb_spec 0 n); cbn [andb].
  - destruct (n <=? 21).
    + apply digit_head_app, digit_head_firstn; [lia | exact Hd].
    + destruct ((-6 <? n) && (n <=? 0)); [reflexivity |].
      destruct (k =? 1); apply digit_head_app; [| apply digit_head_firstn; [lia |]];
        exact Hd.
  - destruct ((-6 <? n) && (n <=? 0)); [reflexivity |].
    destruct (k =? 1); apply digit_head_app; [| apply digit_head_firstn; [lia |]];
      exact Hd.
Qed.

Lemma toFixed_no_plus x : has_prefix (js "+") (toFixed x 1) = false.
Proof.
  destruct x as [| s | neg m e]; [reflexivity | destruct s; reflexivity |].
  unfold toFixed. destruct (_ <=? _); [apply Number_toString_no_plus |]. cbv zeta.
  apply signed_no_plus. change (1 =? 0) with false. cbv iota.
  set (ds := digits_of (fixed_digits m e 1)).
  pose proof (digits_of_head (fixed_digits m e 1)) as Hd. fold ds in Hd.
  apply digit_head_app.
  destruct (Z.leb_spec (Z.of_nat (List.length ds)) 1) as [Hk | Hk].
  - destruct ds as [| c ds]; [destruct Hd |]. cbn [List.length] in Hk.
    destruct ds; [| cbn [List.length] in Hk; lia]. reflexivity.
  - apply digit_head_firstn; [| exact Hd].
    change (Z.to_nat 1) with 1%nat. lia.
Qed.

Lemma count_trend_spec a b :
  0 <= a < 2 ^ 53 -> 0 <= b < 2 ^ 53 ->
  nle (getPctDiff (of_Z a) (of_Z b)) zero = (a <=? b)
  /\ has_prefix (js "+") (formatTrend (getPctDiff (of_Z a) (of_Z b)) (js "%")) = (b <? a).
Proof.
  intros Ha Hb. destruct (pct_count_sign a b Ha Hb) as (H1 & H2).
  split; [exact H1 |]. unfold formatTrend. rewrite H2.
  destruct (b <? a); [reflexivity |]. cbn [app].
  pose proof (toFixed_no_plus (getPctDiff (of_Z a) (of_Z b))) as Hn.
  destruct (toFixed _ 1); [reflexivity | exact Hn].
Qed.

(** The trends of the two counts of the dashboard. The trend of the
    number of tickets, and that of the number of open tickets, is shown
    as favourable exactly when the count is not above that of the
    previous period, and its text starts with a plus sign exactly when
    the count is above it. *)
Theorem count_trends (tickets previous : list Ticket) :
  Z.of_nat (List.length tickets) < 2 ^ 53 ->
  Z.of_nat (List.length previous) < 2 ^ 53 ->
  let tr := snd (Dashboard.stats tickets previous) in
  let count (l : list Ticket) := Z.of_nat (List.length l) in
  Dashboard.isPositive (Dashboard.total_trend tr) = (count tickets <=? count previous)
  /\ has_prefix (js "+") (Dashboard.text (Dashboard.total_trend tr)) = (count previous <? count tickets)
  /\ Dashboard.isPositive (Dashboard.open_trend tr)
     = (count (open_tickets tickets) <=? count (open_tickets previous))
  /\ has_prefix (js "+") (Dashboard.text (Dashboard.open_trend tr))
     = (count (open_tickets previous) <? count (open_tickets tickets)).
Proof.
  intros Hn Hp. cbv zeta. unfold Dashboard.stats, Dashboard.calculateStats, Dashboard.length_of, open_tickets.
  cbn [snd Dashboard.total_trend Dashboard.open_trend Dashboard.isPositive Dashboard.text Dashboard.total Dashboard.open].
  assert (Hf : forall (f : Ticket -> bool) l, (List.length (filter f l) <= List.length l)%nat).
  { intros f l. induction l as [| x l IH]; cbn; [lia |]. destruct (f x); cbn; lia. }
  pose proof (Hf (fun t => negb (str_eqb (status t) (js "Closed"))) tickets).
  pose proof (Hf (fun t => negb (str_eqb (status t) (js "Closed"))) previous).
  destruct (count_trend_spec (Z.of_nat (List.length tickets))
              (Z.of_nat (List.length previous)) ltac:(lia) ltac:(lia)) as (H1 & H2).
  destruct (count_trend_spec
              (Z.of_nat (List.length
                 (filter (fun t => negb (str_eqb (status t) (js "Closed"))) tickets)))
              (Z.of_nat (List.length
                 (filter (fun t => negb (str_eqb (status t) (js "Closed"))) previous)))
              ltac:(lia) ltac:(lia)) as (H3 & H4).
  repeat split; assumption.
Qed.

(** [count_trends] for three tickets, one of them open, against two
    tickets, both open. *)
Lemma count_trends_witness :
  let tickets := [ticket_of "Closed" [js "amy"] 4 2; ticket_of "Open" [js "amy"] 0 0;
                  ticket_of "Closed" [js "amy"] 5 6] in
  let previous := [ticket_of "Open" [js "amy"] 0 0; ticket_of "Open" [js "bob"] 0 0] in
  let tr := snd (Dashboard.stats tickets previous) in
  Dashboard.text (Dashboard.total_trend tr) = js "+50.0%"
  /\ Dashboard.text (Dashboard.open_trend tr) = js "-50.0%"
  /\ Dashboard.isPositive (Dashboard.total_trend tr) = false
  /\ has_prefix (js "+") (Dashboard.text (Dashboard.total_trend tr)) = true
  /\ Dashboard.isPositive (Dashboard.open_trend tr) = true
  /\ has_prefix (js "+") (Dashboard.text (Dashboard.open_trend tr)) = false.
Proof.
  cbv zeta.
  split; [vm_compute; reflexivity |]. split; [vm_compute; reflexivity |].
  destruct (count_trends
              [ticket_of "Closed" [js "amy"] 4 2; ticket_of "Open" [js "amy"] 0 0;
               ticket_of "Closed" [js "amy"] 5 6]
              [ticket_of "Open" [js "amy"] 0 0; ticket_of "Open" [js "bob"] 0 0])
    as (E1 & E2 & E3 & E4).
  - vm_compute; reflexivity.
  - vm_compute; reflexivity.
  - cbv zeta in *. rewrite E1, E2, E3, E4. repeat split; vm_compute; reflexivity.
Defined.

(** ** The agent chart *)

Lemma sorted_app_le (l1 l2 : list AgentMetrics) :
  StronglySorted ge_total (l1 ++ l2) ->
  forall a b, In a l1 -> In b l2 -> totalTickets b <= totalTickets a.
Proof.
  induction l1 as [| x l1 IH]; cbn [app]; intros Hs a b Ha Hb; [destruct Ha |].
  inversion Hs as [| ? ? Hs' Hall]; subst.
  destruct Ha as [<- | Ha].
  - rewrite Forall_forall in Hall. apply (Hall b). apply in_or_app. right. exact Hb.
  - apply (IH Hs' a b Ha Hb).
Qed.

Lemma split_no_sep c s : ~ In c s -> split c s = [s].
Proof.
  induction s as [| x s IH]; intros Hn; [reflexivity |]. cbn [split].
  destruct (Z.eqb_spec x c) as [-> | _]; [exfalso; apply Hn; left; reflexivity |].
  rewrite IH by (intros H; apply Hn; right; exact H). reflexivity.
Qed.

Lemma agentLoad_name a :
  AgentChart.name
    {| AgentChart.name :=
         or_default (nth_error (split (cu "@") (email a)) 0) (js "Unknown");
       AgentChart.tickets := totalTickets a;
       AgentChart.rating := parseFloat (toFixed (avgRating a) 1) |}
  = match local_part (email a) with [] => js "Unknown" | p => p end.
Proof.
  cbn [AgentChart.name]. unfold local_part.
  destruct (split (cu "@") (email a)) as [| [| c p] ps]; reflexivity.
Qed.

(** The agent chart shows the agents with the most tickets, at most ten
    of them, in the order of the rollup: no agent left out has more
    tickets than an agent shown.  A bar is named by the text of the
    agent's name before its first "@", and "Unknown" when that text is
    empty; so an agent whose name has no "@" is shown under its whole
    name, and no bar has an empty name. *)
Theorem agentLoad_top (tickets : list Ticket) :
  let ms := calculateAgentMetrics tickets in
  let bars := AgentChart.agentLoad ms in
  List.length bars = Nat.min 10 (List.length ms)
  /\ map AgentChart.tickets bars = map totalTickets (firstn 10 ms)
  /\ (forall b m, In b bars -> In m (skipn 10 ms) ->
                  totalTickets m <= AgentChart.tickets b)
  /\ map AgentChart.name bars
     = map (fun m => match local_part (email m) with
                     | [] => js "Unknown"
                     | p => p
                     end) (firstn 10 ms)
  /\ (forall m, In m ms -> ~ In (cu "@") (email m) -> local_part (email m) = email m)
  /\ Forall (fun b => AgentChart.name b <> []) bars.
Proof.
  cbv zeta. unfold AgentChart.agentLoad. rewrite <- !firstn_map.
  set (ms := calculateAgentMetrics tickets).
  assert (Hs : StronglySorted ge_total (firstn 10 ms ++ skipn 10 ms)).
  { rewrite firstn_skipn. apply sort_desc_sorted. }
  split; [| split; [| split; [| split; [| split]]]].
  - rewrite length_firstn, length_map. reflexivity.
  - rewrite !firstn_map, map_map. reflexivity.
  - intros b m Hb Hm. rewrite firstn_map in Hb. apply in_map_iff in Hb.
    destruct Hb as (a & <- & Ha). cbn [AgentChart.tickets].
    apply (sorted_app_le _ _ Hs a m Ha Hm).
  - rewrite !firstn_map, map_map. apply map_ext. intros a. apply agentLoad_name.
  - intros m _ Hm. unfold local_part. rewrite split_no_sep by exact Hm. reflexivity.
  - apply Forall_forall. intros b Hb. rewrite firstn_map in Hb.
    apply in_map_iff in Hb. destruct Hb as (a & <- & _).
    rewrite agentLoad_name. destruct (local_part (email a)); discriminate.
Qed.

(* ------------------------------------------------------------------ *)
(** * The upload of a sheet: outcomes and columns *)
(* ------------------------------------------------------------------ *)

Lemma prop_get_set_same k v props : prop_get k (prop_set k v props) = Some v.
Proof.
  induction props as [| [k' x] r IH]; cbn [prop_set prop_get].
  - rewrite str_eqb_refl. reflexivity.
  - destruct (str_eqb k' k) eqn:E; cbn [prop_get]; rewrite E; [reflexivity | exact IH].
Qed.

Lemma prop_get_set_other k k' v props :
  str_eqb k k' = false -> prop_get k' (prop_set k v props) = prop_get k' props.
Proof.
  intros Hk. induction props as [| [k0 x] r IH]; cbn [prop_set prop_get].
  - rewrite Hk. reflexivity.
  - destruct (str_eqb_spec k0 k) as [-> | Hne]; cbn [prop_get].
    + rewrite Hk. reflexivity.
    + rewrite IH. reflexivity.
Qed.

Lemma own_set_same o k v :
  str_eqb k (js "__proto__") = false -> prop_get k (own (set o k v)) = Some v.
Proof.
  intros Hk. unfold set. rewrite Hk. cbn [andb own]. apply prop_get_set_same.
Qed.

Lemma own_set_other o k v f :
  str_eqb k f = false -> prop_get f (own (set o k v)) = prop_get f (own o).
Proof.
  intros Hk. unfold set.
  destruct (str_eqb k (js "__proto__") && reaches_proto_setter o).
  - destruct v; reflexivity.
  - cbn [own]. apply prop_get_set_other. exact Hk.
Qed.

Lemma get_own o k v : prop_get k (own o) = Some v -> get o k = v.
Proof. intros H. unfold get. rewrite H. reflexivity. Qed.

Lemma str_neqb a b : a <> b -> str_eqb a b = false.
Proof. destruct (str_eqb_spec a b); congruence. Qed.

Lemma table_get_In k f m : table_get k m = Some f -> In (k, f) m.
Proof.
  induction m as [| [k' v] r IH]; cbn [table_get]; [discriminate |].
  destruct (str_eqb_spec k' k) as [-> | _].
  - intros E. injection E as ->. left. reflexivity.
  - intros E. right. exact (IH E).
Qed.

(** the fields of the map are names of the raw ticket *)
Lemma columnMap_fields k f :
  table_get k columnMap = Some f -> str_eqb f (js "__proto__") = false.
Proof.
  intros H. apply table_get_In in H.
  assert (Hall : forallb (fun kv => negb (str_eqb (snd kv) (js "__proto__"))) columnMap
                 = true) by (vm_compute; reflexivity).
  rewrite forallb_forall in Hall. specialize (Hall _ H). cbn [snd] in Hall.
  apply negb_true_iff in Hall. exact Hall.
Qed.

Lemma filter_trimStart (p : code_unit -> bool) s :
  (forall c, is_white_space c = true -> p c = false) ->
  filter p (trimStart s) = filter p s.
Proof.
  intros Hp. induction s as [| c s IH]; [reflexivity |]. cbn [trimStart].
  destruct (is_white_space c) eqn:E; [| reflexivity].
  cbn [filter]. rewrite (Hp c E). exact IH.
Qed.

Lemma filter_trim (p : code_unit -> bool) s :
  (forall c, is_white_space c = true -> p c = false) ->
  filter p (trim s) = filter p s.
Proof.
  intros Hp. unfold trim, trimEnd.
  rewrite filter_rev, (filter_trimStart p _ Hp), filter_rev, rev_involutive.
  apply filter_trimStart. exact Hp.
Qed.

(** The trimming of [normalizeHeader] is redundant; on an ASCII header
    the result is its letters. *)
Lemma normalizeHeader_ascii h key :
  forallb is_ascii key = true -> normalizeHeader h key = letters key.
Proof.
  intros Ha. unfold normalizeHeader, letters, toLowerCase. rewrite Ha.
  apply filter_trim. intros c Hc. unfold is_separator. rewrite Hc. reflexivity.
Qed.

Section UploadFacts.

Variable h : Host.
Variable function_text : jsstring -> jsstring.

Lemma renameKey_target o key cell :
  renameKey h function_text o (key, cell) = set o (target h function_text key) cell.
Proof.
  unfold renameKey, target. destruct (columnMap_get _ _); reflexivity.
Qed.

Lemma rename_keeps field cell (post : SheetRow) : forall o,
  Forall (fun kv => target h function_text (fst kv) <> field) post ->
  prop_get field (own o) = Some cell ->
  prop_get field (own (fold_left (renameKey h function_text) post o)) = Some cell.
Proof.
  induction post as [| [k v] post IH]; intros o Hall Ho; [exact Ho |].
  inversion Hall as [| ? ? Hk Hpost]; subst. cbn [fold_left fst] in *.
  apply IH; [exact Hpost |]. rewrite renameKey_target.
  rewrite own_set_other by (apply str_neqb; exact Hk). exact Ho.
Qed.

Lemma default_keeps o F d field cell :
  prop_get field (own o) = Some cell -> ToBoolean cell = true ->
  prop_get field (own (if negb (ToBoolean (get o F)) then set o F d else o)) = Some cell.
Proof.
  intros Ho Ht. destruct (str_eqb_spec F field) as [-> | Hne].
  - rewrite (get_own o field cell Ho), Ht. exact Ho.
  - destruct (negb _); [| exact Ho].
    rewrite own_set_other by (apply str_neqb; exact Hne). exact Ho.
Qed.

Lemma fallback_keeps o F G field cell :
  prop_get field (own o) = Some cell -> ToBoolean cell = true ->
  prop_get field
    (own (if negb (ToBoolean (get o F)) && ToBoolean (get o G)
          then set o F (get o G) else o)) = Some cell.
Proof.
  intros Ho Ht. destruct (str_eqb_spec F field) as [-> | Hne].
  - rewrite (get_own o field cell Ho), Ht. exact Ho.
  - destruct (_ && _); [| exact Ho].
    rewrite own_set_other by (apply str_neqb; exact Hne). exact Ho.
Qed.

End UploadFacts.

(** A column is recognised by the letters of its header: whatever the
    case of an ASCII header, and whatever spaces, underscores and
    hyphens it has, a header whose letters are a name of the column map
    feeds the field of that name.  Where no later column of the row
    feeds the same field, the raw ticket has the cell of the column in
    that field, when the cell is not empty (falsy). *)
Theorem recognised_column h function_text (pre post : SheetRow) key cell field :
  forallb is_ascii key = true ->
  table_get (letters key) columnMap = Some field ->
  ToBoolean cell = true ->
  Forall (fun kv => target h function_text (fst kv) <> field) post ->
  get (mapRow h function_text (pre ++ (key, cell) :: post)) field = cell.
Proof.
  intros Ha Hf Ht Hpost.
  assert (Htarget : target h function_text key = field).
  { unfold target, columnMap_get. rewrite (normalizeHeader_ascii h key Ha), Hf.
    reflexivity. }
  apply get_own. unfold mapRow. cbv zeta.
  apply fallback_keeps; [| exact Ht].
  repeat (apply default_keeps; [| exact Ht]).
  rewrite fold_left_app. cbn [fold_left].
  apply rename_keeps; [exact Hpost |].
  rewrite renameKey_target, Htarget.
  apply own_set_same. exact (columnMap_fields _ _ Hf).
Qed.

(** [recognised_column] for the header "Assigned To" between a column
    "Ticket-ID" and a column of notes; and a later column "State" wins
    over an earlier column "Status". *)
Lemma recognised_column_witness :
  get (mapRow utc_host v8_function_text
         ([(js "Ticket-ID", VNumber (of_Z 7))]
          ++ (js "Assigned To", S_ "amy") :: [(js "notes", S_ "x")]))
      (js "Assign") = S_ "amy"
  /\ get (mapRow utc_host v8_function_text
            ([(js "Status", S_ "Open")] ++ (js "State", S_ "Closed") :: []))
         (js "Status") = S_ "Closed".
Proof.
  split.
  - apply (recognised_column utc_host v8_function_text
             [(js "Ticket-ID", VNumber (of_Z 7))] [(js "notes", S_ "x")]
             (js "Assigned To") (S_ "amy") (js "Assign")).
    + reflexivity.
    + reflexivity.
    + reflexivity.
    + repeat constructor. cbn [fst]. vm_compute. discriminate.
  - apply (recognised_column utc_host v8_function_text
             [(js "Status", S_ "Open")] [] (js "State") (S_ "Closed") (js "Status")).
    + reflexivity.
    + reflexivity.
    + reflexivity.
    + constructor.
Defined.

(** [processFile] shows its first message for a sheet without rows, and
    never its second: for a sheet with rows it hands over one ticket per
    row, whatever the headers are, unless [parseRawData] throws. *)
Theorem processFile_outcome h function_text rawData :
  match processFile h function_text rawData with
  | DataLoaded tickets =>
      rawData <> [] /\ List.length tickets = List.length rawData
  | ErrorShown message =>
      rawData = [] /\ message = js "The file appears to be empty."
  | EngineError e =>
      rawData <> []
      /\ parseRawData h (map (fun row => rawTicket (mapRow h function_text row)) rawData)
         = Throw e
  end.
Proof.
  unfold processFile. destruct rawData as [| row rest]; [split; reflexivity |].
  cbv zeta.
  destruct (parseRawData h _) as [tickets | e] eqn:E; [| split; [discriminate | reflexivity]].
  pose proof (parseRows_length h _ 0 tickets E) as Hlen.
  rewrite length_map in Hlen. cbn [List.length] in Hlen.
  destruct tickets as [| t ts]; [discriminate Hlen |].
  cbn [List.length Nat.eqb]. split; [discriminate | exact Hlen].
Qed.

(** ** A sheet without a known header *)

Lemma get_set_same o k v :
  str_eqb k (js "__proto__") = false -> get (set o k v) k = v.
Proof. intros Hk. apply get_own, own_set_same. exact Hk. Qed.

Lemma get_set_other o k v k' :
  str_eqb k (js "__proto__") = false -> str_eqb k k' = false ->
  get (set o k v) k' = get o k'.
Proof.
  intros Hp Hk. unfold get, set. rewrite Hp. cbn [andb own proto].
  rewrite prop_get_set_other by exact Hk. reflexivity.
Qed.

Lemma raw_fields_known h function_text F :
  In F raw_fields -> unknown_header h function_text F = false.
Proof.
  intros H. cbn [raw_fields In] in H.
  repeat (destruct H as [<- | H]; [reflexivity |]). destruct H.
Qed.

Lemma blank_get o F : blank o -> In F raw_fields -> get o F = VUndefined.
Proof.
  intros (Hown & Hproto) HF. unfold get. rewrite (Hown F HF).
  destruct (proto o) as [[| | | | | | |] |]; try reflexivity; destruct Hproto.
Qed.

Lemma rename_blank h function_text (row : SheetRow) : forall o,
  Forall (fun kv => unknown_header h function_text (fst kv) = true
                    /\ is_scalar (snd kv) = true) row ->
  blank o -> blank (fold_left (renameKey h function_text) row o).
Proof.
  induction row as [| [k v] row IH]; intros o Hall Ho; [exact Ho |].
  inversion Hall as [| ? ? (Hk & Hv) Hrow]; subst. cbn [fold_left fst snd] in *.
  apply IH; [exact Hrow |]. clear IH Hrow Hall.
  unfold renameKey. unfold unknown_header in Hk.
  destruct (columnMap_get function_text (normalizeHeader h k)) eqn:E; [discriminate |].
  assert (Hne : forall F, In F raw_fields -> str_eqb k F = false).
  { intros F HF. apply str_neqb. intros ->.
    pose proof (raw_fields_known h function_text F HF) as Hn.
    unfold unknown_header in Hn. rewrite E in Hn. discriminate. }
  destruct Ho as (Hown & Hproto). unfold set.
  destruct (str_eqb k (js "__proto__") && reaches_proto_setter o).
  - destruct v; try discriminate Hv; split; cbn [own proto]; auto.
  - split; cbn [own proto]; [| exact Hproto].
    intros F HF. rewrite prop_get_set_other by (apply Hne; exact HF). auto.
Qed.

Lemma mapRow_blank h function_text (row : SheetRow) :
  Forall (fun kv => unknown_header h function_text (fst kv) = true
                    /\ is_scalar (snd kv) = true) row ->
  rawTicket (mapRow h function_text row) = blank_row.
Proof.
  intros Hall. unfold mapRow.
  set (o := fold_left (renameKey h function_text) row {| own := []; proto := None |}).
  assert (Ho : blank o).
  { apply rename_blank; [exact Hall |]. split; [reflexivity | exact I]. }
  assert (Hget : forall F, In F raw_fields -> get o F = VUndefined)
    by (intros F HF; apply blank_get; assumption).
  assert (Hin : forall F, existsb (str_eqb F) raw_fields = true -> In F raw_fields).
  { intros F HF. apply existsb_exists in HF. destruct HF as (G & HG & E).
    apply str_eqb_eq in E. subst. exact HG. }
  cbv zeta.
  rewrite (Hget (js "TicketType")) by (apply Hin; reflexivity). cbn [ToBoolean negb].
  rewrite (get_set_other o (js "TicketType") _ (js "Status")) by reflexivity.
  rewrite (Hget (js "Status")) by (apply Hin; reflexivity). cbn [ToBoolean negb].
  rewrite (get_set_other _ (js "Status") _ (js "Subject")) by reflexivity.
  rewrite (get_set_other o (js "TicketType") _ (js "Subject")) by reflexivity.
  rewrite (Hget (js "Subject")) by (apply Hin; reflexivity). cbn [ToBoolean negb].
  rewrite (get_set_other _ (js "Subject") _ (js "Owner")) by reflexivity.
  rewrite (get_set_other _ (js "Status") _ (js "Owner")) by reflexivity.
  rewrite (get_set_other o (js "TicketType") _ (js "Owner")) by reflexivity.
  rewrite (Hget (js "Owner")) by (apply Hin; reflexivity).
  cbn [ToBoolean]. rewrite andb_false_r.
  unfold rawTicket, blank_row.
  repeat match goal with
         | |- context [get (set ?o' ?k ?v) ?k'] =>
             first [ rewrite (get_set_same o' k v) by reflexivity
                   | rewrite (get_set_other o' k v k') by reflexivity ]
         end.
  repeat (rewrite Hget by (apply Hin; reflexivity)).
  reflexivity.
Qed.

Lemma parseRow_blank h i : parseRow h i blank_row = Normal (placeholder (random_id h i)).
Proof. vm_compute. reflexivity. Qed.

Lemma parseRows_blank h n : forall i,
  parseRows h i (repeat blank_row n)
  = Normal (map (fun j => placeholder (random_id h j)) (seq i n)).
Proof.
  induction n as [| n IH]; intros i; [reflexivity |].
  cbn [repeat parseRows seq map]. rewrite parseRow_blank. cbn [bind].
  rewrite IH. reflexivity.
Qed.

(** A sheet none of whose headers is known is not refused: it is loaded
    as one ticket per row in which nothing is filled in, open, without
    assignee, dated at the epoch and told apart by its random identifier
    only. *)
Theorem unknown_headers_load h function_text (rawData : list SheetRow) :
  rawData <> [] ->
  Forall (Forall (fun kv => unknown_header h function_text (fst kv) = true
                            /\ is_scalar (snd kv) = true)) rawData ->
  processFile h function_text rawData
  = DataLoaded (map (fun i => placeholder (random_id h i))
                    (seq 0 (List.length rawData))).
Proof.
  intros Hne Hall. unfold processFile.
  destruct rawData as [| row rest] eqn:Erows; [congruence |]. rewrite <- Erows in *.
  cbv zeta.
  assert (Hmap : map (fun row => rawTicket (mapRow h function_text row)) rawData
                 = repeat blank_row (List.length rawData)).
  { clear Erows Hne. induction Hall as [| r rs Hr _ IH]; [reflexivity |].
    cbn [map List.length repeat]. rewrite (mapRow_blank h function_text r Hr), IH.
    reflexivity. }
  rewrite Hmap. unfold parseRawData. rewrite parseRows_blank.
  rewrite length_map, length_seq. rewrite Erows. reflexivity.
Qed.

(** [unknown_headers_load] for a sheet of two rows under headers the
    upload does not know. *)
Lemma unknown_headers_load_witness :
  processFile utc_host v8_function_text
    [[(js "foo", S_ "x")]; [(js "bar", VNumber (of_Z 1)); (js "__proto__", VNull)]]
  = DataLoaded [placeholder (js "r0"); placeholder (js "r1")].
Proof.
  rewrite (unknown_headers_load utc_host v8_function_text
             [[(js "foo", S_ "x")];
              [(js "bar", VNumber (of_Z 1)); (js "__proto__", VNull)]]).
  - vm_compute. reflexivity.
  - discriminate.
  - repeat constructor.
Defined.

(* ------------------------------------------------------------------ *)
(** * The dashboard over all tickets *)
(* ------------------------------------------------------------------ *)

Lemma unbounded_views c h tickets range :
  bounded_range range = false ->
  filterTickets c h tickets range = tickets
  /\ getPreviousPeriodTickets c h tickets range = [].
Proof.
  unfold bounded_range. cbn [existsb]. intros H.
  repeat (apply orb_false_iff in H; destruct H as [? H]).
  unfold filterTickets, getPreviousPeriodTickets.
  repeat match goal with E : str_eqb range _ = false |- _ => rewrite E; clear E end.
  split; reflexivity.
Qed.

Lemma neqb_of_Z_zero n : 0 <= n -> neqb (of_Z n) zero = (n =? 0).
Proof.
  intros Hn. destruct (Z.eqb_spec n 0) as [-> | Hne]; [reflexivity |].
  assert (Hg : ngt (of_Z n) zero = true).
  { rewrite ngt_of_Z_zero by exact Hn. apply Z.ltb_lt. lia. }
  unfold ngt, nlt in Hg. unfold neqb.
  destruct (of_Z n) as [| s | s m e]; try discriminate Hg.
  - destruct s; reflexivity.
  - unfold zero, ncompare in *. cbv zeta in *.
    rewrite (Z.min_comm e 0), (Z.compare_antisym (signed false 0 * _)).
    destruct (_ ?= _); try discriminate Hg; reflexivity.
Qed.

Lemma trend_against_zero curr :
  {| Dashboard.text := formatTrend (getPctDiff curr zero) (js "%");
     Dashboard.isPositive := nle (getPctDiff curr zero) zero |}
  = trend_from_nothing (neqb curr zero).
Proof.
  rewrite getPctDiff_zero_prev by reflexivity.
  destruct (neqb curr zero); reflexivity.
Qed.

(** Under a range that is none of the four bounded ones (as "all", which
    the application selects whenever data are loaded) the view holds
    every ticket and the previous period none.  The three percentage
    trends of the dashboard then compare with 0: each reads "+100.0%"
    and is shown as unfavourable, unless its current value is 0 too,
    when it reads "0.0%". *)
Theorem all_time_trends c h tickets range :
  bounded_range range = false ->
  let view := filterTickets c h tickets range in
  let previous := getPreviousPeriodTickets c h tickets range in
  let current := fst (Dashboard.stats view previous) in
  let tr := snd (Dashboard.stats view previous) in
  view = tickets /\ previous = []
  /\ current = Dashboard.calculateStats tickets
  /\ Dashboard.total_trend tr
     = trend_from_nothing (match tickets with [] => true | _ => false end)
  /\ Dashboard.open_trend tr
     = trend_from_nothing (match open_tickets tickets with [] => true | _ => false end)
  /\ Dashboard.resolution_trend tr
     = trend_from_nothing (neqb (Dashboard.avgResolution current) zero).
Proof.
  intros Hr. cbv zeta. destruct (unbounded_views c h tickets range Hr) as (-> & ->).
  split; [reflexivity |]. split; [reflexivity |]. split; [reflexivity |].
  unfold Dashboard.stats. cbv zeta.
  cbn [fst snd Dashboard.total_trend Dashboard.open_trend Dashboard.resolution_trend].
  change (Dashboard.total (Dashboard.calculateStats [])) with zero.
  change (Dashboard.open (Dashboard.calculateStats [])) with zero.
  change (Dashboard.avgResolution (Dashboard.calculateStats [])) with zero.
  rewrite !trend_against_zero.
  unfold Dashboard.calculateStats at 1 2. cbv zeta.
  cbn [Dashboard.total Dashboard.open]. unfold Dashboard.length_of.
  rewrite !neqb_of_Z_zero by lia. fold (open_tickets tickets).
  split; [| split; [| reflexivity]].
  - destruct tickets; reflexivity.
  - destruct (open_tickets tickets); reflexivity.
Qed.

(** [all_time_trends] for one closed ticket under "all". *)
Lemma all_time_trends_witness :
  let c := ist_clock 1710504000000 in
  let tickets := [ticket_of "Closed" [js "amy"] 4 2] in
  let tr := snd (Dashboard.stats (filterTickets c ist_host tickets (js "all"))
                                 (getPreviousPeriodTickets c ist_host tickets (js "all"))) in
  Dashboard.text (Dashboard.total_trend tr) = js "+100.0%"
  /\ Dashboard.text (Dashboard.open_trend tr) = js "0.0%"
  /\ Dashboard.text (Dashboard.resolution_trend tr) = js "+100.0%".
Proof.
  cbv zeta.
  destruct (all_time_trends (ist_clock 1710504000000) ist_host
              [ticket_of "Closed" [js "amy"] 4 2] (js "all"))
    as (_ & _ & _ & E1 & E2 & E3).
  - reflexivity.
  - cbv zeta in *. rewrite E1, E2, E3. repeat split; vm_compute; reflexivity.
Defined.

(* ------------------------------------------------------------------ *)
(** * The agents of a view *)
(* ------------------------------------------------------------------ *)

Lemma rollup_entries tickets m :
  In m (calculateAgentMetrics tickets)
  <-> exists k, agent_of tickets k /\ m = metricsOf k tickets.
Proof.
  pose proof (calculateAgentMetrics_perm tickets) as Hp.
  destruct (agentMap_spec tickets) as (Hnd & Hk & Hv).
  split.
  - intros Hm. apply (Permutation_in _ Hp) in Hm. apply in_map_iff in Hm.
    destruct Hm as ([k v] & <- & Hin). exists k. split.
    + unfold agent_of. rewrite <- occurrences_keys, <- Hk.
      apply in_map_iff. exists (k, v). auto.
    + rewrite (Hv k v Hin). apply toMetrics_visits.
  - intros (k & Ha & ->). unfold agent_of in Ha.
    rewrite <- occurrences_keys, <- Hk in Ha. apply in_map_iff in Ha.
    destruct Ha as ([k' v] & E & Hin). cbn [fst] in E. subst k'.
    apply (Permutation_in _ (Permutation_sym Hp)). apply in_map_iff.
    exists (k, v). split; [| exact Hin].
    rewrite (Hv k v Hin). apply toMetrics_visits.
Qed.

Lemma views_are_filters c h tickets range :
  exists p, filterTickets c h tickets range = filter p tickets.
Proof.
  unfold filterTickets. cbv zeta.
  repeat match goal with
         | |- context [if ?b then _ else _] => destruct b; [eexists; reflexivity |]
         end.
  exists (fun _ => true). symmetry. apply filter_all. reflexivity.
Qed.

Lemma filter_map_const {A B} (p : B -> bool) (f : A -> B) (l : list A) b :
  (forall a, In a l -> p (f a) = b) ->
  filter p (map f l) = if b then map f l else [].
Proof.
  induction l as [| a l IH]; intros H; [destruct b; reflexivity |].
  cbn [map filter]. rewrite (H a (or_introl eq_refl)).
  rewrite IH by (intros x Hx; apply H; right; exact Hx).
  destruct b; reflexivity.
Qed.

Lemma occurrences_filter p ts :
  occurrences (filter p ts) = filter (fun o => p (snd o)) (occurrences ts).
Proof.
  unfold occurrences. induction ts as [| t ts IH]; [reflexivity |].
  cbn [filter flat_map]. rewrite filter_app, <- IH.
  rewrite (filter_map_const (fun o => p (snd o)) _ _ (p t)) by reflexivity.
  destruct (p t); reflexivity.
Qed.

Lemma filter_comm {A} (p q : A -> bool) l :
  filter p (filter q l) = filter q (filter p l).
Proof.
  induction l as [| x l IH]; [reflexivity |]. cbn [filter].
  destruct (p x) eqn:Ep, (q x) eqn:Eq; cbn [filter]; rewrite ?Ep, ?Eq, IH; reflexivity.
Qed.

Lemma map_snd_filter {A B} (p : B -> bool) (l : list (A * B)) :
  map snd (filter (fun o => p (snd o)) l) = filter p (map snd l).
Proof.
  induction l as [| x l IH]; [reflexivity |]. cbn [filter map].
  destruct (p (snd x)); cbn [map]; rewrite IH; reflexivity.
Qed.

Lemma ticketsOf_filter p k ts :
  ticketsOf k (filter p ts) = filter p (ticketsOf k ts).
Proof.
  unfold ticketsOf. rewrite occurrences_filter, filter_comm. apply map_snd_filter.
Qed.

Lemma filter_length_le {A} (p : A -> bool) l :
  (List.length (filter p l) <= List.length l)%nat.
Proof.
  induction l as [| x l IH]; cbn [filter List.length]; [lia |].
  destruct (p x); cbn [List.length]; lia.
Qed.

Lemma agent_has_tickets ts k : agent_of ts k -> ticketsOf k ts <> [].
Proof.
  unfold agent_of. rewrite <- occurrences_keys. intros Hin.
  apply in_map_iff in Hin. destruct Hin as ([k' t] & E & Hin). cbn [fst] in E. subst k'.
  unfold ticketsOf. intros Hnil.
  assert (Hf : In (k, t) (filter (fun o => str_eqb (fst o) k) (occurrences ts))).
  { apply filter_In. split; [exact Hin | apply str_eqb_refl]. }
  destruct (filter _ (occurrences ts)); [destruct Hf | discriminate].
Qed.

Lemma agent_of_filter p ts k : agent_of (filter p ts) k -> agent_of ts k.
Proof.
  intros (t & a & Ht & Ha). apply filter_In in Ht. exists t, a. tauto.
Qed.

(** The agents of a view.  Whatever the range, an agent listed for the
    tickets of the view is an agent of the whole population, has at
    least one ticket in the view, and has no more tickets, and no more
    active tickets, in the view than over all tickets. *)
Theorem view_agents c h tickets range m :
  In m (calculateAgentMetrics (filterTickets c h tickets range)) ->
  0 < totalTickets m
  /\ exists m', In m' (calculateAgentMetrics tickets)
                /\ email m' = email m
                /\ totalTickets m <= totalTickets m'
                /\ activeTickets m <= activeTickets m'.
Proof.
  destruct (views_are_filters c h tickets range) as (p & ->).
  intros Hm. apply rollup_entries in Hm. destruct Hm as (k & Ha & ->).
  cbn [metricsOf totalTickets activeTickets email]. split.
  - pose proof (agent_has_tickets _ _ Ha) as Hne.
    destruct (ticketsOf k (filter p tickets)); [congruence | cbn [List.length]; lia].
  - exists (metricsOf k tickets). split.
    + apply rollup_entries. exists k. split; [| reflexivity].
      exact (agent_of_filter p tickets k Ha).
    + cbn [metricsOf totalTickets activeTickets email].
      rewrite ticketsOf_filter. split; [reflexivity |]. split.
      * pose proof (filter_length_le p (ticketsOf k tickets)). lia.
      * rewrite filter_comm.
        pose proof (filter_length_le p
                      (filter (fun t => negb (is_closed t)) (ticketsOf k tickets))). lia.
Qed.

(** [view_agents] on 15 March 2024 for an agent with a ticket of the day
    before and one of the epoch, under the seven-day range. *)
Lemma view_agents_witness :
  let c := ist_clock 1710504000000 in
  let tickets := [{| id := []; subject := []; status := js "Open";
                     assignees := [js "amy"]; customer := [];
                     priority := VString (js "Medium"); ticketType := []; owner := [];
                     rating := zero; createdAt := Some 1710417600000;
                     resolvedAt := None; resolutionTimeHours := zero |};
                  ticket_of "Open" [js "amy"] 0 0] in
  let m := {| email := js "amy"; totalTickets := 1; avgRating := zero;
              avgResolutionHours := zero; activeTickets := 1 |} in
  In m (calculateAgentMetrics (filterTickets c ist_host tickets (js "last-7-days")))
  /\ map totalTickets (calculateAgentMetrics tickets) = [2]
  /\ 0 < totalTickets m
  /\ exists m', In m' (calculateAgentMetrics tickets)
                /\ email m' = email m
                /\ totalTickets m <= totalTickets m'
                /\ activeTickets m <= activeTickets m'.
Proof.
  cbv zeta.
  match goal with
  | |- In ?m ?l /\ _ => assert (Hin : In m l) by (vm_compute; left; reflexivity)
  end.
  split; [exact Hin |]. split; [vm_compute; reflexivity |].
  exact (view_agents (ist_clock 1710504000000) ist_host _ (js "last-7-days") _ Hin).
Defined.

(* ------------------------------------------------------------------ *)
(** * The data context of the assistant: its top agent and its types *)
(* ------------------------------------------------------------------ *)





(* ------------------------------------------------------------------ *)
(** * Base64 and the audio blob *)
(* ------------------------------------------------------------------ *)

Lemma list_ind3 {A} (P : list A -> Prop) :
  P [] -> (forall a, P [a]) -> (forall a b, P [a; b]) ->
  (forall a b c r, P r -> P (a :: b :: c :: r)) ->
  forall l, P l.
Proof.
  intros H0 H1 H2 H3.
  refine (fix go l := match l with
                      | [] => H0
                      | [a] => H1 a
                      | [a; b] => H2 a b
                      | a :: b :: c :: r => H3 a b c r (go r)
                      end).
Qed.

Lemma base64_value_unit v : 0 <= v < 64 -> base64_value (base64_unit v) = Some v.
Proof.
  intros Hv. unfold base64_unit, base64_value.
  change (cu "A") with 65; change (cu "Z") with 90; change (cu "a") with 97;
    change (cu "z") with 122; change (cu "0") with 48; change (cu "9") with 57;
    change (cu "+") with 43; change (cu "/") with 47.
  destruct (Z.ltb_spec v 26).
  { destruct (Z.leb_spec 65 (65 + v)), (Z.leb_spec (65 + v) 90); try lia.
    cbn [andb]. f_equal. lia. }
  destruct (Z.ltb_spec v 52).
  { destruct (Z.leb_spec 65 (97 + (v - 26))), (Z.leb_spec (97 + (v - 26)) 90); try lia.
    cbn [andb].
    destruct (Z.leb_spec 97 (97 + (v - 26))), (Z.leb_spec (97 + (v - 26)) 122); try lia.
    cbn [andb]. f_equal. lia. }
  destruct (Z.ltb_spec v 62).
  { destruct (Z.leb_spec 65 (48 + (v - 52))); [lia |]. cbn [andb].
    destruct (Z.leb_spec 97 (48 + (v - 52))); [lia |]. cbn [andb].
    destruct (Z.leb_spec 48 (48 + (v - 52))), (Z.leb_spec (48 + (v - 52)) 57); try lia.
    cbn [andb]. f_equal. lia. }
  destruct (Z.eqb_spec v 62) as [-> | Hne]; [reflexivity |].
  assert (v = 63) by lia. subst. reflexivity.
Qed.

(** a unit of the alphabet is no padding and no white space, and lies
    below 256 *)
Lemma base64_unit_plain v :
  0 <= v < 64 ->
  (base64_unit v =? cu "=") = false
  /\ is_ascii_whitespace (base64_unit v) = false
  /\ (base64_unit v <=? 255) = true.
Proof.
  intros Hv. unfold base64_unit, is_ascii_whitespace.
  change (cu "A") with 65; change (cu "a") with 97; change (cu "0") with 48;
    change (cu "+") with 43; change (cu "/") with 47; change (cu "=") with 61.
  destruct (Z.ltb_spec v 26); [| destruct (Z.ltb_spec v 52);
    [| destruct (Z.ltb_spec v 62); [| destruct (Z.eqb_spec v 62)]]];
    repeat split;
    repeat match goal with
           | |- context [?a =? ?b] => destruct (Z.eqb_spec a b); try lia
           | |- context [?a <=? ?b] => destruct (Z.leb_spec a b); try lia
           end; reflexivity.
Qed.

Lemma fold_append {A} (l : list A) : forall acc,
  fold_left (fun binary b => binary ++ [b]) l acc = acc ++ l.
Proof.
  induction l as [| x l IH]; intros acc; cbn [fold_left]; [symmetry; apply app_nil_r |].
  rewrite IH, <- app_assoc. reflexivity.
Qed.

Lemma strip_padding_app p s :
  (2 <= List.length s)%nat -> strip_padding (p ++ s) = p ++ strip_padding s.
Proof.
  intros Hs. unfold strip_padding. rewrite rev_app_distr.
  destruct (rev s) as [| c1 [| c2 r]] eqn:E;
    try (apply (f_equal (@List.length _)) in E; rewrite length_rev in E;
         cbn [List.length] in E; lia).
  cbn [app]. destruct (c1 =? cu "="); [| reflexivity].
  destruct (c2 =? cu "=").
  - rewrite rev_app_distr, rev_involutive. reflexivity.
  - change (c2 :: r ++ rev p) with ((c2 :: r) ++ rev p).
    rewrite rev_app_distr, rev_involutive. reflexivity.
Qed.

Lemma base64_encode_length bytes :
  Z.of_nat (List.length (base64_encode bytes))
  = 4 * ((Z.of_nat (List.length bytes) + 2) / 3).
Proof.
  induction bytes as [| a | a b | a b c r IH] using list_ind3; try reflexivity.
  change (base64_encode (a :: b :: c :: r))
    with (base64_unit (a / 4) :: base64_unit (a mod 4 * 16 + b / 16)
          :: base64_unit (b mod 16 * 4 + c / 64) :: base64_unit (c mod 64)
          :: base64_encode r).
  cbn [List.length]. rewrite !Nat2Z.inj_succ, IH. div_lia.
Qed.

(** the text of [btoa] has no white space, and without its padding it is
    the text of the 6-bit values that give the bytes back *)
Lemma base64_encode_decodes bytes :
  forallb is_byte bytes = true ->
  filter (fun c => negb (is_ascii_whitespace c)) (base64_encode bytes)
  = base64_encode bytes
  /\ Z.of_nat (List.length (strip_padding (base64_encode bytes))) mod 4 <> 1
  /\ option_map base64_bytes (base64_values (strip_padding (base64_encode bytes)))
     = Some bytes.
Proof.
  unfold is_byte.
  induction bytes as [| a | a b | a b c r IH] using list_ind3; intros Hb.
  - repeat split; [discriminate].
  - cbn [forallb] in Hb. rewrite andb_true_r in Hb. apply andb_true_iff in Hb.
    destruct Hb as (H1 & H2). apply Z.leb_le in H1. apply Z.ltb_lt in H2.
    destruct (base64_unit_plain (a / 4) ltac:(div_lia)) as (P1 & W1 & _).
    destruct (base64_unit_plain (a mod 4 * 16) ltac:(div_lia)) as (P2 & W2 & _).
    cbn [base64_encode filter]. rewrite W1, W2. cbn [negb is_ascii_whitespace].
    split; [reflexivity |].
    unfold strip_padding. cbn [rev app]. rewrite !Z.eqb_refl. cbn [rev app List.length].
    split; [discriminate |].
    cbn [base64_values]. rewrite !base64_value_unit by div_lia.
    cbn [option_map base64_bytes]. repeat f_equal. div_lia.
  - cbn [forallb] in Hb. rewrite andb_true_r in Hb.
    repeat (apply andb_true_iff in Hb; destruct Hb as (Hb & ?)).
    repeat match goal with
           | H : (_ <=? _) = true |- _ => apply Z.leb_le in H
           | H : (_ <? _) = true |- _ => apply Z.ltb_lt in H
           end.
    destruct (base64_unit_plain (a / 4) ltac:(div_lia)) as (P1 & W1 & _).
    destruct (base64_unit_plain (a mod 4 * 16 + b / 16) ltac:(div_lia)) as (P2 & W2 & _).
    destruct (base64_unit_plain (b mod 16 * 4) ltac:(div_lia)) as (P3 & W3 & _).
    cbn [base64_encode filter]. rewrite W1, W2, W3. cbn [negb is_ascii_whitespace].
    split; [reflexivity |].
    unfold strip_padding. cbn [rev app]. rewrite Z.eqb_refl, P3. cbn [rev app List.length].
    split; [discriminate |].
    cbn [base64_values]. rewrite !base64_value_unit by div_lia.
    cbn [option_map base64_bytes]. repeat f_equal; div_lia.
  - cbn [forallb] in Hb.
    apply andb_true_iff in Hb. destruct Hb as (Ha & Hb).
    apply andb_true_iff in Hb. destruct Hb as (Hb & Hc).
    apply andb_true_iff in Hc. destruct Hc as (Hc & Hr).
    apply andb_true_iff in Ha, Hb, Hc.
    destruct Ha as (Ha1 & Ha2), Hb as (Hb1 & Hb2), Hc as (Hc1 & Hc2).
    apply Z.leb_le in Ha1, Hb1, Hc1. apply Z.ltb_lt in Ha2, Hb2, Hc2.
    destruct (IH Hr) as (IH1 & IH2 & IH3).
    destruct (base64_unit_plain (a / 4) ltac:(div_lia)) as (P1 & W1 & _).
    destruct (base64_unit_plain (a mod 4 * 16 + b / 16) ltac:(div_lia)) as (P2 & W2 & _).
    destruct (base64_unit_plain (b mod 16 * 4 + c / 64) ltac:(div_lia)) as (P3 & W3 & _).
    destruct (base64_unit_plain (c mod 64) ltac:(div_lia)) as (P4 & W4 & _).
    change (base64_encode (a :: b :: c :: r))
      with (base64_unit (a / 4) :: base64_unit (a mod 4 * 16 + b / 16)
            :: base64_unit (b mod 16 * 4 + c / 64) :: base64_unit (c mod 64)
            :: base64_encode r).
    split.
    { cbn [filter]. rewrite W1, W2, W3, W4. cbn [negb]. rewrite IH1. reflexivity. }
    assert (Hstrip :
      strip_padding (base64_unit (a / 4) :: base64_unit (a mod 4 * 16 + b / 16)
                     :: base64_unit (b mod 16 * 4 + c / 64) :: base64_unit (c mod 64)
                     :: base64_encode r)
      = base64_unit (a / 4) :: base64_unit (a mod 4 * 16 + b / 16)
        :: base64_unit (b mod 16 * 4 + c / 64) :: base64_unit (c mod 64)
        :: strip_padding (base64_encode r)).
    { destruct r as [| x r'].
      - unfold strip_padding. cbn [base64_encode rev app]. rewrite P4. reflexivity.
      - apply (strip_padding_app [_; _; _; _]).
        pose proof (base64_encode_length (x :: r')) as Hl.
        cbn [List.length] in Hl. rewrite Nat2Z.inj_succ in Hl.
        assert (1 <= (Z.succ (Z.of_nat (List.length r')) + 2) / 3) by div_lia.
        lia. }
    rewrite Hstrip. split.
    { cbn [List.length]. rewrite !Nat2Z.inj_succ. revert IH2. div_lia. }
    cbn [base64_values]. rewrite !base64_value_unit by div_lia.
    destruct (base64_values (strip_padding (base64_encode r))) as [vs |];
      [| discriminate IH3].
    cbn [option_map] in *. injection IH3 as IH3.
    cbn [base64_bytes]. rewrite IH3. repeat f_equal; div_lia.
Qed.

Lemma map_mod_bytes bytes :
  forallb is_byte bytes = true -> map (fun c => c mod 256) bytes = bytes.
Proof.
  induction bytes as [| b r IH]; [reflexivity |]. cbn [forallb map]. intros H.
  apply andb_true_iff in H. destruct H as (Hb & Hr). rewrite (IH Hr).
  unfold is_byte in Hb. apply andb_true_iff in Hb. destruct Hb as (H1 & H2).
  apply Z.leb_le in H1. apply Z.ltb_lt in H2. rewrite Z.mod_small by lia. reflexivity.
Qed.

Lemma base64_of_bytes buffer :
  forallb is_byte buffer = true ->
  arrayBufferToBase64 buffer = Some (base64_encode buffer)
  /\ base64ToUint8Array (base64_encode buffer) = Some buffer.
Proof.
  intros Hb. unfold arrayBufferToBase64, btoa. cbv zeta.
  rewrite fold_append. cbn [app].
  assert (Hle : forallb (fun c => c <=? 255) buffer = true).
  { rewrite forallb_forall in *. intros x Hx. specialize (Hb x Hx).
    unfold is_byte in Hb. apply andb_true_iff in Hb. destruct Hb as (_ & H2).
    apply Z.ltb_lt in H2. apply Z.leb_le. lia. }
  rewrite Hle. split; [reflexivity |].
  destruct (base64_encode_decodes buffer Hb) as (E1 & E2 & E3).
  unfold base64ToUint8Array, atob. cbv zeta. rewrite E1.
  rewrite base64_encode_length.
  replace (4 * ((Z.of_nat (List.length buffer) + 2) / 3) mod 4) with 0 by div_lia.
  cbn [Z.eqb].
  destruct (Z.eqb_spec (Z.of_nat (List.length (strip_padding (base64_encode buffer)))
                        mod 4) 1); [contradiction |].
  rewrite E3. cbn [option_map]. rewrite (map_mod_bytes buffer Hb). reflexivity.
Qed.

(** Base64 round trip: [arrayBufferToBase64] throws on no buffer, its
    text has four units for every three bytes begun, and
    [base64ToUint8Array] gives the bytes back from it. *)
Theorem base64_round_trip buffer :
  forallb is_byte buffer = true ->
  exists text,
    arrayBufferToBase64 buffer = Some text
    /\ Z.of_nat (List.length text) = 4 * ((Z.of_nat (List.length buffer) + 2) / 3)
    /\ base64ToUint8Array text = Some buffer.
Proof.
  intros Hb. destruct (base64_of_bytes buffer Hb) as (E1 & E2).
  exists (base64_encode buffer). split; [exact E1 |].
  split; [apply base64_encode_length | exact E2].
Qed.

(** ** The audio blob *)

Lemma normal_binary64 s m e :
  2 ^ 52 <= m < 2 ^ 53 -> -1074 <= e <= 971 -> is_binary64 (Fin s m e) = true.
Proof.
  intros Hm He. unfold is_binary64.
  destruct (Z.leb_spec (2 ^ 52) m); [| lia]. destruct (Z.ltb_spec m (2 ^ 53)); [| lia].
  destruct (Z.leb_spec (-1074) e); [| lia]. destruct (Z.leb_spec e 971); [| lia].
  cbn [andb]. rewrite orb_true_r. reflexivity.
Qed.

(** the sample k / 32768 is stored as k *)
Lemma pcm_grid k : -32768 <= k < 32768 -> pcm_int16 (pcm_sample k) = k.
Proof.
  intros Hk. destruct (Z.eq_dec k 0) as [-> | Hne]; [vm_compute; reflexivity |].
  unfold pcm_int16, pcm_sample.
  assert (H53 : 2 ^ 16 < 2 ^ 53) by (apply Z.pow_lt_mono_r; lia).
  change (2 ^ 16) with 65536 in H53.
  rewrite (ndiv_int _ _ k 32768 (of_Z_holds k ltac:(lia))
             (of_Z_holds 32768 ltac:(change (Z.abs 32768) with 32768; lia))
             Hne ltac:(lia)).
  change (32768 <? 0) with false. rewrite xorb_false_r.
  change (Z.abs 32768) with (2 ^ 15).
  set (s := k <? 0). set (n := Z.abs k).
  assert (Hn : 0 < n <= 32768) by (unfold n; lia).
  set (j := Z.log2 n).
  assert (Hj : 0 <= j < 16).
  { split; [apply Z.log2_nonneg |]. apply Z.log2_lt_pow2; [lia |].
    change (2 ^ 16) with 65536. lia. }
  pose proof (Z.log2_spec n ltac:(lia)) as Hlog. fold j in Hlog.
  set (m := n * 2 ^ (52 - j)).
  assert (Hm : 2 ^ 52 <= m < 2 ^ 53).
  { assert (E1 : 2 ^ 52 = 2 ^ j * 2 ^ (52 - j))
      by (rewrite <- Z.pow_add_r by lia; f_equal; lia).
    assert (E2 : 2 ^ 53 = 2 ^ Z.succ j * 2 ^ (52 - j))
      by (rewrite <- Z.pow_add_r by lia; f_equal; lia).
    pose proof (pow2_pos (52 - j) ltac:(lia)). unfold m. nia. }
  assert (E1 : round64 s n (2 ^ 15) = Fin s m (j - 67)).
  { rewrite <- (round64_scale s n (2 ^ 15) (52 - j)) by lia.
    fold m. rewrite <- Z.pow_add_r by lia.
    replace m with (m * 2 ^ 0) at 1 by (rewrite Z.pow_0_r; lia).
    replace (15 + (52 - j)) with (67 - j) by lia.
    replace (j - 67) with (0 - (67 - j)) by lia.
    apply round64_exact; try lia. apply normal_binary64; lia. }
  rewrite E1. change (of_Z 32768) with (Fin false (2 ^ 52) (-37)).
  unfold nmul. rewrite xorb_false_r.
  unfold scale_num, scale_den.
  rewrite Z.max_r by lia. rewrite Z.max_l by lia. rewrite Z.pow_0_r, Z.mul_1_r.
  replace (- (j - 67 + -37)) with (104 - j) by lia.
  rewrite (round64_exact s m 52 (104 - j)) by (try lia; apply normal_binary64; lia).
  unfold ToInt16. cbv zeta. unfold scale_num, scale_den.
  rewrite Z.max_r by lia. rewrite Z.max_l by lia. rewrite Z.pow_0_r, Z.mul_1_r.
  replace (- (52 - (104 - j))) with (52 - j) by lia.
  unfold m. rewrite Z.div_mul by (pose proof (pow2_pos (52 - j) ltac:(lia)); lia).
  assert (Es : signed s n = k) by (unfold signed, s, n; destruct (Z.ltb_spec k 0); lia).
  rewrite Es.
  destruct (Z.leb_spec 32768 (k mod 65536)); div_lia.
Qed.

Lemma int16_bytes_ok big_endian v : forallb is_byte (int16_bytes big_endian v) = true.
Proof.
  unfold int16_bytes, is_byte. cbv zeta.
  pose proof (Z.mod_pos_bound v 65536 ltac:(lia)) as Hu.
  destruct big_endian; cbn [forallb]; rewrite andb_true_r;
    repeat (apply andb_true_intro; split);
    try apply Z.leb_le; try apply Z.ltb_lt; div_lia.
Qed.

Lemma flat_map_bytes big_endian vs :
  forallb is_byte (flat_map (int16_bytes big_endian) vs) = true.
Proof.
  induction vs as [| v vs IH]; [reflexivity |]. cbn [flat_map].
  rewrite forallb_app, int16_bytes_ok, IH. reflexivity.
Qed.

Lemma flat_map_length2 big_endian vs :
  List.length (flat_map (int16_bytes big_endian) vs) = (2 * List.length vs)%nat.
Proof.
  induction vs as [| v vs IH]; [reflexivity |]. cbn [flat_map].
  rewrite length_app, IH. unfold int16_bytes. destruct big_endian; cbn [List.length]; lia.
Qed.

(** The blob of the microphone samples.  [pcmToGeminiBlob] never throws;
    its text has four units for every three bytes begun, and decodes to
    two bytes per sample: the element of the Int16Array, in the byte
    order of the platform.  The element of a sample k / 32768 is k for
    every 16-bit k; the sample 1.0 is stored as -32768, and NaN and the
    infinities as 0. *)
Theorem pcmToGeminiBlob_spec big_endian samples :
  (exists blob,
      pcmToGeminiBlob big_endian samples = Some blob
      /\ GenAI.mimeType blob = js "audio/pcm;rate=16000"
      /\ Z.of_nat (List.length (GenAI.data blob))
         = 4 * ((2 * Z.of_nat (List.length samples) + 2) / 3)
      /\ base64ToUint8Array (GenAI.data blob)
         = Some (flat_map (int16_bytes big_endian) (map pcm_int16 samples)))
  /\ (forall k, -32768 <= k < 32768 -> pcm_int16 (pcm_sample k) = k)
  /\ pcm_int16 (of_Z 1) = -32768
  /\ pcm_int16 NaN = 0
  /\ (forall s, pcm_int16 (Inf s) = 0).
Proof.
  split; [| split; [exact pcm_grid | split; [vm_compute; reflexivity |
    split; [reflexivity | intros s; destruct s; reflexivity]]]].
  unfold pcmToGeminiBlob. cbv zeta.
  set (bytes := flat_map (int16_bytes big_endian) (map pcm_int16 samples)).
  destruct (base64_of_bytes bytes (flat_map_bytes _ _)) as (E1 & E2).
  rewrite E1. eexists. split; [reflexivity |]. cbn [GenAI.mimeType GenAI.data].
  split; [reflexivity |]. split; [| exact E2].
  rewrite base64_encode_length. unfold bytes.
  rewrite flat_map_length2, length_map. f_equal. f_equal. lia.
Qed.

(** [base64_round_trip] for the bytes of "Man" and of "Ma". *)
Lemma base64_round_trip_witness :
  arrayBufferToBase64 [77; 97; 110] = Some (js "TWFu")
  /\ arrayBufferToBase64 [77; 97] = Some (js "TWE=")
  /\ exists text,
       arrayBufferToBase64 [77; 97] = Some text
       /\ Z.of_nat (List.length text) = 4 * ((Z.of_nat (List.length [77; 97]) + 2) / 3)
       /\ base64ToUint8Array text = Some [77; 97].
Proof.
  split; [reflexivity |]. split; [reflexivity |].
  apply (base64_round_trip [77; 97]). reflexivity.
Defined.

(** [pcmToGeminiBlob_spec] for the samples 0.5, -1.0 and 1.0 on a
    little-endian platform. *)
Lemma pcmToGeminiBlob_spec_witness :
  option_map GenAI.data
    (pcmToGeminiBlob false [pcm_sample 16384; pcm_sample (-32768); of_Z 1])
  = Some (js "AEAAgACA")
  /\ pcm_int16 (pcm_sample 16384) = 16384.
Proof.
  split; [vm_compute; reflexivity |].
  destruct (pcmToGeminiBlob_spec false [pcm_sample 16384; pcm_sample (-32768); of_Z 1])
    as (_ & Hgrid & _).
  apply Hgrid. lia.
Defined.

(* ------------------------------------------------------------------ *)
(** * The chart of ticket types: what it shows *)
(* ------------------------------------------------------------------ *)

Lemma counts_own_set_same k v cs : counts_own k (counts_set k v cs) = Some v.
Proof.
  induction cs as [| [k' x] r IH]; cbn [counts_set counts_own].
  - rewrite str_eqb_refl. reflexivity.
  - destruct (str_eqb k' k) eqn:E; cbn [counts_own]; rewrite E; [reflexivity | exact IH].
Qed.

Lemma counts_own_set_other k k' v cs :
  str_eqb k k' = false -> counts_own k' (counts_set k v cs) = counts_own k' cs.
Proof.
  intros Hk. induction cs as [| [k0 x] r IH]; cbn [counts_set counts_own].
  - rewrite Hk. reflexivity.
  - destruct (str_eqb_spec k0 k) as [-> | Hne]; cbn [counts_own].
    + rewrite Hk. reflexivity.
    + rewrite IH. reflexivity.
Qed.

Lemma counts_set_keys k v cs k' :
  In k' (map fst (counts_set k v cs)) <-> k' = k \/ In k' (map fst cs).
Proof.
  induction cs as [| [k0 x] r IH]; cbn [counts_set map fst In].
  - intuition.
  - destruct (str_eqb_spec k0 k) as [-> | Hne]; cbn [map fst In].
    + intuition.
    + rewrite IH. intuition.
Qed.

Lemma counts_set_nodup k v cs : NoDup (map fst cs) -> NoDup (map fst (counts_set k v cs)).
Proof.
  induction cs as [| [k0 x] r IH]; cbn [counts_set map fst]; intros Hnd.
  - repeat constructor. intros [].
  - inversion Hnd as [| ? ? Hnot Hr]; subst.
    destruct (str_eqb_spec k0 k) as [-> | Hne]; cbn [map fst].
    + constructor; assumption.
    + constructor; [| exact (IH Hr)].
      rewrite counts_set_keys. intros [E | Hin]; [congruence | exact (Hnot Hin)].
Qed.

Lemma counts_own_In k v cs : counts_own k cs = Some v -> In (k, v) cs.
Proof.
  induction cs as [| [k0 x] r IH]; cbn [counts_own]; [discriminate |].
  destruct (str_eqb_spec k0 k) as [-> | _].
  - intros E. injection E as ->. left. reflexivity.
  - intros E. right. exact (IH E).
Qed.

Lemma In_counts_own k v cs : NoDup (map fst cs) -> In (k, v) cs -> counts_own k cs = Some v.
Proof.
  induction cs as [| [k0 x] r IH]; cbn [map fst counts_own]; intros Hnd Hin; [destruct Hin |].
  inversion Hnd as [| ? ? Hnot Hr]; subst. destruct Hin as [E | Hin].
  - injection E as -> ->. rewrite str_eqb_refl. reflexivity.
  - destruct (str_eqb_spec k0 k) as [-> | _]; [| exact (IH Hr Hin)].
    exfalso. apply Hnot. apply in_map_iff. exists (k, v). auto.
Qed.

Lemma type_count_app ty a b : type_count ty (a ++ b) = type_count ty a + type_count ty b.
Proof. unfold type_count. rewrite filter_app, length_app. lia. Qed.

Lemma type_count_bound ty ts : 0 <= type_count ty ts <= Z.of_nat (List.length ts).
Proof.
  unfold type_count. pose proof (filter_length_le (fun t => str_eqb (ticketTypeOf t) ty) ts).
  lia.
Qed.

Lemma truthy_of_Z n : 0 < n < 2 ^ 53 -> truthy_number (of_Z n) = true.
Proof.
  intros Hn. rewrite of_Z_pos by lia. cbn [truthy_number].
  pose proof (log2_le_52 n ltac:(lia) ltac:(lia)).
  pose proof (pow2_pos (52 - Z.log2 n) ltac:(lia)).
  destruct (Z.eqb_spec (n * 2 ^ (52 - Z.log2 n)) 0); [nia | reflexivity].
Qed.

Section TypeCountFacts.

Variable function_text : jsstring -> jsstring.
Variable engine_sort : list TypeChart.Slice -> list TypeChart.Slice.

Lemma countTicket_counted seen cs t :
  counted seen cs -> plain_type (ticketTypeOf t) = true ->
  Z.of_nat (List.length (seen ++ [t])) < 2 ^ 53 ->
  counted (seen ++ [t]) (countTicket function_text cs t).
Proof.
  intros (Hnd & Hown) Hplain Hlen. unfold plain_type in Hplain.
  apply andb_true_iff in Hplain. destruct Hplain as (Hp1 & Hp2).
  apply negb_true_iff in Hp1, Hp2.
  unfold countTicket. cbv zeta. rewrite Hp1.
  set (type := ticketTypeOf t) in *.
  assert (Hone : type_count type [t] = 1).
  { unfold type_count. cbn [filter]. fold type. rewrite str_eqb_refl. reflexivity. }
  pose proof (type_count_bound type seen) as Hb.
  rewrite length_app, Nat2Z.inj_add in Hlen. cbn [List.length] in Hlen.
  assert (Hnext : next_count function_text cs type
                  = CountNumber (of_Z (type_count type seen + 1))).
  { unfold next_count. rewrite (Hown type).
    destruct (Z.eqb_spec (type_count type seen) 0) as [E | E].
    - rewrite Hp1, Hp2, E. reflexivity.
    - rewrite truthy_of_Z by lia. f_equal.
      apply nadd_int; [apply of_Z_holds; lia | apply of_Z_holds; reflexivity | lia]. }
  rewrite Hnext. split; [apply counts_set_nodup; exact Hnd |].
  intros ty. rewrite type_count_app.
  destruct (str_eqb_spec type ty) as [<- | Hne].
  - rewrite counts_own_set_same, Hone.
    destruct (Z.eqb_spec (type_count type seen + 1) 0); [lia | reflexivity].
  - rewrite counts_own_set_other by (apply str_neqb; exact Hne).
    assert (Hz : type_count ty [t] = 0).
    { unfold type_count. cbn [filter]. fold type.
      rewrite (str_neqb _ _ Hne). reflexivity. }
    rewrite Hz, Z.add_0_r. apply Hown.
Qed.

Lemma fold_counted tickets : forall seen cs,
  counted seen cs ->
  Forall (fun t => plain_type (ticketTypeOf t) = true) tickets ->
  Z.of_nat (List.length (seen ++ tickets)) < 2 ^ 53 ->
  counted (seen ++ tickets) (fold_left (countTicket function_text) tickets cs).
Proof.
  induction tickets as [| t ts IH]; intros seen cs Hc Hall Hlen.
  - rewrite app_nil_r. exact Hc.
  - inversion Hall as [| ? ? Ht Hts]; subst. cbn [fold_left].
    replace (seen ++ t :: ts) with ((seen ++ [t]) ++ ts) in *
      by (rewrite <- app_assoc; reflexivity).
    apply IH; [| exact Hts | exact Hlen].
    apply countTicket_counted; [exact Hc | exact Ht |].
    rewrite length_app in Hlen. lia.
Qed.

End TypeCountFacts.

Lemma In_firstn_list {A} n (l : list A) x : In x (firstn n l) -> In x l.
Proof.
  intros H. rewrite <- (firstn_skipn n l). apply in_or_app. left. exact H.
Qed.

Lemma insert_index_perm kv l : Permutation (insert_index kv l) (kv :: l).
Proof.
  induction l as [| y r IH]; cbn [insert_index]; [reflexivity |].
  destruct (_ <? _); [reflexivity |].
  rewrite IH. apply perm_swap.
Qed.

Lemma filter_partition {A} (p : A -> bool) l :
  Permutation (filter p l ++ filter (fun x => negb (p x)) l) l.
Proof.
  induction l as [| x l IH]; [reflexivity |]. cbn [filter].
  destruct (p x); cbn [negb app].
  - constructor. exact IH.
  - symmetry. apply Permutation_cons_app. symmetry. exact IH.
Qed.

Lemma own_keys_perm cs : Permutation (own_keys cs) cs.
Proof.
  unfold own_keys.
  rewrite <- (filter_partition (fun kv => is_array_index (fst kv)) cs) at 3.
  apply Permutation_app_tail.
  induction (filter (fun kv => is_array_index (fst kv)) cs) as [| x l IH];
    [reflexivity |].
  cbn [fold_right]. rewrite insert_index_perm. constructor. exact IH.
Qed.

Lemma insert_slice_perm x l : Permutation (insert_slice x l) (x :: l).
Proof.
  induction l as [| y r IH]; cbn [insert_slice]; [reflexivity |].
  destruct (ngt _ _); [| reflexivity].
  rewrite IH. apply perm_swap.
Qed.

Lemma sort_numbers_perm l : Permutation (fold_right insert_slice [] l) l.
Proof.
  induction l as [| x l IH]; [reflexivity |]. cbn [fold_right].
  rewrite insert_slice_perm. constructor. exact IH.
Qed.

Section SortedSlices.

(** the count an entry stands for *)
Variable f : TypeChart.Slice -> Z.

Lemma compare_counts x y :
  counts_as f x -> counts_as f y ->
  ngt (nsub (slice_number y) (slice_number x)) zero = (f x <? f y).
Proof.
  intros (Ex & Hx) (Ey & Hy). unfold slice_number. rewrite Ex, Ey.
  rewrite nsub_of_Z by lia.
  rewrite (ngt_zero_int _ (f y - f x)) by (apply of_Z_holds; lia).
  destruct (Z.ltb_spec 0 (f y - f x)), (Z.ltb_spec (f x) (f y)); auto; lia.
Qed.

Lemma insert_slice_sorted x l :
  counts_as f x -> Forall (counts_as f) l ->
  StronglySorted (fun a b => f b <= f a) l ->
  StronglySorted (fun a b => f b <= f a) (insert_slice x l).
Proof.
  intros Hx Hl Hs. induction Hs as [| y l Hs IH Hy]; cbn [insert_slice].
  - constructor; constructor.
  - inversion Hl as [| ? ? Hcy Hcl]; subst.
    rewrite (compare_counts x y Hx Hcy).
    destruct (Z.ltb_spec (f x) (f y)).
    + constructor; [exact (IH Hcl) |].
      apply Forall_forall. intros z Hz.
      apply (Permutation_in _ (insert_slice_perm x l)) in Hz.
      destruct Hz as [<- | Hz]; [lia |].
      rewrite Forall_forall in Hy. exact (Hy z Hz).
    + constructor; [constructor; assumption |].
      constructor; [lia |].
      apply Forall_forall. intros z Hz. rewrite Forall_forall in Hy.
      specialize (Hy z Hz). cbv beta in Hy. lia.
Qed.

Lemma sort_numbers_sorted l :
  Forall (counts_as f) l ->
  StronglySorted (fun a b => f b <= f a) (fold_right insert_slice [] l).
Proof.
  induction 1 as [| x l Hx Hl IH]; cbn [fold_right]; [constructor |].
  apply insert_slice_sorted; [exact Hx | | exact IH].
  apply Forall_forall. intros z Hz.
  apply (Permutation_in _ (sort_numbers_perm l)) in Hz.
  rewrite Forall_forall in Hl. exact (Hl z Hz).
Qed.

Lemma sorted_split (l1 l2 : list TypeChart.Slice) :
  StronglySorted (fun a b => f b <= f a) (l1 ++ l2) ->
  StronglySorted (fun a b => f b <= f a) l1
  /\ forall a b, In a l1 -> In b l2 -> f b <= f a.
Proof.
  induction l1 as [| x l1 IH]; cbn [app]; intros Hs.
  - split; [constructor | intros a b []].
  - inversion Hs as [| ? ? Hs' Hall]; subst. destruct (IH Hs') as (H1 & H2).
    rewrite Forall_forall in Hall. split.
    + constructor; [exact H1 |]. apply Forall_forall. intros z Hz.
      apply Hall. apply in_or_app. left. exact Hz.
    + intros a b [<- | Ha] Hb; [| exact (H2 a b Ha Hb)].
      apply Hall. apply in_or_app. right. exact Hb.
Qed.

End SortedSlices.

(** The chart of ticket types, for tickets none of whose types is a name
    a plain object inherits.  It shows at most ten types, each once,
    with the number of tickets of the type, in descending order of that
    number; a type it leaves out has no more tickets than any type it
    shows. *)
Theorem ticketByType_spec function_text engine_sort (tickets : list Ticket) :
  Forall (fun t => plain_type (ticketTypeOf t) = true) tickets ->
  Z.of_nat (List.length tickets) < 2 ^ 53 ->
  let chart := ticketByType function_text engine_sort tickets in
  let shown s := type_count (TypeChart.name s) tickets in
  NoDup (map TypeChart.name chart)
  /\ (List.length chart <= 10)%nat
  /\ Forall (fun s => TypeChart.value s = CountNumber (of_Z (shown s)) /\ 0 < shown s)
            chart
  /\ StronglySorted (fun a b => shown b <= shown a) chart
  /\ forall t, In t tickets ->
       In (ticketTypeOf t) (map TypeChart.name chart)
       \/ (List.length chart = 10%nat
           /\ Forall (fun s => type_count (ticketTypeOf t) tickets <= shown s) chart).
Proof.
  intros Hplain Hlen. cbv zeta. unfold ticketByType. cbv zeta.
  set (cs := fold_left (countTicket function_text) tickets []).
  set (f := fun s => type_count (TypeChart.name s) tickets).
  assert (Hc : counted tickets cs).
  { apply (fold_counted function_text tickets [] []); [| exact Hplain | exact Hlen].
    split; [constructor |]. intros ty. reflexivity. }
  destruct Hc as (Hnd & Hown).
  set (entries := map (fun kv => {| TypeChart.name := fst kv; TypeChart.value := snd kv |})
                      (own_keys cs)).
  assert (Hperm : Permutation entries
                    (map (fun kv => {| TypeChart.name := fst kv;
                                       TypeChart.value := snd kv |}) cs)).
  { apply Permutation_map. apply own_keys_perm. }
  assert (Hentry : forall s, In s entries ->
                     TypeChart.value s = CountNumber (of_Z (f s)) /\ 0 < f s).
  { intros s Hs. apply (Permutation_in _ Hperm) in Hs. apply in_map_iff in Hs.
    destruct Hs as ([k v] & <- & Hin). cbn [fst snd]. unfold f. cbn [TypeChart.name].
    pose proof (In_counts_own k v cs Hnd Hin) as E. rewrite Hown in E.
    pose proof (type_count_bound k tickets).
    destruct (Z.eqb_spec (type_count k tickets) 0); [discriminate |].
    injection E as <-. split; [reflexivity | lia]. }
  assert (Hcounts : Forall (counts_as f) entries).
  { apply Forall_forall. intros s Hs. destruct (Hentry s Hs) as (E & Hpos).
    split; [exact E |]. unfold f. pose proof (type_count_bound (TypeChart.name s) tickets).
    lia. }
  assert (Hnum : forallb (fun s => match TypeChart.value s with
                                   | CountNumber _ => true
                                   | CountText _ => false
                                   end) entries = true).
  { apply forallb_forall. intros s Hs. destruct (Hentry s Hs) as (-> & _). reflexivity. }
  unfold sort_slices. rewrite Hnum.
  set (sorted := fold_right insert_slice [] entries).
  assert (Hsp : Permutation sorted entries) by apply sort_numbers_perm.
  assert (Hss : StronglySorted (fun a b => f b <= f a) sorted)
    by (apply sort_numbers_sorted; exact Hcounts).
  assert (Hnames : NoDup (map TypeChart.name sorted)).
  { apply (Permutation_NoDup (l := map fst cs)); [| exact Hnd].
    symmetry. rewrite Hsp, Hperm. rewrite map_map. cbn [TypeChart.name]. reflexivity. }
  rewrite <- (firstn_skipn 10 sorted) in Hss, Hnames.
  destruct (sorted_split f _ _ Hss) as (Hs1 & Hs2).
  split; [| split; [| split; [| split]]].
  - rewrite map_app in Hnames. exact (NoDup_app_remove_r _ _ Hnames).
  - rewrite length_firstn. lia.
  - apply Forall_forall. intros s Hs. apply Hentry.
    apply (Permutation_in _ Hsp). exact (In_firstn_list _ _ _ Hs).
  - exact Hs1.
  - intros t Ht. set (type := ticketTypeOf t).
    assert (Hpos : type_count type tickets <> 0).
    { unfold type_count.
      assert (Hin : In t (filter (fun t0 => str_eqb (ticketTypeOf t0) type) tickets)).
      { apply filter_In. split; [exact Ht | apply str_eqb_refl]. }
      destruct (filter _ tickets); [destruct Hin | cbn [List.length]; lia]. }
    pose proof (Hown type) as E.
    destruct (Z.eqb_spec (type_count type tickets) 0); [contradiction |].
    apply counts_own_In in E.
    set (s0 := {| TypeChart.name := type;
                  TypeChart.value := CountNumber (of_Z (type_count type tickets)) |}).
    assert (Hs0 : In s0 sorted).
    { apply (Permutation_in _ (Permutation_sym Hsp)).
      apply (Permutation_in _ (Permutation_sym Hperm)).
      apply in_map_iff. exists (type, CountNumber (of_Z (type_count type tickets))).
      split; [reflexivity | exact E]. }
    rewrite <- (firstn_skipn 10 sorted) in Hs0. apply in_app_or in Hs0.
    destruct Hs0 as [Hfirst | Hrest].
    + left. apply in_map_iff. exists s0. split; [reflexivity | exact Hfirst].
    + right. split.
      * rewrite length_firstn.
        assert (Hlong : (10 < List.length sorted)%nat).
        { destruct (Nat.le_gt_cases (List.length sorted) 10) as [Hle | Hgt];
            [| exact Hgt].
          rewrite (skipn_all2 sorted Hle) in Hrest. destruct Hrest. }
        lia.
      * apply Forall_forall. intros s Hs.
        exact (Hs2 s s0 Hs Hrest).
Qed.

(** [ticketByType_spec] for two tickets of one type (written with and
    without a space), one without a type and one of a type named by an
    array index. *)
Lemma ticketByType_spec_witness :
  let tickets := [ticket_typed "SFDC"; ticket_typed ""; ticket_typed " SFDC";
                  ticket_typed "7"] in
  let chart := ticketByType v8_function_text (fun l => l) tickets in
  chart = [ {| TypeChart.name := js "SFDC"; TypeChart.value := CountNumber (of_Z 2) |};
            {| TypeChart.name := js "7"; TypeChart.value := CountNumber (of_Z 1) |};
            {| TypeChart.name := js "Unspecified";
               TypeChart.value := CountNumber (of_Z 1) |} ]
  /\ NoDup (map TypeChart.name chart)
  /\ (List.length chart <= 10)%nat.
Proof.
  cbv zeta. split; [vm_compute; reflexivity |].
  destruct (ticketByType_spec v8_function_text (fun l => l)
              [ticket_typed "SFDC"; ticket_typed ""; ticket_typed " SFDC";
               ticket_typed "7"]) as (H1 & H2 & _).
  - repeat constructor.
  - vm_compute. reflexivity.
  - split; assumption.
Defined.

(* ------------------------------------------------------------------ *)
(** * The totals of the agent rollup *)
(* ------------------------------------------------------------------ *)

Lemma zsum_app a b : zsum (a ++ b) = zsum a + zsum b.
Proof. unfold zsum. induction a as [| x a IH]; cbn [app fold_right]; lia. Qed.

Lemma zsum_perm a b : Permutation a b -> zsum a = zsum b.
Proof.
  unfold zsum. induction 1; cbn [fold_right]; lia.
Qed.

(** each entry of a list of pairs is counted under one key of a list of
    distinct keys that has its key *)
Lemma count_by_key {B} (l : list (jsstring * B)) (p : B -> bool) : forall ks,
  NoDup ks -> (forall kv, In kv l -> In (fst kv) ks) ->
  zsum (map (fun k => Z.of_nat (List.length
                        (filter p (map snd (filter (fun o => str_eqb (fst o) k) l)))))
            ks)
  = Z.of_nat (List.length (filter p (map snd l))).
Proof.
  induction l as [| [k0 b] l IH]; intros ks Hnd Hin.
  - clear Hnd Hin. induction ks as [| k ks IHk]; [reflexivity |].
    cbn [map]. change (zsum (?x :: ?r)) with (x + zsum r). rewrite IHk. reflexivity.
  - specialize (IH ks Hnd (fun kv H => Hin kv (or_intror H))).
    assert (Hk0 : In k0 ks) by (apply (Hin (k0, b)); left; reflexivity).
    apply in_split in Hk0. destruct Hk0 as (k1 & k2 & ->).
    assert (Hnot : ~ In k0 (k1 ++ k2)) by (apply NoDup_remove_2; exact Hnd).
    assert (Hother : forall ks', ~ In k0 ks' ->
      map (fun k => Z.of_nat (List.length
             (filter p (map snd (filter (fun o => str_eqb (fst o) k) ((k0, b) :: l))))))
          ks'
      = map (fun k => Z.of_nat (List.length
               (filter p (map snd (filter (fun o => str_eqb (fst o) k) l)))))
            ks').
    { intros ks' Hn. apply map_ext_in. intros k Hk. cbn [filter fst].
      destruct (str_eqb_spec k0 k) as [-> | _]; [contradiction | reflexivity]. }
    rewrite map_app, zsum_app in *. cbn [map] in *.
    rewrite (Hother k1) by (intros H; apply Hnot; apply in_or_app; left; exact H).
    change (zsum (?x :: ?r)) with (x + zsum r) in *.
    rewrite (Hother k2) by (intros H; apply Hnot; apply in_or_app; right; exact H).
    cbn [filter fst map snd]. rewrite str_eqb_refl. cbn [map snd filter].
    destruct (p b); cbn [List.length]; lia.
Qed.

Lemma filter_const_map {A} (p : Ticket -> bool) (t : Ticket) (l : list A) :
  filter p (map (fun _ => t) l) = if p t then map (fun _ => t) l else [].
Proof.
  induction l as [| a l IH]; [destruct (p t); reflexivity |].
  cbn [map filter]. rewrite IH. destruct (p t); reflexivity.
Qed.

Lemma occurrences_length tickets (p : Ticket -> bool) :
  Z.of_nat (List.length (filter p (map snd (occurrences tickets))))
  = zsum (map visits_of (filter p tickets)).
Proof.
  unfold occurrences. induction tickets as [| t ts IH]; [reflexivity |].
  cbn [flat_map]. rewrite map_app, filter_app, length_app, Nat2Z.inj_add, IH.
  rewrite map_map. cbn [snd]. rewrite filter_const_map. cbn [filter].
  destruct (p t).
  - cbn [map]. change (zsum (?x :: ?r)) with (x + zsum r).
    rewrite length_map. unfold visits_of. reflexivity.
  - reflexivity.
Qed.

(** The totals of the rollup count visits, not tickets: the ticket
    counts of the agents add up to the number of assignees, blank ones
    apart, over all tickets, and their active counts to the same number
    over the tickets that are not closed.  A ticket with two assignees
    is counted twice, a ticket without assignee not at all. *)
Theorem rollup_totals tickets :
  zsum (map totalTickets (calculateAgentMetrics tickets)) = zsum (map visits_of tickets)
  /\ zsum (map activeTickets (calculateAgentMetrics tickets))
     = zsum (map visits_of (filter (fun t => negb (is_closed t)) tickets)).
Proof.
  pose proof (calculateAgentMetrics_perm tickets) as Hp.
  destruct (agentMap_spec tickets) as (Hnd & Hk & Hv).
  assert (Hm : map toMetrics (agentMap tickets)
               = map (fun k => metricsOf k tickets) (map fst (agentMap tickets))).
  { rewrite map_map. apply map_ext_in. intros [k v] Hin.
    rewrite (Hv k v Hin). apply toMetrics_visits. }
  assert (Hcover : forall kv, In kv (occurrences tickets)
                              -> In (fst kv) (map fst (agentMap tickets))).
  { intros kv Hin. apply Hk. apply in_map. exact Hin. }
  split.
  - rewrite (zsum_perm _ _ (Permutation_map totalTickets Hp)), Hm, map_map.
    cbn [metricsOf totalTickets]. unfold ticketsOf.
    pose proof (count_by_key (occurrences tickets) (fun _ => true)
                  (map fst (agentMap tickets)) Hnd Hcover) as E.
    rewrite (occurrences_length tickets (fun _ => true)) in E.
    rewrite (filter_all (fun _ => true) tickets) in E by reflexivity.
    rewrite <- E. f_equal. apply map_ext. intros k.
    rewrite (filter_all (fun _ : Ticket => true)) by reflexivity. reflexivity.
  - rewrite (zsum_perm _ _ (Permutation_map activeTickets Hp)), Hm, map_map.
    cbn [metricsOf activeTickets]. unfold ticketsOf.
    rewrite <- (occurrences_length tickets (fun t => negb (is_closed t))).
    apply (count_by_key (occurrences tickets) (fun t => negb (is_closed t))
             (map fst (agentMap tickets)) Hnd Hcover).
Qed.
